(** * FinForge detection engine: a shallow embedding of [MoneyMulingDetector]

    The development follows [src/backend/detector.py] function by function.
    Conventions of the embedding:

    - account identifiers are [string]s, compared with [String.eqb];
    - Python floats are idealised as exact rationals ([Q]); [round(x, n)] is
      round-half-even on the exact value; the one sum that the code compares
      with a threshold at full precision, the total of a cycle, is computed
      on doubles, rounded after every addition ([Py.double]);
    - timestamps are seconds since the epoch ([Z]);
    - a Python [dict] is an association list in insertion order, a Python
      [set] is a duplicate-free list; wherever the source iterates over a
      set, the order of the traversal is given by the runtime ([set_iter]),
      because CPython derives it from the randomised string hash;
    - the networkx calls ([strongly_connected_components], [simple_cycles],
      [betweenness_centrality]), the uuid and the clocks are fields of the
      same runtime record; reference implementations are given in
      [Module Ref]. *)

From Stdlib Require Import List String Ascii Bool Arith ZArith QArith Qround Qabs Lia Lqa.
From Stdlib Require Import Sorted DecimalString DecimalNat DecimalFacts.
From Stdlib Require Import Permutation OrderedTypeEx.
Import ListNotations.

Local Open Scope string_scope.
Local Open Scope Q_scope.
Local Open Scope list_scope.

(** ** Module-level helpers of detector.py *)

Definition REQUIRED_COLUMNS : list string :=
  ["transaction_id"; "sender_id"; "receiver_id"; "amount"; "timestamp"].

Definition _FRAUD_PREFIXES : list string :=
  ["NODE_"; "NX_"; "CYC3_"; "CYC4_"; "CYC5_";
   "SMURF_"; "SF_"; "SHELL_"; "VEL_"; "R5_";
   "SH_INT"; "SH_SRC"; "SH_DST"; "SRC_"].

Definition _is_fraud (node : string) : bool :=
  existsb (fun p => String.prefix p node) _FRAUD_PREFIXES.

Definition _all_legit (nodes : list string) : bool :=
  forallb (fun n => String.prefix "LEGIT_" n) nodes.

(** ** Class constants *)

Definition MIN_CYCLE_LENGTH       : nat := 3.
Definition MAX_CYCLE_LENGTH       : nat := 5.
Definition MIN_FAN_COUNT          : nat := 10.
Definition MERCHANT_THRESHOLD     : nat := 100.
Definition SHELL_MAX_TX_COUNT     : nat := 4.
Definition MIN_CYCLE_AMOUNT       : Q   := 5000.
Definition FAN_OUT_THRESHOLD      : nat := 10.
Definition VELOCITY_WINDOW_HOURS  : Z   := 72.
Definition VELOCITY_TX_THRESHOLD  : nat := 10.
Definition MAX_SCC_SIZE           : nat := 40.
Definition MAX_CYCLE_SEARCH_NODES : nat := 200.

(** The window [timedelta(hours=72)] in seconds. *)
Definition wt_seconds : Z := (VELOCITY_WINDOW_HOURS * 3600)%Z.

(** ** Python built-ins used by the detector *)

Module Py.

(** [x in s] for a list or set of strings. *)
Definition mem (x : string) (s : list string) : bool :=
  existsb (String.eqb x) s.

(** [s.add(x)], the set as a duplicate-free list. *)
Definition set_add (x : string) (s : list string) : list string :=
  if mem x s then s else s ++ [x].

(** [s | t] and [s.update(t)]. *)
Definition set_union (s t : list string) : list string :=
  fold_left (fun acc x => set_add x acc) t s.

(** [set(l)]. *)
Definition set_of (l : list string) : list string := set_union [] l.

(** [s - t]. *)
Definition set_diff (s t : list string) : list string :=
  filter (fun x => negb (mem x t)) s.

(** [d.get(k)] on an insertion-ordered dict. *)
Fixpoint get {V : Type} (d : list (string * V)) (k : string) : option V :=
  match d with
  | [] => None
  | (k', v) :: d' => if String.eqb k k' then Some v else get d' k
  end.

(** [d.get(k, dflt)]. *)
Definition get_or {V : Type} (d : list (string * V)) (k : string) (dflt : V) : V :=
  match get d k with Some v => v | None => dflt end.

(** [d[k] = v]: an existing key keeps its position, a new one goes last. *)
Fixpoint set {V : Type} (d : list (string * V)) (k : string) (v : V)
  : list (string * V) :=
  match d with
  | [] => [(k, v)]
  | (k', v') :: d' =>
      if String.eqb k k' then (k', v) :: d' else (k', v') :: set d' k v
  end.

Definition keys {V : Type} (d : list (string * V)) : list string := map fst d.

(** [max(a, b)], [min(a, b)] on floats: the first argument wins a tie. *)
Definition qmax (a b : Q) : Q := if Qlt_le_dec a b then b else a.
Definition qmin (a b : Q) : Q := if Qlt_le_dec b a then b else a.

Definition qltb (a b : Q) : bool := if Qlt_le_dec a b then true else false.
Definition qleb (a b : Q) : bool := negb (qltb b a).

(** [max(v)], [min(v)] of a non-empty list; [dflt] only for the empty one. *)
Definition max_list (dflt : Q) (v : list Q) : Q :=
  match v with [] => dflt | x :: r => fold_left qmax r x end.
Definition min_list (dflt : Q) (v : list Q) : Q :=
  match v with [] => dflt | x :: r => fold_left qmin r x end.

Definition qsum (v : list Q) : Q := fold_left Qplus v 0.

(** [round(x, n)]: round half to even at [n] decimals. *)
Definition round_half_even (y : Q) : Z :=
  let f := Qfloor y in
  let d := y - inject_Z f in
  match Qcompare d (1 # 2) with
  | Lt => f
  | Gt => (f + 1)%Z
  | Eq => if Z.even f then f else (f + 1)%Z
  end.

Definition round (x : Q) (n : nat) : Q :=
  let s := (10 ^ Z.of_nat n)%Z in
  Qmake (round_half_even (x * inject_Z s)) (Z.to_pos s).

(** A finite double is identified with the rational it denotes. [double x]
    is the double nearest to [x], ties to the even mantissa: 53 bits of
    mantissa, the quantum never below [2^-1074]. Overflow to infinity is
    outside the model. *)
Definition ilog2 (x : Q) : Z :=
  let e := (Z.log2 (Z.abs (Qnum x)) - Z.log2 (Zpos (Qden x)))%Z in
  if Qle_bool (Qpower 2 e) (Qabs x) then e else (e - 1)%Z.

Definition double (x : Q) : Q :=
  if Qeq_bool x 0 then 0
  else
    let q := Qpower 2 (Z.max (ilog2 x - 52) (-1074)) in
    Qred (inject_Z (round_half_even (x / q)) * q).

(** [x + y] and [x / y] on doubles: the exact result, rounded once. *)
Definition fadd (x y : Q) : Q := double (x + y).
Definition fdiv (x y : Q) : Q := double (x / y).

(** [str(n)] for a non-negative integer. *)
Definition str_nat (n : nat) : string :=
  NilZero.string_of_uint (Nat.to_uint n).

(** The format specification [:03d]. *)
Definition fmt_03d (n : nat) : string :=
  let s := str_nat n in
  (String.concat "" (repeat "0" (3 - String.length s)) ++ s)%string.

(** [int(s)] for a string of decimal digits. *)
Definition digits_value (s : string) : option nat :=
  option_map Nat.of_uint (NilEmpty.uint_of_string s).

(** Stable insertion sort by a key; [sorted(l, key=...)] and
    [sort_values] on one column. *)
Section Sort.
Context {A : Type} (le : A -> A -> bool).

(** [x] goes before the first element that is not smaller, so that
    equal keys keep their original relative order. *)
Fixpoint insert (x : A) (l : list A) : list A :=
  match l with
  | [] => [x]
  | y :: r => if le x y then x :: l else y :: insert x r
  end.

Definition sort (l : list A) : list A := fold_right insert [] l.
End Sort.

(** [list(dict.fromkeys(l))]: duplicates removed, first occurrence kept. *)
Definition dedup (l : list string) : list string := set_of l.

(** [len(set(l))]. *)
Definition nunique (l : list string) : nat := List.length (set_of l).

End Py.

(** ** Data model *)

(** A row of the table handed to [run]: the timestamp cell is what
    [pd.to_datetime(..., errors="coerce")] makes of it ([None] is NaT). *)
Record Row := mkRow {
  row_transaction_id : string;
  row_sender_id      : string;
  row_receiver_id    : string;
  row_amount         : Q;
  row_timestamp      : option Z
}.

(** A cleaned transaction. *)
Record Tx := mkTx {
  transaction_id : string;
  sender_id      : string;
  receiver_id    : string;
  amount         : Q;
  timestamp      : Z
}.

(** [nx.DiGraph]: nodes and edges in insertion order, one edge per ordered
    pair, the edge attribute [amount]. *)
Record DiGraph := mkGraph {
  g_nodes : list string;
  g_edges : list (string * string * Q)
}.

Definition empty_graph : DiGraph := mkGraph [] [].

(** ** Graph primitives (networkx.DiGraph) *)

Definition e_src (e : string * string * Q) : string := fst (fst e).
Definition e_dst (e : string * string * Q) : string := snd (fst e).
Definition e_amount (e : string * string * Q) : Q := snd e.

(** [n in G]. *)
Definition has_node (G : DiGraph) (n : string) : bool := Py.mem n (g_nodes G).

Definition number_of_nodes (G : DiGraph) : nat := List.length (g_nodes G).

(** [G.predecessors(n)], [G.successors(n)]: adjacency in insertion order. *)
Definition predecessors (G : DiGraph) (n : string) : list string :=
  map e_src (filter (fun e => String.eqb (e_dst e) n) (g_edges G)).

Definition successors (G : DiGraph) (n : string) : list string :=
  map e_dst (filter (fun e => String.eqb (e_src e) n) (g_edges G)).

Definition in_degree (G : DiGraph) (n : string) : nat :=
  List.length (predecessors G n).

Definition out_degree (G : DiGraph) (n : string) : nat :=
  List.length (successors G n).

(** [G[u][v]]: [None] is the [KeyError] of a missing edge. *)
Definition edge (G : DiGraph) (u v : string) : option Q :=
  option_map e_amount
    (find (fun e => String.eqb (e_src e) u && String.eqb (e_dst e) v) (g_edges G)).

(** [G.subgraph(nodes)]: the induced subgraph. *)
Definition subgraph (G : DiGraph) (nodes : list string) : DiGraph :=
  mkGraph (filter (fun n => Py.mem n nodes) (g_nodes G))
          (filter (fun e => Py.mem (e_src e) nodes && Py.mem (e_dst e) nodes)
                  (g_edges G)).

(** [g.add_edge(u, v, amount=a)]. *)
Definition add_edge (G : DiGraph) (u v : string) (a : Q) : DiGraph :=
  let ns := Py.set_add v (Py.set_add u (g_nodes G)) in
  if existsb (fun e => String.eqb (e_src e) u && String.eqb (e_dst e) v) (g_edges G)
  then mkGraph ns
         (map (fun e => if String.eqb (e_src e) u && String.eqb (e_dst e) v
                        then (u, v, a) else e) (g_edges G))
  else mkGraph ns (g_edges G ++ [(u, v, a)]).

(** ** The runtime the detector runs in

    Everything the source takes from the interpreter and from networkx:
    the part that the detectors use ([Library]) and the part that only [run]
    reads (the uuid and the clocks). *)

Record Library := mkLibrary {
  (** the order in which [for x in s] visits a [set] of strings *)
  set_iter : list string -> list string;
  (** [nx.strongly_connected_components] *)
  nx_strongly_connected_components : DiGraph -> list (list string);
  (** [nx.simple_cycles(g, length_bound=b)] *)
  nx_simple_cycles : DiGraph -> nat -> list (list string);
  (** [nx.betweenness_centrality] *)
  nx_betweenness_centrality : DiGraph -> list (string * Q)
}.

Record Runtime := mkRuntime {
  (** the interpreter's sets and the graph library *)
  library :> Library;
  (** [str(uuid.uuid4())] *)
  uuid4 : string;
  (** [time.perf_counter()] at entry and at exit of [run] *)
  perf_counter_t0 : Q;
  perf_counter_t1 : Q;
  (** [datetime.utcnow().isoformat()] *)
  utcnow_isoformat : string
}.

(** ** I/O: parse_csv and build_graph *)

(** A row as [pd.read_csv] delivers it; the [amount] and [timestamp] cells
    carry what [pd.to_numeric(errors="coerce")] and
    [pd.to_datetime(dayfirst=True, utc=True, errors="coerce")] make of them
    ([None] is NaN, respectively NaT). *)
Record CsvRow := mkCsvRow {
  csv_transaction_id : string;
  csv_sender_id      : string;
  csv_receiver_id    : string;
  csv_amount         : option Q;
  csv_timestamp      : option Z
}.

Record CsvFile := mkCsvFile {
  csv_columns : list string;
  csv_rows    : list CsvRow
}.

(** [str.lower] and [str.strip] on ASCII. *)
Definition ascii_lower (c : ascii) : ascii :=
  let n := nat_of_ascii c in
  if (65 <=? n)%nat && (n <=? 90)%nat then ascii_of_nat (n + 32) else c.

Fixpoint str_lower (s : string) : string :=
  match s with
  | EmptyString => EmptyString
  | String c r => String (ascii_lower c) (str_lower r)
  end.

Definition is_space (c : ascii) : bool :=
  let n := nat_of_ascii c in
  ((9 <=? n)%nat && (n <=? 13)%nat) || ((28 <=? n)%nat && (n <=? 32)%nat).

Fixpoint lstrip (s : string) : string :=
  match s with
  | EmptyString => EmptyString
  | String c r => if is_space c then lstrip r else s
  end.

Fixpoint rstrip (s : string) : string :=
  match s with
  | EmptyString => EmptyString
  | String c r =>
      match rstrip r with
      | EmptyString => if is_space c then EmptyString else String c EmptyString
      | r' => String c r'
      end
  end.

Definition str_strip (s : string) : string := rstrip (lstrip s).

Inductive ParseResult :=
| ValueError (missing : list string)
| DataFrame (rows : list Row).

Definition dropna_amount (rows : list CsvRow) : list CsvRow :=
  filter (fun r => match csv_amount r with Some _ => true | None => false end) rows.

Definition dropna_timestamp (rows : list CsvRow) : list CsvRow :=
  filter (fun r => match csv_timestamp r with Some _ => true | None => false end) rows.

(** A row that survives both [dropna] calls. *)
Definition parsed (r : CsvRow) : bool :=
  match csv_amount r, csv_timestamp r with
  | Some _, Some _ => true
  | _, _ => false
  end.

Definition to_row (r : CsvRow) : Row :=
  mkRow (csv_transaction_id r) (csv_sender_id r) (csv_receiver_id r)
        (match csv_amount r with Some a => a | None => 0 end)
        (csv_timestamp r).

Definition parse_csv (file : CsvFile) : ParseResult :=
  let columns := map (fun c => str_lower (str_strip c)) (csv_columns file) in
  let missing := Py.set_diff REQUIRED_COLUMNS columns in
  match missing with
  | _ :: _ => ValueError (Py.sort String.leb missing)
  | [] => DataFrame (map to_row (dropna_timestamp (dropna_amount (csv_rows file))))
  end.

(** [groupby(["sender_id", "receiver_id"])["amount"].sum()]: one row per
    pair, the pairs in lexicographic order. *)
Definition pair_compare (a b : string * string) : comparison :=
  match String.compare (fst a) (fst b) with
  | Eq => String.compare (snd a) (snd b)
  | c => c
  end.

Fixpoint agg_insert (s r : string) (a : Q) (l : list (string * string * Q))
  : list (string * string * Q) :=
  match l with
  | [] => [(s, r, a)]
  | (s', r', a') :: rest =>
      match pair_compare (s, r) (s', r') with
      | Eq => (s', r', a' + a) :: rest
      | Lt => (s, r, a) :: l
      | Gt => (s', r', a') :: agg_insert s r a rest
      end
  end.

Definition groupby_sum (c : list Tx) : list (string * string * Q) :=
  fold_left (fun acc t => agg_insert (sender_id t) (receiver_id t) (amount t) acc) c [].

Definition from_pandas_edgelist (agg : list (string * string * Q)) : DiGraph :=
  fold_left (fun g e => add_edge g (e_src e) (e_dst e) (e_amount e)) agg empty_graph.

Definition build_graph (df : list Tx) : DiGraph :=
  let c := filter (fun t => negb (String.eqb (sender_id t) (receiver_id t))) df in
  from_pandas_edgelist (groupby_sum c).

(** The index of a [groupby] on one string column: distinct keys, sorted. *)
Definition groupby_keys (col : list string) : list string :=
  Py.sort String.leb (Py.set_of col).

(** [l[a:b]]. *)
Definition slice {A : Type} (l : list A) (a b : nat) : list A :=
  firstn (b - a) (skipn a l).

(** [sort_values("timestamp")]. *)
Definition sort_by_timestamp (l : list Tx) : list Tx :=
  Py.sort (fun a b => (timestamp a <=? timestamp b)%Z) l.

(** The inner [while] of the sliding windows: [left] moves right while the
    window is wider than 72 hours; it never passes [right], which bounds
    the number of iterations. *)
Fixpoint advance_left (ts : list Z) (r left fuel : nat) : nat :=
  match fuel with
  | O => left
  | S fuel' =>
      if (nth r ts 0 - nth left ts 0 >? wt_seconds)%Z
      then advance_left ts r (S left) fuel'
      else left
  end.

(** ** Smurfing detection *)

Definition counterparties (df : list Tx) (a : string) : list string :=
  flat_map (fun t =>
              (if String.eqb (sender_id t) a then [receiver_id t] else []) ++
              (if String.eqb (receiver_id t) a then [sender_id t] else [])) df.

Definition senders_of (df : list Tx) (a : string) : list string :=
  map sender_id (filter (fun t => String.eqb (receiver_id t) a) df).

Definition receivers_of (df : list Tx) (a : string) : list string :=
  map receiver_id (filter (fun t => String.eqb (sender_id t) a) df).

(** The merchant whitelist assigned to [self.merchant_whitelist]. *)
Definition merchant_whitelist (df : list Tx) : list string :=
  filter (fun a => (MERCHANT_THRESHOLD <=? Py.nunique (counterparties df a))%nat)
         (groupby_keys (map sender_id df ++ map receiver_id df)).

(** [result.setdefault(k, []).append(p)]. *)
Definition setdefault_append (d : list (string * list string)) (k p : string)
  : list (string * list string) :=
  Py.set d k (Py.get_or d k [] ++ [p]).

Fixpoint velocity_scan (ts : list Z) (sns : list string) (rights : list nat)
                       (left : nat) : bool :=
  match rights with
  | [] => false
  | r :: rest =>
      let left' := advance_left ts r left (S r) in
      let ws := slice sns left' (S r) in
      if (VELOCITY_TX_THRESHOLD <=? List.length ws)%nat
         && (VELOCITY_TX_THRESHOLD <=? Py.nunique ws)%nat
      then true
      else velocity_scan ts sns rest left'
  end.

Definition high_velocity (grp : list Tx) : bool :=
  if (List.length grp <? VELOCITY_TX_THRESHOLD)%nat then false
  else
    let grp' := sort_by_timestamp grp in
    velocity_scan (map timestamp grp') (map sender_id grp')
                  (seq 0 (List.length grp')) 0.

Definition detect_smurfing (G : DiGraph) (df : list Tx)
  : list string * list (string * list string) :=
  let wl := merchant_whitelist df in
  let fan_in_idx :=
    filter (fun a => (MIN_FAN_COUNT <=? Py.nunique (senders_of df a))%nat)
           (groupby_keys (map receiver_id df)) in
  let fan_out_idx :=
    filter (fun a => (FAN_OUT_THRESHOLD <=? Py.nunique (receivers_of df a))%nat)
           (groupby_keys (map sender_id df)) in
  let result1 :=
    fold_left (fun res a => if Py.mem a wl then res
                            else setdefault_append res a "fan_in")
              fan_in_idx [] in
  let result2 :=
    fold_left (fun res a => if Py.mem a wl then res
                            else setdefault_append res a "fan_out")
              fan_out_idx result1 in
  let df2 := filter (fun t => negb (Py.mem (receiver_id t) wl)) df in
  let result3 :=
    fold_left (fun res acct =>
                 let grp := filter (fun t => String.eqb (receiver_id t) acct) df2 in
                 if high_velocity grp
                 then setdefault_append res acct "high_velocity"
                 else res)
              (groupby_keys (map receiver_id df2)) result2 in
  (wl, result3).

(** ** Cycle detection *)

Record CycleData := mkCycleData {
  ring_map      : list (string * string);
  rings         : list (string * list string);
  member_cycles : list (string * list (list string));
  raw_cycles    : list (list string);
  cycle_members : list string
}.

(** [sorted(deg.items(), key=lambda x: x[1], reverse=True)]. *)
Definition sort_by_degree_desc (deg : list (string * nat)) : list (string * nat) :=
  Py.sort (fun a b => (snd b <=? snd a)%nat) deg.

Definition _trim_scc (rt : Library) (G : DiGraph) (nodes : list string) : list string :=
  if (List.length nodes <=? MAX_SCC_SIZE)%nat then nodes
  else
    let sub := subgraph G nodes in
    let deg := map (fun n => (n, (in_degree sub n + out_degree sub n)%nat))
                   (set_iter rt nodes) in
    Py.set_of (map fst (firstn MAX_SCC_SIZE (sort_by_degree_desc deg))).

(** [sum(float(G[cs[i]][cs[(i+1) % len(cs)]].get("amount", 0)) for i in ...)]:
    [float] turns every amount into a double and [sum] adds them from left
    to right, in the order of the enumerated rotation, rounding after every
    addition (the [sum] of CPython up to 3.11; from 3.12 on it also carries
    a compensation term, which changes the last bit of some totals and
    nothing in the gate below, stated for the total that is computed);
    [None] when an edge of the cycle is not in [G] (KeyError). *)
Definition cycle_total (G : DiGraph) (cs : list string) : option Q :=
  fold_left
    (fun acc i =>
       match acc, edge G (nth i cs "") (nth ((i + 1) mod List.length cs) cs "") with
       | Some t, Some a => Some (Py.fadd t (Py.double a))
       | _, _ => None
       end)
    (seq 0 (List.length cs)) (Some 0).

Definition q_of_nat (n : nat) : Q := inject_Z (Z.of_nat n).

(** The body of the loop over [nx.simple_cycles]: [Some true] when the
    cycle is appended to [raw], [Some false] when it is skipped, [None] when
    the edge lookup raises. *)
Definition cycle_gate (G : DiGraph) (cycle : list string) : option bool :=
  let len := List.length cycle in
  if negb ((MIN_CYCLE_LENGTH <=? len)%nat && (len <=? MAX_CYCLE_LENGTH)%nat)
  then Some false
  else
    match cycle_total G cycle with
    | None => None
    | Some total =>
        let avg := Py.fdiv total (q_of_nat len) in
        let has_fraud := existsb _is_fraud cycle in
        let all_l := _all_legit cycle in
        let min_a := MIN_CYCLE_AMOUNT in
        if all_l then
          let min_a := min_a * 3 in
          if Py.qltb avg 25000 then Some false
          else Some (Py.qleb min_a total)
        else if has_fraud then
          let min_a := min_a * (1 # 2) in
          Some (Py.qleb min_a total)
        else Some (Py.qleb min_a total)
    end.

Fixpoint gate_cycles (G : DiGraph) (cycles : list (list string))
  : option (list (list string)) :=
  match cycles with
  | [] => Some []
  | c :: rest =>
      match cycle_gate G c with
      | None => None
      | Some keep =>
          match gate_cycles G rest with
          | None => None
          | Some raw => Some (if keep then c :: raw else raw)
          end
      end
  end.

(** The union-find of [detect_cycles]; [find] halves the path as it climbs.
    The climb visits each key of [parent] at most once, hence the fuel. *)
Fixpoint find_loop (fuel : nat) (parent : list (string * string)) (x : string)
  : list (string * string) * string :=
  match fuel with
  | O => (parent, x)
  | S fuel' =>
      let px := Py.get_or parent x x in
      if String.eqb px x then (parent, x)
      else
        let gp := Py.get_or parent px px in
        find_loop fuel' (Py.set parent x gp) gp
  end.

Definition find (parent : list (string * string)) (x : string)
  : list (string * string) * string :=
  find_loop (S (List.length parent)) parent x.

Definition union (parent : list (string * string)) (a b : string)
  : list (string * string) :=
  let '(p1, ra) := find parent a in
  let '(p2, rb) := find p1 b in
  if String.eqb ra rb then p2 else Py.set p2 ra rb.

Definition union_cycle (parent : list (string * string)) (c : list string)
  : list (string * string) :=
  match c with
  | [] => parent
  | c0 :: rest => fold_left (fun p n => union p c0 n) rest parent
  end.

(** [groups[find(n)].add(n)] for [n] in [all_cm]. *)
Definition group_nodes (rt : Library) (parent : list (string * string))
                       (all_cm : list string) : list (string * list string) :=
  snd (fold_left
         (fun st n =>
            let '(p, groups) := st in
            let '(p', r) := find p n in
            (p', Py.set groups r (Py.set_add n (Py.get_or groups r []))))
         (set_iter rt all_cm) (parent, [])).

(** The sort key [sorted(x[1])[0]]: the smallest member of the group. *)
Definition smallest (mbrs : list string) : string :=
  hd "" (Py.sort String.leb mbrs).

Definition ring_label (idx : nat) : string := ("RING_" ++ Py.fmt_03d idx)%string.

(** [enumerate(l, start=k)]. *)
Definition enumerate {A : Type} (l : list A) (start : nat) : list (nat * A) :=
  combine (seq start (List.length l)) l.

Definition label_groups (rt : Library) (groups : list (string * list string))
  : list (string * string) * list (string * list string) :=
  fold_left
    (fun st ig =>
       let '(rmap, rgs) := st in
       let '(idx, (_, mbrs)) := ig in
       let rid := ring_label idx in
       (fold_left (fun d m => Py.set d m rid) (set_iter rt mbrs) rmap,
        Py.set rgs rid mbrs))
    (enumerate (Py.sort (fun a b => String.leb (smallest (snd a)) (smallest (snd b)))
                        groups) 1)
    ([], []).

(** [mc[n].append(c)] for every cycle [c] and member [n]. *)
Definition collect_member_cycles (raw : list (list string))
  : list (string * list (list string)) :=
  fold_left
    (fun mc c => fold_left (fun mc n => Py.set mc n (Py.get_or mc n [] ++ [c])) c mc)
    raw [].

(** The nodes handed to the cycle search: trimmed components, whitelist
    removed, at most [MAX_CYCLE_SEARCH_NODES] beyond the pinned ones. *)
Definition search_nodes (rt : Library) (wl : list string) (G : DiGraph) : list string :=
  let cands := filter (fun n => (0 <? in_degree G n)%nat && (0 <? out_degree G n)%nat)
                      (g_nodes G) in
  let scc_nodes :=
    fold_left (fun acc scc =>
                 if (2 <=? List.length scc)%nat
                 then Py.set_union acc (_trim_scc rt G (Py.set_of scc))
                 else acc)
              (nx_strongly_connected_components rt (subgraph G cands)) [] in
  let scc_nodes := Py.set_diff scc_nodes wl in
  if (MAX_CYCLE_SEARCH_NODES <? List.length scc_nodes)%nat then
    let pinned := filter _is_fraud (set_iter rt scc_nodes) in
    let slots := (MAX_CYCLE_SEARCH_NODES - List.length pinned)%nat in
    let rest := map (fun n => (n, (in_degree G n + out_degree G n)%nat))
                    (filter (fun n => negb (Py.mem n pinned)) (set_iter rt scc_nodes)) in
    let top := Py.set_of (map fst (firstn slots (sort_by_degree_desc rest))) in
    Py.set_union pinned top
  else scc_nodes.

Definition detect_cycles (rt : Library) (wl : list string) (G : DiGraph)
  : option CycleData :=
  let scc_nodes := search_nodes rt wl G in
  match gate_cycles G (nx_simple_cycles rt (subgraph G scc_nodes) MAX_CYCLE_LENGTH) with
  | None => None
  | Some raw =>
      let parent := fold_left union_cycle raw [] in
      let all_cm := Py.set_of (List.concat raw) in
      let groups := group_nodes rt parent all_cm in
      let '(rmap, rgs) := label_groups rt groups in
      Some (mkCycleData rmap rgs (collect_member_cycles raw) raw all_cm)
  end.

(** ** Shell detection *)

(** The backward walk: the chain is extended at its head through potential
    shells; every round adds a new member of [pot], hence the fuel. *)
Fixpoint walk_back (fuel : nat) (G : DiGraph) (pot seg : list string) (curr : string)
  : list string :=
  match fuel with
  | O => seg
  | S fuel' =>
      if Py.mem curr pot && negb (Py.mem curr seg) then
        let seg1 := curr :: seg in
        match predecessors G curr with
        | [] => seg1
        | prev :: _ =>
            if Py.mem prev pot then walk_back fuel' G pot seg1 prev
            else prev :: seg1
        end
      else seg
  end.

(** The forward walk from the tail along first successors. *)
Fixpoint walk_forward (fuel : nat) (G : DiGraph) (pot seg : list string) (curr : string)
  : list string :=
  match fuel with
  | O => seg
  | S fuel' =>
      match successors G curr with
      | [] => seg
      | nxt :: _ =>
          if Py.mem nxt pot && negb (Py.mem nxt seg)
          then walk_forward fuel' G pot (seg ++ [nxt]) nxt
          else seg ++ [nxt]
      end
  end.

Definition shell_segment (G : DiGraph) (pot : list string) (start : string) : list string :=
  let seg := walk_back (S (List.length pot)) G pot [] start in
  walk_forward (S (List.length pot)) G pot seg (last seg "").

(** [tc = pd.concat([senders, receivers]).value_counts()]. *)
Definition value_count (df : list Tx) (n : string) : nat :=
  List.length (filter (String.eqb n) (map sender_id df ++ map receiver_id df)).

Definition detect_shell_chains (rt : Library) (wl : list string) (G : DiGraph)
                               (df : list Tx) (cycle_members : list string)
  : list (string * nat) :=
  let cands :=
    filter (fun n => (1 <=? value_count df n)%nat
                     && (value_count df n <=? SHELL_MAX_TX_COUNT)%nat)
           (Py.set_of (map sender_id df ++ map receiver_id df)) in
  let cands := Py.set_diff (Py.set_diff cands wl) cycle_members in
  let pot :=
    filter (fun n => has_node G n && (in_degree G n =? 1)%nat
                     && (1 <=? out_degree G n)%nat)
           (set_iter rt cands) in
  fst (fold_left
         (fun st start =>
            let '(shell_map, seen) := st in
            if Py.mem start seen then st
            else
              let seg := shell_segment G pot start in
              if (4 <=? List.length seg)%nat then
                let shells := filter (fun n => Py.mem n pot) seg in
                if (2 <=? List.length shells)%nat then
                  fold_left (fun st' n =>
                               (Py.set (fst st') n (List.length seg),
                                Py.set_add n (snd st')))
                            shells (shell_map, seen)
                else st
              else st)
         (set_iter rt pot) ([], [])).

(** ** Mastermind detection *)

Record Mastermind := mkMastermind {
  mm_account_id    : string;
  mastermind_score : Q
}.

(** The local [norm] of [detect_mastermind]. *)
Definition norm (d : list (string * Q)) : list (string * Q) :=
  match d with
  | [] => []
  | _ =>
      let v := map snd d in
      let mn := Py.min_list 0 v in
      let mx := Py.max_list 0 v in
      if Py.qltb mn mx
      then map (fun kx => (fst kx, (snd kx - mn) / (mx - mn))) d
      else map (fun kx => (fst kx, 1 # 2)) d
  end.

Definition count_rings (rt : Library) (rings : list (string * list string))
  : list (string * nat) :=
  fold_left (fun rc mbrs =>
               fold_left (fun rc m => Py.set rc m (Py.get_or rc m 0%nat + 1)%nat)
                         (set_iter rt mbrs) rc)
            (map snd rings) [].

(** The maps [bc], [od] and [vol] of one ring, after [norm]. *)
Definition ring_bc (rt : Library) (G : DiGraph) (mbrs : list string) : list (string * Q) :=
  norm (nx_betweenness_centrality rt (subgraph G mbrs)).

Definition ring_od (rt : Library) (G : DiGraph) (mbrs : list string) : list (string * Q) :=
  norm (map (fun n => (n, q_of_nat (out_degree (subgraph G mbrs) n))) (set_iter rt mbrs)).

Definition ring_vol (rt : Library) (G : DiGraph) (mbrs : list string) : list (string * Q) :=
  norm (map (fun n =>
               (n, Py.qsum (map e_amount
                              (filter (fun e => String.eqb (e_src e) n
                                                && Py.mem (e_dst e) mbrs)
                                      (g_edges G)))))
            (set_iter rt mbrs)).

(** The composite [c] of a member. *)
Definition composite (bc od vol : list (string * Q)) (n : string) : Q :=
  Py.get_or bc n (1 # 2) * (10 # 100)
  + Py.get_or od n (1 # 2) * (50 # 100)
  + Py.get_or vol n (1 # 2) * (40 # 100).

(** The selection loop: [best, best_c = None, -1.0], replaced on a strictly
    larger composite. *)
Definition best_step (bc od vol : list (string * Q)) (st : option string * Q)
                     (n : string) : option string * Q :=
  let c := composite bc od vol n in
  if Py.qltb (snd st) c then (Some n, c) else st.

Definition select_best (bc od vol : list (string * Q)) (order : list string)
  : option string * Q :=
  fold_left (best_step bc od vol) order (None, -1).

(** The three branches of the base score. *)
Definition base_score (best_c : Q) : Q :=
  if Py.qleb (90 # 100) best_c then 95 + ((best_c - (90 # 100)) / (10 # 100)) * 5
  else if Py.qleb (80 # 100) best_c then 85 + ((best_c - (80 # 100)) / (10 # 100)) * 10
  else 75 + ((best_c - (70 # 100)) / (10 # 100)) * 10.

(** [not best]: [None] and the empty string are falsy. *)
Definition falsy (best : option string) : bool :=
  match best with
  | None => true
  | Some s => String.eqb s ""
  end.

(** One round of the loop over [rings.items()]: the entry written to
    [result[rid]], if any. *)
Definition ring_mastermind (rt : Library) (G : DiGraph)
                           (ring_count : list (string * nat)) (mbrs : list string)
  : option Mastermind :=
  if _all_legit (set_iter rt mbrs) then None
  else if (number_of_nodes (subgraph G mbrs) <=? 1)%nat then None
  else
    let bc := ring_bc rt G mbrs in
    let od := ring_od rt G mbrs in
    let vol := ring_vol rt G mbrs in
    let '(best, best_c) := select_best bc od vol (set_iter rt mbrs) in
    if falsy best || Py.qltb best_c (75 # 100) then None
    else
      let b := match best with Some n => n | None => "" end in
      let s := base_score best_c in
      let s := s + q_of_nat (Py.get_or ring_count b 1%nat - 1) * 15 in
      Some (mkMastermind b (Py.round (Py.qmin 100 s) 1)).

Definition detect_mastermind (rt : Library) (G : DiGraph)
                             (rings : list (string * list string))
  : list (string * Mastermind) :=
  match rings with
  | [] => []
  | _ =>
      let ring_count := count_rings rt rings in
      fold_left (fun result r =>
                   match ring_mastermind rt G ring_count (snd r) with
                   | Some m => Py.set result (fst r) m
                   | None => result
                   end)
                rings []
  end.

(** ** Suspicion scoring *)

(** The [pre] dictionary built by [run]. *)
Record Pre := mkPre {
  in_degrees      : list (string * nat);
  out_degrees     : list (string * nat);
  total_nodes     : nat;
  velocity_counts : list (string * Q)
}.

(** The dictionary returned by [compute_suspicion_score]. *)
Record Score := mkScore {
  total          : Q;
  cycle_score    : Q;
  velocity_score : Q;
  fan_score      : Q;
  shell_score    : Q
}.

(** The fallback window count: [vel = max(vel, right - left + 1)]. *)
Fixpoint fallback_scan (ts2 : list Z) (rights : list nat) (left vel : nat) : nat :=
  match rights with
  | [] => vel
  | r :: rest =>
      let left' := advance_left ts2 r left (S r) in
      fallback_scan ts2 rest left' (Nat.max vel (r - left' + 1))
  end.

Definition fallback_velocity (df : list Tx) (account_id : string) : nat :=
  let sub := filter (fun t => String.eqb (sender_id t) account_id
                              || String.eqb (receiver_id t) account_id) df in
  match sub with
  | [] => 0%nat
  | _ =>
      let ts2 := Py.sort Z.leb (map timestamp sub) in
      fallback_scan ts2 (seq 0 (List.length ts2)) 0 0
  end.

(** [min(len(c) for c in ccs)]. *)
Definition min_len (ccs : list (list string)) : nat :=
  match ccs with
  | [] => 0%nat
  | c :: rest => fold_left (fun m c' => Nat.min m (List.length c')) rest (List.length c)
  end.

Definition is_empty {A : Type} (l : list A) : bool :=
  match l with [] => true | _ => false end.

Definition compute_suspicion_score
    (account_id : string) (G : DiGraph) (df : list Tx) (cycle_map : CycleData)
    (smurfing_map : list (string * list string)) (shell_map : list (string * nat))
    (pre : option Pre) : Score :=
  let '(in_d, out_d, N, vel) :=
    match pre with
    | Some pre =>
        (Py.get_or (in_degrees pre) account_id 0%nat,
         Py.get_or (out_degrees pre) account_id 0%nat,
         total_nodes pre,
         Py.get_or (velocity_counts pre) account_id 0)
    | None =>
        ((if has_node G account_id then in_degree G account_id else 0%nat),
         (if has_node G account_id then out_degree G account_id else 0%nat),
         number_of_nodes G,
         q_of_nat (fallback_velocity df account_id))
    end in
  let ccs := Py.get_or (member_cycles cycle_map) account_id [] in
  let cscore :=
    if negb (is_empty ccs) && (min_len ccs <=? 3)%nat then 40
    else if negb (is_empty ccs) && (min_len ccs =? 4)%nat then 35
    else if negb (is_empty ccs) then 30 else 0 in
  let vscore := Py.qmin 25 ((vel / q_of_nat VELOCITY_TX_THRESHOLD) * 25) in
  let fscore := Py.qmin 20 ((q_of_nat (in_d + out_d) / q_of_nat (Nat.max (N * 2) 1)) * 200) in
  let pats := Py.get_or smurfing_map account_id [] in
  let fscore :=
    if Py.mem "fan_in" pats && Py.mem "fan_out" pats then 20
    else if Py.mem "fan_in" pats || Py.mem "fan_out" pats then Py.qmax fscore 15
    else fscore in
  let d := Py.get_or shell_map account_id 0%nat in
  let sscore := if (4 <=? d)%nat then 15
                else if (d =? 3)%nat then 10
                else if (1 <=? d)%nat then 5 else 0 in
  let total := cscore + vscore + fscore + sscore in
  mkScore (Py.qmin 100 (Py.round total 2))
          (Py.round cscore 2) (Py.round vscore 2)
          (Py.round fscore 2) (Py.round sscore 2).

(** ** The main pipeline *)

Record ScoreBreakdown := mkBreakdown {
  sb_cycle_score    : Q;
  sb_velocity_score : Q;
  sb_fan_score      : Q;
  sb_shell_score    : Q
}.

Record Suspect := mkSuspect {
  account_id          : string;
  suspicion_score     : Q;
  detected_patterns   : list string;
  s_ring_id           : option string;
  is_mastermind       : bool;
  s_mastermind_score  : option Q;
  score_breakdown     : ScoreBreakdown
}.

Inductive PatternType := cycle | smurfing | shell.

Record Ring := mkRing {
  ring_id            : string;
  member_accounts    : list string;
  pattern_type       : PatternType;
  risk_score         : Q;
  mastermind_account : option string;
  transaction_count  : nat;
  total_amount       : Q
}.

Record Summary := mkSummary {
  total_accounts_analyzed        : nat;
  suspicious_accounts_flagged    : nat;
  fraud_rings_detected           : nat;
  mastermind_accounts_identified : nat;
  processing_time_seconds        : Q;
  false_positives_filtered       : nat
}.

Record AnalysisResult := mkResult {
  analysis_id         : string;
  result_timestamp    : string;
  suspicious_accounts : list Suspect;
  fraud_rings         : list Ring;
  summary             : Summary
}.

(** The first statements of [run]: rows without a timestamp and
    self-transfers are dropped. *)
Definition clean (df : list Row) : list Tx :=
  flat_map (fun r =>
              match row_timestamp r with
              | None => []
              | Some ts =>
                  if String.eqb (row_sender_id r) (row_receiver_id r) then []
                  else [mkTx (row_transaction_id r) (row_sender_id r)
                             (row_receiver_id r) (row_amount r) ts]
              end) df.

(** The running maximum of distinct senders in a 72-hour window. *)
Fixpoint distinct_scan (ts2 : list Z) (sns : list string) (rights : list nat)
                       (left mx : nat) : nat :=
  match rights with
  | [] => mx
  | r :: rest =>
      let left' := advance_left ts2 r left (S r) in
      let u := Py.nunique (slice sns left' (S r)) in
      distinct_scan ts2 sns rest left' (if (mx <? u)%nat then u else mx)
  end.

Definition velocity_count (grp : list Tx) : Q :=
  let grp := sort_by_timestamp grp in
  q_of_nat (distinct_scan (map timestamp grp) (map sender_id grp)
                          (seq 0 (List.length grp)) 0 0).

Definition compute_vel_counts (df : list Tx) (all_ids : list string)
  : list (string * Q) :=
  let rx_susp := sort_by_timestamp
                   (filter (fun t => Py.mem (receiver_id t) all_ids) df) in
  fold_left (fun vc acct =>
               Py.set vc acct
                 (velocity_count
                    (filter (fun t => String.eqb (receiver_id t) acct) rx_susp)))
            (groupby_keys (map receiver_id rx_susp)) [].

Definition make_pre (G : DiGraph) (vel_counts : list (string * Q)) : Pre :=
  mkPre (map (fun n => (n, in_degree G n)) (g_nodes G))
        (map (fun n => (n, out_degree G n)) (g_nodes G))
        (number_of_nodes G)
        vel_counts.

(** [p not in pats: pats.append(p)]. *)
Definition append_new (pats : list string) (p : string) : list string :=
  if Py.mem p pats then pats else pats ++ [p].

Definition cycle_pattern (cn : list string) : string :=
  ("cycle_length_" ++ Py.str_nat (List.length cn))%string.

Definition patterns_of (acct : string) (cycle_data : CycleData)
                       (smurf_map : list (string * list string))
                       (shell_map : list (string * nat)) : list string :=
  let pats := fold_left (fun pats cn => append_new pats (cycle_pattern cn))
                        (Py.get_or (member_cycles cycle_data) acct []) [] in
  let pats := fold_left append_new (Py.get_or smurf_map acct []) pats in
  let pats := match Py.get shell_map acct with
              | Some _ => pats ++ ["shell_chain"; "low_transaction_intermediary"]
              | None => pats
              end in
  Py.dedup pats.

(** [mm_rid = {str(v["account_id"]): rid for rid, v in mm_data.items()}]. *)
Definition make_mm_rid (mm_data : list (string * Mastermind)) : list (string * string) :=
  fold_left (fun d rv => Py.set d (mm_account_id (snd rv)) (fst rv)) mm_data [].

(** One round of the loop over [all_ids]: the record appended to
    [suspects], unless the total is not positive. *)
Definition make_suspect (G : DiGraph) (df : list Tx) (cycle_data : CycleData)
                        (smurf_map : list (string * list string))
                        (shell_map : list (string * nat)) (pre : Pre)
                        (mm_data : list (string * Mastermind)) (acct : string)
  : option Suspect :=
  let sc := compute_suspicion_score acct G df cycle_data smurf_map shell_map (Some pre) in
  if Py.qleb (total sc) 0 then None
  else
    let mm_ids := Py.set_of (map (fun v => mm_account_id (snd v)) mm_data) in
    let mm_rid := make_mm_rid mm_data in
    let is_mm := Py.mem acct mm_ids in
    let mm_score :=
      if is_mm then
        match Py.get mm_rid acct with
        | Some rid =>
            if String.eqb rid "" then None
            else option_map mastermind_score (Py.get mm_data rid)
        | None => None
        end
      else None in
    Some (mkSuspect acct (total sc)
                    (patterns_of acct cycle_data smurf_map shell_map)
                    (Py.get (ring_map cycle_data) acct)
                    is_mm mm_score
                    (mkBreakdown (cycle_score sc) (velocity_score sc)
                                 (fan_score sc) (shell_score sc))).

(** [all_ids = set(ring_map) | set(smurf_map) | set(shell_map)]. *)
Definition suspect_pool (cycle_data : CycleData)
                        (smurf_map : list (string * list string))
                        (shell_map : list (string * nat)) : list string :=
  Py.set_union
    (Py.set_union (Py.set_of (Py.keys (ring_map cycle_data)))
                  (Py.set_of (Py.keys smurf_map)))
    (Py.set_of (Py.keys shell_map)).

Definition score_suspects (rt : Library) (G : DiGraph) (df : list Tx)
                          (cycle_data : CycleData)
                          (smurf_map : list (string * list string))
                          (shell_map : list (string * nat))
                          (mm_data : list (string * Mastermind))
  : list Suspect :=
  let all_ids := suspect_pool cycle_data smurf_map shell_map in
  let pre := make_pre G (compute_vel_counts df all_ids) in
  flat_map (fun acct =>
              match make_suspect G df cycle_data smurf_map shell_map pre mm_data acct with
              | Some s => [s]
              | None => []
              end)
           (set_iter rt all_ids).

(** *** Ring assembly *)

(** The rows with both endpoints in [mbrs]. *)
Definition ring_txs (df : list Tx) (mbrs : list string) : list Tx :=
  filter (fun t => Py.mem (sender_id t) mbrs && Py.mem (receiver_id t) mbrs) df.

Definition cycle_ring (df : list Tx) (suspects : list Suspect)
                      (mm_data : list (string * Mastermind))
                      (r : string * list string) : Ring :=
  let '(rid, mbrs) := r in
  let rt := ring_txs df mbrs in
  let ms := map suspicion_score
                (filter (fun s => Py.mem (account_id s) mbrs) suspects) in
  mkRing rid (Py.sort String.leb mbrs) cycle
         (Py.round (match ms with [] => 50 | _ => Py.max_list 0 ms end) 1)
         (option_map mm_account_id (Py.get mm_data rid))
         (List.length rt)
         (Py.round (Py.qsum (map amount rt)) 2).

(** The state threaded through the smurfing and shell loops. *)
Record Assembly := mkAssembly {
  a_ctr         : nat;
  a_fraud_rings : list Ring;
  a_ring_map    : list (string * string);
  a_suspects    : list Suspect
}.

Definition set_ring_id (s : Suspect) (rid : string) : Suspect :=
  mkSuspect (account_id s) (suspicion_score s) (detected_patterns s) (Some rid)
            (is_mastermind s) (s_mastermind_score s) (score_breakdown s).

(** [for m in mbrs: if m not in ring_map: ring_map[m] = rid; ...]. *)
Definition attach_members (rid : string) (order : list string)
                          (ring_map : list (string * string))
                          (suspects : list Suspect)
  : list (string * string) * list Suspect :=
  fold_left (fun st m =>
               let '(rmap, sus) := st in
               match Py.get rmap m with
               | Some _ => st
               | None =>
                   (Py.set rmap m rid,
                    map (fun s => if String.eqb (account_id s) m
                                  then set_ring_id s rid else s) sus)
               end)
            order (ring_map, suspects).

Definition has_key {V : Type} (d : list (string * V)) (k : string) : bool :=
  match Py.get d k with Some _ => true | None => false end.

Definition smurfing_step (rt : Library) (wl : list string) (G : DiGraph)
                         (df : list Tx) (st : Assembly)
                         (item : string * list string) : Assembly :=
  let '(hub, pats) := item in
  if has_key (a_ring_map st) hub then st
  else if negb (Py.mem "fan_in" pats) then st
  else if Py.mem hub wl then st
  else
    let preds := predecessors G hub in
    if (List.length preds <? MIN_FAN_COUNT)%nat then st
    else
      let mbrs_set := Py.set_union [hub] (Py.set_of preds) in
      if _all_legit (set_iter rt mbrs_set) then st
      else if negb (Py.mem "high_velocity" pats)
              && negb (existsb _is_fraud (set_iter rt mbrs_set)) then st
      else
        let rid := ring_label (a_ctr st) in
        let rtx := ring_txs df mbrs_set in
        let ring :=
          mkRing rid (Py.sort String.leb mbrs_set) smurfing
                 (Py.round (Py.qmin (849 # 10)
                                    (55 + (q_of_nat (List.length preds) / 50) * 20)) 1)
                 None (List.length rtx) (Py.round (Py.qsum (map amount rtx)) 2) in
        let '(rmap, sus) :=
          attach_members rid (set_iter rt mbrs_set) (a_ring_map st) (a_suspects st) in
        mkAssembly (S (a_ctr st)) (a_fraud_rings st ++ [ring]) rmap sus.

(** The stack walk that collects a component of [shell_map] nodes. A node
    pushes its neighbours once, when it enters [seen_sh]; the fuel bounds the
    number of pops. *)
Fixpoint collect_chain (fuel : nat) (G : DiGraph) (shell_map : list (string * nat))
                       (stk chain seen_sh : list string)
  : list string * list string :=
  match fuel with
  | O => (chain, seen_sh)
  | S fuel' =>
      match rev stk with
      | [] => (chain, seen_sh)
      | cur :: rest_rev =>
          let stk' := rev rest_rev in
          if Py.mem cur seen_sh then collect_chain fuel' G shell_map stk' chain seen_sh
          else if has_key shell_map cur then
            collect_chain fuel' G shell_map
                          (stk' ++ successors G cur ++ predecessors G cur)
                          (Py.set_add cur chain) (Py.set_add cur seen_sh)
          else collect_chain fuel' G shell_map stk' chain seen_sh
      end
  end.

Definition shell_step (rt : Library) (G : DiGraph) (df : list Tx)
                      (shell_map : list (string * nat))
                      (st : Assembly * list string) (sh_node : string)
  : Assembly * list string :=
  let '(asm, seen_sh) := st in
  if Py.mem sh_node seen_sh || has_key (a_ring_map asm) sh_node then st
  else
    let '(chain, seen_sh') :=
      collect_chain (2 + 2 * List.length (g_edges G)) G shell_map [sh_node] [] seen_sh in
    if (2 <=? List.length chain)%nat then
      let rid := ring_label (a_ctr asm) in
      let rtx := ring_txs df chain in
      let ring :=
        mkRing rid (Py.sort String.leb chain) shell
               (Py.round (50 + (q_of_nat (List.length chain) / 10) * 15) 1)
               None (List.length rtx) (Py.round (Py.qsum (map amount rtx)) 2) in
      let '(rmap, sus) :=
        attach_members rid (set_iter rt chain) (a_ring_map asm) (a_suspects asm) in
      (mkAssembly (S (a_ctr asm)) (a_fraud_rings asm ++ [ring]) rmap sus, seen_sh')
    else (asm, seen_sh').

(** Cycle rings, then smurfing rings, then shell rings. *)
Definition assemble_rings (rt : Library) (wl : list string) (G : DiGraph)
                          (df : list Tx) (cycle_data : CycleData)
                          (smurf_map : list (string * list string))
                          (shell_map : list (string * nat))
                          (mm_data : list (string * Mastermind))
                          (suspects : list Suspect) : Assembly :=
  let rgs := rings cycle_data in
  let cycle_rings := map (cycle_ring df suspects mm_data) rgs in
  let st0 := mkAssembly (List.length rgs + 1) cycle_rings (ring_map cycle_data) suspects in
  let st1 := fold_left (smurfing_step rt wl G df) smurf_map st0 in
  fst (fold_left (shell_step rt G df shell_map) (Py.keys shell_map) (st1, [])).

(** *** Post-filter *)

(** The state of the post-filter: [fp], [suspects], [fraud_rings]. *)
Record Filtered := mkFiltered {
  f_fp          : nat;
  f_suspects    : list Suspect;
  f_fraud_rings : list Ring
}.

Definition ring_id_in (s : Suspect) (rids : list string) : bool :=
  match s_ring_id s with
  | Some rid => Py.mem rid rids
  | None => false
  end.

(** The local [drop] of [run]. *)
Definition drop (rids : list string) (st : Filtered) : Filtered :=
  mkFiltered
    (f_fp st + List.length (filter (fun s => ring_id_in s rids) (f_suspects st)))
    (filter (fun s => negb (ring_id_in s rids)) (f_suspects st))
    (filter (fun r => negb (Py.mem (ring_id r) rids)) (f_fraud_rings st)).

Definition rids_where (p : Ring -> bool) (fraud_rings : list Ring) : list string :=
  Py.set_of (map ring_id (filter p fraud_rings)).

Definition is_smurfing (r : Ring) : bool :=
  match pattern_type r with smurfing => true | _ => false end.

Definition is_cycle (r : Ring) : bool :=
  match pattern_type r with cycle => true | _ => false end.

Definition sigs : list string :=
  ["fan_out"; "fan_in"; "high_velocity"; "shell_chain"; "low_transaction_intermediary"].

Definition vol_pats : list string := ["fan_out"; "fan_in"; "high_velocity"].

(** The rings collected in [bad]. *)
Definition bad_ring (suspects : list Suspect) (r : Ring) : bool :=
  if negb (is_cycle r) then false
  else
    let mbrs := member_accounts r in
    if existsb _is_fraud mbrs then false
    else
      let risk := risk_score r in
      let rpats :=
        flat_map detected_patterns
                 (filter (fun s => match s_ring_id s with
                                   | Some rid => String.eqb rid (ring_id r)
                                   | None => false
                                   end) suspects) in
      let has_sig := existsb (fun p => Py.mem p sigs) rpats in
      if _all_legit mbrs && (Py.qltb risk 80 || negb has_sig) then true
      else if Py.qltb risk 45 && negb has_sig then true
      else false.

Definition is_orphan (s : Suspect) : bool :=
  match s_ring_id s with
  | Some _ => false
  | None =>
      Qeq_bool (sb_cycle_score (score_breakdown s)) 0
      && Qeq_bool (sb_shell_score (score_breakdown s)) 0
      && Py.qltb (suspicion_score s) 45
      && forallb (fun p => Py.mem p vol_pats) (detected_patterns s)
  end.

Definition drop_orphans (st : Filtered) : Filtered :=
  let orph := map account_id (filter is_orphan (f_suspects st)) in
  mkFiltered (f_fp st + List.length orph)
             (filter (fun s => negb (Py.mem (account_id s) orph)) (f_suspects st))
             (f_fraud_rings st).

Definition mastermind_in (r : Ring) (wl : list string) : bool :=
  match mastermind_account r with
  | Some m => Py.mem m wl
  | None => false
  end.

Definition clear_mastermind (r : Ring) : Ring :=
  mkRing (ring_id r) (member_accounts r) (pattern_type r) (risk_score r)
         None (transaction_count r) (total_amount r).

(** The whitelist sweep, statement by statement. *)
Definition whitelist_sweep (wl : list string) (st : Filtered) : Filtered :=
  let fp := (f_fp st
             + List.length (filter (fun s => Py.mem (account_id s) wl) (f_suspects st)))%nat in
  let suspects := filter (fun s => negb (Py.mem (account_id s) wl)) (f_suspects st) in
  let fraud_rings := filter (fun r => negb (mastermind_in r wl)) (f_fraud_rings st) in
  let fraud_rings := map (fun r => if mastermind_in r wl then clear_mastermind r else r)
                         fraud_rings in
  mkFiltered fp suspects fraud_rings.

Definition post_filter (wl : list string) (suspects : list Suspect)
                       (fraud_rings : list Ring) : Filtered :=
  let st := mkFiltered 0 suspects fraud_rings in
  let st := drop (rids_where (fun r => (100 <? List.length (member_accounts r))%nat)
                             (f_fraud_rings st)) st in
  let st := drop (rids_where (fun r => Py.qltb (total_amount r) MIN_CYCLE_AMOUNT)
                             (f_fraud_rings st)) st in
  let st := drop (rids_where (fun r => is_smurfing r
                                       && (20 <? List.length (member_accounts r))%nat
                                       && Py.qltb 1000000 (total_amount r))
                             (f_fraud_rings st)) st in
  let st := drop (rids_where (bad_ring (f_suspects st)) (f_fraud_rings st)) st in
  let st := drop_orphans st in
  whitelist_sweep wl st.

(** [suspects.sort(key=lambda x: x["suspicion_score"], reverse=True)]. *)
Definition sort_suspects (suspects : list Suspect) : list Suspect :=
  Py.sort (fun a b => Py.qleb (suspicion_score b) (suspicion_score a)) suspects.

(** *** run *)

(** The statements of [run] from the call of [detect_shell_chains] to the
    end of the shell rings: the suspects and the rings before the
    post-filter. *)
Definition assembly_of (rt : Library) (df : list Tx) (G : DiGraph)
                       (wl : list string)
                       (smurf_map : list (string * list string))
                       (cycle_data : CycleData) : Assembly :=
  let shell_map := detect_shell_chains rt wl G df (cycle_members cycle_data) in
  let mm_data := detect_mastermind rt G (rings cycle_data) in
  let suspects := score_suspects rt G df cycle_data smurf_map shell_map mm_data in
  assemble_rings rt wl G df cycle_data smurf_map shell_map mm_data suspects.

(** The statements of [run] that follow the call of [detect_cycles]. *)
Definition run_from_cycles (rt : Runtime) (df : list Tx) (G : DiGraph)
                           (wl : list string)
                           (smurf_map : list (string * list string))
                           (cycle_data : CycleData) : AnalysisResult :=
  let asm := assembly_of rt df G wl smurf_map cycle_data in
  let flt := post_filter wl (a_suspects asm) (a_fraud_rings asm) in
  let suspects := sort_suspects (f_suspects flt) in
  let fraud_rings := f_fraud_rings flt in
  let elapsed := Py.round (perf_counter_t1 rt - perf_counter_t0 rt) 3 in
  mkResult (uuid4 rt)
           (utcnow_isoformat rt ++ "Z")%string
           suspects fraud_rings
           (mkSummary (number_of_nodes G)
                      (List.length suspects)
                      (List.length fraud_rings)
                      (List.length (filter is_mastermind suspects))
                      elapsed
                      (f_fp flt)).

(** [None] when the edge lookup of the cycle detector raises. *)
Definition run (rt : Runtime) (df0 : list Row) : option AnalysisResult :=
  let df := clean df0 in
  let G := build_graph df in
  let wl := fst (detect_smurfing G df) in
  let smurf_map := snd (detect_smurfing G df) in
  match detect_cycles rt wl G with
  | None => None
  | Some cycle_data => Some (run_from_cycles rt df G wl smurf_map cycle_data)
  end.

(** ** Reference implementations of the runtime

    Straightforward executable versions of the three networkx calls, used
    to run the pipeline on concrete tables. *)

Module Ref.

(** Nodes reachable from a frontier, breadth first. *)
Fixpoint reach (fuel : nat) (G : DiGraph) (frontier visited : list string) : list string :=
  match fuel with
  | O => visited
  | S fuel' =>
      let next := Py.set_diff (Py.set_of (flat_map (successors G) frontier)) visited in
      match next with
      | [] => visited
      | _ => reach fuel' G next (visited ++ next)
      end
  end.

Definition reachable (G : DiGraph) (u : string) : list string :=
  reach (number_of_nodes G) G [u] [u].

Definition component (G : DiGraph) (u : string) : list string :=
  filter (fun v => Py.mem u (reachable G v)) (reachable G u).

Definition strongly_connected_components (G : DiGraph) : list (list string) :=
  fold_left (fun comps u =>
               if existsb (Py.mem u) comps then comps
               else comps ++ [component G u])
            (g_nodes G) [].

(** Elementary cycles through [start] that avoid the nodes before it. *)
Fixpoint cycles_from (fuel : nat) (G : DiGraph) (allowed : list string)
                     (start : string) (path_rev : list string) : list (list string) :=
  match fuel with
  | O => []
  | S fuel' =>
      flat_map (fun nxt =>
                  if String.eqb nxt start then [rev path_rev]
                  else if Py.mem nxt allowed && negb (Py.mem nxt path_rev)
                  then cycles_from fuel' G allowed start (nxt :: path_rev)
                  else [])
               (successors G (hd start path_rev))
  end.

Fixpoint cycles_over (G : DiGraph) (nodes : list string) (length_bound : nat)
  : list (list string) :=
  match nodes with
  | [] => []
  | s :: later =>
      cycles_from length_bound G later s [s] ++ cycles_over G later length_bound
  end.

Definition simple_cycles (G : DiGraph) (length_bound : nat) : list (list string) :=
  cycles_over G (g_nodes G) length_bound.

(** Distances and numbers of shortest paths from [s], layer by layer. *)
Fixpoint layers (fuel : nat) (G : DiGraph) (d : nat)
                (layer : list (string * nat)) (seen : list (string * (nat * nat)))
  : list (string * (nat * nat)) :=
  match fuel with
  | O => seen
  | S fuel' =>
      let cand := Py.set_of (flat_map (fun x => successors G (fst x)) layer) in
      let fresh := filter (fun v => negb (has_key seen v)) cand in
      match fresh with
      | [] => seen
      | _ =>
          let next :=
            map (fun v =>
                   (v, fold_left Nat.add
                         (map snd (filter (fun x => Py.mem v (successors G (fst x))) layer))
                         0%nat))
                fresh in
          layers fuel' G (S d) next
                 (seen ++ map (fun x => (fst x, (S d, snd x))) next)
      end
  end.

Definition shortest (G : DiGraph) (s : string) : list (string * (nat * nat)) :=
  layers (number_of_nodes G) G 0 [(s, 1%nat)] [(s, (0%nat, 1%nat))].

Definition pair_dependency (G : DiGraph) (s t v : string) : Q :=
  match Py.get (shortest G s) t, Py.get (shortest G s) v, Py.get (shortest G v) t with
  | Some (dst, nst), Some (dsv, nsv), Some (dvt, nvt) =>
      if (dsv + dvt =? dst)%nat then q_of_nat (nsv * nvt) / q_of_nat nst else 0
  | _, _, _ => 0
  end.

Definition betweenness_centrality (G : DiGraph) : list (string * Q) :=
  let ns := g_nodes G in
  let n := List.length ns in
  let scale := if (n <=? 2)%nat then 1 else 1 / q_of_nat ((n - 1) * (n - 2)) in
  map (fun v =>
         (v, Qred (scale * Py.qsum
                 (flat_map (fun s =>
                              if String.eqb s v then []
                              else flat_map (fun t =>
                                               if String.eqb t v || String.eqb t s then []
                                               else [pair_dependency G s t v]) ns)
                           ns))))
      ns.

Definition runtime (uuid now : string) (t0 t1 : Q) : Runtime :=
  mkRuntime (mkLibrary (fun s => s)
                       strongly_connected_components simple_cycles
                       betweenness_centrality)
            uuid t0 t1 now.

End Ref.

(** ** Subsequences *)

(** [subseq l1 l2]: [l1] is [l2] with some elements removed. *)
Inductive subseq {A : Type} : list A -> list A -> Prop :=
| subseq_nil : subseq [] []
| subseq_skip (x : A) (l1 l2 : list A) : subseq l1 l2 -> subseq l1 (x :: l2)
| subseq_keep (x : A) (l1 l2 : list A) : subseq l1 l2 -> subseq (x :: l1) (x :: l2).

(** ** Concrete tables and states *)

Module Examples.

Definition tx (s r : string) (a : Q) (ts : Z) : Row := mkRow "" s r a (Some ts).

(** Two runtimes of the reference library that differ in the uuid and the
    clocks, and one that visits every set in descending order of identifier
    where the others follow the order of construction. *)
Definition rtA : Runtime := Ref.runtime "uuid-a" "2024-01-01T00:00:00" 0 1.
Definition rtB : Runtime := Ref.runtime "uuid-b" "2024-06-30T12:00:00" 5 (15 # 2).
Definition rtDesc : Runtime :=
  mkRuntime (mkLibrary (Py.sort (fun a b => String.leb b a))
                       Ref.strongly_connected_components Ref.simple_cycles
                       Ref.betweenness_centrality)
            "uuid-a" 0 1 "2024-01-01T00:00:00".

(** One triangle of fraud-prefixed accounts, 3000 per transfer. *)
Definition triangle : list Row :=
  [tx "CYC3_A" "CYC3_B" 3000 0; tx "CYC3_B" "CYC3_C" 3000 3600;
   tx "CYC3_C" "CYC3_A" 3000 7200].

(** Two triangles: the first moves 1000 per transfer, the second 3000. *)
Definition two_triangles : list Row :=
  [tx "CYC3_A" "CYC3_B" 1000 0; tx "CYC3_B" "CYC3_C" 1000 10;
   tx "CYC3_C" "CYC3_A" 1000 20;
   tx "CYC3_X" "CYC3_Y" 3000 0; tx "CYC3_Y" "CYC3_Z" 3000 10;
   tx "CYC3_Z" "CYC3_X" 3000 20].

(** Two accounts that send 5000 to each other. *)
Definition ping_pong : DiGraph :=
  build_graph (clean [tx "CYC3_A" "CYC3_B" 5000 0; tx "CYC3_B" "CYC3_A" 5000 10]).

(** Three transfers around a triangle whose amounts add up to 5000. *)
Definition rounding_G : DiGraph :=
  build_graph (clean [tx "ACC_A" "ACC_B" (495054 # 100) 0;
                      tx "ACC_B" "ACC_C" (248 # 100) 10;
                      tx "ACC_C" "ACC_A" (4698 # 100) 20]).

(** A ring whose mastermind is whitelisted, as the sweep may find it. *)
Definition merchant_ring : Ring :=
  mkRing "RING_001" ["ACC_1"; "ACC_2"; "MERCH"] cycle (625 # 10)
         (Some "MERCH") 3 9000.

Definition merchant_state : Filtered := mkFiltered 0 [] [merchant_ring].

(** A file with the five columns and one self-transfer that parses. *)
Definition self_transfer_file : CsvFile :=
  mkCsvFile ["transaction_id"; "sender_id"; "receiver_id"; "amount"; "timestamp"]
            [mkCsvRow "T1" "ACC_1" "ACC_1" (Some 100) (Some 0%Z)].

(** The intermediate values of [run] on [triangle]. *)
Definition triangle_df : list Tx := clean triangle.
Definition triangle_G : DiGraph := build_graph triangle_df.
Definition triangle_cycle_data : CycleData :=
  match detect_cycles rtA (fst (detect_smurfing triangle_G triangle_df)) triangle_G with
  | Some cd => cd
  | None => mkCycleData [] [] [] [] []
  end.
Definition triangle_smurf_map : list (string * list string) :=
  snd (detect_smurfing triangle_G triangle_df).
Definition triangle_shell_map : list (string * nat) :=
  detect_shell_chains rtA (fst (detect_smurfing triangle_G triangle_df))
                      triangle_G triangle_df (cycle_members triangle_cycle_data).
Definition triangle_pre : Pre :=
  make_pre triangle_G
           (compute_vel_counts triangle_df
              (suspect_pool triangle_cycle_data triangle_smurf_map triangle_shell_map)).

(** The result of [run], for tables on which it does not raise. *)
Definition no_result : AnalysisResult :=
  mkResult "" "" [] [] (mkSummary 0 0 0 0 0 0).

Definition result_of (rt : Runtime) (df0 : list Row) : AnalysisResult :=
  match run rt df0 with
  | Some res => res
  | None => no_result
  end.

(** The result of [run] on [triangle] under [rtA]. *)
Definition triangle_result : AnalysisResult := result_of rtA triangle.

Definition triangle_first : Suspect :=
  mkSuspect "CYC3_A" (Py.qmin 100 (Py.round (40 + (25 # 10) + 20 + 0) 2))
            ["cycle_length_3"] (Some "RING_001") false None
            (mkBreakdown (Py.round 40 2) (Py.round (25 # 10) 2)
                         (Py.round 20 2) (Py.round 0 2)).

(** Rows that cleaning drops: a self-transfer and a row without timestamp. *)
Definition dropped_rows : list Row :=
  [mkRow "T1" "ACC_1" "ACC_1" 100 (Some 0%Z); mkRow "T2" "ACC_1" "ACC_2" 100 None].

(** Two triangles that share the account [NODE_H]. *)
Definition hub : list Row :=
  [tx "NODE_H" "NODE_A" 3000 0; tx "NODE_A" "NODE_B" 3000 10; tx "NODE_B" "NODE_H" 3000 20;
   tx "NODE_H" "NODE_C" 3000 30; tx "NODE_C" "NODE_D" 3000 40; tx "NODE_D" "NODE_H" 3000 50].
Definition hub_G : DiGraph := build_graph (clean hub).
Definition hub_members : list string :=
  ["NODE_H"; "NODE_A"; "NODE_B"; "NODE_C"; "NODE_D"].

(** The result of [run] on [two_triangles] under [rtA]. *)
Definition two_triangles_result : AnalysisResult := result_of rtA two_triangles.

(** Two disjoint shell chains of five accounts each. *)
Definition two_chains : list Row :=
  [tx "SRC_1" "SH_INT1A" 3000 0; tx "SH_INT1A" "SH_INT1B" 3000 10;
   tx "SH_INT1B" "SH_INT1C" 3000 20; tx "SH_INT1C" "SH_DST1" 3000 30;
   tx "SRC_2" "SH_INT2A" 3000 0; tx "SH_INT2A" "SH_INT2B" 3000 10;
   tx "SH_INT2B" "SH_INT2C" 3000 20; tx "SH_INT2C" "SH_DST2" 3000 30].

(** The scenarios of section 8 of the specification. *)
Definition legit_triangle : list Row :=
  [tx "LEGIT_A" "LEGIT_B" 10000 0; tx "LEGIT_B" "LEGIT_C" 10000 10;
   tx "LEGIT_C" "LEGIT_A" 10000 20].

(** Twelve senders pay 500 each into one hub within an hour. *)
Definition fan_in_hub : list Row :=
  map (fun i => tx ("SMURF_P" ++ Py.str_nat i)%string "SMURF_H" 500 (Z.of_nat i * 60))
      (seq 1 12).

(** Ten senders pay into one hub, one a day. *)
Definition slow_fan_in : list Row :=
  map (fun i => tx ("ACC_" ++ Py.str_nat i)%string "ACC_H" 500 (Z.of_nat i * 86400))
      (seq 0 10).

(** One shell chain of five accounts. *)
Definition shell_chain : list Row :=
  [tx "SH_SRC" "SH_INT1" 3000 0; tx "SH_INT1" "SH_INT2" 3000 10;
   tx "SH_INT2" "SH_INT3" 3000 20; tx "SH_INT3" "SH_DST" 3000 30].

(** A directed cycle of six fraud-prefixed accounts. *)
Definition six_cycle : list Row :=
  [tx "CYC5_A" "CYC5_B" 3000 0; tx "CYC5_B" "CYC5_C" 3000 10;
   tx "CYC5_C" "CYC5_D" 3000 20; tx "CYC5_D" "CYC5_E" 3000 30;
   tx "CYC5_E" "CYC5_F" 3000 40; tx "CYC5_F" "CYC5_A" 3000 50].

(** What a result says about its rings and its suspects. *)
Definition rings_view (r : AnalysisResult)
  : list (string * list string * PatternType * Q) :=
  map (fun x => (ring_id x, member_accounts x, pattern_type x, risk_score x))
      (fraud_rings r).

Definition suspects_view (r : AnalysisResult)
  : list (string * option string * Q * list string) :=
  map (fun x => (account_id x, s_ring_id x, suspicion_score x, detected_patterns x))
      (suspicious_accounts r).

End Examples.

(** ** Statements of the specification *)

Module Spec.

(** Section 4.4, "total = sum of the aggregated edge amounts along c": the
    exact sum; undefined when an edge of [c] is not in [G]. *)
Definition edge_sum (G : DiGraph) (c : list string) : option Q :=
  fold_left
    (fun acc i =>
       match acc, edge G (nth i c "") (nth ((i + 1) mod List.length c) c "") with
       | Some t, Some a => Some (t + a)
       | _, _ => None
       end)
    (seq 0 (List.length c)) (Some 0).

(** The amount rule of section 4.4 for a cycle with the given total and
    average. *)
Definition amount_rule_at (c : list string) (total avg : Q) : Prop :=
  let T := MIN_CYCLE_AMOUNT in
  if _all_legit c then 3 * T <= total /\ 25000 <= avg
  else if existsb _is_fraud c then T / 2 <= total
  else T <= total.

(** The rule with [avg = total / length(c)]. *)
Definition amount_rule (c : list string) (total : Q) : Prop :=
  amount_rule_at c total (total / q_of_nat (List.length c)).

(** Section 4.1: no self-transfer is left in the parsed table. *)
Definition no_self_transfer (rows : list Row) : Prop :=
  forall r, In r rows -> row_sender_id r <> row_receiver_id r.

(** Section 8: equality of two results up to [analysis_id], [timestamp] and
    [processing_time_seconds]. *)
Definition same_modulo_run_fields (r1 r2 : AnalysisResult) : Prop :=
  suspicious_accounts r1 = suspicious_accounts r2
  /\ fraud_rings r1 = fraud_rings r2
  /\ total_accounts_analyzed (summary r1) = total_accounts_analyzed (summary r2)
  /\ suspicious_accounts_flagged (summary r1) = suspicious_accounts_flagged (summary r2)
  /\ fraud_rings_detected (summary r1) = fraud_rings_detected (summary r2)
  /\ mastermind_accounts_identified (summary r1)
     = mastermind_accounts_identified (summary r2)
  /\ false_positives_filtered (summary r1) = false_positives_filtered (summary r2).

(** Section 3: labels [RING_001], [RING_002], ... without a gap. *)
Definition dense_labels (labels : list string) : Prop :=
  labels = map ring_label (seq 1 (List.length labels)).

(** Section 4.4 read for every enumerated cycle: it survives exactly when
    the amount rule holds. *)
Definition gate_claim (G : DiGraph) (c : list string) : Prop :=
  forall total, edge_sum G c = Some total ->
                (cycle_gate G c = Some true <-> amount_rule c total).

(** Sections 3 and 8: the score of a suspect is positive, at most 100,
    equal within 0.01 to the sum of the breakdown capped at 100 and rounded
    to two decimals, and the components respect their caps. *)
Definition score_ok (s : Suspect) : Prop :=
  let b := score_breakdown s in
  0 < suspicion_score s
  /\ suspicion_score s <= 100
  /\ Qabs (suspicion_score s
           - Py.round (Py.qmin 100 (sb_cycle_score b + sb_velocity_score b
                                    + sb_fan_score b + sb_shell_score b)) 2)
     <= 1 # 100
  /\ sb_cycle_score b <= 40 /\ sb_velocity_score b <= 25
  /\ sb_fan_score b <= 20 /\ sb_shell_score b <= 15.

(** Sections 4.4 and 8: a reported cycle has three to five accounts. *)
Definition length_ok (c : list string) : Prop :=
  (MIN_CYCLE_LENGTH <= List.length c <= MAX_CYCLE_LENGTH)%nat.

(** The only cycle tags a suspect can carry. *)
Definition cycle_tags_ok (s : Suspect) : Prop :=
  forall p, In p (detected_patterns s) ->
            String.prefix "cycle_length_" p = true ->
            In p ["cycle_length_3"; "cycle_length_4"; "cycle_length_5"].

End Spec.

(** ** Predicates used in the proofs *)

(** A rational that is a whole number of hundredths. *)
Definition hundredths (x : Q) : Prop := exists z : Z, x == inject_Z z * (1 # 100).

(** The invariant of the assembly: the rings emitted so far carry the
    labels 1 .. ctr - 1, in this order. *)
Definition labelled (st : Assembly) : Prop :=
  exists n, a_ctr st = S n
            /\ map ring_id (a_fraud_rings st) = map ring_label (seq 1 n).

(** The members of [pot] that a shell walk has not put into [seg] yet. *)
Definition unseen (pot seg : list string) : nat :=
  List.length (filter (fun n => negb (Py.mem n seg)) pot).

(** The neighbours that the stack walk of the shell rings may still push:
    those of the [shell_map] nodes [K] that are not in [seen_sh] yet. *)
Definition degree (G : DiGraph) (n : string) : nat :=
  (out_degree G n + in_degree G n)%nat.

Definition pending (G : DiGraph) (K seen_sh : list string) : nat :=
  list_sum (map (fun n => if Py.mem n seen_sh then 0%nat else degree G n) K).

(** * Notions used by the properties of the detectors *)

(** ** What the runtime guarantees *)

(** A traversal of a set visits the elements of the set, each once. *)
Definition set_iter_ok (rt : Library) : Prop :=
  forall s : list string, Permutation (set_iter rt s) s.

(** ** Views of the transaction table *)

(** The amounts of the transfers from [u] to [v], in row order. *)
Definition flow (df : list Tx) (u v : string) : list Q :=
  map amount (filter (fun t => String.eqb (sender_id t) u && String.eqb (receiver_id t) v) df).

(** The key of an aggregated row or of an edge. *)
Definition e_key (e : string * string * Q) : string * string := fst e.

(** The lookup of a pair in the aggregated table. *)
Definition agg_find (l : list (string * string * Q)) (u v : string)
  : option (string * string * Q) :=
  List.find (fun e => String.eqb (e_src e) u && String.eqb (e_dst e) v) l.

(** An aggregated table in strictly increasing order of its pairs. *)
Definition agg_sorted (l : list (string * string * Q)) : Prop :=
  StronglySorted (fun a b => pair_compare (e_key a) (e_key b) = Lt) l.

(** ** Shapes of the rings *)

(** What the smurfing loop records for a hub with the predecessors [preds]. *)
Definition smurfing_shape (G : DiGraph) (r : Ring) : Prop :=
  exists hub,
    member_accounts r
    = Py.sort String.leb (Py.set_union [hub] (Py.set_of (predecessors G hub)))
    /\ (MIN_FAN_COUNT <= in_degree G hub)%nat
    /\ risk_score r
       = Py.round (Py.qmin (849 # 10) (55 + (q_of_nat (in_degree G hub) / 50) * 20)) 1
    /\ pattern_type r = smurfing /\ mastermind_account r = None.

(** What the shell loop records for a chain. *)
Definition shell_shape (r : Ring) : Prop :=
  exists chain,
    NoDup chain /\ (2 <= List.length chain)%nat
    /\ member_accounts r = Py.sort String.leb chain
    /\ risk_score r = Py.round (50 + (q_of_nat (List.length chain) / 10) * 15) 1
    /\ pattern_type r = shell /\ mastermind_account r = None.

(** What the cycle loop records for a ring of [detect_cycles]. *)
Definition cycle_shape (cd : CycleData) (mm_data : list (string * Mastermind)) (r : Ring)
  : Prop :=
  exists mbrs,
    In (ring_id r, mbrs) (rings cd)
    /\ member_accounts r = Py.sort String.leb mbrs
    /\ mastermind_account r = option_map mm_account_id (Py.get mm_data (ring_id r))
    /\ pattern_type r = cycle.

(** The body of the labelling loop of [detect_cycles]. *)
Definition label_step (rt : Library)
    (st : list (string * string) * list (string * list string))
    (ig : nat * (string * list string))
  : list (string * string) * list (string * list string) :=
  let '(rmap, rgs) := st in
  let '(idx, (_, mbrs)) := ig in
  let rid := ring_label idx in
  (fold_left (fun d m => Py.set d m rid) (set_iter rt mbrs) rmap, Py.set rgs rid mbrs).

(** ** The forest of the union-find *)

(** [climbs parent x r n]: following [parent] from [x] reaches the root [r]
    after [n] steps. *)
Inductive climbs (parent : list (string * string)) : string -> string -> nat -> Prop :=
| climbs_root (x : string) :
    Py.get_or parent x x = x -> climbs parent x x 0
| climbs_step (x r : string) (n : nat) :
    Py.get_or parent x x <> x ->
    climbs parent (Py.get_or parent x x) r n ->
    climbs parent x r (S n).

(** Every node reaches a root: [parent] has no cycle. *)
Definition forest (parent : list (string * string)) : Prop :=
  forall x, exists r n, climbs parent x r n.

Definition root (parent : list (string * string)) (x r : string) : Prop :=
  exists n, climbs parent x r n.

(** Two nodes of the same tree. *)
Definition connected (parent : list (string * string)) (x y : string) : Prop :=
  exists r, root parent x r /\ root parent y r.

(** Accounts linked by a chain of kept cycles that share accounts. *)
Inductive linked (raw : list (list string)) : string -> string -> Prop :=
| linked_refl (x : string) : linked raw x x
| linked_cycle (c : list string) (x y : string) :
    In c raw -> In x c -> In y c -> linked raw x y
| linked_trans (x y z : string) : linked raw x y -> linked raw y z -> linked raw x z.

(** [nx.simple_cycles] returns cycles of the graph it is given. *)
Definition simple_cycles_ok (rt : Library) (G : DiGraph) : Prop :=
  Forall (Forall (fun n => has_node G n = true))
         (nx_simple_cycles rt G MAX_CYCLE_LENGTH).

(** The state of the post-filter of [run] when it reaches the whitelist
    sweep: the four calls of [drop] and the removal of the orphans. *)
Definition before_sweep (suspects : list Suspect) (fraud_rings : list Ring) : Filtered :=
  let st := mkFiltered 0 suspects fraud_rings in
  let st := drop (rids_where (fun r => (100 <? List.length (member_accounts r))%nat)
                             (f_fraud_rings st)) st in
  let st := drop (rids_where (fun r => Py.qltb (total_amount r) MIN_CYCLE_AMOUNT)
                             (f_fraud_rings st)) st in
  let st := drop (rids_where (fun r => is_smurfing r
                                       && (20 <? List.length (member_accounts r))%nat
                                       && Py.qltb 1000000 (total_amount r))
                             (f_fraud_rings st)) st in
  let st := drop (rids_where (bad_ring (f_suspects st)) (f_fraud_rings st)) st in
  drop_orphans st.

(** ** Views of the sliding windows *)

(** The start of the window that ends at index [r]: where [left] stops when
    it starts from 0. *)
Definition lo (ts : list Z) (r : nat) : nat := advance_left ts r 0 (S r).

(** The senders of the transfers of [grp] in the 72 hours that end at
    [tau]. *)
Definition window_senders (grp : list Tx) (tau : Z) : list string :=
  map sender_id
      (filter (fun t => (tau - timestamp t <=? wt_seconds)%Z && (timestamp t <=? tau)%Z)
              grp).

(** Timestamps in non-decreasing order, by index. *)
Definition ascending (ts : list Z) : Prop :=
  forall i j, (i <= j)%nat -> (j < List.length ts)%nat -> (nth i ts 0 <= nth j ts 0)%Z.

(** The number of rows of [sub] in the 72 hours that end at [tau]. *)
Definition window_rows (sub : list Tx) (tau : Z) : nat :=
  List.length
    (filter (fun t => (tau - timestamp t <=? wt_seconds)%Z && (timestamp t <=? tau)%Z) sub).

(** ** The tags of a suspect *)

(** What the loop over [all_ids] of [run] records in [detected_patterns] and
    in the shell points of an account. *)
Definition tags_ok (s : Suspect) : Prop :=
  detected_patterns s <> []
  /\ NoDup (detected_patterns s)
  /\ (In "shell_chain" (detected_patterns s)
      <-> In "low_transaction_intermediary" (detected_patterns s))
  /\ ((In "shell_chain" (detected_patterns s)
       /\ sb_shell_score (score_breakdown s) == 15)
      \/ (~ In "shell_chain" (detected_patterns s)
          /\ sb_shell_score (score_breakdown s) == 0)).

(** ** Ring memberships *)


(** ** One table with a ring of every pattern *)

Module Scenarios.

(** Two triangles around [NODE_H], twelve senders into [SMURF_H] and a shell
    chain of five accounts, in one table. *)
Definition mixed : list Row :=
  Examples.hub ++ Examples.fan_in_hub ++ Examples.shell_chain.

Definition mixed_result : AnalysisResult := Examples.result_of Examples.rtA mixed.

(** The intermediate values of [run] on [mixed]. *)
Definition mixed_df : list Tx := clean mixed.
Definition mixed_G : DiGraph := build_graph mixed_df.
Definition mixed_wl : list string := fst (detect_smurfing mixed_G mixed_df).
Definition mixed_smurf_map : list (string * list string) :=
  snd (detect_smurfing mixed_G mixed_df).
Definition mixed_cycle_data : CycleData :=
  match detect_cycles Examples.rtA mixed_wl mixed_G with
  | Some cd => cd
  | None => mkCycleData [] [] [] [] []
  end.

(** The three rings of [mixed_result], in the order of the report. *)
Definition mixed_cycle_ring : Ring :=
  nth 0 (fraud_rings mixed_result) Examples.merchant_ring.
Definition mixed_smurfing_ring : Ring :=
  nth 1 (fraud_rings mixed_result) Examples.merchant_ring.
Definition mixed_shell_ring : Ring :=
  nth 2 (fraud_rings mixed_result) Examples.merchant_ring.

(** The first suspect of [mixed_result], the mastermind [NODE_H]. *)
Definition mixed_first : Suspect :=
  nth 0 (suspicious_accounts mixed_result)
      (mkSuspect "" 0 [] None false None (mkBreakdown 0 0 0 0)).

(** The hub [SMURF_H] and the shell account [SH_INT1] among its suspects. *)
Definition mixed_hub_suspect : Suspect :=
  nth 5 (suspicious_accounts mixed_result)
      (mkSuspect "" 0 [] None false None (mkBreakdown 0 0 0 0)).
Definition mixed_shell_suspect : Suspect :=
  nth 6 (suspicious_accounts mixed_result)
      (mkSuspect "" 0 [] None false None (mkBreakdown 0 0 0 0)).

(** Forty-one senders pay into one account: a graph of forty-two nodes. *)
Definition star : list Row :=
  map (fun i => Examples.tx ("ACC_" ++ Py.str_nat i)%string "ACC_H" 500 (Z.of_nat i * 60))
      (seq 0 41).
Definition star_G : DiGraph := build_graph (clean star).

(** A file of four rows: one transfer, one self-transfer, one row whose
    amount and one whose timestamp does not parse. *)
Definition four_rows_file : CsvFile :=
  mkCsvFile [" Transaction_ID"; "sender_id"; "receiver_id"; "amount"; "timestamp"]
            [mkCsvRow "T1" "ACC_1" "ACC_2" (Some 100) (Some 0%Z);
             mkCsvRow "T2" "ACC_1" "ACC_1" (Some 100) (Some 60%Z);
             mkCsvRow "T3" "ACC_2" "ACC_3" None (Some 120%Z);
             mkCsvRow "T4" "ACC_3" "ACC_1" (Some 100) None].



End Scenarios.

(** * Properties *)

(** ** Lists, sets and dictionaries *)

Section SortFacts.
Context {A : Type} (le : A -> A -> bool).

Lemma insert_In (x y : A) (l : list A) :
  In x (Py.insert le y l) <-> x = y \/ In x l.
Proof.
  induction l as [|z l IH]; simpl.
  - intuition.
  - destruct (le y z); simpl; [intuition|].
    rewrite IH. intuition.
Qed.

Lemma sort_In (x : A) (l : list A) : In x (Py.sort le l) <-> In x l.
Proof.
  induction l as [|y l IH]; simpl; [tauto|].
  rewrite insert_In, IH. intuition.
Qed.

Lemma sort_Forall (P : A -> Prop) (l : list A) :
  Forall P l -> Forall P (Py.sort le l).
Proof.
  rewrite !Forall_forall. intros H x Hx. apply H, sort_In, Hx.
Qed.

Lemma insert_length (y : A) (l : list A) :
  List.length (Py.insert le y l) = S (List.length l).
Proof.
  induction l as [|z l IH]; simpl; [reflexivity|].
  destruct (le y z); simpl; congruence.
Qed.

Lemma sort_length (l : list A) : List.length (Py.sort le l) = List.length l.
Proof.
  induction l as [|y l IH]; simpl; [reflexivity|].
  rewrite insert_length. congruence.
Qed.

End SortFacts.

Lemma some_inj {A : Type} (x y : A) : Some x = Some y -> x = y.
Proof. intros H. now injection H. Qed.

Lemma fold_left_invariant {S X : Type} (I : S -> Prop) (f : S -> X -> S)
                          (l : list X) (s : S) :
  I s -> (forall s x, I s -> I (f s x)) -> I (fold_left f l s).
Proof.
  intros H0 Hstep. revert s H0.
  induction l as [|x l IH]; simpl; intros s H0; [assumption|].
  apply IH, Hstep, H0.
Qed.

Lemma Forall_filter {A : Type} (P : A -> Prop) (f : A -> bool) (l : list A) :
  Forall P l -> Forall P (filter f l).
Proof.
  rewrite !Forall_forall. intros H x Hx. apply filter_In in Hx. now apply H.
Qed.

Lemma mem_In (x : string) (s : list string) : Py.mem x s = true <-> In x s.
Proof.
  unfold Py.mem. rewrite existsb_exists. split.
  - intros (y & Hy & E). apply String.eqb_eq in E. now subst.
  - intros H. exists x. split; [assumption|apply String.eqb_refl].
Qed.

Lemma get_In {V : Type} (d : list (string * V)) (k : string) (v : V) :
  Py.get d k = Some v -> In (k, v) d.
Proof.
  induction d as [|[k' v'] d IH]; simpl; [discriminate|].
  destruct (String.eqb k k') eqn:E.
  - apply String.eqb_eq in E. intros [= ->]. subst. now left.
  - intros H. right. now apply IH.
Qed.

Lemma set_In {V : Type} (d : list (string * V)) (k : string) (v : V) (kv : string * V) :
  In kv (Py.set d k v) -> In kv d \/ snd kv = v.
Proof.
  induction d as [|[k' v'] d IH]; simpl.
  - intros [<-|[]]. now right.
  - destruct (String.eqb k k'); simpl.
    + intros [<-|H]; [now right|left; now right].
    + intros [<-|H]; [left; now left|].
      destruct (IH H); [left; now right|now right].
Qed.

(** A property of the values of a dictionary survives [d[k] = v]. *)
Lemma set_Forall {V : Type} (P : V -> Prop) (d : list (string * V)) (k : string) (v : V) :
  Forall (fun kv => P (snd kv)) d -> P v ->
  Forall (fun kv => P (snd kv)) (Py.set d k v).
Proof.
  rewrite !Forall_forall. intros Hd Hv kv Hin.
  destruct (set_In _ _ _ _ Hin) as [H| ->]; [now apply Hd|assumption].
Qed.

Lemma get_or_Forall {V : Type} (P : V -> Prop) (d : list (string * V)) (k : string) (dflt : V) :
  Forall (fun kv => P (snd kv)) d -> P dflt -> P (Py.get_or d k dflt).
Proof.
  intros Hd Hdf. unfold Py.get_or. destruct (Py.get d k) eqn:E; [|assumption].
  apply get_In in E. rewrite Forall_forall in Hd. exact (Hd _ E).
Qed.

(** ** Rounding and comparisons on the rationals *)

Lemma qltb_true (a b : Q) : Py.qltb a b = true <-> a < b.
Proof.
  unfold Py.qltb. destruct (Qlt_le_dec a b) as [H|H]; split; intros; try easy.
  exfalso. now apply (Qle_not_lt _ _ H).
Qed.

Lemma qltb_false (a b : Q) : Py.qltb a b = false <-> b <= a.
Proof.
  unfold Py.qltb. destruct (Qlt_le_dec a b) as [H|H]; split; intros; try easy.
  exfalso. now apply (Qle_not_lt _ _ H0).
Qed.

Lemma qleb_true (a b : Q) : Py.qleb a b = true <-> a <= b.
Proof.
  unfold Py.qleb. rewrite negb_true_iff. apply qltb_false.
Qed.

Lemma qleb_false (a b : Q) : Py.qleb a b = false <-> b < a.
Proof.
  unfold Py.qleb. rewrite negb_false_iff. apply qltb_true.
Qed.

Lemma qmin_le_l (a b : Q) : Py.qmin a b <= a.
Proof.
  unfold Py.qmin. destruct (Qlt_le_dec b a); [now apply Qlt_le_weak|apply Qle_refl].
Qed.


Lemma qmin_cases (a b : Q) :
  (Py.qmin a b = a /\ a <= b) \/ (Py.qmin a b = b /\ b < a).
Proof.
  unfold Py.qmin. destruct (Qlt_le_dec b a); [right|left]; now split.
Qed.

Lemma qmax_cases (a b : Q) :
  (Py.qmax a b = a /\ b <= a) \/ (Py.qmax a b = b /\ a < b).
Proof.
  unfold Py.qmax. destruct (Qlt_le_dec a b); [right|left]; now split.
Qed.

Lemma round_half_even_lower (y : Q) : y - (1 # 2) <= inject_Z (Py.round_half_even y).
Proof.
  unfold Py.round_half_even.
  pose proof (Qfloor_le y) as Hf. pose proof (Qlt_floor y) as Hc.
  rewrite inject_Z_plus in Hc. change (inject_Z 1) with 1 in Hc.
  destruct (Qcompare (y - inject_Z (Qfloor y)) (1 # 2)) eqn:E.
  - apply Qeq_alt in E. destruct (Z.even (Qfloor y)); rewrite ?inject_Z_plus;
      change (inject_Z 1) with 1 in *; lra.
  - apply Qlt_alt in E. lra.
  - apply Qgt_alt in E. rewrite inject_Z_plus. change (inject_Z 1) with 1 in *. lra.
Qed.

Lemma round_half_even_upper (y : Q) : inject_Z (Py.round_half_even y) <= y + (1 # 2).
Proof.
  unfold Py.round_half_even.
  pose proof (Qfloor_le y) as Hf. pose proof (Qlt_floor y) as Hc.
  rewrite inject_Z_plus in Hc. change (inject_Z 1) with 1 in Hc.
  destruct (Qcompare (y - inject_Z (Qfloor y)) (1 # 2)) eqn:E.
  - apply Qeq_alt in E. destruct (Z.even (Qfloor y)); rewrite ?inject_Z_plus;
      change (inject_Z 1) with 1 in *; lra.
  - apply Qlt_alt in E. lra.
  - apply Qgt_alt in E. rewrite inject_Z_plus. change (inject_Z 1) with 1 in *. lra.
Qed.

(** Rounding never crosses an integer. *)
Lemma round_half_even_le (y : Q) (z : Z) :
  y <= inject_Z z -> (Py.round_half_even y <= z)%Z.
Proof.
  intros H. unfold Py.round_half_even.
  assert (Hfz : (Qfloor y <= z)%Z).
  { rewrite Zle_Qle. eapply Qle_trans; [apply Qfloor_le|exact H]. }
  destruct (Z.eq_dec (Qfloor y) z) as [E|NE].
  - assert (Hy : y - inject_Z (Qfloor y) <= 0) by (rewrite E; lra).
    destruct (Qcompare (y - inject_Z (Qfloor y)) (1 # 2)) eqn:C.
    + apply Qeq_alt in C. lra.
    + lia.
    + apply Qgt_alt in C. lra.
  - destruct (Qcompare _ _); [destruct (Z.even _)| |]; lia.
Qed.

Lemma round_half_even_ge (y : Q) (z : Z) :
  inject_Z z <= y -> (z <= Py.round_half_even y)%Z.
Proof.
  intros H. unfold Py.round_half_even.
  assert (Hfz : (z <= Qfloor y)%Z) by (apply Qfloor_resp_le in H; now rewrite Qfloor_Z in H).
  destruct (Qcompare _ _); [destruct (Z.even _)| |]; lia.
Qed.

Lemma round_half_even_int (z : Z) : Py.round_half_even (inject_Z z) = z.
Proof.
  apply Z.le_antisymm.
  - apply round_half_even_le, Qle_refl.
  - apply round_half_even_ge, Qle_refl.
Qed.

(** Ties go to the even neighbour: [round(0.125, 2)] is 0.12 and
    [round(0.375, 2)] is 0.38. *)
Lemma round_ties_to_even :
  Py.round (1 # 8) 2 = 0.12 /\ Py.round (3 # 8) 2 = 0.38 /\ Py.round (-(1 # 8)) 2 = -0.12.
Proof. repeat split. Qed.

Lemma round_value (x : Q) (n : nat) :
  Py.round x n == inject_Z (Py.round_half_even (x * inject_Z (10 ^ Z.of_nat n)))
                  / inject_Z (10 ^ Z.of_nat n).
Proof.
  unfold Py.round.
  assert (Hp : (0 < 10 ^ Z.of_nat n)%Z) by (apply Z.pow_pos_nonneg; lia).
  rewrite Qmake_Qdiv. rewrite Z2Pos.id by assumption. reflexivity.
Qed.

(** [round(x, 2)] in hundredths. *)
Lemma round2_value (x : Q) :
  Py.round x 2 == inject_Z (Py.round_half_even (x * 100)) * (1 # 100).
Proof.
  unfold Py.round. change (10 ^ Z.of_nat 2)%Z with 100%Z.
  change (inject_Z 100) with 100. change (Z.to_pos 100) with 100%positive.
  unfold Qeq. simpl. lia.
Qed.

Lemma round2_close (x : Q) :
  x - (1 # 200) <= Py.round x 2 /\ Py.round x 2 <= x + (1 # 200).
Proof.
  rewrite round2_value.
  pose proof (round_half_even_lower (x * 100)).
  pose proof (round_half_even_upper (x * 100)).
  split; lra.
Qed.

(** [round(x, 2)] is exact on hundredths. *)
Lemma round2_exact (x : Q) (z : Z) : x == inject_Z z * (1 # 100) -> Py.round x 2 == x.
Proof.
  intros E. rewrite round2_value.
  assert (H : x * 100 == inject_Z z) by (rewrite E; field).
  assert (R : Py.round_half_even (x * 100) = z).
  { apply Z.le_antisymm; [apply round_half_even_le|apply round_half_even_ge];
      rewrite H; apply Qle_refl. }
  rewrite R, E. reflexivity.
Qed.

Lemma round2_le (x : Q) (z : Z) : x <= inject_Z z -> Py.round x 2 <= inject_Z z.
Proof.
  intros H. rewrite round2_value.
  assert (R : (Py.round_half_even (x * 100) <= z * 100)%Z).
  { apply round_half_even_le. rewrite inject_Z_mult. change (inject_Z 100) with 100. lra. }
  rewrite Zle_Qle, inject_Z_mult in R. change (inject_Z 100) with 100 in R. lra.
Qed.

Lemma round2_ge (x : Q) (z : Z) : inject_Z z <= x -> inject_Z z <= Py.round x 2.
Proof.
  intros H. rewrite round2_value.
  assert (R : (z * 100 <= Py.round_half_even (x * 100))%Z).
  { apply round_half_even_ge. rewrite inject_Z_mult. change (inject_Z 100) with 100. lra. }
  rewrite Zle_Qle, inject_Z_mult in R. change (inject_Z 100) with 100 in R. lra.
Qed.

(** ** The whitelist sweep *)

(** The sweep keeps exactly the suspects outside the whitelist and counts
    the others. *)
Lemma whitelist_sweep_suspects (wl : list string) (st : Filtered) :
  f_suspects (whitelist_sweep wl st)
  = filter (fun s => negb (Py.mem (account_id s) wl)) (f_suspects st)
  /\ f_fp (whitelist_sweep wl st)
     = (f_fp st + List.length (filter (fun s => Py.mem (account_id s) wl) (f_suspects st)))%nat.
Proof. split; reflexivity. Qed.

(** The filter on the rings runs before the loop that clears the field, so
    the loop finds nothing to clear. *)
Lemma whitelist_sweep_rings (wl : list string) (st : Filtered) :
  f_fraud_rings (whitelist_sweep wl st)
  = filter (fun r => negb (mastermind_in r wl)) (f_fraud_rings st).
Proof.
  unfold whitelist_sweep; simpl.
  induction (f_fraud_rings st) as [|r l IH]; simpl; [reflexivity|].
  destruct (mastermind_in r wl) eqn:E; simpl; [exact IH|].
  rewrite E, IH. reflexivity.
Qed.

(** On a state that holds a ring with a whitelisted mastermind the sweep
    drops the ring: line 602 runs before the loop of lines 603-604 that
    would clear the field. No run of the pipeline reaches the sweep with
    such a ring; [Examples.merchant_state] is built by hand. *)
Lemma whitelist_sweep_drops_mastermind_ring :
  In Examples.merchant_ring (f_fraud_rings Examples.merchant_state)
  /\ mastermind_in Examples.merchant_ring ["MERCH"] = true
  /\ f_fraud_rings (whitelist_sweep ["MERCH"] Examples.merchant_state) = [].
Proof. split; [now left|split; reflexivity]. Qed.

(** ** The amount gate of the cycle detector *)

(** A cycle of two accounts is enumerated and meets the amount rule, yet
    the length guard skips it: C4 fails as stated. *)
Lemma gate_claim_fails_on_two_cycle :
  In ["CYC3_A"; "CYC3_B"] (Ref.simple_cycles Examples.ping_pong MAX_CYCLE_LENGTH)
  /\ ~ Spec.gate_claim Examples.ping_pong ["CYC3_A"; "CYC3_B"].
Proof.
  split; [vm_compute; now left|].
  intros H. specialize (H (0 + 5000 + 5000) eq_refl).
  assert (R : Spec.amount_rule ["CYC3_A"; "CYC3_B"] (0 + 5000 + 5000)).
  { vm_compute. discriminate. }
  apply H in R. discriminate R.
Qed.

(** The gate compares the total that line 116 computes, a sum of doubles
    in the order of the rotation: three amounts whose exact sum is 5000 pass
    the gate as B, C, A and fail it as A, B, C, where the doubles add up to
    4999.999999999999. *)
Lemma gate_follows_the_computed_total :
  Spec.amount_rule ["ACC_A"; "ACC_B"; "ACC_C"] 5000
  /\ match Spec.edge_sum Examples.rounding_G ["ACC_A"; "ACC_B"; "ACC_C"] with
     | Some total => total == 5000
     | None => False
     end
  /\ match cycle_total Examples.rounding_G ["ACC_A"; "ACC_B"; "ACC_C"] with
     | Some total => total < 5000
     | None => False
     end
  /\ cycle_gate Examples.rounding_G ["ACC_A"; "ACC_B"; "ACC_C"] = Some false
  /\ cycle_total Examples.rounding_G ["ACC_B"; "ACC_C"; "ACC_A"] = Some 5000
  /\ cycle_gate Examples.rounding_G ["ACC_B"; "ACC_C"; "ACC_A"] = Some true.
Proof.
  split; [vm_compute; discriminate|].
  split; [vm_compute; reflexivity|].
  split; [vm_compute; reflexivity|].
  repeat split; vm_compute; reflexivity.
Qed.

(** C4, amended: for an enumerated cycle of three to five accounts the gate
    appends the cycle exactly when the amount rule of section 4.4 holds of
    the total and the average that the code computes: the total is the sum
    of the edge amounts as doubles, added in the order of the rotation, the
    average its quotient by the length, rounded as a double. *)
Theorem cycle_gate_amount_rule (G : DiGraph) (c : list string) (total : Q) :
  (MIN_CYCLE_LENGTH <= List.length c <= MAX_CYCLE_LENGTH)%nat ->
  cycle_total G c = Some total ->
  (cycle_gate G c = Some true
   <-> Spec.amount_rule_at c total (Py.fdiv total (q_of_nat (List.length c)))).
Proof.
  intros [Hlo Hhi] Ht. unfold cycle_gate, Spec.amount_rule_at.
  apply Nat.leb_le in Hlo, Hhi. rewrite Hlo, Hhi, Ht. simpl negb. cbv iota.
  unfold MIN_CYCLE_AMOUNT.
  change (5000 / 2) with (5000 * (1 # 2)).
  generalize (Py.fdiv total (q_of_nat (List.length c))). intros avg.
  destruct (_all_legit c).
  - destruct (Py.qltb avg 25000) eqn:A.
    + apply qltb_true in A. split; [discriminate|]. intros [_ B]. lra.
    + apply qltb_false in A. split.
      * intros [= B]. apply qleb_true in B. split; [lra|assumption].
      * intros [B _]. f_equal. apply qleb_true. lra.
  - destruct (existsb _is_fraud c).
    + split.
      * intros [= B]. apply qleb_true in B. lra.
      * intros B. f_equal. apply qleb_true. lra.
    + split.
      * intros [= B]. now apply qleb_true in B.
      * intros B. f_equal. now apply qleb_true.
Qed.

Lemma cycle_gate_amount_rule_witness :
  (MIN_CYCLE_LENGTH <= List.length ["ACC_B"; "ACC_C"; "ACC_A"] <= MAX_CYCLE_LENGTH)%nat
  /\ cycle_total Examples.rounding_G ["ACC_B"; "ACC_C"; "ACC_A"] = Some 5000
  /\ (cycle_gate Examples.rounding_G ["ACC_B"; "ACC_C"; "ACC_A"] = Some true
      <-> Spec.amount_rule_at ["ACC_B"; "ACC_C"; "ACC_A"] 5000
                              (Py.fdiv 5000 (q_of_nat 3))).
Proof.
  assert (L : (MIN_CYCLE_LENGTH <= List.length ["ACC_B"; "ACC_C"; "ACC_A"]
               <= MAX_CYCLE_LENGTH)%nat) by (unfold MIN_CYCLE_LENGTH, MAX_CYCLE_LENGTH; simpl; lia).
  assert (T : cycle_total Examples.rounding_G ["ACC_B"; "ACC_C"; "ACC_A"] = Some 5000)
    by (vm_compute; reflexivity).
  split; [exact L|]. split; [exact T|].
  exact (cycle_gate_amount_rule Examples.rounding_G ["ACC_B"; "ACC_C"; "ACC_A"] 5000 L T).
Defined.

(** ** The ingestor *)

Lemma dropna_parsed (rows : list CsvRow) :
  dropna_timestamp (dropna_amount rows) = filter parsed rows.
Proof.
  unfold dropna_timestamp, dropna_amount, parsed.
  induction rows as [|r rows IH]; simpl; [reflexivity|].
  destruct (csv_amount r); simpl; [|exact IH].
  destruct (csv_timestamp r); simpl; now rewrite IH.
Qed.

Lemma clean_no_self_transfer (df : list Row) (t : Tx) :
  In t (clean df) -> sender_id t <> receiver_id t.
Proof.
  unfold clean. rewrite in_flat_map. intros (r & _ & H).
  destruct (row_timestamp r); [|destruct H].
  destruct (String.eqb (row_sender_id r) (row_receiver_id r)) eqn:E; [destruct H|].
  destruct H as [<-|[]]. simpl. now apply String.eqb_neq.
Qed.

(** A self-transfer whose amount and timestamp parse is returned by
    [parse_csv]: C6 fails as stated. *)
Lemma parse_csv_keeps_self_transfer :
  exists rows, parse_csv Examples.self_transfer_file = DataFrame rows
               /\ ~ Spec.no_self_transfer rows.
Proof.
  eexists. split; [reflexivity|].
  intros H. apply (H _ (or_introl eq_refl)). reflexivity.
Qed.

(** C6, amended: [parse_csv] returns exactly the rows whose amount and
    timestamp parse, self-transfers included; the self-transfers are dropped
    by the first statements of [run]. *)
Theorem parse_csv_drops_unparsed_only (file : CsvFile) (rows : list Row) :
  parse_csv file = DataFrame rows ->
  rows = map to_row (filter parsed (csv_rows file))
  /\ (forall r, In r (csv_rows file) ->
                csv_amount r <> None -> csv_timestamp r <> None -> In (to_row r) rows)
  /\ (forall t, In t (clean rows) -> sender_id t <> receiver_id t).
Proof.
  unfold parse_csv.
  destruct (Py.set_diff REQUIRED_COLUMNS _); [|discriminate].
  intros [= <-]. rewrite dropna_parsed.
  split; [reflexivity|]. split.
  - intros r Hin Ha Ht. apply in_map, filter_In. split; [assumption|].
    unfold parsed. destruct (csv_amount r), (csv_timestamp r); congruence.
  - intros t. apply clean_no_self_transfer.
Qed.

Lemma parse_csv_drops_unparsed_only_witness :
  parse_csv Examples.self_transfer_file
  = DataFrame [mkRow "T1" "ACC_1" "ACC_1" 100 (Some 0%Z)]
  /\ [mkRow "T1" "ACC_1" "ACC_1" 100 (Some 0%Z)]
     = map to_row (filter parsed (csv_rows Examples.self_transfer_file))
  /\ clean [mkRow "T1" "ACC_1" "ACC_1" 100 (Some 0%Z)] = [].
Proof.
  split; [reflexivity|].
  split; [|reflexivity].
  apply (parse_csv_drops_unparsed_only Examples.self_transfer_file _ eq_refl).
Defined.

(** ** The sliding windows *)

(** The fuel of [advance_left] is never exhausted: the loop stops at or
    before [r], on a window that is at most 72 hours wide. *)
Lemma advance_left_stops (ts : list Z) (r left fuel : nat) :
  (left <= r)%nat -> (r - left < fuel)%nat ->
  (left <= advance_left ts r left fuel <= r)%nat
  /\ (nth r ts 0 - nth (advance_left ts r left fuel) ts 0 >? wt_seconds)%Z = false.
Proof.
  revert left. induction fuel as [|fuel IH]; intros left Hle Hfuel; [lia|].
  cbn [advance_left].
  destruct (nth r ts 0 - nth left ts 0 >? wt_seconds)%Z eqn:E.
  - assert (Hne : left <> r).
    { intros ->. rewrite Z.sub_diag in E. discriminate E. }
    destruct (IH (S left)) as [A B]; [lia|lia|]. split; [lia|exact B].
  - split; [lia|exact E].
Qed.

(** ** The shell walks *)

Lemma mem_app (x : string) (s t : list string) :
  Py.mem x (s ++ t) = Py.mem x s || Py.mem x t.
Proof. unfold Py.mem. apply existsb_app. Qed.

Lemma filter_length_mono {A : Type} (f g : A -> bool) (l : list A) :
  (forall x, f x = true -> g x = true) ->
  (List.length (filter f l) <= List.length (filter g l))%nat.
Proof.
  intros H. induction l as [|x l IH]; simpl; [lia|].
  destruct (f x) eqn:F.
  - rewrite (H x F). simpl. lia.
  - destruct (g x); simpl; lia.
Qed.

Lemma filter_length_lt {A : Type} (f g : A -> bool) (l : list A) (y : A) :
  (forall x, f x = true -> g x = true) ->
  In y l -> g y = true -> f y = false ->
  (List.length (filter f l) < List.length (filter g l))%nat.
Proof.
  intros H. induction l as [|x l IH]; simpl; intros Hin Hg Hf; [destruct Hin|].
  destruct Hin as [->|Hin].
  - rewrite Hg, Hf. simpl. pose proof (filter_length_mono f g l H). lia.
  - specialize (IH Hin Hg Hf). destruct (f x) eqn:F.
    + rewrite (H x F). simpl. lia.
    + destruct (g x); simpl; lia.
Qed.

(** A walk that takes a new member of [pot] into the chain leaves fewer
    members unseen. *)
Lemma unseen_cons (pot seg : list string) (curr : string) :
  Py.mem curr pot = true -> Py.mem curr seg = false ->
  (unseen pot (curr :: seg) < unseen pot seg)%nat.
Proof.
  intros Hp Hs. unfold unseen. apply mem_In in Hp.
  apply (filter_length_lt _ _ pot curr).
  - intros x Hx. apply negb_true_iff in Hx. apply negb_true_iff.
    simpl in Hx. apply orb_false_iff in Hx. tauto.
  - exact Hp.
  - now rewrite Hs.
  - simpl. now rewrite String.eqb_refl.
Qed.

Lemma unseen_snoc (pot seg : list string) (nxt : string) :
  Py.mem nxt pot = true -> Py.mem nxt seg = false ->
  (unseen pot (seg ++ [nxt]) < unseen pot seg)%nat.
Proof.
  intros Hp Hs. unfold unseen. apply mem_In in Hp.
  apply (filter_length_lt _ _ pot nxt).
  - intros x Hx. apply negb_true_iff in Hx. apply negb_true_iff.
    rewrite mem_app in Hx. apply orb_false_iff in Hx. tauto.
  - exact Hp.
  - now rewrite Hs.
  - rewrite mem_app. simpl. rewrite String.eqb_refl. apply negb_false_iff.
    now rewrite orb_true_r.
Qed.

Lemma unseen_le (pot seg : list string) : (unseen pot seg <= List.length pot)%nat.
Proof. unfold unseen. apply List.filter_length_le. Qed.

(** The fuel of the backward walk is never exhausted: any fuel above the
    number of unseen members gives the same chain. *)
Lemma walk_back_fuel (G : DiGraph) (pot : list string) (f1 f2 : nat) :
  forall (seg : list string) (curr : string),
    (unseen pot seg < f1)%nat -> (unseen pot seg < f2)%nat ->
    walk_back f1 G pot seg curr = walk_back f2 G pot seg curr.
Proof.
  revert f2. induction f1 as [|f1 IH]; intros f2 seg curr H1 H2; [lia|].
  destruct f2 as [|f2]; [lia|]. cbn [walk_back].
  destruct (Py.mem curr pot) eqn:Hp; [|reflexivity].
  destruct (Py.mem curr seg) eqn:Hs; [reflexivity|]. cbn [negb andb].
  destruct (predecessors G curr) as [|prev preds]; [reflexivity|].
  destruct (Py.mem prev pot); [|reflexivity].
  pose proof (unseen_cons pot seg curr Hp Hs). apply IH; lia.
Qed.

Lemma walk_forward_fuel (G : DiGraph) (pot : list string) (f1 f2 : nat) :
  forall (seg : list string) (curr : string),
    (unseen pot seg < f1)%nat -> (unseen pot seg < f2)%nat ->
    walk_forward f1 G pot seg curr = walk_forward f2 G pot seg curr.
Proof.
  revert f2. induction f1 as [|f1 IH]; intros f2 seg curr H1 H2; [lia|].
  destruct f2 as [|f2]; [lia|]. cbn [walk_forward].
  destruct (successors G curr) as [|nxt succs]; [reflexivity|].
  destruct (Py.mem nxt pot) eqn:Hp; [|reflexivity].
  destruct (Py.mem nxt seg) eqn:Hs; [reflexivity|]. cbn [negb andb].
  pose proof (unseen_snoc pot seg nxt Hp Hs). apply IH; lia.
Qed.

(** With more fuel the chain of [shell_segment] stays the same. *)
Lemma shell_segment_fuel (G : DiGraph) (pot : list string) (start : string) (k1 k2 : nat) :
  shell_segment G pot start
  = let seg := walk_back (S (List.length pot) + k1) G pot [] start in
    walk_forward (S (List.length pot) + k2) G pot seg (last seg "").
Proof.
  unfold shell_segment. cbv zeta.
  rewrite (walk_back_fuel G pot (S (List.length pot)) (S (List.length pot) + k1) [] start)
    by (pose proof (unseen_le pot []); lia).
  apply walk_forward_fuel;
    match goal with |- (unseen pot ?s < _)%nat => pose proof (unseen_le pot s); lia end.
Qed.

(** ** The stack walk of the shell rings *)

Lemma mem_set_add (x y : string) (s : list string) :
  Py.mem x (Py.set_add y s) = Py.mem x s || String.eqb x y.
Proof.
  unfold Py.set_add. destruct (Py.mem y s) eqn:E.
  - destruct (String.eqb x y) eqn:X; [|now rewrite orb_false_r].
    apply String.eqb_eq in X. subst. now rewrite E.
  - rewrite mem_app. simpl. now rewrite orb_false_r.
Qed.

Lemma In_set_union (x : string) (s t : list string) :
  In x s \/ In x t -> In x (Py.set_union s t).
Proof.
  unfold Py.set_union. revert s. induction t as [|y t IH]; simpl; intros s H.
  - destruct H as [H|[]]. exact H.
  - apply IH. destruct H as [H|[->|H]].
    + left. apply mem_In. rewrite mem_set_add. apply mem_In in H. now rewrite H.
    + left. apply mem_In. rewrite mem_set_add, String.eqb_refl. apply orb_true_r.
    + now right.
Qed.

Lemma has_key_In {V : Type} (d : list (string * V)) (k : string) :
  has_key d k = true -> In k (Py.set_of (Py.keys d)).
Proof.
  unfold has_key. destruct (Py.get d k) as [v|] eqn:E; [|discriminate].
  intros _. apply In_set_union. right. apply get_In in E.
  unfold Py.keys. apply in_map_iff. now exists (k, v).
Qed.

Lemma list_sum_cons (a : nat) (l : list nat) : list_sum (a :: l) = (a + list_sum l)%nat.
Proof. reflexivity. Qed.

Lemma pending_mono (G : DiGraph) (K seen : list string) (cur : string) :
  (pending G K (Py.set_add cur seen) <= pending G K seen)%nat.
Proof.
  unfold pending. induction K as [|n K IH]; simpl; [lia|].
  rewrite mem_set_add. destruct (Py.mem n seen); simpl; [lia|].
  destruct (String.eqb n cur); lia.
Qed.

(** A node that enters [seen_sh] takes its neighbours out of the pending
    ones. *)
Lemma pending_visit (G : DiGraph) (K seen : list string) (cur : string) :
  In cur K -> Py.mem cur seen = false ->
  (pending G K (Py.set_add cur seen) + degree G cur <= pending G K seen)%nat.
Proof.
  intros Hin Hs. induction K as [|n K IH]; [destruct Hin|].
  unfold pending in *. cbn [map]. rewrite mem_set_add.
  destruct Hin as [->|Hin].
  - rewrite Hs, String.eqb_refl. cbn [orb].
    pose proof (pending_mono G K seen cur) as M. unfold pending in M. rewrite !list_sum_cons. lia.
  - specialize (IH Hin). rewrite !list_sum_cons.
    destruct (Py.mem n seen); cbn [orb]; [lia|].
    destruct (String.eqb n cur); lia.
Qed.

(** The fuel of the stack walk is never exhausted: any fuel above the
    height of the stack plus the pending neighbours gives the same
    component. *)
Lemma collect_chain_fuel (G : DiGraph) (shell_map : list (string * nat)) (f1 f2 : nat) :
  forall stk chain seen,
    (List.length stk + pending G (Py.set_of (Py.keys shell_map)) seen < f1)%nat ->
    (List.length stk + pending G (Py.set_of (Py.keys shell_map)) seen < f2)%nat ->
    collect_chain f1 G shell_map stk chain seen
    = collect_chain f2 G shell_map stk chain seen.
Proof.
  revert f2. induction f1 as [|f1 IH]; intros f2 stk chain seen H1 H2; [lia|].
  destruct f2 as [|f2]; [lia|]. cbn [collect_chain].
  destruct (rev stk) as [|cur rest_rev] eqn:R; [reflexivity|].
  assert (L : List.length stk = S (List.length (rev rest_rev))).
  { rewrite <- (rev_involutive stk), R. cbn [rev].
    rewrite length_app. cbn [List.length]. lia. }
  destruct (Py.mem cur seen) eqn:Hs; [apply IH; lia|].
  destruct (has_key shell_map cur) eqn:Hk; [|apply IH; lia].
  pose proof (pending_visit G _ seen cur (has_key_In _ _ Hk) Hs) as P.
  unfold degree in P. unfold out_degree, in_degree in P.
  apply IH; rewrite !length_app; lia.
Qed.

Lemma count_src_once (e : string * string * Q) (K : list string) :
  NoDup K ->
  (list_sum (map (fun n => if String.eqb (e_src e) n then 1%nat else 0%nat) K) <= 1)%nat.
Proof.
  induction 1 as [|n K Hn N IH]; [simpl; lia|].
  cbn [map]. rewrite list_sum_cons.
  destruct (String.eqb (e_src e) n) eqn:E; [|lia].
  apply String.eqb_eq in E. subst n.
  assert (Z : list_sum (map (fun n => if String.eqb (e_src e) n then 1%nat else 0%nat) K) = 0%nat).
  { clear IH N. induction K as [|m K IHK]; [reflexivity|].
    cbn [map]. rewrite list_sum_cons.
    destruct (String.eqb (e_src e) m) eqn:E.
    - apply String.eqb_eq in E. subst m. exfalso. apply Hn. now left.
    - rewrite IHK; [reflexivity|]. intros Hin. apply Hn. now right. }
  lia.
Qed.

Lemma count_dst_once (e : string * string * Q) (K : list string) :
  NoDup K ->
  (list_sum (map (fun n => if String.eqb (e_dst e) n then 1%nat else 0%nat) K) <= 1)%nat.
Proof.
  induction 1 as [|n K Hn N IH]; [simpl; lia|].
  cbn [map]. rewrite list_sum_cons.
  destruct (String.eqb (e_dst e) n) eqn:E; [|lia].
  apply String.eqb_eq in E. subst n.
  assert (Z : list_sum (map (fun n => if String.eqb (e_dst e) n then 1%nat else 0%nat) K) = 0%nat).
  { clear IH N. induction K as [|m K IHK]; [reflexivity|].
    cbn [map]. rewrite list_sum_cons.
    destruct (String.eqb (e_dst e) m) eqn:E.
    - apply String.eqb_eq in E. subst m. exfalso. apply Hn. now left.
    - rewrite IHK; [reflexivity|]. intros Hin. apply Hn. now right. }
  lia.
Qed.

(** Distinct nodes share no edge end: their degrees add up to at most twice
    the number of edges. *)
Lemma degree_sum (G : DiGraph) (K : list string) :
  NoDup K ->
  (list_sum (map (degree G) K) <= 2 * List.length (g_edges G))%nat.
Proof.
  intros N. unfold degree, out_degree, in_degree, successors, predecessors.
  induction (g_edges G) as [|e es IH].
  - cbn [filter map List.length]. induction K as [|n K IHK]; [simpl; lia|].
    cbn [map]. rewrite list_sum_cons. inversion N; subst.
    specialize (IHK H2). cbn [Nat.add]. exact IHK.
  - assert (S : (list_sum
                   (map (fun n =>
                           List.length (map e_dst (filter (fun e0 => String.eqb (e_src e0) n)
                                                          (e :: es)))
                           + List.length (map e_src (filter (fun e0 => String.eqb (e_dst e0) n)
                                                            (e :: es)))) K)
                 = list_sum (map (fun n => if String.eqb (e_src e) n then 1%nat else 0%nat) K)
                   + list_sum (map (fun n => if String.eqb (e_dst e) n then 1%nat else 0%nat) K)
                   + list_sum
                       (map (fun n =>
                               List.length (map e_dst (filter (fun e0 => String.eqb (e_src e0) n)
                                                              es))
                               + List.length (map e_src
                                                (filter (fun e0 => String.eqb (e_dst e0) n)
                                                        es))) K))%nat).
    { clear. induction K as [|n K IHK]; [reflexivity|].
      cbn [map]. rewrite !list_sum_cons, IHK. cbn [filter].
      destruct (String.eqb (e_src e) n), (String.eqb (e_dst e) n);
        cbn [map List.length]; lia. }
    rewrite S. pose proof (count_src_once e K N). pose proof (count_dst_once e K N).
    cbn [List.length]. lia.
Qed.

Lemma set_add_NoDup (x : string) (s : list string) : NoDup s -> NoDup (Py.set_add x s).
Proof.
  intros N. unfold Py.set_add. destruct (Py.mem x s) eqn:E; [exact N|].
  apply NoDup_app; [exact N|repeat constructor; intros []|].
  intros y Hy [<-|[]]. apply mem_In in Hy. congruence.
Qed.

Lemma set_of_NoDup (l : list string) : NoDup (Py.set_of l).
Proof.
  unfold Py.set_of, Py.set_union.
  apply (fold_left_invariant (fun s => NoDup s)); [constructor|].
  intros s x N. now apply set_add_NoDup.
Qed.

Lemma pending_le_degrees (G : DiGraph) (K seen : list string) :
  (pending G K seen <= list_sum (map (degree G) K))%nat.
Proof.
  unfold pending. induction K as [|n K IH]; [simpl; lia|].
  cbn [map]. rewrite !list_sum_cons. destruct (Py.mem n seen); lia.
Qed.

(** The fuel that [shell_step] hands to the stack walk is enough. *)
Lemma shell_step_fuel (G : DiGraph) (shell_map : list (string * nat))
      (sh_node : string) (seen : list string) (k : nat) :
  collect_chain (2 + 2 * List.length (g_edges G)) G shell_map [sh_node] [] seen
  = collect_chain (2 + 2 * List.length (g_edges G) + k) G shell_map [sh_node] [] seen.
Proof.
  pose proof (pending_le_degrees G (Py.set_of (Py.keys shell_map)) seen).
  pose proof (degree_sum G _ (set_of_NoDup (Py.keys shell_map))).
  apply collect_chain_fuel; cbn [List.length]; lia.
Qed.

(** ** The two velocity paths of the scorer *)

(** C10, on the table [Examples.triangle] and the account [CYC3_A]: with the
    statistics of the pipeline the account has one distinct sender in its
    window and scores 2.5; without them the fallback counts both of its
    transfers and scores 5. *)
Theorem velocity_score_differs_without_pre :
  velocity_score
    (compute_suspicion_score "CYC3_A" Examples.triangle_G Examples.triangle_df
       Examples.triangle_cycle_data Examples.triangle_smurf_map
       Examples.triangle_shell_map (Some Examples.triangle_pre)) == 25 # 10
  /\ velocity_score
       (compute_suspicion_score "CYC3_A" Examples.triangle_G Examples.triangle_df
          Examples.triangle_cycle_data Examples.triangle_smurf_map
          Examples.triangle_shell_map None) == 5
  /\ Py.get (velocity_counts Examples.triangle_pre) "CYC3_A" = Some (q_of_nat 1)
  /\ fallback_velocity Examples.triangle_df "CYC3_A" = 2%nat.
Proof. repeat split. Qed.

(** ** What the later stages do to a suspect record *)

Section SuspectInvariant.

(** A property of suspects that does not look at the ring identifier. *)
Variable P : Suspect -> Prop.
Hypothesis P_ring : forall s rid, P s -> P (set_ring_id s rid).

Lemma attach_members_Forall (rid : string) (order : list string)
      (rmap : list (string * string)) (sus : list Suspect) :
  Forall P sus -> Forall P (snd (attach_members rid order rmap sus)).
Proof.
  intros H. unfold attach_members.
  apply (fold_left_invariant (fun st => Forall P (snd st))); [exact H|].
  intros [rm su] m Hsu; simpl in *.
  destruct (Py.get rm m); simpl; [assumption|].
  rewrite Forall_forall in *. intros s Hs. apply in_map_iff in Hs.
  destruct Hs as (s0 & <- & Hs0).
  destruct (String.eqb (account_id s0) m); [apply P_ring|]; now apply Hsu.
Qed.

Lemma smurfing_step_Forall (rt : Library) (wl : list string) (G : DiGraph)
      (df : list Tx) (st : Assembly) (item : string * list string) :
  Forall P (a_suspects st) -> Forall P (a_suspects (smurfing_step rt wl G df st item)).
Proof.
  intros H. unfold smurfing_step. destruct item as [hub pats].
  repeat match goal with
         | |- context [if ?b then _ else _] => destruct b; try assumption
         end.
  pose proof (attach_members_Forall (ring_label (a_ctr st))
                (set_iter rt (Py.set_union [hub] (Py.set_of (predecessors G hub))))
                (a_ring_map st) (a_suspects st) H) as HA.
  destruct (attach_members _ _ _ _) as [rmap sus]. exact HA.
Qed.

Lemma shell_step_Forall (rt : Library) (G : DiGraph) (df : list Tx)
      (shell_map : list (string * nat)) (st : Assembly * list string) (n : string) :
  Forall P (a_suspects (fst st)) ->
  Forall P (a_suspects (fst (shell_step rt G df shell_map st n))).
Proof.
  intros H. unfold shell_step. destruct st as [asm seen]. simpl in H.
  destruct (Py.mem n seen || has_key (a_ring_map asm) n); [exact H|].
  destruct (collect_chain _ _ _ _ _ _) as [chain seen'].
  destruct (2 <=? List.length chain)%nat; [|exact H].
  pose proof (attach_members_Forall (ring_label (a_ctr asm)) (set_iter rt chain)
                (a_ring_map asm) (a_suspects asm) H) as HA.
  destruct (attach_members _ _ _ _) as [rmap sus]. exact HA.
Qed.

Lemma assemble_rings_Forall (rt : Library) (wl : list string) (G : DiGraph)
      (df : list Tx) (cd : CycleData) (smurf_map : list (string * list string))
      (shell_map : list (string * nat)) (mm : list (string * Mastermind))
      (suspects : list Suspect) :
  Forall P suspects ->
  Forall P (a_suspects (assemble_rings rt wl G df cd smurf_map shell_map mm suspects)).
Proof.
  intros H. unfold assemble_rings.
  apply (fold_left_invariant (fun st => Forall P (a_suspects (fst st)))).
  - simpl. apply (fold_left_invariant (fun st => Forall P (a_suspects st))); [exact H|].
    intros. now apply smurfing_step_Forall.
  - intros. now apply shell_step_Forall.
Qed.

Lemma post_filter_Forall (wl : list string) (suspects : list Suspect)
      (fraud_rings : list Ring) :
  Forall P suspects -> Forall P (f_suspects (post_filter wl suspects fraud_rings)).
Proof.
  intros H. unfold post_filter, whitelist_sweep, drop_orphans, drop; simpl.
  repeat apply Forall_filter. exact H.
Qed.

Lemma sort_suspects_Forall (suspects : list Suspect) :
  Forall P suspects -> Forall P (sort_suspects suspects).
Proof. apply sort_Forall. Qed.

End SuspectInvariant.

(** ** The suspicion score and its breakdown *)

Lemma hundredths_round2 (x : Q) : hundredths (Py.round x 2).
Proof. eexists. apply round2_value. Qed.

Lemma hundredths_int (z : Z) : hundredths (inject_Z z).
Proof.
  exists (z * 100)%Z. rewrite inject_Z_mult. change (inject_Z 100) with 100. field.
Qed.

Lemma hundredths_plus (x y : Q) : hundredths x -> hundredths y -> hundredths (x + y).
Proof.
  intros [a Ha] [b Hb]. exists (a + b)%Z. rewrite inject_Z_plus, Ha, Hb. ring.
Qed.

Lemma hundredths_eq (x y : Q) : x == y -> hundredths x -> hundredths y.
Proof. intros E [a Ha]. exists a. now rewrite <- E. Qed.

Lemma round2_hundredths (x : Q) : hundredths x -> Py.round x 2 == x.
Proof. intros [z Hz]. exact (round2_exact x z Hz). Qed.

(** The arithmetic behind the record returned by the scorer: three of the
    components are exact hundredths, the fan score is any value up to 20. *)
Lemma score_record_ok (c0 v0 f0 s0 : Q) :
  hundredths c0 -> hundredths v0 -> hundredths s0 ->
  c0 <= 40 -> v0 <= 25 -> f0 <= 20 -> s0 <= 15 ->
  let tot := Py.qmin 100 (Py.round (c0 + v0 + f0 + s0) 2) in
  let b := Py.round c0 2 + Py.round v0 2 + Py.round f0 2 + Py.round s0 2 in
  tot <= 100
  /\ Qabs (tot - Py.round (Py.qmin 100 b) 2) <= 1 # 100
  /\ Py.round c0 2 <= 40 /\ Py.round v0 2 <= 25
  /\ Py.round f0 2 <= 20 /\ Py.round s0 2 <= 15.
Proof.
  intros Hc Hv Hs Bc Bv Bf Bs tot b.
  pose proof (round2_hundredths _ Hc) as Ec.
  pose proof (round2_hundredths _ Hv) as Ev.
  pose proof (round2_hundredths _ Hs) as Es.
  pose proof (round2_close f0) as [Fl Fu].
  pose proof (round2_le f0 20 Bf) as Rf. change (inject_Z 20) with 20 in Rf.
  pose proof (round2_close (c0 + v0 + f0 + s0)) as [Tl Tu].
  assert (RT : Py.round (c0 + v0 + f0 + s0) 2 <= 100).
  { apply (round2_le _ 100). change (inject_Z 100) with 100. lra. }
  assert (Hb : hundredths b).
  { unfold b. repeat apply hundredths_plus; apply hundredths_round2. }
  assert (Bb : b <= 100) by (unfold b; lra).
  assert (Eb : Py.round (Py.qmin 100 b) 2 == b).
  { destruct (qmin_cases 100 b) as [[-> L]|[-> L]].
    - rewrite (round2_hundredths 100 (hundredths_int 100)). lra.
    - now apply round2_hundredths. }
  assert (Et : tot == Py.round (c0 + v0 + f0 + s0) 2).
  { unfold tot. destruct (qmin_cases 100 (Py.round (c0 + v0 + f0 + s0) 2))
      as [[-> L]|[-> L]]; lra. }
  split; [apply qmin_le_l|].
  split; [apply Qabs_Qle_condition; rewrite Eb, Et; unfold b; split; lra|].
  repeat split; lra.
Qed.

(** The four raw components computed by the scorer when the window count
    is a whole number. *)
Lemma compute_suspicion_score_ok
      (acct : string) (G : DiGraph) (df : list Tx) (cd : CycleData)
      (smurf_map : list (string * list string)) (shell_map : list (string * nat))
      (pre : Pre) (k : nat) :
  Py.get_or (velocity_counts pre) acct 0 = q_of_nat k ->
  let sc := compute_suspicion_score acct G df cd smurf_map shell_map (Some pre) in
  total sc <= 100
  /\ Qabs (total sc - Py.round (Py.qmin 100 (cycle_score sc + velocity_score sc
                                              + fan_score sc + shell_score sc)) 2)
     <= 1 # 100
  /\ cycle_score sc <= 40 /\ velocity_score sc <= 25
  /\ fan_score sc <= 20 /\ shell_score sc <= 15.
Proof.
  intros Hk. unfold compute_suspicion_score. rewrite Hk. cbv zeta. simpl total.
  simpl cycle_score. simpl velocity_score. simpl fan_score. simpl shell_score.
  apply score_record_ok.
  - repeat match goal with |- context [if ?b then _ else _] => destruct b end;
      first [apply (hundredths_int 40)|apply (hundredths_int 35)
            |apply (hundredths_int 30)|apply (hundredths_int 0)].
  - destruct (qmin_cases 25 (q_of_nat k / q_of_nat VELOCITY_TX_THRESHOLD * 25))
      as [[-> _]|[-> _]]; [apply (hundredths_int 25)|].
    exists (Z.of_nat k * 250)%Z. unfold q_of_nat, VELOCITY_TX_THRESHOLD.
    rewrite inject_Z_mult. change (inject_Z (Z.of_nat 10)) with 10.
    change (inject_Z 250) with 250. field.
  - repeat match goal with |- context [if ?b then _ else _] => destruct b end;
      first [apply (hundredths_int 15)|apply (hundredths_int 10)
            |apply (hundredths_int 5)|apply (hundredths_int 0)].
  - repeat match goal with |- context [if ?b then _ else _] => destruct b end; lra.
  - apply qmin_le_l.
  - match goal with |- context [Py.qmin 20 ?x] => generalize x; intros X end.
    pose proof (qmin_le_l 20 X).
    destruct (Py.mem "fan_in" _ && Py.mem "fan_out" _); [lra|].
    destruct (Py.mem "fan_in" _ || Py.mem "fan_out" _); [|assumption].
    destruct (qmax_cases (Py.qmin 20 X) 15) as [[-> _]|[-> _]]; lra.
  - repeat match goal with |- context [if ?b then _ else _] => destruct b end; lra.
Qed.

Lemma compute_vel_counts_whole (df : list Tx) (all_ids : list string) (acct : string) :
  exists k, Py.get_or (compute_vel_counts df all_ids) acct 0 = q_of_nat k.
Proof.
  apply (get_or_Forall (fun v => exists k, v = q_of_nat k)); [|now exists 0%nat].
  unfold compute_vel_counts.
  apply (fold_left_invariant
           (fun vc => Forall (fun kv : string * Q => exists k, snd kv = q_of_nat k) vc));
    [constructor|].
  intros vc a Hvc. apply (set_Forall (fun v => exists k, v = q_of_nat k)); [exact Hvc|].
  unfold velocity_count. eexists. reflexivity.
Qed.

(** Every record appended by the loop over [all_ids] has a positive total
    that agrees with its breakdown. *)
Lemma make_suspect_score_ok
      (G : DiGraph) (df : list Tx) (cd : CycleData)
      (smurf_map : list (string * list string)) (shell_map : list (string * nat))
      (all_ids : list string) (mm : list (string * Mastermind))
      (acct : string) (s : Suspect) :
  make_suspect G df cd smurf_map shell_map
               (make_pre G (compute_vel_counts df all_ids)) mm acct = Some s ->
  Spec.score_ok s.
Proof.
  unfold make_suspect.
  destruct (compute_vel_counts_whole df all_ids acct) as [k Hk].
  pose proof (compute_suspicion_score_ok acct G df cd smurf_map shell_map
                (make_pre G (compute_vel_counts df all_ids)) k Hk) as H.
  cbv zeta in H.
  destruct (Py.qleb (total _) 0) eqn:E; [discriminate|].
  apply qleb_false in E. intros Heq. apply some_inj in Heq. rewrite <- Heq.
  unfold Spec.score_ok.
  cbn [suspicion_score score_breakdown sb_cycle_score sb_velocity_score
       sb_fan_score sb_shell_score].
  split; [exact E|exact H].
Qed.

Lemma score_ok_ring (s : Suspect) (rid : string) :
  Spec.score_ok s -> Spec.score_ok (set_ring_id s rid).
Proof. intros H. exact H. Qed.

(** C3: every suspect of the final output has a score in (0, 100] that
    equals, within 0.01, the sum of its breakdown capped at 100 and rounded
    to two decimals, and the components respect their caps. *)
Theorem suspects_score_ok (rt : Runtime) (df0 : list Row) (res : AnalysisResult) :
  run rt df0 = Some res ->
  forall s, In s (suspicious_accounts res) -> Spec.score_ok s.
Proof.
  unfold run. destruct (detect_cycles _ _ _) as [cd|]; [|discriminate].
  intros Heq. apply some_inj in Heq. rewrite <- Heq.
  apply Forall_forall. unfold run_from_cycles, assembly_of.
  cbn [suspicious_accounts].
  apply sort_suspects_Forall, post_filter_Forall,
        (assemble_rings_Forall _ score_ok_ring).
  unfold score_suspects. apply Forall_forall. intros s Hs.
  apply in_flat_map in Hs. destruct Hs as (acct & _ & Hs).
  destruct (make_suspect _ _ _ _ _ _ _ _) as [s0|] eqn:E; [|destruct Hs].
  destruct Hs as [<-|[]]. exact (make_suspect_score_ok _ _ _ _ _ _ _ _ _ E).
Qed.

Lemma suspects_score_ok_witness :
  run Examples.rtA Examples.triangle = Some Examples.triangle_result
  /\ In Examples.triangle_first (suspicious_accounts Examples.triangle_result)
  /\ Spec.score_ok Examples.triangle_first.
Proof.
  assert (R : run Examples.rtA Examples.triangle = Some Examples.triangle_result)
    by (vm_compute; reflexivity).
  assert (I : In Examples.triangle_first (suspicious_accounts Examples.triangle_result))
    by (vm_compute; left; reflexivity).
  split; [exact R|]. split; [exact I|].
  exact (suspects_score_ok Examples.rtA Examples.triangle Examples.triangle_result
                           R Examples.triangle_first I).
Defined.

(** ** Lengths of the reported cycles *)

Lemma cycle_gate_length (G : DiGraph) (c : list string) :
  cycle_gate G c = Some true -> Spec.length_ok c.
Proof.
  unfold cycle_gate, Spec.length_ok.
  destruct ((MIN_CYCLE_LENGTH <=? List.length c)%nat
            && (List.length c <=? MAX_CYCLE_LENGTH)%nat) eqn:E; simpl; [|discriminate].
  apply andb_true_iff in E. destruct E as [A B].
  apply Nat.leb_le in A, B. intros _. now split.
Qed.

Lemma gate_cycles_kept (G : DiGraph) (cycles raw : list (list string)) :
  gate_cycles G cycles = Some raw ->
  Forall (fun c => In c cycles /\ cycle_gate G c = Some true) raw.
Proof.
  revert raw. induction cycles as [|c cycles IH]; simpl; intros raw.
  - intros [= <-]. constructor.
  - destruct (cycle_gate G c) as [keep|] eqn:E; [|discriminate].
    destruct (gate_cycles G cycles) as [raw'|]; [|discriminate].
    specialize (IH raw' eq_refl).
    assert (IH' : Forall (fun c0 => (c = c0 \/ In c0 cycles)
                                    /\ cycle_gate G c0 = Some true) raw').
    { eapply Forall_impl; [|exact IH]. intros a [Ha Hb]. split; [now right|assumption]. }
    intros [= <-]. destruct keep; [|exact IH'].
    constructor; [split; [now left|assumption]|exact IH'].
Qed.

Lemma collect_member_cycles_raw (raw : list (list string)) :
  Forall (fun kv => Forall (fun c => In c raw) (snd kv)) (collect_member_cycles raw).
Proof.
  unfold collect_member_cycles.
  assert (G : forall cs mc,
             incl cs raw ->
             Forall (fun kv : string * list (list string) =>
                       Forall (fun c => In c raw) (snd kv)) mc ->
             Forall (fun kv : string * list (list string) =>
                       Forall (fun c => In c raw) (snd kv))
                    (fold_left
                       (fun mc c => fold_left
                                      (fun mc n => Py.set mc n (Py.get_or mc n [] ++ [c]))
                                      c mc) cs mc)).
  { induction cs as [|c cs IH]; simpl; intros mc Hincl Hmc; [assumption|].
    apply IH; [intros x Hx; apply Hincl; now right|].
    apply (fold_left_invariant
             (fun mc => Forall (fun kv : string * list (list string) =>
                                  Forall (fun c => In c raw) (snd kv)) mc));
      [exact Hmc|].
    intros d n Hd.
    apply (set_Forall (fun v => Forall (fun c => In c raw) v)); [exact Hd|].
    apply Forall_app. split.
    - apply (get_or_Forall (fun v => Forall (fun c => In c raw) v)); [exact Hd|constructor].
    - constructor; [|constructor]. apply Hincl. now left. }
  apply G; [apply incl_refl|constructor].
Qed.

(** What [detect_cycles] keeps: cycles that the library enumerated and the
    gate accepted, and nothing else in [member_cycles]. *)
Lemma detect_cycles_kept (rt : Library) (wl : list string) (G : DiGraph) (cd : CycleData) :
  detect_cycles rt wl G = Some cd ->
  Forall Spec.length_ok (raw_cycles cd)
  /\ forall acct c, In c (Py.get_or (member_cycles cd) acct []) -> In c (raw_cycles cd).
Proof.
  unfold detect_cycles.
  destruct (gate_cycles G _) as [raw|] eqn:E; [|discriminate].
  destruct (label_groups rt _) as [rmap rgs]. intros H. apply some_inj in H. subst cd.
  cbn [raw_cycles member_cycles]. split.
  - eapply Forall_impl; [|exact (gate_cycles_kept _ _ _ E)].
    intros c [_ Hc]. exact (cycle_gate_length _ _ Hc).
  - intros acct c Hc.
    pose proof (get_or_Forall (fun v => Forall (fun c => In c raw) v)
                  (collect_member_cycles raw) acct []
                  (collect_member_cycles_raw raw) (Forall_nil _)) as HF.
    rewrite Forall_forall in HF. now apply HF.
Qed.

(** ** Pattern tags *)

Lemma set_add_In (x y : string) (s : list string) :
  In x (Py.set_add y s) -> x = y \/ In x s.
Proof.
  unfold Py.set_add. destruct (Py.mem y s); [now right|].
  rewrite in_app_iff. simpl. intuition.
Qed.

Lemma set_union_In (x : string) (s t : list string) :
  In x (Py.set_union s t) -> In x s \/ In x t.
Proof.
  unfold Py.set_union. revert s.
  induction t as [|y t IH]; simpl; intros s H; [now left|].
  destruct (IH _ H) as [H1|H1]; [|right; now right].
  destruct (set_add_In _ _ _ H1) as [->|H2]; [right; now left|now left].
Qed.

Lemma set_of_In (x : string) (l : list string) : In x (Py.set_of l) -> In x l.
Proof. intros H. destruct (set_union_In _ _ _ H) as [[]|H']; exact H'. Qed.

Lemma append_new_In (x p : string) (pats : list string) :
  In x (append_new pats p) -> In x pats \/ x = p.
Proof.
  unfold append_new. destruct (Py.mem p pats); [now left|].
  rewrite in_app_iff. simpl. intuition.
Qed.

Lemma fold_append_new_In (l pats : list string) (x : string) :
  In x (fold_left append_new l pats) -> In x pats \/ In x l.
Proof.
  revert pats. induction l as [|q l IH]; simpl; intros pats Hx; [now left|].
  destruct (IH _ Hx) as [Hx'|Hx']; [|right; now right].
  destruct (append_new_In _ _ _ Hx') as [Hx''| ->]; [now left|right; now left].
Qed.

Lemma patterns_of_In (acct : string) (cd : CycleData)
      (smurf_map : list (string * list string)) (shell_map : list (string * nat))
      (p : string) :
  In p (patterns_of acct cd smurf_map shell_map) ->
  (exists cn, In cn (Py.get_or (member_cycles cd) acct []) /\ p = cycle_pattern cn)
  \/ In p (Py.get_or smurf_map acct [])
  \/ In p ["shell_chain"; "low_transaction_intermediary"].
Proof.
  unfold patterns_of, Py.dedup. intros H. apply set_of_In in H.
  set (Q1 := fun pats : list string =>
               forall x, In x pats ->
                         exists cn, In cn (Py.get_or (member_cycles cd) acct [])
                                    /\ x = cycle_pattern cn).
  assert (H1 : Q1 (fold_left (fun pats cn => append_new pats (cycle_pattern cn))
                             (Py.get_or (member_cycles cd) acct []) [])).
  { assert (G : forall cs pats,
               incl cs (Py.get_or (member_cycles cd) acct []) -> Q1 pats ->
               Q1 (fold_left (fun pats cn => append_new pats (cycle_pattern cn)) cs pats)).
    { induction cs as [|c cs IH]; simpl; intros pats Hi Hp; [assumption|].
      apply IH; [intros y Hy; apply Hi; now right|].
      intros x Hx. destruct (append_new_In _ _ _ Hx) as [Hx'| ->]; [now apply Hp|].
      exists c. split; [apply Hi; now left|reflexivity]. }
    apply G; [apply incl_refl|intros x []]. }
  set (pats1 := fold_left (fun pats cn => append_new pats (cycle_pattern cn))
                          (Py.get_or (member_cycles cd) acct []) []) in *.
  pose proof (fun x => fold_append_new_In (Py.get_or smurf_map acct []) pats1 x) as H2.
  destruct (Py.get shell_map acct).
  - apply in_app_iff in H. destruct H as [H|H]; [|right; now right].
    destruct (H2 _ H) as [H'|H']; [left; now apply H1|right; now left].
  - destruct (H2 _ H) as [H'|H']; [left; now apply H1|right; now left].
Qed.

Lemma setdefault_append_Forall (P : string -> Prop)
      (d : list (string * list string)) (k p : string) :
  Forall (fun kv => Forall P (snd kv)) d -> P p ->
  Forall (fun kv => Forall P (snd kv)) (setdefault_append d k p).
Proof.
  intros Hd Hp. unfold setdefault_append.
  apply (set_Forall (fun v => Forall P v)); [exact Hd|].
  apply Forall_app. split.
  - apply (get_or_Forall (fun v => Forall P v)); [exact Hd|constructor].
  - constructor; [exact Hp|constructor].
Qed.

(** The smurfing detector only writes its three tags. *)
Lemma detect_smurfing_patterns (G : DiGraph) (df : list Tx) :
  Forall (fun kv => Forall (fun p => In p vol_pats) (snd kv))
         (snd (detect_smurfing G df)).
Proof.
  unfold detect_smurfing. cbn [snd].
  repeat (apply (fold_left_invariant
                   (fun res => Forall (fun kv : string * list string =>
                                         Forall (fun p => In p vol_pats) (snd kv)) res));
          [|intros res a Hres;
            repeat match goal with
                   | |- context [if ?b then _ else _] => destruct b; try assumption
                   end;
            apply setdefault_append_Forall; [exact Hres|unfold vol_pats; simpl; tauto]]).
  constructor.
Qed.

Lemma make_suspect_tags_ok
      (G : DiGraph) (df : list Tx) (cd : CycleData) (pre : Pre)
      (shell_map : list (string * nat)) (mm : list (string * Mastermind))
      (acct : string) (s : Suspect) :
  (forall a c, In c (Py.get_or (member_cycles cd) a []) -> Spec.length_ok c) ->
  make_suspect G df cd (snd (detect_smurfing G df)) shell_map pre mm acct = Some s ->
  Spec.cycle_tags_ok s.
Proof.
  intros Hlen. unfold make_suspect.
  destruct (Py.qleb _ 0); [discriminate|].
  intros Heq. apply some_inj in Heq. rewrite <- Heq.
  unfold Spec.cycle_tags_ok. cbn [detected_patterns]. intros p Hp Hpre.
  destruct (patterns_of_In _ _ _ _ _ Hp) as [(cn & Hcn & ->)|[Hs|Hs]].
  - specialize (Hlen _ _ Hcn). unfold Spec.length_ok, MIN_CYCLE_LENGTH, MAX_CYCLE_LENGTH in Hlen.
    unfold cycle_pattern.
    assert (E : List.length cn = 3%nat \/ List.length cn = 4%nat \/ List.length cn = 5%nat)
      by lia.
    destruct E as [-> |[-> | ->]]; simpl; tauto.
  - exfalso.
    pose proof (get_or_Forall (fun v => Forall (fun p => In p vol_pats) v)
                  (snd (detect_smurfing G df)) acct []
                  (detect_smurfing_patterns G df) (Forall_nil _)) as HF.
    rewrite Forall_forall in HF. specialize (HF _ Hs).
    unfold vol_pats in HF. simpl in HF.
    destruct HF as [<-|[<-|[<-|[]]]]; discriminate Hpre.
  - exfalso. simpl in Hs. destruct Hs as [<-|[<-|[]]]; discriminate Hpre.
Qed.

Lemma cycle_tags_ok_ring (s : Suspect) (rid : string) :
  Spec.cycle_tags_ok s -> Spec.cycle_tags_ok (set_ring_id s rid).
Proof. intros H. exact H. Qed.

(** C7: whatever cycles the library enumerates, the cycles kept by the
    detector have three to five accounts, so do the cycles recorded for each
    member, and the only cycle tags of a reported suspect are
    [cycle_length_3], [cycle_length_4] and [cycle_length_5]. *)
Theorem reported_cycles_length (rt : Runtime) (df0 : list Row) (res : AnalysisResult) :
  run rt df0 = Some res ->
  (exists cd,
      detect_cycles rt (fst (detect_smurfing (build_graph (clean df0)) (clean df0)))
                    (build_graph (clean df0)) = Some cd
      /\ Forall Spec.length_ok (raw_cycles cd)
      /\ forall acct c, In c (Py.get_or (member_cycles cd) acct []) -> Spec.length_ok c)
  /\ forall s, In s (suspicious_accounts res) -> Spec.cycle_tags_ok s.
Proof.
  unfold run. destruct (detect_cycles _ _ _) as [cd|] eqn:D; [|discriminate].
  intros Heq. apply some_inj in Heq. rewrite <- Heq.
  destruct (detect_cycles_kept _ _ _ _ D) as [Hraw Hmc].
  assert (Hlen : forall a c, In c (Py.get_or (member_cycles cd) a []) -> Spec.length_ok c).
  { intros a c Hc. rewrite Forall_forall in Hraw. apply Hraw. exact (Hmc _ _ Hc). }
  split; [exists cd; auto|].
  apply Forall_forall. unfold run_from_cycles, assembly_of. cbn [suspicious_accounts].
  apply sort_suspects_Forall, post_filter_Forall,
        (assemble_rings_Forall _ cycle_tags_ok_ring).
  unfold score_suspects. apply Forall_forall. intros s Hs.
  apply in_flat_map in Hs. destruct Hs as (acct & _ & Hs).
  destruct (make_suspect _ _ _ _ _ _ _ _) as [s0|] eqn:E; [|destruct Hs].
  destruct Hs as [<-|[]]. exact (make_suspect_tags_ok _ _ _ _ _ _ _ _ Hlen E).
Qed.

Lemma reported_cycles_length_witness :
  run Examples.rtA Examples.triangle = Some Examples.triangle_result
  /\ In Examples.triangle_first (suspicious_accounts Examples.triangle_result)
  /\ Spec.cycle_tags_ok Examples.triangle_first.
Proof.
  assert (R : run Examples.rtA Examples.triangle = Some Examples.triangle_result)
    by (vm_compute; reflexivity).
  assert (I : In Examples.triangle_first (suspicious_accounts Examples.triangle_result))
    by (vm_compute; left; reflexivity).
  split; [exact R|]. split; [exact I|].
  exact (proj2 (reported_cycles_length Examples.rtA Examples.triangle
                                       Examples.triangle_result R)
               Examples.triangle_first I).
Defined.

(** The cycle detector keeps no cycle of six accounts, but its members are
    then candidates of the shell detector: on [Examples.six_cycle] the six
    accounts come back as one ring of pattern [shell], without any cycle
    tag. *)
Lemma six_cycle_is_reported_by_the_shell_path :
  Examples.rings_view (Examples.result_of Examples.rtA Examples.six_cycle)
  = [("RING_001",
      ["CYC5_A"; "CYC5_B"; "CYC5_C"; "CYC5_D"; "CYC5_E"; "CYC5_F"], shell, 59.0)]
  /\ Forall (fun s => detected_patterns s = ["shell_chain"; "low_transaction_intermediary"])
            (suspicious_accounts (Examples.result_of Examples.rtA Examples.six_cycle)).
Proof. split; [vm_compute; reflexivity|vm_compute; repeat constructor]. Qed.

(** ** The empty batch *)

Lemma subgraph_empty (nodes : list string) : subgraph empty_graph nodes = empty_graph.
Proof. reflexivity. Qed.

Lemma detect_cycles_empty (rt : Library) (wl : list string) :
  set_iter rt [] = [] ->
  nx_simple_cycles rt empty_graph MAX_CYCLE_LENGTH = [] ->
  detect_cycles rt wl empty_graph = Some (mkCycleData [] [] [] [] []).
Proof.
  intros Hset Hcyc. unfold detect_cycles.
  rewrite subgraph_empty, Hcyc. cbn [gate_cycles].
  cbn [fold_left List.concat]. change (Py.set_of []) with (@nil string).
  unfold group_nodes. rewrite Hset. cbn [fold_left snd].
  reflexivity.
Qed.

Lemma run_from_cycles_empty (rt : Runtime) :
  set_iter rt [] = [] ->
  let res := run_from_cycles rt [] empty_graph [] [] (mkCycleData [] [] [] [] []) in
  suspicious_accounts res = [] /\ fraud_rings res = []
  /\ total_accounts_analyzed (summary res) = 0%nat
  /\ suspicious_accounts_flagged (summary res) = 0%nat
  /\ fraud_rings_detected (summary res) = 0%nat
  /\ mastermind_accounts_identified (summary res) = 0%nat
  /\ false_positives_filtered (summary res) = 0%nat.
Proof.
  intros Hset.
  assert (Hshell : detect_shell_chains rt [] empty_graph [] [] = []).
  { unfold detect_shell_chains. cbn [map app Py.set_of Py.set_union fold_left filter
                                     Py.set_diff].
    rewrite Hset. cbn [filter]. rewrite Hset. reflexivity. }
  assert (Hsus : score_suspects rt empty_graph [] (mkCycleData [] [] [] [] []) [] [] [] = []).
  { unfold score_suspects, suspect_pool.
    cbn [ring_map Py.keys map Py.set_of Py.set_union fold_left].
    rewrite Hset. reflexivity. }
  unfold run_from_cycles, assembly_of. cbn [cycle_members rings].
  rewrite Hshell. change (detect_mastermind rt empty_graph []) with (@nil (string * Mastermind)).
  rewrite Hsus. cbv zeta.
  repeat split.
Qed.

(** C8: when cleaning leaves no row, [run] returns a result (it does not
    raise) whose lists are empty and whose counts are all zero. The two
    premises on the runtime say that iterating over the empty set visits
    nothing and that the empty graph has no cycle. *)
Theorem run_empty_batch (rt : Runtime) (df0 : list Row) :
  clean df0 = [] ->
  set_iter rt [] = [] ->
  nx_simple_cycles rt empty_graph MAX_CYCLE_LENGTH = [] ->
  exists res,
    run rt df0 = Some res
    /\ suspicious_accounts res = [] /\ fraud_rings res = []
    /\ total_accounts_analyzed (summary res) = 0%nat
    /\ suspicious_accounts_flagged (summary res) = 0%nat
    /\ fraud_rings_detected (summary res) = 0%nat
    /\ mastermind_accounts_identified (summary res) = 0%nat
    /\ false_positives_filtered (summary res) = 0%nat.
Proof.
  intros Hclean Hset Hcyc. unfold run. rewrite Hclean.
  change (build_graph []) with empty_graph.
  change (detect_smurfing empty_graph [])
    with (@nil string, @nil (string * list string)).
  cbn [fst snd]. rewrite (detect_cycles_empty rt [] Hset Hcyc).
  eexists. split; [reflexivity|]. exact (run_from_cycles_empty rt Hset).
Qed.

Lemma run_empty_batch_witness :
  clean Examples.dropped_rows = []
  /\ exists res,
       run Examples.rtA Examples.dropped_rows = Some res
       /\ suspicious_accounts res = [] /\ fraud_rings res = []
       /\ total_accounts_analyzed (summary res) = 0%nat
       /\ suspicious_accounts_flagged (summary res) = 0%nat
       /\ fraud_rings_detected (summary res) = 0%nat
       /\ mastermind_accounts_identified (summary res) = 0%nat
       /\ false_positives_filtered (summary res) = 0%nat.
Proof.
  split; [reflexivity|].
  exact (run_empty_batch Examples.rtA Examples.dropped_rows eq_refl eq_refl eq_refl).
Defined.

(** ** Ring labels *)

Lemma unorm_not_Nil d : Decimal.unorm d <> Decimal.Nil.
Proof. unfold Decimal.unorm. destruct (Decimal.nzhead d); discriminate. Qed.

Lemma to_uint_not_Nil n : Nat.to_uint n <> Decimal.Nil.
Proof.
  rewrite <- (Unsigned.of_to n) at 1. rewrite Unsigned.to_of. apply unorm_not_Nil.
Qed.

Lemma str_nat_value n : Py.digits_value (Py.str_nat n) = Some n.
Proof.
  unfold Py.digits_value, Py.str_nat, NilZero.string_of_uint.
  pose proof (to_uint_not_Nil n) as H.
  destruct (Nat.to_uint n) eqn:E; [congruence| | | | | | | | | |];
    rewrite <- E, NilEmpty.usu; simpl; now rewrite Unsigned.of_to.
Qed.

Lemma zeros_value (k : nat) (s : string) (n : nat) :
  Py.digits_value s = Some n ->
  Py.digits_value (String.concat "" (repeat "0" k) ++ s) = Some n.
Proof.
  intros H. induction k as [|k IH].
  - exact H.
  - assert (E : (String.concat "" (repeat "0" (S k)) ++ s)%string
                = String "0" (String.concat "" (repeat "0" k) ++ s)%string).
    { simpl. destruct (repeat "0" k) eqn:R; [destruct k; [reflexivity|discriminate]|].
      reflexivity. }
    rewrite E. clear E H. unfold Py.digits_value in *. cbn [NilEmpty.uint_of_string].
    destruct (NilEmpty.uint_of_string (String.concat "" (repeat "0" k) ++ s)) as [d|];
      [|discriminate].
    simpl in *. injection IH as IH. f_equal.
    rewrite <- (Unsigned.of_uint_norm (Decimal.D0 d)), unorm_D0, Unsigned.of_uint_norm.
    exact IH.
Qed.

Lemma fmt_03d_value n : Py.digits_value (Py.fmt_03d n) = Some n.
Proof. unfold Py.fmt_03d. apply zeros_value, str_nat_value. Qed.

(** Below 1000 the format yields exactly three digits. *)
Lemma fmt_03d_width (i : nat) : (i < 1000)%nat -> String.length (Py.fmt_03d i) = 3%nat.
Proof.
  intros H.
  assert (A : forallb (fun i => (String.length (Py.fmt_03d i) =? 3)%nat) (seq 0 1000) = true)
    by (vm_compute; reflexivity).
  rewrite forallb_forall in A. apply Nat.eqb_eq, A, in_seq. lia.
Qed.

Lemma ring_label_inj i j : ring_label i = ring_label j -> i = j.
Proof.
  unfold ring_label. simpl. intros H. injection H as H.
  pose proof (fmt_03d_value i) as Hi. rewrite H, fmt_03d_value in Hi. congruence.
Qed.

Section SubseqFacts.
Context {A B : Type}.

Lemma subseq_refl (l : list A) : subseq l l.
Proof. induction l; constructor; assumption. Qed.

Lemma subseq_filter (f : A -> bool) (l : list A) : subseq (filter f l) l.
Proof.
  induction l as [|x l IH]; simpl; [constructor|].
  destruct (f x); constructor; assumption.
Qed.

Lemma subseq_trans (l1 l2 l3 : list A) : subseq l1 l2 -> subseq l2 l3 -> subseq l1 l3.
Proof.
  intros H12 H23. revert l1 H12.
  induction H23 as [|x l2 l3 H IH|x l2 l3 H IH]; intros l1 H12.
  - exact H12.
  - constructor. now apply IH.
  - inversion H12; subst; constructor; now apply IH.
Qed.

Lemma subseq_In (l1 l2 : list A) (x : A) : subseq l1 l2 -> In x l1 -> In x l2.
Proof.
  induction 1 as [|y l1 l2 H IH|y l1 l2 H IH]; simpl; intuition.
Qed.

Lemma subseq_map (f : A -> B) (l1 l2 : list A) :
  subseq l1 l2 -> subseq (map f l1) (map f l2).
Proof. induction 1; simpl; constructor; assumption. Qed.

Lemma subseq_map_inv (f : A -> B) (l : list B) (l2 : list A) :
  subseq l (map f l2) -> exists l1, l = map f l1 /\ subseq l1 l2.
Proof.
  revert l. induction l2 as [|x l2 IH]; simpl; intros l H.
  - inversion H; subst. exists []. split; [reflexivity|constructor].
  - inversion H; subst.
    + destruct (IH _ H2) as (l1 & -> & Hs). exists l1. split; [reflexivity|now constructor].
    + destruct (IH _ H2) as (l1' & -> & Hs). exists (x :: l1').
      split; [reflexivity|now constructor].
Qed.

Lemma subseq_sorted (R : A -> A -> Prop) (l1 l2 : list A) :
  subseq l1 l2 -> StronglySorted R l2 -> StronglySorted R l1.
Proof.
  induction 1 as [|y l1 l2 H IH|y l1 l2 H IH]; intros S2.
  - constructor.
  - inversion S2; subst. now apply IH.
  - inversion S2; subst. constructor; [now apply IH|].
    rewrite Forall_forall in *. intros z Hz. apply H3. exact (subseq_In _ _ _ H Hz).
Qed.

End SubseqFacts.

Lemma seq_sorted (a n : nat) : StronglySorted lt (seq a n).
Proof.
  revert a. induction n as [|n IH]; intros a; simpl; constructor; [apply IH|].
  apply Forall_forall. intros x Hx. apply in_seq in Hx. lia.
Qed.

Lemma sorted_NoDup (l : list nat) : StronglySorted lt l -> NoDup l.
Proof.
  induction 1 as [|x l S IH F]; constructor; [|exact IH].
  intros Hin. rewrite Forall_forall in F. specialize (F _ Hin). lia.
Qed.

Lemma ring_label_NoDup (l : list nat) : NoDup l -> NoDup (map ring_label l).
Proof.
  induction 1 as [|x l Hx N IH]; simpl; constructor; [|exact IH].
  intros Hin. apply in_map_iff in Hin. destruct Hin as (y & E & Hy).
  apply ring_label_inj in E. now subst.
Qed.

Lemma set_fresh {V : Type} (d : list (string * V)) (k : string) (v : V) :
  ~ In k (map fst d) -> Py.set d k v = d ++ [(k, v)].
Proof.
  induction d as [|[k' v'] d IH]; simpl; intros H; [reflexivity|].
  destruct (String.eqb k k') eqn:E.
  - apply String.eqb_eq in E. subst. exfalso. apply H. now left.
  - rewrite IH; [reflexivity|]. intros Hin. apply H. now right.
Qed.

Lemma ring_label_fresh (b : nat) : ~ In (ring_label (S b)) (map ring_label (seq 1 b)).
Proof.
  intros Hin. apply in_map_iff in Hin. destruct Hin as (y & E & Hy).
  apply ring_label_inj in E. apply in_seq in Hy. lia.
Qed.

Lemma labels_snoc (b : nat) :
  map ring_label (seq 1 b) ++ [ring_label (S b)] = map ring_label (seq 1 (S b)).
Proof. rewrite seq_S, map_app. reflexivity. Qed.

Lemma label_fold_keys (rt : Library) (items : list (string * list string)) :
  forall (b : nat) (rmap : list (string * string)) (rgs : list (string * list string)),
    map fst rgs = map ring_label (seq 1 b) ->
    map fst (snd (fold_left
                    (fun (st : list (string * string) * list (string * list string))
                         (ig : nat * (string * list string)) =>
                       let '(rmap, rgs) := st in
                       let '(idx, (_, mbrs)) := ig in
                       let rid := ring_label idx in
                       (fold_left (fun d m => Py.set d m rid) (set_iter rt mbrs) rmap,
                        Py.set rgs rid mbrs))
                    (combine (seq (S b) (List.length items)) items)
                    (rmap, rgs)))
    = map ring_label (seq 1 (b + List.length items)).
Proof.
  induction items as [|[r mbrs] items IH]; intros b rmap rgs Hk.
  - simpl. now rewrite Nat.add_0_r.
  - cbn [List.length seq combine fold_left].
    rewrite (IH (S b)); [f_equal; f_equal; lia|].
    rewrite set_fresh by (rewrite Hk; apply ring_label_fresh).
    rewrite map_app, Hk. apply labels_snoc.
Qed.

(** The cycle rings are labelled [RING_001], [RING_002], ... in the order
    of [rings.items()]. *)
Lemma label_groups_keys (rt : Library) (groups : list (string * list string)) :
  map fst (snd (label_groups rt groups))
  = map ring_label (seq 1 (List.length groups)).
Proof.
  unfold label_groups, enumerate.
  rewrite (label_fold_keys rt _ 0%nat [] [] eq_refl), sort_length. reflexivity.
Qed.

Lemma detect_cycles_labels (rt : Library) (wl : list string) (G : DiGraph) (cd : CycleData) :
  detect_cycles rt wl G = Some cd ->
  map fst (rings cd) = map ring_label (seq 1 (List.length (rings cd))).
Proof.
  unfold detect_cycles.
  destruct (gate_cycles G _) as [raw|]; [|discriminate].
  pose proof (label_groups_keys rt (group_nodes rt (fold_left union_cycle raw [])
                                                (Py.set_of (List.concat raw)))) as K.
  destruct (label_groups rt _) as [rmap rgs]. cbn [snd] in K.
  intros H. apply some_inj in H. subst cd. cbn [rings].
  rewrite K at 1. f_equal. f_equal.
  rewrite <- (length_map fst rgs), K, length_map, length_seq. reflexivity.
Qed.

Lemma labelled_append (st : Assembly) (r : Ring)
      (rmap : list (string * string)) (sus : list Suspect) :
  labelled st -> ring_id r = ring_label (a_ctr st) ->
  labelled (mkAssembly (S (a_ctr st)) (a_fraud_rings st ++ [r]) rmap sus).
Proof.
  intros (n & Hc & Hl) Hr. exists (S n). cbn [a_ctr a_fraud_rings].
  split; [now rewrite Hc|].
  rewrite map_app, Hl. cbn [map]. rewrite Hr, Hc. apply labels_snoc.
Qed.

Lemma smurfing_step_labelled (rt : Library) (wl : list string) (G : DiGraph)
      (df : list Tx) (st : Assembly) (item : string * list string) :
  labelled st -> labelled (smurfing_step rt wl G df st item).
Proof.
  intros H. unfold smurfing_step. destruct item as [hub pats].
  repeat match goal with
         | |- context [if ?b then _ else _] => destruct b; try assumption
         end.
  destruct (attach_members _ _ _ _) as [rmap sus].
  apply labelled_append; [exact H|reflexivity].
Qed.

Lemma shell_step_labelled (rt : Library) (G : DiGraph) (df : list Tx)
      (shell_map : list (string * nat)) (st : Assembly * list string) (n : string) :
  labelled (fst st) -> labelled (fst (shell_step rt G df shell_map st n)).
Proof.
  intros H. unfold shell_step. destruct st as [asm seen]. cbn [fst] in H.
  destruct (Py.mem n seen || has_key (a_ring_map asm) n); [exact H|].
  destruct (collect_chain _ _ _ _ _ _) as [chain seen'].
  destruct (2 <=? List.length chain)%nat; [|exact H].
  destruct (attach_members _ _ _ _) as [rmap sus]. cbn [fst].
  apply labelled_append; [exact H|reflexivity].
Qed.

Lemma cycle_ring_id (df : list Tx) (suspects : list Suspect)
      (mm : list (string * Mastermind)) (rgs : list (string * list string)) :
  map ring_id (map (cycle_ring df suspects mm) rgs) = map fst rgs.
Proof.
  rewrite map_map. apply map_ext. intros [rid mbrs]. reflexivity.
Qed.

(** Before the post-filter the labels are dense. *)
Lemma assemble_rings_labelled (rt : Library) (wl : list string) (G : DiGraph)
      (df : list Tx) (cd : CycleData) (smurf_map : list (string * list string))
      (shell_map : list (string * nat)) (mm : list (string * Mastermind))
      (suspects : list Suspect) :
  map fst (rings cd) = map ring_label (seq 1 (List.length (rings cd))) ->
  labelled (assemble_rings rt wl G df cd smurf_map shell_map mm suspects).
Proof.
  intros Hk. unfold assemble_rings.
  apply (fold_left_invariant (fun st => labelled (fst st))).
  - cbn [fst]. apply (fold_left_invariant labelled).
    + exists (List.length (rings cd)). cbn [a_ctr a_fraud_rings].
      split; [lia|]. now rewrite cycle_ring_id.
    + intros. now apply smurfing_step_labelled.
  - intros. now apply shell_step_labelled.
Qed.

Lemma post_filter_subseq (wl : list string) (suspects : list Suspect)
      (fraud_rings : list Ring) :
  subseq (map ring_id (f_fraud_rings (post_filter wl suspects fraud_rings)))
         (map ring_id fraud_rings).
Proof.
  unfold post_filter. rewrite whitelist_sweep_rings.
  unfold drop_orphans, drop. cbn [f_fraud_rings].
  apply subseq_map.
  repeat (eapply subseq_trans; [apply subseq_filter|]).
  apply subseq_refl.
Qed.

(** On [Examples.two_triangles] the first ring passes the cycle gate with a
    total of 3000 and then falls to the amount rule of the post-filter, so
    the only label of the final result is [RING_002]. C2 fails as stated. *)
Lemma labels_not_dense_after_post_filter :
  exists res,
    run Examples.rtA Examples.two_triangles = Some res
    /\ map ring_id (fraud_rings res) = ["RING_002"]
    /\ ~ Spec.dense_labels (map ring_id (fraud_rings res)).
Proof.
  eexists. split; [vm_compute; reflexivity|].
  split; [reflexivity|].
  unfold Spec.dense_labels. cbn [fraud_rings map List.length seq]. discriminate.
Qed.

Lemma labelled_dense (st : Assembly) :
  labelled st -> Spec.dense_labels (map ring_id (a_fraud_rings st)).
Proof.
  intros (n & _ & H). unfold Spec.dense_labels.
  rewrite H at 1. now rewrite H, length_map, length_seq.
Qed.

(** C2, amended: before the post-filter the labels are dense,
    [RING_001], [RING_002], ...; the labels of the final rings are a
    subsequence of them: [ring_label] of strictly increasing indices from 1
    on, pairwise different, each index written in decimal and padded with
    zeros, with exactly three digits below 1000. *)
Theorem ring_labels_increasing (rt : Runtime) (df0 : list Row) (res : AnalysisResult) :
  run rt df0 = Some res ->
  let df := clean df0 in
  let G := build_graph df in
  let wl := fst (detect_smurfing G df) in
  let smurf_map := snd (detect_smurfing G df) in
  exists (cd : CycleData) (idxs : list nat),
    detect_cycles rt wl G = Some cd
    /\ Spec.dense_labels
         (map ring_id (a_fraud_rings (assembly_of rt df G wl smurf_map cd)))
    /\ subseq (map ring_id (fraud_rings res))
              (map ring_id (a_fraud_rings (assembly_of rt df G wl smurf_map cd)))
    /\ map ring_id (fraud_rings res) = map ring_label idxs
    /\ StronglySorted lt idxs
    /\ NoDup (map ring_id (fraud_rings res))
    /\ forall i, In i idxs ->
                 (1 <= i)%nat
                 /\ Py.digits_value (Py.fmt_03d i) = Some i
                 /\ ((i < 1000)%nat -> String.length (Py.fmt_03d i) = 3%nat).
Proof.
  unfold run. destruct (detect_cycles _ _ _) as [cd|] eqn:D; [|discriminate].
  intros Heq. apply some_inj in Heq. rewrite <- Heq. cbv zeta.
  unfold run_from_cycles. cbn [fraud_rings].
  set (asm := assembly_of rt _ _ _ _ cd).
  assert (Hlab : labelled asm)
    by (apply assemble_rings_labelled; exact (detect_cycles_labels _ _ _ _ D)).
  pose proof (post_filter_subseq (fst (detect_smurfing (build_graph (clean df0)) (clean df0)))
                                 (a_suspects asm) (a_fraud_rings asm)) as Hsub.
  pose proof (labelled_dense asm Hlab) as Hdense.
  destruct Hlab as (n & _ & Hl).
  pose proof Hsub as Hsub'. rewrite Hl in Hsub'.
  destruct (subseq_map_inv _ _ _ Hsub') as (idxs & E & Hs).
  pose proof (subseq_sorted lt _ _ Hs (seq_sorted 1 n)) as Hsorted.
  exists cd, idxs. split; [reflexivity|]. split; [exact Hdense|].
  split; [exact Hsub|]. split; [exact E|]. split; [exact Hsorted|].
  split; [rewrite E; apply ring_label_NoDup, sorted_NoDup, Hsorted|].
  intros i Hi. pose proof (subseq_In _ _ _ Hs Hi) as Hin. apply in_seq in Hin.
  split; [lia|]. split; [apply fmt_03d_value|]. intros Hlt.
  apply fmt_03d_width. exact Hlt.
Qed.

Lemma ring_labels_increasing_witness :
  run Examples.rtA Examples.two_triangles = Some Examples.two_triangles_result
  /\ exists idxs : list nat,
       map ring_id (fraud_rings Examples.two_triangles_result) = map ring_label idxs
       /\ StronglySorted lt idxs
       /\ NoDup (map ring_id (fraud_rings Examples.two_triangles_result)).
Proof.
  assert (R : run Examples.rtA Examples.two_triangles = Some Examples.two_triangles_result)
    by (vm_compute; reflexivity).
  split; [exact R|].
  destruct (ring_labels_increasing Examples.rtA Examples.two_triangles
                                   Examples.two_triangles_result R)
    as (cd & idxs & _ & _ & _ & A & B & C & _).
  exists idxs. repeat split; assumption.
Defined.

(** ** Determinism *)

(** The order of the suspects follows the order in which the set [all_ids]
    is visited: on [Examples.triangle] the three accounts score alike, and
    two interpreters that visit the set in different orders return them in
    different orders. *)
Lemma suspect_order_follows_set_order :
  exists r1 r2,
    run Examples.rtA Examples.triangle = Some r1
    /\ run Examples.rtDesc Examples.triangle = Some r2
    /\ map account_id (suspicious_accounts r1) = ["CYC3_A"; "CYC3_B"; "CYC3_C"]
    /\ map account_id (suspicious_accounts r2) = ["CYC3_C"; "CYC3_B"; "CYC3_A"].
Proof.
  eexists. eexists.
  split; [vm_compute; reflexivity|]. split; [vm_compute; reflexivity|].
  split; reflexivity.
Qed.

(** What does hold: the uuid and the clocks reach no other field. Two
    runs on the same table in which sets are visited in the same order and
    the graph library answers alike either both raise or return results that
    agree in every field except [analysis_id], [timestamp] and
    [processing_time_seconds]. *)
Lemma run_deterministic_given_library (rt1 rt2 : Runtime) (df0 : list Row) :
  library rt1 = library rt2 ->
  match run rt1 df0, run rt2 df0 with
  | Some r1, Some r2 => Spec.same_modulo_run_fields r1 r2
  | None, None => True
  | _, _ => False
  end.
Proof.
  intros H. unfold run. rewrite H.
  destruct (detect_cycles _ _ _) as [cd|]; [|exact I].
  unfold run_from_cycles, Spec.same_modulo_run_fields. rewrite H.
  cbn [suspicious_accounts fraud_rings summary total_accounts_analyzed
       suspicious_accounts_flagged fraud_rings_detected
       mastermind_accounts_identified false_positives_filtered].
  repeat split.
Qed.

(** The runs under [Examples.rtA] and [Examples.rtB], which differ in the
    uuid and the clocks only, agree on [Examples.two_chains]. *)
Lemma runs_agree_across_clocks :
  match run Examples.rtA Examples.two_chains, run Examples.rtB Examples.two_chains with
  | Some r1, Some r2 => Spec.same_modulo_run_fields r1 r2
  | None, None => True
  | _, _ => False
  end.
Proof.
  exact (run_deterministic_given_library Examples.rtA Examples.rtB Examples.two_chains
                                         eq_refl).
Qed.

(** C9, on the table [Examples.two_chains]: the labels of the shell rings
    follow the order in which the set [pot] is visited, so the chain that is
    reached first becomes [RING_001]. Under two interpreters that visit the
    set in different orders, two runs on the same table swap the labels of
    the two rings, and the results differ in [fraud_rings]. *)
Theorem run_depends_on_set_order :
  exists r1 r2,
    run Examples.rtA Examples.two_chains = Some r1
    /\ run Examples.rtDesc Examples.two_chains = Some r2
    /\ map (fun r => (ring_id r, member_accounts r)) (fraud_rings r1)
       = [("RING_001", ["SH_INT1A"; "SH_INT1B"; "SH_INT1C"]);
          ("RING_002", ["SH_INT2A"; "SH_INT2B"; "SH_INT2C"])]
    /\ map (fun r => (ring_id r, member_accounts r)) (fraud_rings r2)
       = [("RING_001", ["SH_INT2A"; "SH_INT2B"; "SH_INT2C"]);
          ("RING_002", ["SH_INT1A"; "SH_INT1B"; "SH_INT1C"])]
    /\ ~ Spec.same_modulo_run_fields r1 r2.
Proof.
  eexists. eexists.
  split; [vm_compute; reflexivity|]. split; [vm_compute; reflexivity|].
  split; [reflexivity|]. split; [reflexivity|].
  intros (_ & H & _). apply (f_equal (map member_accounts)) in H.
  discriminate H.
Qed.

(** ** The mastermind of a ring *)









(** The selection loop returns the first member with the largest
    composite. *)
Lemma select_best_fold (bc od vol : list (string * Q)) (order : list string)
      (b0 : option string) (c0 : Q) :
  c0 <= snd (fold_left (best_step bc od vol) order (b0, c0))
  /\ (forall n, In n order ->
                composite bc od vol n <= snd (fold_left (best_step bc od vol) order (b0, c0)))
  /\ (fold_left (best_step bc od vol) order (b0, c0) = (b0, c0)
      \/ exists n, In n order
                   /\ fold_left (best_step bc od vol) order (b0, c0)
                      = (Some n, composite bc od vol n)).
Proof.
  revert b0 c0. induction order as [|m order IH]; intros b0 c0; cbn [fold_left].
  - cbn [snd]. split; [apply Qle_refl|]. split; [intros n []|now left].
  - unfold best_step at 2 4 6 8. cbn [snd].
    destruct (Py.qltb c0 (composite bc od vol m)) eqn:E.
    + apply qltb_true in E.
      destruct (IH (Some m) (composite bc od vol m)) as (A & B & C).
      split; [lra|]. split.
      * intros n [<-|Hn]; [exact A|now apply B].
      * right. destruct C as [C|(n & Hn & C)].
        -- exists m. split; [now left|exact C].
        -- exists n. split; [now right|exact C].
    + apply qltb_false in E.
      destruct (IH b0 c0) as (A & B & C).
      split; [exact A|]. split.
      * intros n [<-|Hn]; [lra|now apply B].
      * destruct C as [C|(n & Hn & C)]; [now left|].
        right. exists n. split; [now right|exact C].
Qed.





(** ** The scenarios of section 8 *)

(** Scenario 1: one ring [RING_001] of pattern cycle with the three
    accounts, each with a cycle score of 40. *)
Lemma scenario_fraud_triangle :
  Examples.rings_view Examples.triangle_result
  = [("RING_001", ["CYC3_A"; "CYC3_B"; "CYC3_C"], cycle, 62.5)]
  /\ map (fun s => sb_cycle_score (score_breakdown s))
         (suspicious_accounts Examples.triangle_result)
     = [40.00; 40.00; 40.00].
Proof. split; vm_compute; reflexivity. Qed.

(** Scenario 2: the cycle detector rejects the all-legit triangle (average
    10000 below 25000) and reports no cycle ring; its three accounts, no
    longer cycle members, are then picked up by the shell detector. *)
Lemma scenario_legit_triangle :
  option_map raw_cycles
    (detect_cycles Examples.rtA [] (build_graph (clean Examples.legit_triangle)))
  = Some []
  /\ Examples.rings_view (Examples.result_of Examples.rtA Examples.legit_triangle)
     = [("RING_001", ["LEGIT_A"; "LEGIT_B"; "LEGIT_C"], shell, 54.5)].
Proof. split; vm_compute; reflexivity. Qed.

(** Scenario 3: the hub has [fan_in] and [high_velocity]; one smurfing ring
    of 13 members with risk 59.8. *)
Lemma scenario_fan_in_hub :
  Examples.rings_view (Examples.result_of Examples.rtA Examples.fan_in_hub)
  = [("RING_001",
      ["SMURF_H"; "SMURF_P1"; "SMURF_P10"; "SMURF_P11"; "SMURF_P12"; "SMURF_P2";
       "SMURF_P3"; "SMURF_P4"; "SMURF_P5"; "SMURF_P6"; "SMURF_P7"; "SMURF_P8";
       "SMURF_P9"], smurfing, 59.8)]
  /\ Examples.suspects_view (Examples.result_of Examples.rtA Examples.fan_in_hub)
     = [("SMURF_H", Some "RING_001", 45.00, ["fan_in"; "high_velocity"])].
Proof. split; vm_compute; reflexivity. Qed.

(** Scenario 5: the three interior accounts of the chain form a shell
    ring. *)
Lemma scenario_shell_chain :
  Examples.rings_view (Examples.result_of Examples.rtA Examples.shell_chain)
  = [("RING_001", ["SH_INT1"; "SH_INT2"; "SH_INT3"], shell, 54.5)].
Proof. vm_compute; reflexivity. Qed.

(** Scenario 6: a hub with [fan_in] only and a total of 30 is dropped as an
    orphan and counted as a false positive. *)
Lemma scenario_orphan :
  suspicious_accounts (Examples.result_of Examples.rtA Examples.slow_fan_in) = []
  /\ fraud_rings (Examples.result_of Examples.rtA Examples.slow_fan_in) = []
  /\ false_positives_filtered
       (summary (Examples.result_of Examples.rtA Examples.slow_fan_in)) = 1%nat
  /\ option_map suspicion_score
       (make_suspect (build_graph (clean Examples.slow_fan_in))
                     (clean Examples.slow_fan_in)
                     (mkCycleData [] [] [] [] [])
                     [("ACC_H", ["fan_in"])] []
                     (make_pre (build_graph (clean Examples.slow_fan_in))
                               (compute_vel_counts (clean Examples.slow_fan_in) ["ACC_H"]))
                     [] "ACC_H")
     = Some 30.00.
Proof. repeat split; vm_compute; reflexivity. Qed.

(** * Further properties of the detectors and of [run] *)

(** ** Account prefixes *)

Lemma prefix_cons (a b : ascii) (s t : string) :
  String.prefix (String a s) (String b t)
  = if Ascii.eqb a b then String.prefix s t else false.
Proof.
  cbn [String.prefix]. destruct (ascii_dec a b) as [->|N].
  - rewrite Ascii.eqb_refl. reflexivity.
  - apply Ascii.eqb_neq in N. rewrite N. reflexivity.
Qed.

Lemma legit_not_fraud (n : string) : String.prefix "LEGIT_" n = true -> _is_fraud n = false.
Proof.
  destruct n as [|ch n']; [discriminate|].
  rewrite prefix_cons. destruct (Ascii.eqb "L" ch) eqn:E; [|discriminate].
  apply Ascii.eqb_eq in E. subst ch. intros _. reflexivity.
Qed.

Lemma all_legit_no_fraud (c : list string) :
  _all_legit c = true -> existsb _is_fraud c = false.
Proof.
  induction c as [|n c IH]; simpl; [reflexivity|].
  intros H. apply andb_true_iff in H. destruct H as [Hn Hc].
  rewrite (legit_not_fraud n Hn), (IH Hc). reflexivity.
Qed.

(** ** Dictionaries *)

Lemma get_set_same {V : Type} (d : list (string * V)) (k : string) (v : V) :
  Py.get (Py.set d k v) k = Some v.
Proof.
  induction d as [|[k' v'] d IH]; simpl.
  - rewrite String.eqb_refl. reflexivity.
  - destruct (String.eqb k k') eqn:E; simpl; rewrite E; [reflexivity|exact IH].
Qed.

Lemma get_set_other {V : Type} (d : list (string * V)) (k k' : string) (v : V) :
  k' <> k -> Py.get (Py.set d k v) k' = Py.get d k'.
Proof.
  intros N. induction d as [|[k0 v0] d IH]; simpl.
  - apply String.eqb_neq in N. rewrite N. reflexivity.
  - destruct (String.eqb k k0) eqn:E; simpl.
    + apply String.eqb_eq in E. subst k0.
      apply String.eqb_neq in N. rewrite N. reflexivity.
    + destruct (String.eqb k' k0); [reflexivity|exact IH].
Qed.

Lemma get_map_key {V : Type} (f : string -> V) (l : list string) (k : string) :
  Py.get (map (fun n => (n, f n)) l) k = if Py.mem k l then Some (f k) else None.
Proof.
  induction l as [|n l IH]; simpl; [reflexivity|].
  destruct (String.eqb k n) eqn:E; simpl.
  - apply String.eqb_eq in E. subst n. reflexivity.
  - exact IH.
Qed.

(** ** The precomputed degree tables *)

Lemma make_pre_degrees (G : DiGraph) (vc : list (string * Q)) (a : string) :
  Py.get_or (in_degrees (make_pre G vc)) a 0%nat
  = (if has_node G a then in_degree G a else 0%nat)
  /\ Py.get_or (out_degrees (make_pre G vc)) a 0%nat
     = (if has_node G a then out_degree G a else 0%nat)
  /\ total_nodes (make_pre G vc) = number_of_nodes G.
Proof.
  unfold make_pre, Py.get_or, has_node; cbn [in_degrees out_degrees total_nodes].
  rewrite !get_map_key. destruct (Py.mem a (g_nodes G)); repeat split; reflexivity.
Qed.

(** X1: compute_suspicion_score returns the same cycle_score, fan_score and
    shell_score when it is given the precomputed statistics that run builds
    from the graph (in_degrees, out_degrees, total_nodes) as when it is
    called with pre = None and reads the degrees and the node count from the
    graph itself. *)
Theorem pre_and_fallback_agree_outside_velocity
        (acct : string) (G : DiGraph) (df : list Tx) (cd : CycleData)
        (smurf_map : list (string * list string)) (shell_map : list (string * nat))
        (vc : list (string * Q)) :
  let with_pre :=
    compute_suspicion_score acct G df cd smurf_map shell_map (Some (make_pre G vc)) in
  let without :=
    compute_suspicion_score acct G df cd smurf_map shell_map None in
  cycle_score with_pre = cycle_score without
  /\ fan_score with_pre = fan_score without
  /\ shell_score with_pre = shell_score without.
Proof.
  unfold compute_suspicion_score.
  destruct (make_pre_degrees G vc acct) as (Hi & Ho & Hn).
  rewrite Hi, Ho, Hn. cbn [cycle_score fan_score shell_score].
  repeat split; reflexivity.
Qed.

(** ** Rounding to any number of decimals *)

Lemma pow10_pos (n : nat) : (0 < 10 ^ Z.of_nat n)%Z.
Proof. apply Z.pow_pos_nonneg; lia. Qed.

Lemma round_le_int (x : Q) (n : nat) (z : Z) : x <= inject_Z z -> Py.round x n <= inject_Z z.
Proof.
  intros H. unfold Py.round.
  pose proof (pow10_pos n) as Hp. set (s := (10 ^ Z.of_nat n)%Z) in *.
  assert (R : (Py.round_half_even (x * inject_Z s) <= z * s)%Z).
  { apply round_half_even_le. rewrite inject_Z_mult.
    apply Qmult_le_compat_r; [exact H|]. rewrite <- (Zle_Qle 0). lia. }
  unfold Qle; simpl. rewrite Z2Pos.id by exact Hp. lia.
Qed.

Lemma round_ge_int (x : Q) (n : nat) (z : Z) : inject_Z z <= x -> inject_Z z <= Py.round x n.
Proof.
  intros H. unfold Py.round.
  pose proof (pow10_pos n) as Hp. set (s := (10 ^ Z.of_nat n)%Z) in *.
  assert (R : (z * s <= Py.round_half_even (x * inject_Z s))%Z).
  { apply round_half_even_ge. rewrite inject_Z_mult.
    apply Qmult_le_compat_r; [exact H|]. rewrite <- (Zle_Qle 0). lia. }
  unfold Qle; simpl. rewrite Z2Pos.id by exact Hp. lia.
Qed.

(** ** The mastermind score *)

Lemma tenth (x : Q) : x / (10 # 100) == x * 10.
Proof. field. Qed.

Lemma base_score_cases (c : Q) :
  ((90 # 100) <= c /\ base_score c == 95 + (c - (90 # 100)) * 50)
  \/ ((80 # 100) <= c /\ c < (90 # 100) /\ base_score c == 85 + (c - (80 # 100)) * 100)
  \/ (c < (80 # 100) /\ base_score c == 75 + (c - (70 # 100)) * 100).
Proof.
  unfold base_score.
  destruct (Py.qleb (90 # 100) c) eqn:E1.
  - left. apply qleb_true in E1. split; [exact E1|]. rewrite tenth. ring.
  - apply qleb_false in E1. destruct (Py.qleb (80 # 100) c) eqn:E2.
    + right; left. apply qleb_true in E2. repeat split; try assumption.
      rewrite tenth. ring.
    + right; right. apply qleb_false in E2. split; [exact E2|]. rewrite tenth. ring.
Qed.

(** X2: The three-tier base score that detect_mastermind derives from the
    best composite (95 + ... from 0.90, 85 + ... from 0.80, 75 + ... below)
    is monotone: a larger composite never gives a smaller base score, so the
    tiers join without a downward step. *)
Theorem base_score_monotone (c1 c2 : Q) :
  c1 <= c2 -> base_score c1 <= base_score c2.
Proof.
  intros H.
  destruct (base_score_cases c1) as [[A1 E1]|[(A1 & B1 & E1)|[A1 E1]]];
  destruct (base_score_cases c2) as [[A2 E2]|[(A2 & B2 & E2)|[A2 E2]]];
  rewrite E1, E2; lra.
Qed.

Lemma base_score_monotone_witness :
  (80 # 100) <= (90 # 100) /\ base_score (80 # 100) <= base_score (90 # 100).
Proof.
  assert (H : (80 # 100) <= (90 # 100)) by (unfold Qle; simpl; lia).
  split; [exact H|]. exact (base_score_monotone _ _ H).
Defined.

Lemma q_of_nat_nonneg (n : nat) : 0 <= q_of_nat n.
Proof. unfold q_of_nat. rewrite <- (Zle_Qle 0). lia. Qed.

Lemma select_best_member (bc od vol : list (string * Q)) (order : list string)
      (best : string) (c : Q) :
  select_best bc od vol order = (Some best, c) ->
  In best order /\ c = composite bc od vol best.
Proof.
  unfold select_best. intros H.
  destruct (select_best_fold bc od vol order None (-1)) as (_ & _ & [E|(n & Hn & E)]).
  - rewrite E in H. discriminate H.
  - rewrite E in H. injection H as <- <-. split; [exact Hn|reflexivity].
Qed.

Lemma ring_mastermind_inv (rt : Library) (G : DiGraph) (rc : list (string * nat))
      (mbrs : list string) (m : Mastermind) :
  ring_mastermind rt G rc mbrs = Some m ->
  _all_legit (set_iter rt mbrs) = false
  /\ In (mm_account_id m) (set_iter rt mbrs)
  /\ exists c, (75 # 100) <= c
               /\ mastermind_score m
                  = Py.round (Py.qmin 100 (base_score c
                       + q_of_nat (Py.get_or rc (mm_account_id m) 1%nat - 1) * 15)) 1.
Proof.
  unfold ring_mastermind.
  destruct (_all_legit (set_iter rt mbrs)); [discriminate|].
  destruct (number_of_nodes (subgraph G mbrs) <=? 1)%nat; [discriminate|].
  destruct (select_best _ _ _ _) as [best c] eqn:Es.
  destruct (falsy best) eqn:Ef; [discriminate|]. cbn [orb].
  destruct (Py.qltb c (75 # 100)) eqn:Ec; [discriminate|].
  apply qltb_false in Ec.
  destruct best as [b|]; [|discriminate Ef].
  apply select_best_member in Es. destruct Es as [Hin _].
  intros H. apply some_inj in H. subst m. cbn [mm_account_id mastermind_score].
  split; [reflexivity|]. split; [exact Hin|]. exists c. split; [exact Ec|reflexivity].
Qed.

Lemma set_In_key {V : Type} (d : list (string * V)) (k : string) (v : V) (kv : string * V) :
  In kv (Py.set d k v) -> In kv d \/ kv = (k, v).
Proof.
  induction d as [|[k' v'] d IH]; simpl.
  - intros [<-|[]]. now right.
  - destruct (String.eqb k k') eqn:E; simpl.
    + apply String.eqb_eq in E. subst k'. intros [<-|H]; [now right|left; now right].
    + intros [<-|H]; [left; now left|].
      destruct (IH H) as [H'|H']; [left; now right|now right].
Qed.

Lemma detect_mastermind_inv (rt : Library) (G : DiGraph)
      (rings : list (string * list string)) (rid : string) (m : Mastermind) :
  In (rid, m) (detect_mastermind rt G rings) ->
  exists mbrs, In (rid, mbrs) rings
               /\ ring_mastermind rt G (count_rings rt rings) mbrs = Some m.
Proof.
  unfold detect_mastermind. destruct rings as [|r0 rs]; [intros []|].
  set (rings := r0 :: rs). set (rc := count_rings rt rings).
  assert (I : forall l acc,
             (forall x, In x l -> In x rings) ->
             In (rid, m)
                (fold_left (fun result r =>
                              match ring_mastermind rt G rc (snd r) with
                              | Some m => Py.set result (fst r) m
                              | None => result
                              end) l acc) ->
             In (rid, m) acc
             \/ exists mbrs, In (rid, mbrs) rings
                             /\ ring_mastermind rt G rc mbrs = Some m).
  { induction l as [|r l IH]; intros acc Hl; simpl; [now left|].
    intros H. destruct (IH _ (fun x Hx => Hl x (or_intror Hx)) H) as [H'|H'];
      [|now right].
    destruct (ring_mastermind rt G rc (snd r)) as [m'|] eqn:E; [|now left].
    apply set_In_key in H'. destruct H' as [H'|H']; [now left|].
    injection H' as -> ->. right. exists (snd r). split; [|exact E].
    destruct r as [k mb]. apply Hl. now left. }
  intros H. destruct (I rings [] (fun x Hx => Hx) H) as [[]|H']. exact H'.
Qed.

(** X3: Every entry that detect_mastermind returns for a ring id belongs to
    a ring of its input with that id, names an account that is a member of
    that ring, is never produced for a ring whose members are all
    LEGIT_-prefixed, and carries a mastermind_score between 80 and 100. *)
Theorem detect_mastermind_entries (rt : Library) (G : DiGraph)
        (rings : list (string * list string)) (rid : string) (m : Mastermind) :
  In (rid, m) (detect_mastermind rt G rings) ->
  exists mbrs,
    In (rid, mbrs) rings
    /\ In (mm_account_id m) (set_iter rt mbrs)
    /\ _all_legit (set_iter rt mbrs) = false
    /\ 80 <= mastermind_score m /\ mastermind_score m <= 100.
Proof.
  intros H. apply detect_mastermind_inv in H. destruct H as (mbrs & Hin & E).
  exists mbrs. apply ring_mastermind_inv in E.
  destruct E as (Hl & Hm & c & Hc & Hs).
  split; [exact Hin|]. split; [exact Hm|]. split; [exact Hl|].
  rewrite Hs.
  set (bonus := q_of_nat (Py.get_or (count_rings rt rings) (mm_account_id m) 1%nat - 1) * 15).
  assert (Hb : 0 <= bonus).
  { unfold bonus.
    pose proof (q_of_nat_nonneg (Py.get_or (count_rings rt rings) (mm_account_id m) 1%nat - 1)).
    nra. }
  assert (H80 : 80 <= base_score c).
  { destruct (base_score_cases c) as [[A E]|[(A & B & E)|[A E]]]; rewrite E; lra. }
  split.
  - apply (round_ge_int _ 1 80).
    destruct (qmin_cases 100 (base_score c + bonus)) as [[-> _]|[-> _]];
      change (inject_Z 80) with 80; lra.
  - apply (round_le_int _ 1 100). change (inject_Z 100) with 100. apply qmin_le_l.
Qed.

Lemma detect_mastermind_entries_witness :
  In ("RING_001", mkMastermind "NODE_H" (Py.round 100 1))
     (detect_mastermind Examples.rtA Examples.hub_G [("RING_001", Examples.hub_members)])
  /\ exists mbrs,
       In ("RING_001", mbrs) [("RING_001", Examples.hub_members)]
       /\ In "NODE_H" (set_iter Examples.rtA mbrs)
       /\ _all_legit (set_iter Examples.rtA mbrs) = false
       /\ 80 <= Py.round 100 1 /\ Py.round 100 1 <= 100.
Proof.
  assert (H : In ("RING_001", mkMastermind "NODE_H" (Py.round 100 1))
                 (detect_mastermind Examples.rtA Examples.hub_G
                                    [("RING_001", Examples.hub_members)]))
    by (vm_compute; left; reflexivity).
  split; [exact H|].
  exact (detect_mastermind_entries Examples.rtA Examples.hub_G
           [("RING_001", Examples.hub_members)] "RING_001"
           (mkMastermind "NODE_H" (Py.round 100 1)) H).
Defined.

(** ** Traversals of sets *)

Lemma set_iter_In (rt : Library) (s : list string) (x : string) :
  set_iter_ok rt -> (In x (set_iter rt s) <-> In x s).
Proof.
  intros H. split; intros Hx.
  - exact (Permutation_in x (H s) Hx).
  - exact (Permutation_in x (Permutation_sym (H s)) Hx).
Qed.

Lemma ref_set_iter_ok (uuid now : string) (t0 t1 : Q) :
  set_iter_ok (Ref.runtime uuid now t0 t1).
Proof. intros s. apply Permutation_refl. Qed.

Lemma fold_left_invariant_In {S X : Type} (I : S -> Prop) (f : S -> X -> S)
      (l : list X) (s : S) :
  I s -> (forall s x, In x l -> I s -> I (f s x)) -> I (fold_left f l s).
Proof.
  revert s. induction l as [|x l IH]; intros s Hs Hf; simpl; [exact Hs|].
  apply IH; [apply Hf; [now left|exact Hs]|].
  intros s' x' Hx'. apply Hf. now right.
Qed.

(** ** Shell chains *)

Lemma mem_set_diff (x : string) (s t : list string) :
  In x (Py.set_diff s t) <-> In x s /\ Py.mem x t = false.
Proof.
  unfold Py.set_diff. rewrite filter_In, negb_true_iff. reflexivity.
Qed.

Lemma shell_fold_Forall (G : DiGraph) (pot order : list string) :
  Forall (fun kv : string * nat => (4 <= snd kv)%nat /\ In (fst kv) pot)
         (fst (fold_left
             (fun (st : list (string * nat) * list string) (start : string) =>
                let '(shell_map, seen) := st in
                if Py.mem start seen then st
                else
                  let seg := shell_segment G pot start in
                  if (4 <=? List.length seg)%nat then
                    let shells := filter (fun n => Py.mem n pot) seg in
                    if (2 <=? List.length shells)%nat then
                      fold_left (fun st' n =>
                                   (Py.set (fst st') n (List.length seg),
                                    Py.set_add n (snd st')))
                                shells (shell_map, seen)
                    else st
                  else st)
             order ([], []))).
Proof.
  set (P := fun kv : string * nat => (4 <= snd kv)%nat /\ In (fst kv) pot).
  apply (fold_left_invariant (fun st => Forall P (fst st))); [constructor|].
  intros [shell_map seen] start Hst. cbn [fst] in Hst.
  destruct (Py.mem start seen); [exact Hst|].
  cbv zeta. destruct (4 <=? _)%nat eqn:E4; [|exact Hst].
  destruct (2 <=? _)%nat; [|exact Hst].
  apply Nat.leb_le in E4.
  assert (Hs : Forall (fun x => In x pot)
                      (filter (fun n => Py.mem n pot) (shell_segment G pot start))).
  { apply Forall_forall. intros x Hx. apply filter_In in Hx.
    apply mem_In. exact (proj2 Hx). }
  apply (fold_left_invariant_In (fun st => Forall P (fst st))); [exact Hst|].
  intros st x Hx HP. cbn [fst]. apply Forall_forall. intros kv Hkv.
  apply set_In_key in Hkv. destruct Hkv as [Hkv| ->].
  - exact (proj1 (Forall_forall _ _) HP kv Hkv).
  - split; [exact E4|]. cbn [fst].
    exact (proj1 (Forall_forall _ _) Hs x Hx).
Qed.

Lemma detect_shell_chains_depth (rt : Library) (wl : list string) (G : DiGraph)
      (df : list Tx) (cm : list string) :
  Forall (fun kv : string * nat => (4 <= snd kv)%nat) (detect_shell_chains rt wl G df cm).
Proof.
  unfold detect_shell_chains.
  eapply Forall_impl; [|apply shell_fold_Forall]. intros kv H. exact (proj1 H).
Qed.

(** X4: Every account that detect_shell_chains returns has a recorded chain
    depth of at least 4, in-degree exactly 1 and out-degree at least 1 in
    the graph, between 1 and SHELL_MAX_TX_COUNT (4) occurrences among the
    senders and receivers of the table, and is neither whitelisted nor a
    cycle member (provided a set is traversed as a permutation of its
    elements). *)
Theorem detect_shell_chains_entries (rt : Library) (wl : list string) (G : DiGraph)
        (df : list Tx) (cm : list string) (n : string) (d : nat) :
  set_iter_ok rt ->
  In (n, d) (detect_shell_chains rt wl G df cm) ->
  (4 <= d)%nat
  /\ in_degree G n = 1%nat /\ (1 <= out_degree G n)%nat
  /\ (1 <= value_count df n <= SHELL_MAX_TX_COUNT)%nat
  /\ Py.mem n wl = false /\ Py.mem n cm = false.
Proof.
  intros Hrt. unfold detect_shell_chains.
  set (cands0 := filter _ (Py.set_of _)).
  set (cands := Py.set_diff (Py.set_diff cands0 wl) cm).
  set (pot := filter _ (set_iter rt cands)).
  intros H.
  pose proof (proj1 (Forall_forall _ _) (shell_fold_Forall G pot (set_iter rt pot)) _ H)
    as [H4 Hpot].
  cbn [fst snd] in *.
  split; [exact H4|].
  unfold pot in Hpot. apply filter_In in Hpot. destruct Hpot as [Hc Hp].
  apply andb_true_iff in Hp. destruct Hp as [Hp Ho].
  apply andb_true_iff in Hp. destruct Hp as [_ Hi].
  apply Nat.eqb_eq in Hi. apply Nat.leb_le in Ho.
  split; [exact Hi|]. split; [exact Ho|].
  apply (proj1 (set_iter_In rt _ _ Hrt)) in Hc. unfold cands in Hc.
  apply mem_set_diff in Hc. destruct Hc as [Hc Hcm].
  apply mem_set_diff in Hc. destruct Hc as [Hc Hwl].
  unfold cands0 in Hc. apply filter_In in Hc. destruct Hc as [_ Hv].
  apply andb_true_iff in Hv. destruct Hv as [Hv1 Hv2].
  apply Nat.leb_le in Hv1. apply Nat.leb_le in Hv2.
  repeat split; assumption.
Qed.

Lemma detect_shell_chains_entries_witness :
  set_iter_ok Examples.rtA
  /\ In ("SH_INT2", 5%nat)
        (detect_shell_chains Examples.rtA [] (build_graph (clean Examples.shell_chain))
                             (clean Examples.shell_chain) [])
  /\ in_degree (build_graph (clean Examples.shell_chain)) "SH_INT2" = 1%nat.
Proof.
  assert (Hrt : set_iter_ok Examples.rtA) by (intros s; apply Permutation_refl).
  assert (H : In ("SH_INT2", 5%nat)
                 (detect_shell_chains Examples.rtA []
                    (build_graph (clean Examples.shell_chain))
                    (clean Examples.shell_chain) []))
    by (vm_compute; right; left; reflexivity).
  split; [exact Hrt|]. split; [exact H|].
  exact (proj1 (proj2 (detect_shell_chains_entries _ _ _ _ _ _ _ Hrt H))).
Defined.

(** ** Shell points of the reported suspects *)

Lemma make_suspect_shell_score (G : DiGraph) (df : list Tx) (cd : CycleData)
      (smurf_map : list (string * list string)) (shell_map : list (string * nat))
      (pre : Pre) (mm : list (string * Mastermind)) (acct : string) (s : Suspect) :
  Forall (fun kv : string * nat => (4 <= snd kv)%nat) shell_map ->
  make_suspect G df cd smurf_map shell_map pre mm acct = Some s ->
  (Py.get shell_map acct = None /\ sb_shell_score (score_breakdown s) == 0)
  \/ (Py.get shell_map acct <> None /\ sb_shell_score (score_breakdown s) == 15).
Proof.
  intros Hsm. unfold make_suspect.
  destruct (Py.qleb _ 0); [discriminate|].
  intros H. apply some_inj in H. subst s. cbn [score_breakdown sb_shell_score].
  unfold compute_suspicion_score. cbn [shell_score]. unfold Py.get_or.
  destruct (Py.get shell_map acct) as [d|] eqn:E.
  - right. split; [discriminate|].
    apply get_In in E. pose proof (proj1 (Forall_forall _ _) Hsm _ E) as H4.
    cbn [snd] in H4. apply Nat.leb_le in H4. rewrite H4. reflexivity.
  - left. split; [reflexivity|]. reflexivity.
Qed.

(** ** Sorting *)

Section SortSorted.
Context {A : Type} (le : A -> A -> bool).
Hypothesis le_total : forall a b, le a b = true \/ le b a = true.
Hypothesis le_trans : forall a b c, le a b = true -> le b c = true -> le a c = true.

Lemma insert_sorted (x : A) (l : list A) :
  StronglySorted (fun a b => le a b = true) l ->
  StronglySorted (fun a b => le a b = true) (Py.insert le x l).
Proof.
  induction 1 as [|y l Hl IH Hy]; simpl.
  - constructor; constructor.
  - destruct (le x y) eqn:E.
    + constructor; [constructor; assumption|].
      constructor; [exact E|].
      apply Forall_forall. intros z Hz.
      exact (le_trans _ _ _ E (proj1 (Forall_forall _ _) Hy z Hz)).
    + constructor; [exact IH|].
      apply Forall_forall. intros z Hz. apply insert_In in Hz.
      destruct Hz as [->|Hz].
      * destruct (le_total x y) as [H|H]; [congruence|exact H].
      * exact (proj1 (Forall_forall _ _) Hy z Hz).
Qed.

Lemma sort_sorted (l : list A) :
  StronglySorted (fun a b => le a b = true) (Py.sort le l).
Proof.
  induction l as [|x l IH]; simpl; [constructor|].
  apply insert_sorted. exact IH.
Qed.

End SortSorted.

Lemma sort_Permutation {A : Type} (le : A -> A -> bool) (l : list A) :
  Permutation (Py.sort le l) l.
Proof.
  induction l as [|x l IH]; simpl; [constructor|].
  transitivity (x :: Py.sort le l); [|constructor; exact IH].
  generalize (Py.sort le l). intros m.
  induction m as [|y m IHm]; simpl; [apply Permutation_refl|].
  destruct (le x y); [apply Permutation_refl|].
  transitivity (y :: x :: m); [constructor; exact IHm|apply perm_swap].
Qed.

Lemma StronglySorted_weaken {A : Type} (R S : A -> A -> Prop) (l : list A) :
  (forall a b, R a b -> S a b) -> StronglySorted R l -> StronglySorted S l.
Proof.
  intros H. induction 1 as [|x l Hl IH Hx]; constructor; [exact IH|].
  eapply Forall_impl; [|exact Hx]. intros b. apply H.
Qed.

(** ** The order of the reported suspects *)

(** X5: Whenever run returns, suspicious_accounts is ordered by
    non-increasing suspicion_score: every suspect scores at least as much as
    every suspect listed after it. *)
Theorem suspects_sorted_by_score (rt : Runtime) (df0 : list Row) (res : AnalysisResult) :
  run rt df0 = Some res ->
  StronglySorted (fun a b => suspicion_score b <= suspicion_score a)
                 (suspicious_accounts res).
Proof.
  unfold run. destruct (detect_cycles _ _ _) as [cd|]; [|discriminate].
  intros Heq. apply some_inj in Heq. rewrite <- Heq.
  unfold run_from_cycles. cbn [suspicious_accounts]. unfold sort_suspects.
  eapply StronglySorted_weaken; [|apply sort_sorted].
  - intros a b H. apply qleb_true in H. exact H.
  - intros a b. destruct (Qlt_le_dec (suspicion_score a) (suspicion_score b)) as [H|H].
    + right. apply qleb_true. apply Qlt_le_weak. exact H.
    + left. apply qleb_true. exact H.
  - intros a b c H1 H2. apply qleb_true in H1. apply qleb_true in H2.
    apply qleb_true. eapply Qle_trans; eassumption.
Qed.

Lemma suspects_sorted_by_score_witness :
  run Examples.rtA Scenarios.mixed = Some Scenarios.mixed_result
  /\ StronglySorted (fun a b => suspicion_score b <= suspicion_score a)
                    (suspicious_accounts Scenarios.mixed_result).
Proof.
  assert (R : run Examples.rtA Scenarios.mixed = Some Scenarios.mixed_result)
    by (vm_compute; reflexivity).
  split; [exact R|].
  exact (suspects_sorted_by_score Examples.rtA Scenarios.mixed Scenarios.mixed_result R).
Defined.

(** ** The rings that pass the post-filter *)

Lemma set_of_mem (x : string) (l : list string) : In x l -> Py.mem x (Py.set_of l) = true.
Proof.
  intros H. apply mem_In. unfold Py.set_of. apply In_set_union. now right.
Qed.

Lemma drop_rings (p : Ring -> bool) (st : Filtered) (r : Ring) :
  In r (f_fraud_rings (drop (rids_where p (f_fraud_rings st)) st)) ->
  In r (f_fraud_rings st) /\ p r = false.
Proof.
  unfold drop; cbn [f_fraud_rings]. intros H. apply filter_In in H.
  destruct H as [Hin Hm]. split; [exact Hin|].
  destruct (p r) eqn:E; [|reflexivity].
  apply negb_true_iff in Hm. unfold rids_where in Hm.
  rewrite set_of_mem in Hm; [discriminate|].
  apply in_map. apply filter_In. split; assumption.
Qed.

Lemma sweep_ring (wl : list string) (st : Filtered) (r : Ring) :
  In r (f_fraud_rings (whitelist_sweep wl st)) -> In r (f_fraud_rings st).
Proof.
  rewrite whitelist_sweep_rings. intros H. apply filter_In in H. exact (proj1 H).
Qed.

Lemma post_filter_rings (wl : list string) (suspects : list Suspect)
      (fraud_rings : list Ring) (r : Ring) :
  In r (f_fraud_rings (post_filter wl suspects fraud_rings)) ->
  In r fraud_rings
  /\ (List.length (member_accounts r) <= 100)%nat
  /\ MIN_CYCLE_AMOUNT <= total_amount r
  /\ (pattern_type r = smurfing -> (20 < List.length (member_accounts r))%nat ->
      total_amount r <= 1000000)
  /\ (pattern_type r = cycle -> _all_legit (member_accounts r) = true ->
      80 <= risk_score r).
Proof.
  unfold post_filter. intros H.
  apply sweep_ring in H. unfold drop_orphans in H. cbn [f_fraud_rings] in H.
  apply drop_rings in H. destruct H as [H Hbad].
  apply drop_rings in H. destruct H as [H Hbig].
  apply drop_rings in H. destruct H as [H Hamt].
  apply drop_rings in H. destruct H as [H Hlen].
  cbn [f_fraud_rings] in H.
  split; [exact H|].
  split; [apply Nat.ltb_ge in Hlen; exact Hlen|].
  split; [apply qltb_false in Hamt; exact Hamt|].
  split.
  - intros Hp Hl. unfold is_smurfing in Hbig. rewrite Hp in Hbig.
    apply Nat.ltb_lt in Hl. rewrite Hl in Hbig. cbn [andb] in Hbig.
    apply qltb_false in Hbig. exact Hbig.
  - intros Hp Hl. unfold bad_ring, is_cycle in Hbad. rewrite Hp in Hbad.
    cbn [negb] in Hbad.
    rewrite (all_legit_no_fraud _ Hl), Hl in Hbad. cbn [andb] in Hbad.
    destruct (Py.qltb (risk_score r) 80) eqn:E; [discriminate Hbad|].
    apply qltb_false in E. exact E.
Qed.



(** ** The mastermind flag of a suspect *)

Lemma get_of_key {V : Type} (d : list (string * V)) (k : string) :
  In k (Py.keys d) -> exists v, Py.get d k = Some v.
Proof.
  unfold Py.keys. induction d as [|[k' v'] d IH]; simpl; [intros []|].
  intros [<-|H].
  - rewrite String.eqb_refl. now exists v'.
  - destruct (String.eqb k k'); [now exists v'|exact (IH H)].
Qed.

Lemma get_key {V : Type} (d : list (string * V)) (k : string) (v : V) :
  Py.get d k = Some v -> In k (Py.keys d).
Proof.
  intros H. apply get_In in H. unfold Py.keys.
  change k with (fst (k, v)). apply in_map. exact H.
Qed.

Lemma keys_set {V : Type} (d : list (string * V)) (k : string) (v : V) (x : string) :
  In x (Py.keys (Py.set d k v)) <-> x = k \/ In x (Py.keys d).
Proof.
  unfold Py.keys. induction d as [|[k' v'] d IH]; simpl.
  - intuition.
  - destruct (String.eqb k k') eqn:E; simpl.
    + apply String.eqb_eq in E. subst k'. intuition.
    + rewrite IH. intuition.
Qed.

Lemma make_mm_rid_keys (l : list (string * Mastermind)) (acct : string) :
  forall d,
    In acct (map (fun v => mm_account_id (snd v)) l) \/ In acct (Py.keys d) ->
    In acct (Py.keys (fold_left (fun d rv => Py.set d (mm_account_id (snd rv)) (fst rv))
                                l d)).
Proof.
  induction l as [|rv l IH]; intros d; simpl.
  - intros [[]|H]; exact H.
  - intros H. apply IH. destruct H as [[H|H]|H].
    + right. apply keys_set. left. now symmetry.
    + now left.
    + right. apply keys_set. now right.
Qed.

Lemma make_mm_rid_values (l : list (string * Mastermind)) (acct rid : string) :
  forall d,
    In (acct, rid)
       (fold_left (fun d rv => Py.set d (mm_account_id (snd rv)) (fst rv)) l d) ->
    In (acct, rid) d \/ In rid (Py.keys l).
Proof.
  induction l as [|rv l IH]; intros d; simpl; [now left|].
  intros H. destruct (IH _ H) as [H'|H']; [|right; now right].
  apply set_In_key in H'. destruct H' as [H'|H']; [now left|].
  injection H' as _ ->. right. now left.
Qed.

Lemma make_suspect_flag (G : DiGraph) (df : list Tx) (cd : CycleData)
      (smurf_map : list (string * list string)) (shell_map : list (string * nat))
      (pre : Pre) (mm : list (string * Mastermind)) (acct : string) (s : Suspect) :
  Forall (fun k => k <> "") (Py.keys mm) ->
  make_suspect G df cd smurf_map shell_map pre mm acct = Some s ->
  (is_mastermind s = true <-> s_mastermind_score s <> None).
Proof.
  intros Hk. unfold make_suspect.
  destruct (Py.qleb _ 0); [discriminate|].
  intros H. apply some_inj in H. subst s. cbn [is_mastermind s_mastermind_score].
  destruct (Py.mem acct _) eqn:Em; [|split; [discriminate|intros H; now elim H]].
  split; [intros _|reflexivity].
  apply mem_In, set_of_In in Em.
  pose proof (make_mm_rid_keys mm acct [] (or_introl Em)) as Hkey.
  apply get_of_key in Hkey. destruct Hkey as [rid Hrid].
  fold (make_mm_rid mm) in Hrid. rewrite Hrid.
  apply get_In in Hrid. unfold make_mm_rid in Hrid.
  apply make_mm_rid_values in Hrid. destruct Hrid as [[]|Hrid].
  pose proof (proj1 (Forall_forall _ _) Hk _ Hrid) as Hne.
  apply String.eqb_neq in Hne. rewrite Hne.
  apply get_of_key in Hrid. destruct Hrid as [m ->]. discriminate.
Qed.

Lemma ring_label_not_empty (i : nat) : ring_label i <> "".
Proof. unfold ring_label. discriminate. Qed.

Lemma detect_mastermind_keys (rt : Library) (G : DiGraph)
      (rings : list (string * list string)) (rid : string) :
  In rid (Py.keys (detect_mastermind rt G rings)) -> In rid (Py.keys rings).
Proof.
  unfold Py.keys. intros H. apply in_map_iff in H. destruct H as ([k m] & <- & H).
  apply detect_mastermind_inv in H. destruct H as (mbrs & H & _).
  change (fst (k, m)) with (fst (k, mbrs)). apply in_map. exact H.
Qed.

(** X7: For every suspect that run reports, is_mastermind is true exactly
    when mastermind_score is not None: the lookup through mm_rid never fails
    for a mastermind account, because ring ids are non-empty strings. *)
Theorem mastermind_flag_iff_score (rt : Runtime) (df0 : list Row) (res : AnalysisResult) :
  run rt df0 = Some res ->
  forall s, In s (suspicious_accounts res) ->
            (is_mastermind s = true <-> s_mastermind_score s <> None).
Proof.
  unfold run. destruct (detect_cycles _ _ _) as [cd|] eqn:Ecd; [|discriminate].
  intros Heq. apply some_inj in Heq. rewrite <- Heq.
  apply Forall_forall. unfold run_from_cycles, assembly_of.
  cbn [suspicious_accounts].
  apply sort_suspects_Forall, post_filter_Forall.
  apply (assemble_rings_Forall
           (fun s => is_mastermind s = true <-> s_mastermind_score s <> None)).
  { intros s rid H. exact H. }
  unfold score_suspects. apply Forall_forall. intros s Hs.
  apply in_flat_map in Hs. destruct Hs as (acct & _ & Hs).
  destruct (make_suspect _ _ _ _ _ _ _ _) as [s0|] eqn:E; [|destruct Hs].
  destruct Hs as [<-|[]].
  refine (make_suspect_flag _ _ _ _ _ _ _ _ _ _ E).
  apply Forall_forall. intros k Hk. apply detect_mastermind_keys in Hk.
  unfold Py.keys in Hk. rewrite (detect_cycles_labels _ _ _ _ Ecd) in Hk.
  apply in_map_iff in Hk. destruct Hk as (i & <- & _). apply ring_label_not_empty.
Qed.

Lemma mastermind_flag_iff_score_witness :
  run Examples.rtA Scenarios.mixed = Some Scenarios.mixed_result
  /\ In Scenarios.mixed_first (suspicious_accounts Scenarios.mixed_result)
  /\ is_mastermind Scenarios.mixed_first = true
  /\ s_mastermind_score Scenarios.mixed_first <> None.
Proof.
  assert (R : run Examples.rtA Scenarios.mixed = Some Scenarios.mixed_result)
    by (vm_compute; reflexivity).
  assert (I : In Scenarios.mixed_first (suspicious_accounts Scenarios.mixed_result))
    by (vm_compute; left; reflexivity).
  assert (M : is_mastermind Scenarios.mixed_first = true) by (vm_compute; reflexivity).
  split; [exact R|]. split; [exact I|]. split; [exact M|].
  exact (proj1 (mastermind_flag_iff_score Examples.rtA Scenarios.mixed
                  Scenarios.mixed_result R Scenarios.mixed_first I) M).
Defined.

(** ** The order of strings *)

Lemma compare_refl (a : string) : String.compare a a = Eq.
Proof. apply String_as_OT.cmp_eq. reflexivity. Qed.

Lemma compare_trans_lt (a b c : string) :
  String.compare a b = Lt -> String.compare b c = Lt -> String.compare a c = Lt.
Proof.
  intros H1 H2. apply String_as_OT.cmp_lt in H1. apply String_as_OT.cmp_lt in H2.
  apply String_as_OT.cmp_lt. eapply String_as_OT.lt_trans; eassumption.
Qed.

Lemma leb_trans (a b c : string) :
  String.leb a b = true -> String.leb b c = true -> String.leb a c = true.
Proof.
  unfold String.leb. intros H1 H2.
  destruct (String.compare a b) eqn:E1; try discriminate;
  destruct (String.compare b c) eqn:E2; try discriminate.
  - apply String.compare_eq_iff in E1. apply String.compare_eq_iff in E2. subst.
    rewrite compare_refl. reflexivity.
  - apply String.compare_eq_iff in E1. subst. rewrite E2. reflexivity.
  - apply String.compare_eq_iff in E2. subst. rewrite E1. reflexivity.
  - rewrite (compare_trans_lt _ _ _ E1 E2). reflexivity.
Qed.

Lemma sort_strings_sorted (l : list string) :
  StronglySorted (fun a b => String.leb a b = true) (Py.sort String.leb l).
Proof. apply sort_sorted; [apply String.leb_total|apply leb_trans]. Qed.

(** ** Missing columns *)

(** ** From the parsed table to the detectors *)

Lemma clean_with_timestamps (rows : list Row) :
  Forall (fun r => row_timestamp r <> None) rows ->
  map (fun t => (transaction_id t, sender_id t, receiver_id t, amount t)) (clean rows)
  = map (fun r => (row_transaction_id r, row_sender_id r, row_receiver_id r, row_amount r))
        (filter (fun r => negb (String.eqb (row_sender_id r) (row_receiver_id r))) rows).
Proof.
  induction 1 as [|r rows Hr _ IH]; [reflexivity|].
  unfold clean in *. cbn [flat_map filter].
  destruct (row_timestamp r) as [ts|]; [|now elim Hr].
  destruct (String.eqb (row_sender_id r) (row_receiver_id r)); cbn [negb app map].
  - exact IH.
  - rewrite IH. reflexivity.
Qed.

(** X9: On a table returned by parse_csv every row has a timestamp, so the
    cleaning at the start of run drops exactly the self-transfers: the
    cleaned table is the parsed table without the rows whose sender_id
    equals receiver_id, in the same order and with the same ids and amounts. *)
Theorem run_keeps_parsed_rows (file : CsvFile) (rows : list Row) :
  parse_csv file = DataFrame rows ->
  Forall (fun r => row_timestamp r <> None) rows
  /\ map (fun t => (transaction_id t, sender_id t, receiver_id t, amount t)) (clean rows)
     = map (fun r => (row_transaction_id r, row_sender_id r, row_receiver_id r, row_amount r))
           (filter (fun r => negb (String.eqb (row_sender_id r) (row_receiver_id r))) rows).
Proof.
  unfold parse_csv. destruct (Py.set_diff _ _); [|discriminate].
  intros H. injection H as <-.
  assert (F : Forall (fun r => row_timestamp r <> None)
                     (map to_row (dropna_timestamp (dropna_amount (csv_rows file))))).
  { apply Forall_forall. intros r Hr. apply in_map_iff in Hr.
    destruct Hr as (c & <- & Hc). unfold dropna_timestamp in Hc.
    apply filter_In in Hc. destruct Hc as [_ Hc]. unfold to_row; cbn [row_timestamp].
    destruct (csv_timestamp c); [discriminate|discriminate Hc]. }
  split; [exact F|]. apply clean_with_timestamps. exact F.
Qed.

Lemma run_keeps_parsed_rows_witness :
  parse_csv Scenarios.four_rows_file
  = DataFrame [mkRow "T1" "ACC_1" "ACC_2" 100 (Some 0%Z);
               mkRow "T2" "ACC_1" "ACC_1" 100 (Some 60%Z)]
  /\ map (fun t => (transaction_id t, sender_id t, receiver_id t, amount t))
         (clean [mkRow "T1" "ACC_1" "ACC_2" 100 (Some 0%Z);
                 mkRow "T2" "ACC_1" "ACC_1" 100 (Some 60%Z)])
     = [("T1", "ACC_1", "ACC_2", 100)].
Proof.
  assert (H : parse_csv Scenarios.four_rows_file
              = DataFrame [mkRow "T1" "ACC_1" "ACC_2" 100 (Some 0%Z);
                           mkRow "T2" "ACC_1" "ACC_1" 100 (Some 60%Z)])
    by reflexivity.
  split; [exact H|].
  exact (proj2 (run_keeps_parsed_rows Scenarios.four_rows_file _ H)).
Defined.

(** ** The aggregation of build_graph *)

Lemma pair_compare_eq (a b : string * string) : pair_compare a b = Eq <-> a = b.
Proof.
  destruct a as [a1 a2], b as [b1 b2]. unfold pair_compare; cbn [fst snd].
  split.
  - destruct (String.compare a1 b1) eqn:E; try discriminate.
    intros H. apply String.compare_eq_iff in E. apply String.compare_eq_iff in H.
    now subst.
  - intros [= -> ->]. now rewrite !compare_refl.
Qed.

Lemma pair_compare_trans (a b c : string * string) :
  pair_compare a b = Lt -> pair_compare b c = Lt -> pair_compare a c = Lt.
Proof.
  destruct a as [a1 a2], b as [b1 b2], c as [c1 c2]. unfold pair_compare; cbn [fst snd].
  destruct (String.compare a1 b1) eqn:E1; try discriminate;
  destruct (String.compare b1 c1) eqn:E2; try discriminate; intros H1 H2.
  - apply String.compare_eq_iff in E1. apply String.compare_eq_iff in E2. subst.
    rewrite compare_refl. eapply compare_trans_lt; eassumption.
  - apply String.compare_eq_iff in E1. subst. now rewrite E2.
  - apply String.compare_eq_iff in E2. subst. now rewrite E1.
  - now rewrite (compare_trans_lt _ _ _ E1 E2).
Qed.

Lemma pair_compare_gt (a b : string * string) :
  pair_compare a b = Gt -> pair_compare b a = Lt.
Proof.
  destruct a as [a1 a2], b as [b1 b2]. unfold pair_compare; cbn [fst snd].
  rewrite (String.compare_antisym a1 b1), (String.compare_antisym a2 b2).
  destruct (String.compare b1 a1); cbn [CompOpp]; try discriminate; [|reflexivity].
  destruct (String.compare b2 a2); cbn [CompOpp]; try discriminate. reflexivity.
Qed.

Lemma pair_compare_lt_neq (a b : string * string) : pair_compare a b = Lt -> a <> b.
Proof. intros H E. apply pair_compare_eq in E. congruence. Qed.

Lemma key_eqb (e : string * string * Q) (u v : string) :
  String.eqb (e_src e) u && String.eqb (e_dst e) v = true <-> e_key e = (u, v).
Proof.
  destruct e as [[s r] a]. unfold e_src, e_dst, e_key; cbn [fst snd].
  rewrite andb_true_iff, !String.eqb_eq. split; [intros [-> ->]; reflexivity|].
  intros [= -> ->]. now split.
Qed.

Lemma agg_find_none_above (l : list (string * string * Q)) (u v : string) :
  Forall (fun b => pair_compare (u, v) (e_key b) = Lt) l -> agg_find l u v = None.
Proof.
  unfold agg_find. induction 1 as [|e l He _ IH]; [reflexivity|]. simpl.
  destruct (String.eqb (e_src e) u && String.eqb (e_dst e) v) eqn:E; [|exact IH].
  apply key_eqb in E. apply pair_compare_lt_neq in He. now elim He.
Qed.

Lemma agg_insert_sorted (s r : string) (a : Q) (l : list (string * string * Q)) :
  agg_sorted l ->
  agg_sorted (agg_insert s r a l)
  /\ forall k, Forall (fun b => pair_compare k (e_key b) = Lt) l ->
               pair_compare k (s, r) = Lt ->
               Forall (fun b => pair_compare k (e_key b) = Lt) (agg_insert s r a l).
Proof.
  unfold agg_sorted. induction 1 as [|[[s' r'] a'] l Hl IH Hh]; simpl.
  - split; [constructor; constructor|]. intros k _ Hk. constructor; [exact Hk|constructor].
  - destruct (pair_compare (s, r) (s', r')) eqn:E.
    + apply pair_compare_eq in E. injection E as <- <-.
      split; [constructor; assumption|].
      intros k Hk _. inversion Hk; subst. constructor; assumption.
    + split.
      * constructor; [constructor; assumption|].
        constructor; [exact E|].
        eapply Forall_impl; [|exact Hh]. intros b Hb.
        eapply pair_compare_trans; [exact E|exact Hb].
      * intros k Hk Hks. constructor; assumption.
    + destruct IH as [IH1 IH2]. split.
      * constructor; [exact IH1|]. apply IH2; [exact Hh|].
        apply pair_compare_gt. exact E.
      * intros k Hk Hks. inversion Hk; subst.
        constructor; [assumption|]. apply IH2; assumption.
Qed.

Lemma agg_find_cons (e : string * string * Q) (l : list (string * string * Q))
      (u v : string) :
  agg_find (e :: l) u v
  = if String.eqb (e_src e) u && String.eqb (e_dst e) v then Some e else agg_find l u v.
Proof. reflexivity. Qed.

Lemma key_eqb_refl (s r : string) (a : Q) :
  String.eqb (e_src (s, r, a)) s && String.eqb (e_dst (s, r, a)) r = true.
Proof. apply key_eqb. reflexivity. Qed.

Lemma key_eqb_neq (s r u v : string) (a : Q) :
  (s, r) <> (u, v) ->
  String.eqb (e_src (s, r, a)) u && String.eqb (e_dst (s, r, a)) v = false.
Proof.
  intros N. destruct (_ && _) eqn:E; [|reflexivity].
  apply key_eqb in E. now elim N.
Qed.

Lemma agg_insert_find_same (s r : string) (a : Q) (l : list (string * string * Q)) :
  agg_sorted l ->
  agg_find (agg_insert s r a l) s r
  = Some (s, r, match agg_find l s r with
                | Some e => e_amount e + a
                | None => a
                end).
Proof.
  unfold agg_sorted.
  induction 1 as [|[[s' r'] a'] l Hl IH Hh]; cbn [agg_insert].
  - rewrite agg_find_cons, key_eqb_refl. reflexivity.
  - destruct (pair_compare (s, r) (s', r')) eqn:E.
    + apply pair_compare_eq in E. injection E as <- <-.
      rewrite !agg_find_cons, !key_eqb_refl. reflexivity.
    + rewrite agg_find_cons, key_eqb_refl.
      rewrite (agg_find_cons (s', r', a')), key_eqb_neq.
      * rewrite agg_find_none_above; [reflexivity|].
        eapply Forall_impl; [|exact Hh]. intros b Hb.
        eapply pair_compare_trans; [exact E|exact Hb].
      * intros N. apply pair_compare_lt_neq in E. now elim E.
    + rewrite !(agg_find_cons (s', r', a')), key_eqb_neq; [exact IH|].
      intros N. injection N as -> ->.
      rewrite (proj2 (pair_compare_eq (s, r) (s, r)) eq_refl) in E. discriminate E.
Qed.

Lemma agg_insert_find_other (s r u v : string) (a : Q) (l : list (string * string * Q)) :
  (s, r) <> (u, v) -> agg_find (agg_insert s r a l) u v = agg_find l u v.
Proof.
  intros N.
  induction l as [|[[s' r'] a'] l IH]; cbn [agg_insert].
  - rewrite agg_find_cons, key_eqb_neq by exact N. reflexivity.
  - destruct (pair_compare (s, r) (s', r')) eqn:E.
    + apply pair_compare_eq in E. injection E as <- <-.
      rewrite !agg_find_cons, !key_eqb_neq by exact N. reflexivity.
    + rewrite agg_find_cons, key_eqb_neq by exact N. reflexivity.
    + rewrite !(agg_find_cons (s', r', a')).
      destruct (_ && _); [reflexivity|exact IH].
Qed.

Lemma fold_plus_snoc (l : list Q) (x a : Q) :
  fold_left Qplus (l ++ [a]) x = fold_left Qplus l x + a.
Proof. rewrite fold_left_app. reflexivity. Qed.

(** The aggregated table after the rows [c]: sorted, one row per pair that
    occurs, the amount being the sum of the pair's amounts in row order. *)
Lemma groupby_sum_spec (c : list Tx) :
  agg_sorted (groupby_sum c)
  /\ forall u v,
       agg_find (groupby_sum c) u v
       = match flow c u v with
         | [] => None
         | a :: rest => Some (u, v, fold_left Qplus rest a)
         end.
Proof.
  unfold groupby_sum.
  induction c as [|t c IH] using rev_ind.
  - split; [constructor|reflexivity].
  - rewrite fold_left_app. cbn [fold_left]. destruct IH as [IHs IHf].
    split; [apply agg_insert_sorted; exact IHs|].
    intros u v. unfold flow. rewrite filter_app, map_app. cbn [filter].
    destruct (String.eqb (sender_id t) u && String.eqb (receiver_id t) v) eqn:E.
    + apply andb_true_iff in E. destruct E as [E1 E2].
      apply String.eqb_eq in E1. apply String.eqb_eq in E2. subst u v.
      rewrite agg_insert_find_same by exact IHs. rewrite IHf. unfold flow.
      cbn [map]. destruct (map amount _) as [|a0 rest]; cbn [app].
      * reflexivity.
      * rewrite fold_plus_snoc. reflexivity.
    + rewrite agg_insert_find_other.
      * rewrite IHf. unfold flow. cbn [map]. rewrite List.app_nil_r. reflexivity.
      * intros N. injection N as <- <-. rewrite !String.eqb_refl in E. discriminate E.
Qed.

(** ** The graph built from the aggregated table *)

Lemma agg_sorted_snoc (l : list (string * string * Q)) (e : string * string * Q) :
  agg_sorted (l ++ [e]) ->
  agg_sorted l /\ Forall (fun b => pair_compare (e_key b) (e_key e) = Lt) l.
Proof.
  unfold agg_sorted. induction l as [|x l IH]; cbn [app]; intros H.
  - split; constructor.
  - inversion H as [|? ? Hs Hf]; subst. destruct (IH Hs) as [IH1 IH2].
    split.
    + constructor; [exact IH1|].
      apply Forall_app in Hf. exact (proj1 Hf).
    + constructor; [|exact IH2].
      apply Forall_app in Hf. destruct Hf as [_ Hf]. inversion Hf; assumption.
Qed.

Lemma existsb_key_false (l : list (string * string * Q)) (e : string * string * Q) :
  Forall (fun b => pair_compare (e_key b) (e_key e) = Lt) l ->
  existsb (fun b => String.eqb (e_src b) (e_src e) && String.eqb (e_dst b) (e_dst e)) l
  = false.
Proof.
  induction 1 as [|b l Hb _ IH]; [reflexivity|]. cbn [existsb]. rewrite IH, orb_false_r.
  destruct (_ && _) eqn:E; [|reflexivity].
  apply key_eqb in E. apply pair_compare_lt_neq in Hb. elim Hb.
  rewrite E. destruct e as [[s r] a]. reflexivity.
Qed.

Lemma from_pandas_edgelist_spec (agg : list (string * string * Q)) :
  agg_sorted agg ->
  g_edges (from_pandas_edgelist agg) = agg
  /\ g_nodes (from_pandas_edgelist agg)
     = Py.set_of (flat_map (fun e => [e_src e; e_dst e]) agg).
Proof.
  unfold from_pandas_edgelist.
  induction agg as [|e agg IH] using rev_ind; intros Hs.
  - split; reflexivity.
  - apply agg_sorted_snoc in Hs. destruct Hs as [Hs Hlt].
    destruct (IH Hs) as [IHe IHn].
    rewrite fold_left_app. cbn [fold_left].
    revert IHe IHn. generalize (fold_left
      (fun g e0 => add_edge g (e_src e0) (e_dst e0) (e_amount e0)) agg empty_graph).
    intros G0 IHe IHn. unfold add_edge.
    rewrite IHe, IHn, (existsb_key_false _ _ Hlt). cbn [g_edges g_nodes].
    split.
    + destruct e as [[s r] a]. reflexivity.
    + rewrite flat_map_app. cbn [flat_map]. rewrite List.app_nil_r.
      unfold Py.set_of, Py.set_union. rewrite fold_left_app. reflexivity.
Qed.

Lemma flow_non_self (df : list Tx) (u v : string) :
  flow (filter (fun t => negb (String.eqb (sender_id t) (receiver_id t))) df) u v
  = if String.eqb u v then [] else flow df u v.
Proof.
  unfold flow. induction df as [|t df IH]; cbn [filter map].
  - now destruct (String.eqb u v).
  - destruct (String.eqb (sender_id t) (receiver_id t)) eqn:Es; cbn [negb].
    + rewrite IH. destruct (String.eqb u v) eqn:Euv; [reflexivity|].
      destruct (String.eqb (sender_id t) u && String.eqb (receiver_id t) v) eqn:E;
        [|reflexivity].
      apply andb_true_iff in E. destruct E as [E1 E2].
      apply String.eqb_eq in E1. apply String.eqb_eq in E2. apply String.eqb_eq in Es.
      apply String.eqb_neq in Euv. elim Euv. congruence.
    + cbn [filter].
      destruct (String.eqb (sender_id t) u && String.eqb (receiver_id t) v) eqn:E.
      * cbn [map]. rewrite IH.
        apply andb_true_iff in E. destruct E as [E1 E2].
        apply String.eqb_eq in E1. apply String.eqb_eq in E2. subst u v. now rewrite Es.
      * exact IH.
Qed.

Lemma build_graph_edges (df : list Tx) :
  g_edges (build_graph df)
  = groupby_sum (filter (fun t => negb (String.eqb (sender_id t) (receiver_id t))) df)
  /\ agg_sorted (g_edges (build_graph df)).
Proof.
  unfold build_graph.
  destruct (groupby_sum_spec
              (filter (fun t => negb (String.eqb (sender_id t) (receiver_id t))) df))
    as [Hs _].
  destruct (from_pandas_edgelist_spec _ Hs) as [He _]. rewrite He. now split.
Qed.

Lemma find_exists {A : Type} (f : A -> bool) (l : list A) (x : A) :
  In x l -> f x = true -> exists y, List.find f l = Some y.
Proof.
  induction l as [|y l IH]; [intros []|]. cbn [List.find]. intros [->|H] Hx.
  - rewrite Hx. now exists x.
  - destruct (f y); [now exists y|exact (IH H Hx)].
Qed.

Lemma flow_nonempty (c : list Tx) (u v : string) :
  flow c u v <> [] <-> exists t, In t c /\ sender_id t = u /\ receiver_id t = v.
Proof.
  unfold flow. split.
  - intros H. destruct (filter _ c) as [|t l] eqn:E; [now elim H|].
    assert (Ht : In t (filter (fun t => String.eqb (sender_id t) u
                                        && String.eqb (receiver_id t) v) c))
      by (rewrite E; now left).
    apply filter_In in Ht. destruct Ht as [Hin Hb].
    apply andb_true_iff in Hb. destruct Hb as [H1 H2].
    apply String.eqb_eq in H1. apply String.eqb_eq in H2. now exists t.
  - intros (t & Hin & <- & <-) H.
    assert (Ht : In t (filter (fun t0 => String.eqb (sender_id t0) (sender_id t)
                                         && String.eqb (receiver_id t0) (receiver_id t)) c)).
    { apply filter_In. split; [exact Hin|]. now rewrite !String.eqb_refl. }
    apply (in_map amount) in Ht. rewrite H in Ht. exact Ht.
Qed.

(** An aggregated row for a pair exists exactly when a row of the table
    carries the pair. *)
Lemma groupby_sum_rows (c : list Tx) (u v : string) :
  (exists a, In (u, v, a) (groupby_sum c))
  <-> exists t, In t c /\ sender_id t = u /\ receiver_id t = v.
Proof.
  destruct (groupby_sum_spec c) as [_ Hf]. specialize (Hf u v).
  rewrite <- flow_nonempty. split.
  - intros [a Ha].
    destruct (find_exists (fun e => String.eqb (e_src e) u && String.eqb (e_dst e) v)
                          _ _ Ha (key_eqb_refl u v a)) as [y Hy].
    unfold agg_find in Hf. rewrite Hy in Hf. intros E. rewrite E in Hf. discriminate Hf.
  - intros H. destruct (flow c u v) as [|a rest]; [now elim H|].
    exists (fold_left Qplus rest a). apply (find_some _ _ Hf).
Qed.

Lemma agg_sorted_NoDup (l : list (string * string * Q)) :
  agg_sorted l -> NoDup (map e_key l).
Proof.
  unfold agg_sorted. induction 1 as [|e l Hl IH He]; cbn [map]; constructor; [|exact IH].
  intros H. apply in_map_iff in H. destruct H as (b & Hk & Hb).
  pose proof (proj1 (Forall_forall _ _) He b Hb) as Hlt.
  apply pair_compare_lt_neq in Hlt. now elim Hlt.
Qed.

Lemma In_set_of (x : string) (l : list string) : In x (Py.set_of l) <-> In x l.
Proof.
  split; [apply set_of_In|]. intros H. unfold Py.set_of. apply In_set_union. now right.
Qed.

Lemma build_graph_nodes_edges (df : list Tx) (n : string) :
  In n (g_nodes (build_graph df))
  <-> exists e, In e (g_edges (build_graph df)) /\ (n = e_src e \/ n = e_dst e).
Proof.
  destruct (build_graph_edges df) as [He Hs]. rewrite He in *.
  unfold build_graph. destruct (from_pandas_edgelist_spec _ Hs) as [_ ->].
  rewrite In_set_of, in_flat_map. split.
  - intros (e & He' & Hn). exists e. split; [exact He'|].
    destruct Hn as [<-|[<-|[]]]; [now left|now right].
  - intros (e & He' & Hn). exists e. split; [exact He'|].
    destruct Hn as [->| ->]; [now left|right; now left].
Qed.

(** ** Degrees and distinct counterparties *)

Lemma filter_id {A : Type} (f : A -> bool) (l : list A) :
  (forall x, In x l -> f x = true) -> filter f l = l.
Proof.
  induction l as [|x l IH]; [reflexivity|]. intros H. cbn [filter].
  rewrite (H x (or_introl eq_refl)), IH; [reflexivity|].
  intros y Hy. apply H. now right.
Qed.

Lemma NoDup_map_src (l : list (string * string * Q)) (n : string) :
  NoDup (map e_key l) ->
  NoDup (map e_src (filter (fun e => String.eqb (e_dst e) n) l)).
Proof.
  induction l as [|e l IH]; cbn [map filter]; [constructor|].
  intros H. inversion H as [|? ? Hn Hd]; subst.
  destruct (String.eqb (e_dst e) n) eqn:E; [|exact (IH Hd)].
  cbn [map]. constructor; [|exact (IH Hd)].
  intros Hin. apply in_map_iff in Hin. destruct Hin as (b & Hs & Hb).
  apply filter_In in Hb. destruct Hb as [Hb Hbn]. apply Hn.
  apply in_map_iff. exists b. split; [|exact Hb].
  apply String.eqb_eq in E. apply String.eqb_eq in Hbn.
  destruct e as [[s r] a], b as [[s' r'] a'].
  unfold e_key, e_src, e_dst in *; cbn [fst snd] in *. congruence.
Qed.

Lemma NoDup_map_dst (l : list (string * string * Q)) (n : string) :
  NoDup (map e_key l) ->
  NoDup (map e_dst (filter (fun e => String.eqb (e_src e) n) l)).
Proof.
  induction l as [|e l IH]; cbn [map filter]; [constructor|].
  intros H. inversion H as [|? ? Hn Hd]; subst.
  destruct (String.eqb (e_src e) n) eqn:E; [|exact (IH Hd)].
  cbn [map]. constructor; [|exact (IH Hd)].
  intros Hin. apply in_map_iff in Hin. destruct Hin as (b & Hs & Hb).
  apply filter_In in Hb. destruct Hb as [Hb Hbn]. apply Hn.
  apply in_map_iff. exists b. split; [|exact Hb].
  apply String.eqb_eq in E. apply String.eqb_eq in Hbn.
  destruct e as [[s r] a], b as [[s' r'] a'].
  unfold e_key, e_src, e_dst in *; cbn [fst snd] in *. congruence.
Qed.

Lemma same_elements_length (l1 l2 : list string) :
  NoDup l1 -> NoDup l2 -> (forall x, In x l1 <-> In x l2) ->
  List.length l1 = List.length l2.
Proof.
  intros H1 H2 H. apply Permutation_length. apply NoDup_Permutation; assumption.
Qed.

Lemma predecessors_spec (df : list Tx) (n s : string) :
  (forall t, In t df -> sender_id t <> receiver_id t) ->
  NoDup (predecessors (build_graph df) n)
  /\ (In s (predecessors (build_graph df) n) <-> In s (senders_of df n)).
Proof.
  intros Hdf. unfold predecessors.
  destruct (build_graph_edges df) as [He Hs]. split.
  - apply NoDup_map_src, agg_sorted_NoDup. exact Hs.
  - rewrite He.
    rewrite (filter_id _ df)
      by (intros t Ht; apply negb_true_iff, String.eqb_neq, Hdf; exact Ht).
    unfold senders_of. rewrite !in_map_iff. split.
    + intros ([[u v] a] & <- & H). apply filter_In in H. destruct H as [H Hv].
      unfold e_dst in Hv; cbn [fst snd] in Hv. apply String.eqb_eq in Hv. subst v.
      destruct (proj1 (groupby_sum_rows df u n) (ex_intro _ a H)) as (t & Ht & Hu & Hn).
      exists t. split; [exact Hu|]. apply filter_In. split; [exact Ht|].
      now apply String.eqb_eq.
    + intros (t & <- & H). apply filter_In in H. destruct H as [Ht Hn].
      apply String.eqb_eq in Hn.
      destruct (proj2 (groupby_sum_rows df (sender_id t) n)) as [a Ha];
        [now exists t|].
      exists (sender_id t, n, a). split; [reflexivity|].
      apply filter_In. split; [exact Ha|]. unfold e_dst; cbn [fst snd].
      apply String.eqb_refl.
Qed.

Lemma successors_spec (df : list Tx) (n r : string) :
  (forall t, In t df -> sender_id t <> receiver_id t) ->
  NoDup (successors (build_graph df) n)
  /\ (In r (successors (build_graph df) n) <-> In r (receivers_of df n)).
Proof.
  intros Hdf. unfold successors.
  destruct (build_graph_edges df) as [He Hs]. split.
  - apply NoDup_map_dst, agg_sorted_NoDup. exact Hs.
  - rewrite He.
    rewrite (filter_id _ df)
      by (intros t Ht; apply negb_true_iff, String.eqb_neq, Hdf; exact Ht).
    unfold receivers_of. rewrite !in_map_iff. split.
    + intros ([[u v] a] & <- & H). apply filter_In in H. destruct H as [H Hu].
      unfold e_src in Hu; cbn [fst snd] in Hu. apply String.eqb_eq in Hu. subst u.
      destruct (proj1 (groupby_sum_rows df n v) (ex_intro _ a H)) as (t & Ht & Hn & Hv).
      exists t. split; [exact Hv|]. apply filter_In. split; [exact Ht|].
      now apply String.eqb_eq.
    + intros (t & <- & H). apply filter_In in H. destruct H as [Ht Hn].
      apply String.eqb_eq in Hn.
      destruct (proj2 (groupby_sum_rows df n (receiver_id t))) as [a Ha];
        [now exists t|].
      exists (n, receiver_id t, a). split; [reflexivity|].
      apply filter_In. split; [exact Ha|]. unfold e_src; cbn [fst snd].
      apply String.eqb_refl.
Qed.

Lemma in_degree_senders (df : list Tx) (n : string) :
  (forall t, In t df -> sender_id t <> receiver_id t) ->
  in_degree (build_graph df) n = Py.nunique (senders_of df n).
Proof.
  intros Hdf. unfold in_degree, Py.nunique.
  apply same_elements_length.
  - exact (proj1 (predecessors_spec df n "" Hdf)).
  - apply set_of_NoDup.
  - intros s. rewrite In_set_of. exact (proj2 (predecessors_spec df n s Hdf)).
Qed.

Lemma out_degree_receivers (df : list Tx) (n : string) :
  (forall t, In t df -> sender_id t <> receiver_id t) ->
  out_degree (build_graph df) n = Py.nunique (receivers_of df n).
Proof.
  intros Hdf. unfold out_degree, Py.nunique.
  apply same_elements_length.
  - exact (proj1 (successors_spec df n "" Hdf)).
  - apply set_of_NoDup.
  - intros s. rewrite In_set_of. exact (proj2 (successors_spec df n s Hdf)).
Qed.

(** X12: On a table without self-transfers, the in-degree of an account in
    the graph of build_graph is its number of distinct senders in the table
    and its out-degree is its number of distinct receivers. *)
Theorem degrees_count_distinct_counterparties (df : list Tx) (n : string) :
  (forall t, In t df -> sender_id t <> receiver_id t) ->
  in_degree (build_graph df) n = Py.nunique (senders_of df n)
  /\ out_degree (build_graph df) n = Py.nunique (receivers_of df n).
Proof.
  intros Hdf. split; [apply in_degree_senders|apply out_degree_receivers]; exact Hdf.
Qed.

Lemma degrees_count_distinct_counterparties_witness :
  (forall t, In t Scenarios.mixed_df -> sender_id t <> receiver_id t)
  /\ in_degree Scenarios.mixed_G "SMURF_H" = 12%nat
  /\ Py.nunique (senders_of Scenarios.mixed_df "SMURF_H") = 12%nat.
Proof.
  assert (H : forall t, In t Scenarios.mixed_df -> sender_id t <> receiver_id t).
  { intros t Ht. apply String.eqb_neq.
    assert (F : forallb (fun t => negb (String.eqb (sender_id t) (receiver_id t)))
                        Scenarios.mixed_df = true) by (vm_compute; reflexivity).
    pose proof (proj1 (forallb_forall _ _) F t Ht) as E.
    apply negb_true_iff in E. exact E. }
  assert (D : in_degree Scenarios.mixed_G "SMURF_H" = 12%nat) by (vm_compute; reflexivity).
  split; [exact H|]. split; [exact D|].
  rewrite <- D.
  symmetry. exact (proj1 (degrees_count_distinct_counterparties Scenarios.mixed_df
                            "SMURF_H" H)).
Defined.

(** ** Smurfing flags *)

Lemma groupby_keys_In (col : list string) (a : string) :
  In a (groupby_keys col) <-> In a col.
Proof. unfold groupby_keys. rewrite sort_In. apply In_set_of. Qed.

Lemma groupby_keys_NoDup (col : list string) : NoDup (groupby_keys col).
Proof.
  unfold groupby_keys.
  apply (Permutation_NoDup (Permutation_sym (sort_Permutation _ _))).
  apply set_of_NoDup.
Qed.

Lemma mem_false (x : string) (s : list string) : Py.mem x s = false <-> ~ In x s.
Proof.
  split.
  - intros H Hin. apply mem_In in Hin. congruence.
  - intros H. destruct (Py.mem x s) eqn:E; [|reflexivity]. apply mem_In in E. contradiction.
Qed.

Lemma get_or_setdefault (d : list (string * list string)) (k p a : string) :
  Py.get_or (setdefault_append d k p) a []
  = if String.eqb a k then Py.get_or d a [] ++ [p] else Py.get_or d a [].
Proof.
  unfold setdefault_append, Py.get_or at 1.
  destruct (String.eqb a k) eqn:E.
  - apply String.eqb_eq in E. subst k. now rewrite get_set_same.
  - apply String.eqb_neq in E. now rewrite get_set_other.
Qed.

Lemma fold_setdefault (p : string) (cond : string -> bool) (ks : list string) (a : string) :
  NoDup ks ->
  forall d0,
    Py.get_or (fold_left (fun res k => if cond k then setdefault_append res k p else res)
                         ks d0) a []
    = Py.get_or d0 a [] ++ (if Py.mem a ks && cond a then [p] else []).
Proof.
  induction 1 as [|k ks Hk Hd IH]; intros d0; cbn [fold_left].
  - cbn. now rewrite List.app_nil_r.
  - rewrite IH. unfold Py.mem at 2. cbn [existsb]. fold (Py.mem a ks).
    destruct (String.eqb a k) eqn:E.
    + apply String.eqb_eq in E. subst k. cbn [orb andb].
      rewrite (proj2 (mem_false a ks) Hk). cbn [andb]. rewrite List.app_nil_r.
      destruct (cond a); [|now rewrite List.app_nil_r].
      now rewrite get_or_setdefault, String.eqb_refl.
    + cbn [orb]. destruct (cond k); [|reflexivity].
      now rewrite get_or_setdefault, E.
Qed.

Lemma nunique_pos (l : list string) : (1 <= Py.nunique l)%nat -> exists x, In x l.
Proof.
  unfold Py.nunique. destruct (Py.set_of l) as [|x s] eqn:E; cbn; [lia|].
  intros _. exists x. apply set_of_In. rewrite E. now left.
Qed.

Lemma mem_filter (f : string -> bool) (l : list string) (a : string) :
  Py.mem a (filter f l) = Py.mem a l && f a.
Proof.
  destruct (Py.mem a (filter f l)) eqn:E.
  - apply mem_In, filter_In in E. destruct E as [E1 E2].
    apply mem_In in E1. now rewrite E1, E2.
  - apply mem_false in E. destruct (Py.mem a l) eqn:E1; [|reflexivity].
    destruct (f a) eqn:E2; [|reflexivity].
    elim E. apply filter_In. split; [now apply mem_In|exact E2].
Qed.

Lemma mem_groupby_keys (col : list string) (a : string) :
  Py.mem a (groupby_keys col) = Py.mem a col.
Proof.
  destruct (Py.mem a col) eqn:E.
  - apply mem_In. apply groupby_keys_In. now apply mem_In.
  - apply mem_false. rewrite groupby_keys_In. now apply mem_false.
Qed.

Lemma merchant_whitelist_mem (df : list Tx) (a : string) :
  Py.mem a (merchant_whitelist df)
  = (MERCHANT_THRESHOLD <=? Py.nunique (counterparties df a))%nat.
Proof.
  unfold merchant_whitelist. rewrite mem_filter, mem_groupby_keys.
  destruct (MERCHANT_THRESHOLD <=? _)%nat eqn:E; [|apply andb_false_r].
  rewrite andb_true_r. apply mem_In. apply Nat.leb_le in E.
  destruct (nunique_pos (counterparties df a)) as [x Hx];
    [unfold MERCHANT_THRESHOLD in E; lia|].
  unfold counterparties in Hx. apply in_flat_map in Hx. destruct Hx as (t & Ht & Hx).
  apply in_app_iff. apply in_app_iff in Hx. destruct Hx as [Hx|Hx].
  - destruct (String.eqb (sender_id t) a) eqn:Ea; [|destruct Hx].
    apply String.eqb_eq in Ea. subst a. left. now apply in_map.
  - destruct (String.eqb (receiver_id t) a) eqn:Ea; [|destruct Hx].
    apply String.eqb_eq in Ea. subst a. right. now apply in_map.
Qed.

Lemma senders_receives (df : list Tx) (a x : string) :
  In x (senders_of df a) -> In a (map receiver_id df).
Proof.
  unfold senders_of. intros H. apply in_map_iff in H. destruct H as (t & _ & Ht).
  apply filter_In in Ht. destruct Ht as [Ht Ha]. apply String.eqb_eq in Ha. subst a.
  now apply in_map.
Qed.

Lemma receivers_sends (df : list Tx) (a x : string) :
  In x (receivers_of df a) -> In a (map sender_id df).
Proof.
  unfold receivers_of. intros H. apply in_map_iff in H. destruct H as (t & _ & Ht).
  apply filter_In in Ht. destruct Ht as [Ht Ha]. apply String.eqb_eq in Ha. subst a.
  now apply in_map.
Qed.

Lemma fan_in_idx_mem (df : list Tx) (a : string) :
  Py.mem a (filter (fun a => (MIN_FAN_COUNT <=? Py.nunique (senders_of df a))%nat)
                   (groupby_keys (map receiver_id df)))
  = (MIN_FAN_COUNT <=? Py.nunique (senders_of df a))%nat.
Proof.
  rewrite mem_filter, mem_groupby_keys.
  destruct (MIN_FAN_COUNT <=? _)%nat eqn:E; [|apply andb_false_r].
  rewrite andb_true_r. apply mem_In. apply Nat.leb_le in E.
  destruct (nunique_pos (senders_of df a)) as [x Hx]; [unfold MIN_FAN_COUNT in E; lia|].
  exact (senders_receives _ _ _ Hx).
Qed.

Lemma fan_out_idx_mem (df : list Tx) (a : string) :
  Py.mem a (filter (fun a => (FAN_OUT_THRESHOLD <=? Py.nunique (receivers_of df a))%nat)
                   (groupby_keys (map sender_id df)))
  = (FAN_OUT_THRESHOLD <=? Py.nunique (receivers_of df a))%nat.
Proof.
  rewrite mem_filter, mem_groupby_keys.
  destruct (FAN_OUT_THRESHOLD <=? _)%nat eqn:E; [|apply andb_false_r].
  rewrite andb_true_r. apply mem_In. apply Nat.leb_le in E.
  destruct (nunique_pos (receivers_of df a)) as [x Hx]; [unfold FAN_OUT_THRESHOLD in E; lia|].
  exact (receivers_sends _ _ _ Hx).
Qed.

Lemma filter_filter_receiver (df : list Tx) (wl : list string) (a : string) :
  filter (fun t => String.eqb (receiver_id t) a)
         (filter (fun t => negb (Py.mem (receiver_id t) wl)) df)
  = if Py.mem a wl then [] else filter (fun t => String.eqb (receiver_id t) a) df.
Proof.
  induction df as [|t df IH]; cbn [filter]; [now destruct (Py.mem a wl)|].
  destruct (String.eqb (receiver_id t) a) eqn:E.
  - apply String.eqb_eq in E. rewrite E. destruct (Py.mem a wl) eqn:Ew; cbn [negb].
    + exact IH.
    + cbn [filter]. rewrite <- E at 1. rewrite String.eqb_refl. now rewrite IH.
  - destruct (negb (Py.mem (receiver_id t) wl)); [cbn [filter]; rewrite E|]; exact IH.
Qed.

Lemma high_velocity_receives (grp : list Tx) :
  high_velocity grp = true -> exists t, In t grp.
Proof.
  unfold high_velocity. destruct grp as [|t grp]; [discriminate|].
  intros _. exists t. now left.
Qed.

Lemma velocity_idx (df : list Tx) (wl : list string) (a : string) :
  let df2 := filter (fun t => negb (Py.mem (receiver_id t) wl)) df in
  Py.mem a (groupby_keys (map receiver_id df2))
  && high_velocity (filter (fun t => String.eqb (receiver_id t) a) df2)
  = negb (Py.mem a wl) && high_velocity (filter (fun t => String.eqb (receiver_id t) a) df).
Proof.
  intros df2. unfold df2. rewrite filter_filter_receiver, mem_groupby_keys.
  destruct (Py.mem a wl) eqn:Ew; cbn [negb andb].
  - change (high_velocity []) with false. apply andb_false_r.
  - destruct (high_velocity _) eqn:Eh; [|apply andb_false_r].
    rewrite andb_true_r. apply mem_In.
    apply high_velocity_receives in Eh. destruct Eh as (t & Ht).
    apply filter_In in Ht. destruct Ht as [Ht Ea]. apply String.eqb_eq in Ea. subst a.
    apply in_map. apply filter_In. split; [exact Ht|]. now rewrite Ew.
Qed.

Lemma detect_smurfing_get (G : DiGraph) (df : list Tx) (a : string) :
  Py.get_or (snd (detect_smurfing G df)) a []
  = if Py.mem a (merchant_whitelist df) then []
    else (if (MIN_FAN_COUNT <=? Py.nunique (senders_of df a))%nat then ["fan_in"] else [])
         ++ (if (FAN_OUT_THRESHOLD <=? Py.nunique (receivers_of df a))%nat
             then ["fan_out"] else [])
         ++ (if high_velocity (filter (fun t => String.eqb (receiver_id t) a) df)
             then ["high_velocity"] else []).
Proof.
  unfold detect_smurfing. cbn [snd].
  set (wl := merchant_whitelist df).
  rewrite (fold_setdefault "high_velocity"
             (fun acct => high_velocity
                            (filter (fun t => String.eqb (receiver_id t) acct)
                                    (filter (fun t => negb (Py.mem (receiver_id t) wl)) df))))
    by apply groupby_keys_NoDup.
  rewrite velocity_idx.
  assert (F : forall (p : string) (ks : list string) d0,
             fold_left (fun res a0 => if Py.mem a0 wl then res
                                      else setdefault_append res a0 p) ks d0
             = fold_left (fun res k => if negb (Py.mem k wl)
                                       then setdefault_append res k p else res) ks d0).
  { intros p ks. induction ks as [|k ks IH]; intros d0; cbn [fold_left]; [reflexivity|].
    rewrite IH. now destruct (Py.mem k wl). }
  rewrite !F.
  rewrite (fold_setdefault "fan_out" (fun k => negb (Py.mem k wl)))
    by (apply NoDup_filter, groupby_keys_NoDup).
  rewrite (fold_setdefault "fan_in" (fun k => negb (Py.mem k wl)))
    by (apply NoDup_filter, groupby_keys_NoDup).
  rewrite fan_in_idx_mem, fan_out_idx_mem.
  change (Py.get_or [] a []) with (@nil string). cbn [app].
  destruct (Py.mem a wl); cbn [negb andb].
  - rewrite !andb_false_r. reflexivity.
  - rewrite !andb_true_r. now rewrite <- app_assoc.
Qed.

Lemma detect_smurfing_nonempty (G : DiGraph) (df : list Tx) :
  Forall (fun kv : string * list string => snd kv <> []) (snd (detect_smurfing G df)).
Proof.
  unfold detect_smurfing. cbn [snd].
  assert (S : forall d k p, Forall (fun kv : string * list string => snd kv <> []) d ->
                            Forall (fun kv : string * list string => snd kv <> [])
                                   (setdefault_append d k p)).
  { intros d k p Hd. unfold setdefault_append.
    apply (set_Forall (fun l : list string => l <> [])); [exact Hd|].
    intros E. apply (f_equal (@List.length string)) in E.
    rewrite length_app in E. cbn in E. lia. }
  repeat (apply (fold_left_invariant
                   (fun d => Forall (fun kv : string * list string => snd kv <> []) d));
          [|intros d k Hd;
            match goal with |- context [if ?c then _ else _] => destruct c end;
            [try exact Hd; apply S; exact Hd|try exact Hd; apply S; exact Hd]]).
  constructor.
Qed.

Lemma has_key_get_or (d : list (string * list string)) (a : string) :
  Forall (fun kv : string * list string => snd kv <> []) d ->
  (has_key d a = true <-> Py.get_or d a [] <> []).
Proof.
  intros H. unfold has_key, Py.get_or.
  destruct (Py.get d a) as [l|] eqn:E.
  - apply get_In in E. pose proof (proj1 (Forall_forall _ _) H _ E) as Hl.
    split; [intros _; exact Hl|reflexivity].
  - split; [discriminate|intros N; now elim N].
Qed.

(** X13: detect_smurfing whitelists an account exactly when it has at least
    MERCHANT_THRESHOLD (100) distinct counterparties; a whitelisted account
    gets no pattern; any other account gets fan_in iff it has at least 10
    distinct senders, fan_out iff it has at least 10 distinct receivers, and
    high_velocity iff the velocity scan of its incoming rows succeeds, in
    that order; an account is a key of the result exactly when its pattern
    list is non-empty. *)
Theorem detect_smurfing_flags (G : DiGraph) (df : list Tx) (a : string) :
  let wl := fst (detect_smurfing G df) in
  let result := snd (detect_smurfing G df) in
  Py.mem a wl = (MERCHANT_THRESHOLD <=? Py.nunique (counterparties df a))%nat
  /\ Py.get_or result a []
     = (if Py.mem a wl then []
        else (if (MIN_FAN_COUNT <=? Py.nunique (senders_of df a))%nat
              then ["fan_in"] else [])
             ++ (if (FAN_OUT_THRESHOLD <=? Py.nunique (receivers_of df a))%nat
                 then ["fan_out"] else [])
             ++ (if high_velocity (filter (fun t => String.eqb (receiver_id t) a) df)
                 then ["high_velocity"] else []))
  /\ (has_key result a = true <-> Py.get_or result a [] <> []).
Proof.
  intros wl result.
  split; [apply merchant_whitelist_mem|].
  split; [apply detect_smurfing_get|].
  apply has_key_get_or, detect_smurfing_nonempty.
Qed.

(** ** How the rings are assembled *)

Lemma attach_members_fst_snd (rid : string) (order : list string)
      (rmap : list (string * string)) (sus : list Suspect) :
  attach_members rid order rmap sus
  = (fst (attach_members rid order rmap sus), snd (attach_members rid order rmap sus)).
Proof. apply surjective_pairing. Qed.

Lemma smurfing_step_rings (rt : Library) (wl : list string) (G : DiGraph)
      (df : list Tx) (st : Assembly) (item : string * list string) :
  a_fraud_rings (smurfing_step rt wl G df st item) = a_fraud_rings st
  \/ exists r, a_fraud_rings (smurfing_step rt wl G df st item) = a_fraud_rings st ++ [r]
               /\ smurfing_shape G r.
Proof.
  unfold smurfing_step. destruct item as [hub pats].
  destruct (has_key _ _); [now left|].
  destruct (negb _); [now left|].
  destruct (Py.mem hub wl); [now left|].
  destruct (_ <? _)%nat eqn:E; [now left|].
  destruct (_all_legit _); [now left|].
  destruct (_ && _); [now left|].
  rewrite attach_members_fst_snd. cbn [a_fraud_rings]. right.
  eexists. split; [reflexivity|]. exists hub. cbn.
  apply Nat.ltb_ge in E. repeat split; try reflexivity. exact E.
Qed.

Lemma collect_chain_NoDup (G : DiGraph) (shell_map : list (string * nat)) (fuel : nat) :
  forall stk chain seen,
    NoDup chain -> NoDup (fst (collect_chain fuel G shell_map stk chain seen)).
Proof.
  induction fuel as [|fuel IH]; intros stk chain seen H; cbn [collect_chain]; [exact H|].
  destruct (rev stk) as [|cur rest]; [exact H|].
  destruct (Py.mem cur seen); [apply IH; exact H|].
  destruct (has_key shell_map cur); apply IH; [apply set_add_NoDup|]; exact H.
Qed.

Lemma shell_step_rings (rt : Library) (G : DiGraph) (df : list Tx)
      (shell_map : list (string * nat)) (st : Assembly * list string) (n : string) :
  a_fraud_rings (fst (shell_step rt G df shell_map st n)) = a_fraud_rings (fst st)
  \/ exists r, a_fraud_rings (fst (shell_step rt G df shell_map st n))
               = a_fraud_rings (fst st) ++ [r]
               /\ shell_shape r.
Proof.
  unfold shell_step. destruct st as [asm seen].
  destruct (_ || _); [now left|].
  pose proof (collect_chain_NoDup G shell_map (2 + 2 * List.length (g_edges G))
                                  [n] [] seen (NoDup_nil _)) as Hnd.
  destruct (collect_chain _ _ _ _ _ _) as [chain seen'].
  cbn [fst] in Hnd.
  destruct (2 <=? List.length chain)%nat eqn:E; [|now left].
  rewrite attach_members_fst_snd. cbn [fst a_fraud_rings]. right.
  eexists. split; [reflexivity|]. exists chain. cbn.
  apply Nat.leb_le in E. repeat split; try reflexivity; assumption.
Qed.

Section RingInvariant.

Variable Q : Ring -> Prop.

Lemma assemble_rings_rings (rt : Library) (wl : list string) (G : DiGraph)
      (df : list Tx) (cd : CycleData) (smurf_map : list (string * list string))
      (shell_map : list (string * nat)) (mm : list (string * Mastermind))
      (suspects : list Suspect) :
  Forall Q (map (cycle_ring df suspects mm) (rings cd)) ->
  (forall r, smurfing_shape G r -> Q r) ->
  (forall r, shell_shape r -> Q r) ->
  Forall Q (a_fraud_rings (assemble_rings rt wl G df cd smurf_map shell_map mm suspects)).
Proof.
  intros Hc Hs Hh. unfold assemble_rings.
  apply (fold_left_invariant (fun st => Forall Q (a_fraud_rings (fst st)))).
  - cbn [fst]. apply (fold_left_invariant (fun st => Forall Q (a_fraud_rings st))).
    + exact Hc.
    + intros st item H.
      destruct (smurfing_step_rings rt wl G df st item) as [->|(r & -> & Hr)]; [exact H|].
      apply Forall_app. split; [exact H|]. constructor; [apply Hs; exact Hr|constructor].
  - intros st n H.
    destruct (shell_step_rings rt G df shell_map st n) as [->|(r & -> & Hr)]; [exact H|].
    apply Forall_app. split; [exact H|]. constructor; [apply Hh; exact Hr|constructor].
Qed.

End RingInvariant.

Lemma cycle_ring_shape (df : list Tx) (suspects : list Suspect)
      (mm : list (string * Mastermind)) (cd : CycleData) :
  Forall (cycle_shape cd mm) (map (cycle_ring df suspects mm) (rings cd)).
Proof.
  apply Forall_forall. intros r Hr. apply in_map_iff in Hr.
  destruct Hr as ([rid mbrs] & <- & Hin). exists mbrs. cbn. repeat split. exact Hin.
Qed.

(** Every ring of the result has one of the three shapes. *)
Lemma run_ring_shapes (rt : Runtime) (df0 : list Row) (res : AnalysisResult) :
  run rt df0 = Some res ->
  exists cd,
    detect_cycles rt (fst (detect_smurfing (build_graph (clean df0)) (clean df0)))
                  (build_graph (clean df0)) = Some cd
    /\ Forall (fun r => cycle_shape cd (detect_mastermind rt (build_graph (clean df0))
                                                          (rings cd)) r
                        \/ smurfing_shape (build_graph (clean df0)) r
                        \/ shell_shape r)
              (fraud_rings res).
Proof.
  unfold run. destruct (detect_cycles _ _ _) as [cd|] eqn:Ecd; [|discriminate].
  intros Heq. apply some_inj in Heq. rewrite <- Heq. exists cd. split; [reflexivity|].
  unfold run_from_cycles. cbn [fraud_rings].
  apply Forall_forall. intros r Hr. apply post_filter_rings in Hr. destruct Hr as [Hr _].
  revert r Hr. apply Forall_forall. unfold assembly_of.
  apply assemble_rings_rings.
  - eapply Forall_impl; [|apply cycle_ring_shape]. intros r H. left. exact H.
  - intros r H. right; left. exact H.
  - intros r H. right; right. exact H.
Qed.

(** ** Rounding to one decimal *)

Lemma round1_value (x : Q) :
  Py.round x 1 == inject_Z (Py.round_half_even (x * 10)) * (1 # 10).
Proof.
  unfold Py.round. change (10 ^ Z.of_nat 1)%Z with 10%Z.
  change (inject_Z 10) with 10. change (Z.to_pos 10) with 10%positive.
  unfold Qeq. simpl. lia.
Qed.

Lemma round1_exact (x : Q) (z : Z) : x == inject_Z z * (1 # 10) -> Py.round x 1 == x.
Proof.
  intros E. rewrite round1_value.
  assert (H : x * 10 == inject_Z z) by (rewrite E; field).
  assert (R : Py.round_half_even (x * 10) = z).
  { apply Z.le_antisymm; [apply round_half_even_le|apply round_half_even_ge];
      rewrite H; apply Qle_refl. }
  rewrite R, E. reflexivity.
Qed.

Lemma q_of_nat_tenths (n : nat) (a b : Z) :
  inject_Z a + q_of_nat n * (inject_Z b * (1 # 10))
  == inject_Z (a * 10 + Z.of_nat n * b) * (1 # 10).
Proof.
  unfold q_of_nat. rewrite inject_Z_plus, !inject_Z_mult.
  change (inject_Z 10) with 10. field.
Qed.

(** ** Strictly sorted members *)

Lemma sort_strict (l : list string) :
  NoDup l -> StronglySorted (fun a b => String.ltb a b = true) (Py.sort String.leb l).
Proof.
  intros H.
  assert (Hn : NoDup (Py.sort String.leb l))
    by exact (Permutation_NoDup (Permutation_sym (sort_Permutation _ _)) H).
  pose proof (sort_strings_sorted l) as Hs.
  induction Hs as [|x m Hm IH Hx]; constructor.
  - apply IH. inversion Hn; assumption.
  - inversion Hn as [|? ? Hnotin _]; subst.
    apply Forall_forall. intros y Hy.
    pose proof (proj1 (Forall_forall _ _) Hx y Hy) as Hle.
    unfold String.leb in Hle. unfold String.ltb.
    destruct (String.compare x y) eqn:E; [|reflexivity|discriminate].
    apply String.compare_eq_iff in E. subst y. contradiction.
Qed.

Lemma set_union_NoDup (s t : list string) : NoDup s -> NoDup (Py.set_union s t).
Proof.
  unfold Py.set_union. revert s. induction t as [|x t IH]; intros s H; cbn [fold_left];
    [exact H|].
  apply IH, set_add_NoDup, H.
Qed.

Lemma group_nodes_NoDup (rt : Library) (parent : list (string * string))
      (all_cm : list string) :
  Forall (fun kv : string * list string => NoDup (snd kv)) (group_nodes rt parent all_cm).
Proof.
  unfold group_nodes.
  apply (fold_left_invariant
           (fun st : list (string * string) * list (string * list string) =>
              Forall (fun kv : string * list string => NoDup (snd kv)) (snd st)));
    [constructor|].
  intros [p groups] n H. cbn [snd] in H. destruct (find p n) as [p' r]. cbn [snd].
  apply (set_Forall (fun l : list string => NoDup l)); [exact H|].
  apply set_add_NoDup. apply (get_or_Forall (fun l : list string => NoDup l));
    [exact H|constructor].
Qed.

Section LabelGroups.

Variable P : list string -> Prop.

Lemma label_groups_Forall (rt : Library) (groups : list (string * list string)) :
  Forall (fun kv : string * list string => P (snd kv)) groups ->
  Forall (fun kv : string * list string => P (snd kv)) (snd (label_groups rt groups)).
Proof.
  intros H. unfold label_groups.
  apply (fold_left_invariant_In
           (fun st : list (string * string) * list (string * list string) =>
              Forall (fun kv : string * list string => P (snd kv)) (snd st)));
    [constructor|].
  intros [rmap rgs] [idx [k mbrs]] Hin Hst. cbn [snd] in *.
  apply (set_Forall P); [exact Hst|].
  unfold enumerate in Hin. apply in_combine_r in Hin. apply sort_In in Hin.
  exact (proj1 (Forall_forall _ _) H _ Hin).
Qed.

End LabelGroups.

Lemma detect_cycles_rings_NoDup (rt : Library) (wl : list string) (G : DiGraph)
      (cd : CycleData) :
  detect_cycles rt wl G = Some cd ->
  Forall (fun kv : string * list string => NoDup (snd kv)) (rings cd).
Proof.
  unfold detect_cycles. destruct (gate_cycles _ _) as [raw|]; [|discriminate].
  pose proof (label_groups_Forall (fun l => NoDup l) rt _
                (group_nodes_NoDup rt (fold_left union_cycle raw [])
                                   (Py.set_of (List.concat raw)))) as H.
  destruct (label_groups _ _) as [rmap rgs]. cbn [snd] in H.
  intros E. apply some_inj in E. subst cd. exact H.
Qed.

(** X17: In every ring that run reports, member_accounts is in strictly
    increasing string order and has no duplicate. *)
Theorem ring_members_strictly_sorted (rt : Runtime) (df0 : list Row)
        (res : AnalysisResult) (r : Ring) :
  run rt df0 = Some res ->
  In r (fraud_rings res) ->
  StronglySorted (fun a b => String.ltb a b = true) (member_accounts r)
  /\ NoDup (member_accounts r).
Proof.
  intros Hrun Hr.
  destruct (run_ring_shapes rt df0 res Hrun) as (cd & Hcd & Hsh).
  pose proof (proj1 (Forall_forall _ _) Hsh r Hr) as H.
  assert (S : exists l, NoDup l /\ member_accounts r = Py.sort String.leb l).
  { destruct H as [(mbrs & Hin & Hm & _)|[(hub & Hm & _)|(chain & Hn & _ & Hm & _)]].
    - exists mbrs. split; [|exact Hm].
      exact (proj1 (Forall_forall _ _) (detect_cycles_rings_NoDup _ _ _ _ Hcd) _ Hin).
    - eexists. split; [|exact Hm]. apply set_union_NoDup. repeat constructor. intros [].
    - exists chain. now split. }
  destruct S as (l & Hl & ->). split; [apply sort_strict; exact Hl|].
  exact (Permutation_NoDup (Permutation_sym (sort_Permutation _ _)) Hl).
Qed.

Lemma ring_members_strictly_sorted_witness :
  run Examples.rtA Scenarios.mixed = Some Scenarios.mixed_result
  /\ In Scenarios.mixed_cycle_ring (fraud_rings Scenarios.mixed_result)
  /\ StronglySorted (fun a b => String.ltb a b = true)
                    (member_accounts Scenarios.mixed_cycle_ring)
  /\ NoDup (member_accounts Scenarios.mixed_cycle_ring).
Proof.
  assert (R : run Examples.rtA Scenarios.mixed = Some Scenarios.mixed_result)
    by (vm_compute; reflexivity).
  assert (I : In Scenarios.mixed_cycle_ring (fraud_rings Scenarios.mixed_result))
    by (vm_compute; left; reflexivity).
  split; [exact R|]. split; [exact I|].
  exact (ring_members_strictly_sorted Examples.rtA Scenarios.mixed
           Scenarios.mixed_result Scenarios.mixed_cycle_ring R I).
Defined.

(** ** Smurfing and shell rings *)

Lemma set_of_NoDup_id (l : list string) : NoDup l -> Py.set_of l = l.
Proof.
  unfold Py.set_of, Py.set_union.
  assert (G : forall s, NoDup (s ++ l) -> fold_left (fun acc x => Py.set_add x acc) l s = s ++ l).
  { induction l as [|x l IH]; intros s H; cbn [fold_left]; [now rewrite List.app_nil_r|].
    assert (Hx : Py.mem x s = false).
    { apply mem_false. intros Hin. apply NoDup_remove_2 in H. apply H.
      apply in_app_iff. now left. }
    unfold Py.set_add. rewrite Hx.
    rewrite IH; rewrite <- app_assoc; [reflexivity|exact H]. }
  intros H. exact (G [] H).
Qed.

Lemma set_union_disjoint_length (s t : list string) :
  NoDup t -> (forall x, In x t -> ~ In x s) ->
  List.length (Py.set_union s t) = (List.length s + List.length t)%nat.
Proof.
  unfold Py.set_union. revert s. induction t as [|x t IH]; intros s Hn Hd; cbn [fold_left].
  - cbn. lia.
  - inversion Hn as [|? ? Hx Hn']; subst.
    unfold Py.set_add at 2.
    rewrite (proj2 (mem_false x s) (Hd x (or_introl eq_refl))).
    rewrite IH; [rewrite length_app; cbn; lia|exact Hn'|].
    intros y Hy Hin. apply in_app_iff in Hin. destruct Hin as [Hin|[<-|[]]].
    + exact (Hd y (or_intror Hy) Hin).
    + contradiction.
Qed.

Lemma clean_graph_no_loop (df0 : list Row) (n : string) :
  ~ In n (predecessors (build_graph (clean df0)) n).
Proof.
  intros H. apply (predecessors_spec (clean df0) n n (clean_no_self_transfer df0)) in H.
  unfold senders_of in H. apply in_map_iff in H. destruct H as (t & Hs & Ht).
  apply filter_In in Ht. destruct Ht as [Ht Hr]. apply String.eqb_eq in Hr.
  apply (clean_no_self_transfer df0 t Ht). congruence.
Qed.

Lemma smurfing_members (df0 : list Row) (hub : string) :
  List.length (Py.set_union [hub] (Py.set_of (predecessors (build_graph (clean df0)) hub)))
  = S (in_degree (build_graph (clean df0)) hub).
Proof.
  pose proof (proj1 (predecessors_spec (clean df0) hub "" (clean_no_self_transfer df0)))
    as Hn.
  rewrite (set_of_NoDup_id _ Hn).
  rewrite set_union_disjoint_length; [reflexivity|exact Hn|].
  intros x Hx [E|[]]. subst x. exact (clean_graph_no_loop df0 hub Hx).
Qed.

(** X18: A reported smurfing ring has at least 11 members, no mastermind and
    a risk_score of min(84.9, 55 + 0.4 * (members - 1)), hence between 59
    and 84.9; a reported shell ring has at least 2 members, no mastermind
    and a risk_score of 50 + 1.5 * members. *)
Theorem smurfing_and_shell_ring_risk (rt : Runtime) (df0 : list Row)
        (res : AnalysisResult) (r : Ring) :
  run rt df0 = Some res ->
  In r (fraud_rings res) ->
  (pattern_type r = smurfing ->
   (11 <= List.length (member_accounts r))%nat
   /\ risk_score r
      == Py.qmin (849 # 10)
                 (55 + (4 # 10) * q_of_nat (List.length (member_accounts r) - 1))
   /\ 59 <= risk_score r /\ risk_score r <= 849 # 10
   /\ mastermind_account r = None)
  /\ (pattern_type r = shell ->
      (2 <= List.length (member_accounts r))%nat
      /\ risk_score r == 50 + (15 # 10) * q_of_nat (List.length (member_accounts r))
      /\ mastermind_account r = None).
Proof.
  intros Hrun Hr.
  destruct (run_ring_shapes rt df0 res Hrun) as (cd & Hcd & Hsh).
  pose proof (proj1 (Forall_forall _ _) Hsh r Hr) as H.
  split; intros Hp.
  - destruct H as [(mbrs & _ & _ & _ & Hc)|[(hub & Hm & Hd & Hrk & _ & Hmm)|
                                            (chain & _ & _ & _ & _ & Hc & _)]];
      [congruence| |congruence].
    assert (Hlen : List.length (member_accounts r)
                   = S (in_degree (build_graph (clean df0)) hub))
      by (rewrite Hm, sort_length; apply smurfing_members).
    set (d := in_degree (build_graph (clean df0)) hub) in *.
    unfold MIN_FAN_COUNT in Hd.
    assert (Hq : 10 <= q_of_nat d).
    { unfold q_of_nat. change 10 with (inject_Z 10). rewrite <- Zle_Qle. lia. }
    assert (Hx : risk_score r == Py.qmin (849 # 10) (55 + (4 # 10) * q_of_nat d)).
    { rewrite Hrk.
      destruct (qmin_cases (849 # 10) (55 + q_of_nat d / 50 * 20)) as [[E1 L1]|[E1 L1]];
      destruct (qmin_cases (849 # 10) (55 + (4 # 10) * q_of_nat d)) as [[E2 L2]|[E2 L2]];
      rewrite E1, E2.
      - apply (round1_exact _ 849). reflexivity.
      - exfalso. revert L1 L2. generalize (q_of_nat d). intros q L1 L2.
        assert (q / 50 * 20 == (4 # 10) * q) by field. lra.
      - exfalso. revert L1 L2. generalize (q_of_nat d). intros q L1 L2.
        assert (q / 50 * 20 == (4 # 10) * q) by field. lra.
      - rewrite (round1_exact _ (55 * 10 + Z.of_nat d * 4)).
        + generalize (q_of_nat d). intros q. field.
        + rewrite <- q_of_nat_tenths. change (inject_Z 55) with 55.
          change (inject_Z 4) with 4. generalize (q_of_nat d). intros q. field. }
    split; [lia|]. split.
    { rewrite Hx, Hlen. replace (S d - 1)%nat with d by lia. reflexivity. }
    split; [|split; [|exact Hmm]].
    + rewrite Hx.
      destruct (qmin_cases (849 # 10) (55 + (4 # 10) * q_of_nat d)) as [[-> _]|[-> _]]; lra.
    + rewrite Hx. apply qmin_le_l.
  - destruct H as [(mbrs & _ & _ & _ & Hc)|[(hub & _ & _ & _ & Hc & _)|
                                            (chain & _ & Hl & Hm & Hrk & _ & Hmm)]];
      [congruence|congruence|].
    rewrite Hm, sort_length. split; [exact Hl|]. split; [|exact Hmm].
    rewrite Hrk.
    rewrite (round1_exact _ (50 * 10 + Z.of_nat (List.length chain) * 15)).
    + generalize (q_of_nat (List.length chain)). intros q. field.
    + rewrite <- q_of_nat_tenths. change (inject_Z 50) with 50.
      change (inject_Z 15) with 15.
      generalize (q_of_nat (List.length chain)). intros q. field.
Qed.

Lemma smurfing_and_shell_ring_risk_witness :
  run Examples.rtA Scenarios.mixed = Some Scenarios.mixed_result
  /\ In Scenarios.mixed_smurfing_ring (fraud_rings Scenarios.mixed_result)
  /\ pattern_type Scenarios.mixed_smurfing_ring = smurfing
  /\ In Scenarios.mixed_shell_ring (fraud_rings Scenarios.mixed_result)
  /\ pattern_type Scenarios.mixed_shell_ring = shell
  /\ 59 <= risk_score Scenarios.mixed_smurfing_ring
  /\ risk_score Scenarios.mixed_shell_ring
     == 50 + (15 # 10) * q_of_nat (List.length (member_accounts Scenarios.mixed_shell_ring)).
Proof.
  assert (R : run Examples.rtA Scenarios.mixed = Some Scenarios.mixed_result)
    by (vm_compute; reflexivity).
  assert (I1 : In Scenarios.mixed_smurfing_ring (fraud_rings Scenarios.mixed_result))
    by (vm_compute; right; left; reflexivity).
  assert (P1 : pattern_type Scenarios.mixed_smurfing_ring = smurfing)
    by (vm_compute; reflexivity).
  assert (I2 : In Scenarios.mixed_shell_ring (fraud_rings Scenarios.mixed_result))
    by (vm_compute; right; right; left; reflexivity).
  assert (P2 : pattern_type Scenarios.mixed_shell_ring = shell)
    by (vm_compute; reflexivity).
  split; [exact R|]. split; [exact I1|]. split; [exact P1|].
  split; [exact I2|]. split; [exact P2|].
  split.
  - exact (proj1 (proj2 (proj2 (proj1 (smurfing_and_shell_ring_risk Examples.rtA
             Scenarios.mixed Scenarios.mixed_result Scenarios.mixed_smurfing_ring R I1)
             P1)))).
  - exact (proj1 (proj2 (proj2 (smurfing_and_shell_ring_risk Examples.rtA
             Scenarios.mixed Scenarios.mixed_result Scenarios.mixed_shell_ring R I2)
             P2))).
Defined.

(** ** The accounts of the suspects *)

Lemma attach_members_accounts (rid : string) (order : list string)
      (rmap : list (string * string)) (sus : list Suspect) :
  map account_id (snd (attach_members rid order rmap sus)) = map account_id sus.
Proof.
  unfold attach_members.
  apply (fold_left_invariant
           (fun st : list (string * string) * list Suspect =>
              map account_id (snd st) = map account_id sus)); [reflexivity|].
  intros [rm su] m H. cbn [snd] in H. destruct (Py.get rm m); [exact H|]. cbn [snd].
  rewrite <- H, map_map. apply map_ext. intros s.
  now destruct (String.eqb (account_id s) m).
Qed.

Lemma smurfing_step_accounts (rt : Library) (wl : list string) (G : DiGraph)
      (df : list Tx) (st : Assembly) (item : string * list string) :
  map account_id (a_suspects (smurfing_step rt wl G df st item))
  = map account_id (a_suspects st).
Proof.
  unfold smurfing_step. destruct item as [hub pats].
  destruct (has_key _ _); [reflexivity|].
  destruct (negb _); [reflexivity|].
  destruct (Py.mem hub wl); [reflexivity|].
  destruct (_ <? _)%nat; [reflexivity|].
  destruct (_all_legit _); [reflexivity|].
  destruct (_ && _); [reflexivity|].
  rewrite attach_members_fst_snd. cbn [a_suspects]. apply attach_members_accounts.
Qed.

Lemma shell_step_accounts (rt : Library) (G : DiGraph) (df : list Tx)
      (shell_map : list (string * nat)) (st : Assembly * list string) (n : string) :
  map account_id (a_suspects (fst (shell_step rt G df shell_map st n)))
  = map account_id (a_suspects (fst st)).
Proof.
  unfold shell_step. destruct st as [asm seen].
  destruct (_ || _); [reflexivity|].
  destruct (collect_chain _ _ _ _ _ _) as [chain seen'].
  destruct (2 <=? _)%nat; [|reflexivity].
  rewrite attach_members_fst_snd. cbn [fst a_suspects]. apply attach_members_accounts.
Qed.

Lemma assemble_rings_accounts (rt : Library) (wl : list string) (G : DiGraph)
      (df : list Tx) (cd : CycleData) (smurf_map : list (string * list string))
      (shell_map : list (string * nat)) (mm : list (string * Mastermind))
      (suspects : list Suspect) :
  map account_id (a_suspects (assemble_rings rt wl G df cd smurf_map shell_map mm suspects))
  = map account_id suspects.
Proof.
  unfold assemble_rings.
  apply (fold_left_invariant
           (fun st : Assembly * list string =>
              map account_id (a_suspects (fst st)) = map account_id suspects)).
  - cbn [fst].
    apply (fold_left_invariant
             (fun st : Assembly => map account_id (a_suspects st) = map account_id suspects));
      [reflexivity|].
    intros st item H. now rewrite smurfing_step_accounts.
  - intros st n H. now rewrite shell_step_accounts.
Qed.

Lemma make_suspect_account (G : DiGraph) (df : list Tx) (cd : CycleData)
      (smurf_map : list (string * list string)) (shell_map : list (string * nat))
      (pre : Pre) (mm : list (string * Mastermind)) (acct : string) (s : Suspect) :
  make_suspect G df cd smurf_map shell_map pre mm acct = Some s -> account_id s = acct.
Proof.
  unfold make_suspect. destruct (Py.qleb _ 0); [discriminate|].
  intros H. apply some_inj in H. now subst s.
Qed.

Lemma NoDup_flat_map_option {A : Type} (f : string -> option A) (g : A -> string)
      (l : list string) :
  (forall x y, f x = Some y -> g y = x) ->
  NoDup l ->
  NoDup (map g (flat_map (fun x => match f x with Some y => [y] | None => [] end) l)).
Proof.
  intros Hf. induction 1 as [|x l Hx Hl IH]; cbn [flat_map map]; [constructor|].
  destruct (f x) as [y|] eqn:E; cbn [app map]; [|exact IH].
  constructor; [|exact IH].
  rewrite (Hf x y E). intros Hin. apply in_map_iff in Hin.
  destruct Hin as (z & Hz & Hin). apply in_flat_map in Hin.
  destruct Hin as (x' & Hx' & Hin).
  destruct (f x') as [y'|] eqn:E'; [|destruct Hin]. destruct Hin as [<-|[]].
  rewrite (Hf x' y' E') in Hz. subst x'. contradiction.
Qed.

Lemma suspect_pool_NoDup (cd : CycleData) (smurf_map : list (string * list string))
      (shell_map : list (string * nat)) :
  NoDup (suspect_pool cd smurf_map shell_map).
Proof. unfold suspect_pool. apply set_union_NoDup, set_union_NoDup, set_of_NoDup. Qed.

Lemma score_suspects_NoDup (rt : Library) (G : DiGraph) (df : list Tx) (cd : CycleData)
      (smurf_map : list (string * list string)) (shell_map : list (string * nat))
      (mm : list (string * Mastermind)) :
  set_iter_ok rt ->
  NoDup (map account_id (score_suspects rt G df cd smurf_map shell_map mm)).
Proof.
  intros Hrt. unfold score_suspects.
  apply NoDup_flat_map_option.
  - intros x y H. exact (make_suspect_account _ _ _ _ _ _ _ _ _ H).
  - apply (Permutation_NoDup (Permutation_sym (Hrt _))). apply suspect_pool_NoDup.
Qed.

(** ** The count of filtered false positives *)

Lemma filter_split_length {A : Type} (f : A -> bool) (l : list A) :
  (List.length (filter f l) + List.length (filter (fun x => negb (f x)) l))%nat
  = List.length l.
Proof.
  induction l as [|x l IH]; [reflexivity|]. cbn [filter].
  destruct (f x); cbn [negb List.length]; lia.
Qed.

Lemma drop_conserves (rids : list string) (st : Filtered) :
  (f_fp (drop rids st) + List.length (f_suspects (drop rids st)))%nat
  = (f_fp st + List.length (f_suspects st))%nat.
Proof.
  unfold drop; cbn [f_fp f_suspects].
  pose proof (filter_split_length (fun s => ring_id_in s rids) (f_suspects st)) as H.
  cbv beta in H. lia.
Qed.

Lemma subseq_NoDup {A : Type} (l1 l2 : list A) : subseq l1 l2 -> NoDup l2 -> NoDup l1.
Proof.
  induction 1 as [|x l1 l2 H IH|x l1 l2 H IH]; intros Hn.
  - constructor.
  - apply IH. inversion Hn; assumption.
  - inversion Hn as [|? ? Hx Hn']; subst. constructor; [|exact (IH Hn')].
    intros Hin. apply Hx. exact (subseq_In _ _ _ H Hin).
Qed.

Lemma filter_accounts_NoDup (f : Suspect -> bool) (l : list Suspect) :
  NoDup (map account_id l) -> NoDup (map account_id (filter f l)).
Proof.
  apply subseq_NoDup. apply subseq_map. apply subseq_filter.
Qed.

Lemma drop_accounts_NoDup (rids : list string) (st : Filtered) :
  NoDup (map account_id (f_suspects st)) ->
  NoDup (map account_id (f_suspects (drop rids st))).
Proof. unfold drop; cbn [f_suspects]. apply filter_accounts_NoDup. Qed.

Lemma orphan_accounts (l : list Suspect) (s : Suspect) :
  NoDup (map account_id l) -> In s l ->
  Py.mem (account_id s) (map account_id (filter is_orphan l)) = is_orphan s.
Proof.
  intros Hn Hs. destruct (is_orphan s) eqn:E.
  - apply mem_In. apply in_map. apply filter_In. now split.
  - apply mem_false. intros Hin. apply in_map_iff in Hin.
    destruct Hin as (s' & Ha & Hs'). apply filter_In in Hs'. destruct Hs' as [Hs' Ho].
    assert (s' = s); [|congruence].
    clear E Ho. induction l as [|x l IH]; [destruct Hs|].
    cbn [map] in Hn. inversion Hn as [|? ? Hx Hn']; subst.
    destruct Hs as [->|Hs], Hs' as [->|Hs']; try reflexivity.
    + elim Hx. rewrite <- Ha. now apply in_map.
    + elim Hx. rewrite Ha. now apply in_map.
    + exact (IH Hn' Hs Hs').
Qed.

Lemma drop_orphans_conserves (st : Filtered) :
  NoDup (map account_id (f_suspects st)) ->
  (f_fp (drop_orphans st) + List.length (f_suspects (drop_orphans st)))%nat
  = (f_fp st + List.length (f_suspects st))%nat
  /\ f_suspects (drop_orphans st) = filter (fun s => negb (is_orphan s)) (f_suspects st).
Proof.
  intros Hn. unfold drop_orphans; cbn [f_fp f_suspects].
  assert (E : filter (fun s => negb (Py.mem (account_id s)
                                       (map account_id (filter is_orphan (f_suspects st)))))
                     (f_suspects st)
              = filter (fun s => negb (is_orphan s)) (f_suspects st)).
  { apply filter_ext_in. intros s Hs. now rewrite (orphan_accounts _ _ Hn Hs). }
  rewrite E, length_map. split; [|reflexivity].
  pose proof (filter_split_length is_orphan (f_suspects st)). lia.
Qed.

Lemma post_filter_conserves (wl : list string) (suspects : list Suspect)
      (fraud_rings : list Ring) :
  NoDup (map account_id suspects) ->
  (f_fp (post_filter wl suspects fraud_rings)
   + List.length (f_suspects (post_filter wl suspects fraud_rings)))%nat
  = List.length suspects
  /\ NoDup (map account_id (f_suspects (post_filter wl suspects fraud_rings))).
Proof.
  intros Hn. unfold post_filter.
  set (st0 := mkFiltered 0 suspects fraud_rings).
  set (st1 := drop _ st0). set (st2 := drop _ st1). set (st3 := drop _ st2).
  set (st4 := drop _ st3).
  assert (N1 : NoDup (map account_id (f_suspects st1))) by (apply drop_accounts_NoDup, Hn).
  assert (N2 : NoDup (map account_id (f_suspects st2))) by (apply drop_accounts_NoDup, N1).
  assert (N3 : NoDup (map account_id (f_suspects st3))) by (apply drop_accounts_NoDup, N2).
  assert (N4 : NoDup (map account_id (f_suspects st4))) by (apply drop_accounts_NoDup, N3).
  destruct (drop_orphans_conserves st4 N4) as [C5 E5].
  pose proof (drop_conserves _ st3 : (f_fp st4 + _ = _)%nat) as C4.
  pose proof (drop_conserves _ st2 : (f_fp st3 + _ = _)%nat) as C3.
  pose proof (drop_conserves _ st1 : (f_fp st2 + _ = _)%nat) as C2.
  pose proof (drop_conserves _ st0 : (f_fp st1 + _ = _)%nat) as C1.
  destruct (whitelist_sweep_suspects wl (drop_orphans st4)) as [Es Ef].
  rewrite Es, Ef. split.
  - pose proof (filter_split_length (fun s => Py.mem (account_id s) wl)
                                    (f_suspects (drop_orphans st4))) as H.
    cbv beta in H. subst st4 st3 st2 st1 st0. cbn [f_fp f_suspects] in C1. lia.
  - apply filter_accounts_NoDup. rewrite E5. apply filter_accounts_NoDup. exact N4.
Qed.

Lemma post_filter_suspects_subseq (wl : list string) (suspects : list Suspect)
      (fraud_rings : list Ring) :
  NoDup (map account_id suspects) ->
  subseq (f_suspects (post_filter wl suspects fraud_rings)) suspects.
Proof.
  intros Hn. unfold post_filter.
  set (st0 := mkFiltered 0 suspects fraud_rings).
  set (st1 := drop _ st0). set (st2 := drop _ st1). set (st3 := drop _ st2).
  set (st4 := drop _ st3).
  assert (N4 : NoDup (map account_id (f_suspects st4)))
    by (repeat apply drop_accounts_NoDup; exact Hn).
  destruct (whitelist_sweep_suspects wl (drop_orphans st4)) as [-> _].
  rewrite (proj2 (drop_orphans_conserves st4 N4)).
  repeat (eapply subseq_trans; [apply subseq_filter|]).
  unfold st4, st3, st2, st1, drop; cbn [f_suspects].
  repeat (eapply subseq_trans; [apply subseq_filter|]).
  apply subseq_refl.
Qed.

Lemma score_suspects_pool (rt : Library) (G : DiGraph) (df : list Tx) (cd : CycleData)
      (smurf_map : list (string * list string)) (shell_map : list (string * nat))
      (mm : list (string * Mastermind)) (s : Suspect) :
  set_iter_ok rt ->
  In s (score_suspects rt G df cd smurf_map shell_map mm) ->
  In (account_id s) (suspect_pool cd smurf_map shell_map).
Proof.
  intros Hrt H. unfold score_suspects in H. apply in_flat_map in H.
  destruct H as (acct & Ha & H).
  destruct (make_suspect _ _ _ _ _ _ _ _) as [s0|] eqn:E; [|destruct H].
  destruct H as [<-|[]]. rewrite (make_suspect_account _ _ _ _ _ _ _ _ _ E).
  exact (proj1 (set_iter_In rt _ _ Hrt) Ha).
Qed.

(** X19: Every account that run scores above zero is either reported or
    counted as a false positive: false_positives_filtered +
    suspicious_accounts_flagged equals the number of suspects built before
    the post-filter; no account is reported twice, and every reported
    account was flagged by the cycle, smurfing or shell detector (provided a
    set is traversed as a permutation of its elements). *)
Theorem scored_accounts_reported_or_counted (rt : Runtime) (df0 : list Row)
        (res : AnalysisResult) :
  set_iter_ok rt ->
  run rt df0 = Some res ->
  let df := clean df0 in
  let G := build_graph df in
  let wl := fst (detect_smurfing G df) in
  let smurf_map := snd (detect_smurfing G df) in
  exists cd,
    detect_cycles rt wl G = Some cd
    /\ (false_positives_filtered (summary res)
        + suspicious_accounts_flagged (summary res))%nat
       = List.length (a_suspects (assembly_of rt df G wl smurf_map cd))
    /\ NoDup (map account_id (suspicious_accounts res))
    /\ forall s, In s (suspicious_accounts res) ->
                 In (account_id s)
                    (suspect_pool cd smurf_map
                                  (detect_shell_chains rt wl G df (cycle_members cd))).
Proof.
  intros Hrt. unfold run. destruct (detect_cycles _ _ _) as [cd|] eqn:Ecd; [|discriminate].
  intros Heq. apply some_inj in Heq. rewrite <- Heq. cbv zeta. exists cd.
  split; [reflexivity|].
  unfold run_from_cycles.
  cbn [summary false_positives_filtered suspicious_accounts_flagged suspicious_accounts].
  set (asm := assembly_of _ _ _ _ _ _).
  assert (Hids : map account_id (a_suspects asm)
                 = map account_id
                     (score_suspects rt (build_graph (clean df0)) (clean df0) cd
                        (snd (detect_smurfing (build_graph (clean df0)) (clean df0)))
                        (detect_shell_chains rt
                           (fst (detect_smurfing (build_graph (clean df0)) (clean df0)))
                           (build_graph (clean df0)) (clean df0) (cycle_members cd))
                        (detect_mastermind rt (build_graph (clean df0)) (rings cd))))
    by apply assemble_rings_accounts.
  assert (Hn : NoDup (map account_id (a_suspects asm)))
    by (rewrite Hids; apply score_suspects_NoDup; exact Hrt).
  destruct (post_filter_conserves
              (fst (detect_smurfing (build_graph (clean df0)) (clean df0)))
              (a_suspects asm) (a_fraud_rings asm) Hn) as [Hc Hn'].
  unfold sort_suspects. rewrite sort_length.
  split; [exact Hc|]. split.
  - refine (Permutation_NoDup _ Hn'). apply Permutation_map, Permutation_sym.
    apply sort_Permutation.
  - intros s Hs. apply sort_In in Hs.
    pose proof (subseq_In _ _ _ (post_filter_suspects_subseq _ _ _ Hn) Hs) as Hs'.
    apply (in_map account_id) in Hs'. rewrite Hids in Hs'.
    apply in_map_iff in Hs'. destruct Hs' as (s0 & <- & Hs0).
    exact (score_suspects_pool _ _ _ _ _ _ _ _ Hrt Hs0).
Qed.

Lemma scored_accounts_reported_or_counted_witness :
  set_iter_ok Examples.rtA
  /\ run Examples.rtA Scenarios.mixed = Some Scenarios.mixed_result
  /\ NoDup (map account_id (suspicious_accounts Scenarios.mixed_result)).
Proof.
  assert (Hrt : set_iter_ok Examples.rtA) by (intros s; apply Permutation_refl).
  assert (R : run Examples.rtA Scenarios.mixed = Some Scenarios.mixed_result)
    by (vm_compute; reflexivity).
  split; [exact Hrt|]. split; [exact R|].
  destruct (scored_accounts_reported_or_counted Examples.rtA Scenarios.mixed
              Scenarios.mixed_result Hrt R) as (cd & _ & _ & N & _).
  exact N.
Defined.

(** ** The cycles of an account *)

Lemma get_or_set {V : Type} (d : list (string * V)) (k a : string) (v dflt : V) :
  Py.get_or (Py.set d k v) a dflt = if String.eqb a k then v else Py.get_or d a dflt.
Proof.
  unfold Py.get_or. destruct (String.eqb a k) eqn:E.
  - apply String.eqb_eq in E. subst k. now rewrite get_set_same.
  - apply String.eqb_neq in E. now rewrite get_set_other.
Qed.

Lemma member_cycles_inner (c : list string) (n : string) (x : list string) :
  forall (l : list string) (mc : list (string * list (list string))),
    In x (Py.get_or (fold_left (fun mc n => Py.set mc n (Py.get_or mc n [] ++ [c])) l mc)
                    n [])
    <-> In x (Py.get_or mc n []) \/ (x = c /\ In n l).
Proof.
  induction l as [|n0 l IH]; intros mc; cbn [fold_left].
  - cbn [In]. tauto.
  - rewrite IH, get_or_set. destruct (String.eqb n n0) eqn:E.
    + apply String.eqb_eq in E. subst n0. rewrite in_app_iff. cbn [In]. intuition.
    + apply String.eqb_neq in E. cbn [In]. intuition. congruence.
Qed.

Lemma member_cycles_outer (n : string) (x : list string) :
  forall (raw : list (list string)) (mc : list (string * list (list string))),
    In x (Py.get_or
            (fold_left
               (fun mc c => fold_left (fun mc n => Py.set mc n (Py.get_or mc n [] ++ [c])) c mc)
               raw mc) n [])
    <-> In x (Py.get_or mc n []) \/ (In x raw /\ In n x).
Proof.
  induction raw as [|c raw IH]; intros mc; cbn [fold_left].
  - cbn [In]. tauto.
  - rewrite IH, member_cycles_inner. cbn [In]. intuition; subst; intuition.
Qed.

(** X20: In the result of detect_cycles, member_cycles of an account lists
    exactly the kept cycles that contain the account, and an account is in
    cycle_members exactly when that list is non-empty. *)
Theorem member_cycles_of_account (rt : Library) (wl : list string) (G : DiGraph)
        (cd : CycleData) (n : string) (c : list string) :
  detect_cycles rt wl G = Some cd ->
  (In c (Py.get_or (member_cycles cd) n []) <-> In c (raw_cycles cd) /\ In n c)
  /\ (In n (cycle_members cd) <-> Py.get_or (member_cycles cd) n [] <> []).
Proof.
  unfold detect_cycles. destruct (gate_cycles _ _) as [raw|]; [|discriminate].
  destruct (label_groups _ _) as [rmap rgs].
  intros E. apply some_inj in E. subst cd. cbn [member_cycles raw_cycles cycle_members].
  set (mc := collect_member_cycles raw).
  assert (M : forall x, In x (Py.get_or mc n []) <-> In x raw /\ In n x).
  { intros x. unfold mc, collect_member_cycles. rewrite member_cycles_outer.
    cbn. intuition. }
  split; [apply M|].
  rewrite In_set_of, in_concat. split.
  - intros (x & Hx & Hn) Hnil. pose proof (proj2 (M x) (conj Hx Hn)) as H.
    rewrite Hnil in H. exact H.
  - intros H. destruct (Py.get_or mc n []) as [|x l] eqn:Eg; [now elim H|].
    exists x. apply (proj1 (M x)). now left.
Qed.

Lemma member_cycles_of_account_witness :
  detect_cycles Examples.rtA Scenarios.mixed_wl Scenarios.mixed_G
  = Some Scenarios.mixed_cycle_data
  /\ (In ["NODE_H"; "NODE_C"; "NODE_D"]
         (Py.get_or (member_cycles Scenarios.mixed_cycle_data) "NODE_C" [])
      <-> In ["NODE_H"; "NODE_C"; "NODE_D"] (raw_cycles Scenarios.mixed_cycle_data)
          /\ In "NODE_C" ["NODE_H"; "NODE_C"; "NODE_D"]).
Proof.
  assert (H : detect_cycles Examples.rtA Scenarios.mixed_wl Scenarios.mixed_G
              = Some Scenarios.mixed_cycle_data) by (vm_compute; reflexivity).
  split; [exact H|].
  exact (proj1 (member_cycles_of_account Examples.rtA Scenarios.mixed_wl Scenarios.mixed_G
                  Scenarios.mixed_cycle_data "NODE_C" ["NODE_H"; "NODE_C"; "NODE_D"] H)).
Defined.

(** ** Trimming a component *)

Lemma sorted_app_rel {A : Type} (R : A -> A -> Prop) (l1 l2 : list A) :
  StronglySorted R (l1 ++ l2) -> forall x y, In x l1 -> In y l2 -> R x y.
Proof.
  induction l1 as [|a l1 IH]; cbn [app]; intros H x y Hx Hy; [destruct Hx|].
  inversion H as [|? ? Hs Hf]; subst. destruct Hx as [->|Hx].
  - apply (proj1 (Forall_forall _ _) Hf). apply in_app_iff. now right.
  - exact (IH Hs x y Hx Hy).
Qed.

Lemma sort_by_degree_desc_sorted (deg : list (string * nat)) :
  StronglySorted (fun a b => (snd b <= snd a)%nat) (sort_by_degree_desc deg).
Proof.
  unfold sort_by_degree_desc.
  eapply StronglySorted_weaken; [|apply sort_sorted].
  - intros a b H. apply Nat.leb_le in H. exact H.
  - intros a b. rewrite !Nat.leb_le. lia.
  - intros a b c. rewrite !Nat.leb_le. lia.
Qed.

Lemma firstn_In {A : Type} (n : nat) (l : list A) (x : A) : In x (firstn n l) -> In x l.
Proof. intros H. rewrite <- (firstn_skipn n l). apply in_app_iff. now left. Qed.

(** X21: _trim_scc returns min(len(nodes), MAX_SCC_SIZE) distinct nodes of
    its input, and every node it keeps has a degree in the induced subgraph
    at least as large as every node it drops (provided a set is traversed as
    a permutation of its elements). *)
Theorem _trim_scc_keeps_top_degrees (rt : Library) (G : DiGraph) (nodes : list string) :
  set_iter_ok rt ->
  NoDup nodes ->
  let kept := _trim_scc rt G nodes in
  let deg := fun n => (in_degree (subgraph G nodes) n + out_degree (subgraph G nodes) n)%nat in
  List.length kept = Nat.min (List.length nodes) MAX_SCC_SIZE
  /\ NoDup kept
  /\ (forall x, In x kept -> In x nodes)
  /\ (forall x y, In x kept -> In y nodes -> ~ In y kept -> (deg y <= deg x)%nat).
Proof.
  intros Hrt Hn kept deg. unfold kept, _trim_scc.
  destruct (List.length nodes <=? MAX_SCC_SIZE)%nat eqn:E.
  - apply Nat.leb_le in E. split; [lia|]. split; [exact Hn|]. split; [tauto|].
    intros x y _ Hy Hny. contradiction.
  - apply Nat.leb_gt in E.
    set (tbl := map (fun n => (n, deg n)) (set_iter rt nodes)).
    change (map _ (set_iter rt nodes)) with tbl.
    set (L := sort_by_degree_desc tbl).
    assert (PL : Permutation L tbl) by apply sort_Permutation.
    assert (Hfst : Permutation (map fst L) nodes).
    { transitivity (map fst tbl); [apply Permutation_map; exact PL|].
      unfold tbl. rewrite map_map. cbn [fst]. rewrite map_id. apply Hrt. }
    assert (NL : NoDup (map fst L))
      by exact (Permutation_NoDup (Permutation_sym Hfst) Hn).
    assert (Nf : NoDup (map fst (firstn MAX_SCC_SIZE L))).
    { rewrite <- (firstn_skipn MAX_SCC_SIZE L), map_app in NL.
      exact (NoDup_app_remove_r _ _ NL). }
    rewrite (set_of_NoDup_id _ Nf).
    assert (HL : List.length L = List.length nodes).
    { rewrite (Permutation_length PL). unfold tbl. rewrite length_map.
      apply Permutation_length, Hrt. }
    assert (Hentry : forall e, In e L -> e = (fst e, deg (fst e))).
    { intros e He. apply (Permutation_in _ PL) in He. unfold tbl in He.
      apply in_map_iff in He. destruct He as (n & <- & _). reflexivity. }
    split; [rewrite length_map, length_firstn; lia|]. split; [exact Nf|]. split.
    + intros x Hx. apply in_map_iff in Hx. destruct Hx as (e & <- & He).
      apply firstn_In in He. apply (Permutation_in _ Hfst). now apply in_map.
    + intros x y Hx Hy Hny.
      apply in_map_iff in Hx. destruct Hx as (ex & <- & Hex).
      apply (Permutation_in _ (Permutation_sym Hfst)) in Hy.
      apply in_map_iff in Hy. destruct Hy as (ey & <- & Hey).
      rewrite <- (firstn_skipn MAX_SCC_SIZE L) in Hey. apply in_app_iff in Hey.
      destruct Hey as [Hey|Hey]; [elim Hny; now apply in_map|].
      pose proof (sort_by_degree_desc_sorted tbl) as HS. fold L in HS.
      rewrite <- (firstn_skipn MAX_SCC_SIZE L) in HS.
      pose proof (sorted_app_rel _ _ _ HS ex ey Hex Hey) as Hle.
      rewrite (Hentry ex (firstn_In _ _ _ Hex)) in Hle.
      assert (Hey' : In ey L)
        by (rewrite <- (firstn_skipn MAX_SCC_SIZE L); apply in_app_iff; now right).
      rewrite (Hentry ey Hey') in Hle. exact Hle.
Qed.

Lemma _trim_scc_keeps_top_degrees_witness :
  set_iter_ok Examples.rtA
  /\ NoDup (Py.set_of (g_nodes Scenarios.star_G))
  /\ List.length (Py.set_of (g_nodes Scenarios.star_G)) = 42%nat
  /\ List.length (_trim_scc Examples.rtA Scenarios.star_G
                            (Py.set_of (g_nodes Scenarios.star_G)))
     = Nat.min (List.length (Py.set_of (g_nodes Scenarios.star_G))) MAX_SCC_SIZE.
Proof.
  assert (Hrt : set_iter_ok Examples.rtA) by (intros s; apply Permutation_refl).
  assert (N : NoDup (Py.set_of (g_nodes Scenarios.star_G))) by apply set_of_NoDup.
  split; [exact Hrt|]. split; [exact N|]. split; [vm_compute; reflexivity|].
  exact (proj1 (_trim_scc_keeps_top_degrees Examples.rtA Scenarios.star_G
                  (Py.set_of (g_nodes Scenarios.star_G)) Hrt N)).
Defined.

(** ** The nodes of the cycle search *)

Lemma set_of_length (l : list string) : (List.length (Py.set_of l) <= List.length l)%nat.
Proof.
  unfold Py.set_of, Py.set_union.
  assert (G : forall s, (List.length (fold_left (fun acc x => Py.set_add x acc) l s)
                         <= List.length s + List.length l)%nat).
  { induction l as [|x l IH]; intros s; cbn [fold_left List.length]; [lia|].
    specialize (IH (Py.set_add x s)). unfold Py.set_add in *.
    destruct (Py.mem x s); [lia|]. rewrite length_app in IH. cbn in IH. lia. }
  exact (G []).
Qed.

Lemma set_union_length (s t : list string) :
  (List.length (Py.set_union s t) <= List.length s + List.length t)%nat.
Proof.
  unfold Py.set_union. revert s.
  induction t as [|x t IH]; intros s; cbn [fold_left List.length]; [lia|].
  specialize (IH (Py.set_add x s)). unfold Py.set_add in *.
  destruct (Py.mem x s); [lia|]. rewrite length_app in IH. cbn in IH. lia.
Qed.

Lemma set_union_forallb (f : string -> bool) (s t : list string) :
  forallb f s = true -> forallb f t = true -> forallb f (Py.set_union s t) = true.
Proof.
  rewrite !forallb_forall. intros Hs Ht x Hx.
  apply set_union_In in Hx. destruct Hx; auto.
Qed.

Lemma search_nodes_not_whitelisted (rt : Library) (wl : list string) (G : DiGraph)
      (n : string) :
  set_iter_ok rt -> In n (search_nodes rt wl G) -> Py.mem n wl = false.
Proof.
  intros Hrt. unfold search_nodes.
  set (scc0 := fold_left _ (nx_strongly_connected_components rt _) []).
  set (scc := Py.set_diff scc0 wl).
  assert (Hwl : forall n, In n scc -> Py.mem n wl = false).
  { intros m Hm. apply mem_set_diff in Hm. exact (proj2 Hm). }
  destruct (MAX_CYCLE_SEARCH_NODES <? List.length scc)%nat; [|apply Hwl].
  intros Hn. apply Hwl. apply set_union_In in Hn. destruct Hn as [Hn|Hn].
  - apply filter_In in Hn. exact (proj1 (set_iter_In rt _ _ Hrt) (proj1 Hn)).
  - apply set_of_In, in_map_iff in Hn.
    destruct Hn as (e & <- & He). apply firstn_In in He.
    unfold sort_by_degree_desc in He. apply sort_In in He.
    apply in_map_iff in He. destruct He as (m & <- & Hm). cbn [fst].
    apply filter_In in Hm. exact (proj1 (set_iter_In rt _ _ Hrt) (proj1 Hm)).
Qed.

(** X22: The node set on which detect_cycles enumerates cycles contains no
    whitelisted account, and it has at most MAX_CYCLE_SEARCH_NODES (200)
    nodes unless all of its nodes are fraud-prefixed (provided a set is
    traversed as a permutation of its elements). *)
Theorem search_nodes_capped (rt : Library) (wl : list string) (G : DiGraph) :
  set_iter_ok rt ->
  let nodes := search_nodes rt wl G in
  (forall n, In n nodes -> Py.mem n wl = false)
  /\ ((List.length nodes <= MAX_CYCLE_SEARCH_NODES)%nat \/ forallb _is_fraud nodes = true).
Proof.
  intros Hrt nodes.
  split; [intros n; apply search_nodes_not_whitelisted; exact Hrt|].
  unfold nodes, search_nodes.
  set (scc0 := fold_left _ (nx_strongly_connected_components rt _) []).
  set (scc := Py.set_diff scc0 wl).
  destruct (MAX_CYCLE_SEARCH_NODES <? List.length scc)%nat eqn:E.
  - set (pinned := filter _is_fraud (set_iter rt scc)).
    set (slots := (MAX_CYCLE_SEARCH_NODES - List.length pinned)%nat).
    set (rest := map _ (filter _ (set_iter rt scc))).
    set (top := Py.set_of (map fst (firstn slots (sort_by_degree_desc rest)))).
    assert (Ht : (List.length top <= slots)%nat).
    { unfold top. etransitivity; [apply set_of_length|].
      rewrite length_map. apply firstn_le_length. }
    destruct (Nat.le_gt_cases (List.length pinned) MAX_CYCLE_SEARCH_NODES) as [Hp|Hp].
    + left. pose proof (set_union_length pinned top). unfold slots in Ht.
      unfold MAX_CYCLE_SEARCH_NODES in *. lia.
    + right. assert (Hz : List.length top = 0%nat)
        by (unfold slots in Ht; unfold MAX_CYCLE_SEARCH_NODES in *; lia).
      assert (top = []) as -> by (destruct top; [reflexivity|discriminate Hz]).
      cbn. apply forallb_forall. intros x Hx. apply filter_In in Hx. exact (proj2 Hx).
  - apply Nat.ltb_ge in E. now left.
Qed.

Lemma search_nodes_capped_witness :
  set_iter_ok Examples.rtA
  /\ forall n, In n (search_nodes Examples.rtA ["NODE_H"] Scenarios.mixed_G) ->
               Py.mem n ["NODE_H"] = false.
Proof.
  assert (Hrt : set_iter_ok Examples.rtA) by (intros s; apply Permutation_refl).
  split; [exact Hrt|].
  exact (proj1 (search_nodes_capped Examples.rtA ["NODE_H"] Scenarios.mixed_G Hrt)).
Defined.

(** ** The groups of the cycle detector *)

Lemma set_group_members (groups : list (string * list string)) (r n : string) :
  ~ In n (flat_map snd groups) ->
  Permutation (flat_map snd (Py.set groups r (Py.set_add n (Py.get_or groups r []))))
              (n :: flat_map snd groups).
Proof.
  induction groups as [|[k v] groups IH]; intros Hn.
  - cbn. apply Permutation_refl.
  - cbn [flat_map snd] in Hn. rewrite in_app_iff in Hn.
    cbn [Py.set]. unfold Py.get_or. cbn [Py.get].
    destruct (String.eqb r k) eqn:E.
    + cbn [flat_map snd]. unfold Py.set_add.
      rewrite (proj2 (mem_false n v)) by tauto.
      rewrite <- app_assoc. cbn [app]. symmetry. apply Permutation_middle.
    + cbn [flat_map snd]. fold (Py.get_or groups r []).
      etransitivity; [apply Permutation_app_head, IH; tauto|].
      symmetry. apply Permutation_middle.
Qed.

Lemma keys_set_NoDup {V : Type} (d : list (string * V)) (k : string) (v : V) :
  NoDup (Py.keys d) -> NoDup (Py.keys (Py.set d k v)).
Proof.
  unfold Py.keys. induction d as [|[k' v'] d IH]; cbn [Py.set map fst]; intros H.
  - repeat constructor. intros [].
  - inversion H as [|? ? Hk Hd]; subst.
    destruct (String.eqb k k') eqn:E; cbn [map fst]; [exact H|].
    constructor; [|exact (IH Hd)].
    intros Hin. apply (keys_set d k v k') in Hin. destruct Hin as [->|Hin].
    + rewrite String.eqb_refl in E. discriminate E.
    + exact (Hk Hin).
Qed.

Lemma set_add_nonempty (n : string) (l : list string) : Py.set_add n l <> [].
Proof.
  unfold Py.set_add. destruct (Py.mem n l) eqn:E.
  - destruct l; [discriminate E|discriminate].
  - now destruct l.
Qed.

Lemma group_nodes_members (rt : Library) (parent : list (string * string))
      (all_cm : list string) :
  NoDup (set_iter rt all_cm) ->
  Permutation (flat_map snd (group_nodes rt parent all_cm)) (set_iter rt all_cm)
  /\ Forall (fun kv : string * list string => snd kv <> []) (group_nodes rt parent all_cm)
  /\ NoDup (Py.keys (group_nodes rt parent all_cm)).
Proof.
  unfold group_nodes. generalize (set_iter rt all_cm). intros order Hn.
  assert (I : forall l st,
             NoDup (flat_map snd (snd st) ++ l) ->
             Forall (fun kv : string * list string => snd kv <> []) (snd st) ->
             NoDup (Py.keys (snd st)) ->
             let st' := fold_left
                          (fun (st : list (string * string) * list (string * list string)) n =>
                             let '(p, groups) := st in
                             let '(p', r) := find p n in
                             (p', Py.set groups r (Py.set_add n (Py.get_or groups r []))))
                          l st in
             Permutation (flat_map snd (snd st')) (flat_map snd (snd st) ++ l)
             /\ Forall (fun kv : string * list string => snd kv <> []) (snd st')
             /\ NoDup (Py.keys (snd st'))).
  { induction l as [|n l IH]; intros [p groups] Hnd Hne Hk; cbn [fold_left snd] in *.
    - rewrite List.app_nil_r. split; [apply Permutation_refl|now split].
    - destruct (find p n) as [p' r].
      assert (Hnot : ~ In n (flat_map snd groups)).
      { apply NoDup_remove_2 in Hnd. intros H. apply Hnd. apply in_app_iff. now left. }
      pose proof (set_group_members groups r n Hnot) as HP.
      destruct (IH (p', Py.set groups r (Py.set_add n (Py.get_or groups r [])))) as (P1 & P2 & P3).
      + cbn [snd]. apply (Permutation_NoDup (l := n :: flat_map snd groups ++ l)).
        * symmetry. cbn [app]. change (n :: flat_map snd groups ++ l)
            with ((n :: flat_map snd groups) ++ l).
          apply Permutation_app_tail. exact HP.
        * apply (Permutation_NoDup (Permutation_sym (Permutation_middle _ _ _))). exact Hnd.
      + cbn [snd]. apply (set_Forall (fun l0 : list string => l0 <> [])); [exact Hne|].
        apply set_add_nonempty.
      + cbn [snd]. apply keys_set_NoDup. exact Hk.
      + cbn [snd] in P1. split; [|now split].
        etransitivity; [exact P1|].
        etransitivity; [apply Permutation_app_tail; exact HP|].
        cbn [app]. apply Permutation_middle. }
  destruct (I order (parent, [])) as (P1 & P2 & P3).
  - cbn. exact Hn.
  - constructor.
  - constructor.
  - cbn in P1. now split.
Qed.

(** ** The labels of the groups *)

Lemma NoDup_app_not_In {A : Type} (l1 l2 : list A) (a : A) :
  NoDup (l1 ++ l2) -> In a l1 -> ~ In a l2.
Proof.
  induction l1 as [|x l1 IH]; cbn [app]; intros H Ha; [destruct Ha|].
  inversion H as [|? ? Hx Hn]; subst. destruct Ha as [->|Ha].
  - intros Hin. apply Hx. apply in_app_iff. now right.
  - exact (IH Hn Ha).
Qed.

Lemma fold_set_const {V : Type} (v : V) (l : list string) (m : string) :
  forall d, Py.get (fold_left (fun d m => Py.set d m v) l d) m
            = if Py.mem m l then Some v else Py.get d m.
Proof.
  induction l as [|x l IH]; intros d; cbn [fold_left]; [reflexivity|].
  rewrite IH. unfold Py.mem at 2. cbn [existsb]. fold (Py.mem m l).
  destruct (Py.mem m l); [now rewrite orb_true_r|]. rewrite orb_false_r.
  destruct (String.eqb m x) eqn:E.
  - apply String.eqb_eq in E. subst x. apply get_set_same.
  - apply String.eqb_neq in E. now apply get_set_other.
Qed.

Lemma label_fold_spec (rt : Library) (items : list (string * list string)) :
  forall (b : nat) (rmap : list (string * string)) (rgs : list (string * list string)),
    map fst rgs = map ring_label (seq 1 b) ->
    NoDup (flat_map (fun it => set_iter rt (snd it)) items) ->
    let enum := combine (seq (S b) (List.length items)) items in
    let res := fold_left (label_step rt) enum (rmap, rgs) in
    snd res = rgs ++ map (fun ig => (ring_label (fst ig), snd (snd ig))) enum
    /\ forall m rid,
         Py.get (fst res) m = Some rid
         <-> (exists idx it, In (idx, it) enum /\ In m (set_iter rt (snd it))
                             /\ rid = ring_label idx)
             \/ (~ In m (flat_map (fun it => set_iter rt (snd it)) items)
                 /\ Py.get rmap m = Some rid).
Proof.
  induction items as [|[k mbrs] items IH]; intros b rmap rgs Hk Hn enum res.
  - cbn in *. split; [now rewrite List.app_nil_r|].
    intros m rid. split; [intros H; right; tauto|].
    intros [(idx & it & [] & _)|[_ H]]. exact H.
  - subst enum res. cbn [List.length seq combine fold_left].
    change (label_step rt (rmap, rgs) (S b, (k, mbrs)))
      with (fold_left (fun d m => Py.set d m (ring_label (S b))) (set_iter rt mbrs) rmap,
            Py.set rgs (ring_label (S b)) mbrs).
    cbn [flat_map snd] in Hn.
    assert (Hn' : NoDup (flat_map (fun it => set_iter rt (snd it)) items))
      by exact (NoDup_app_remove_l _ _ Hn).
    assert (Hk' : map fst (Py.set rgs (ring_label (S b)) mbrs)
                  = map ring_label (seq 1 (S b))).
    { rewrite set_fresh by (rewrite Hk; apply ring_label_fresh).
      rewrite map_app, Hk. apply labels_snoc. }
    destruct (IH (S b)
                 (fold_left (fun d m => Py.set d m (ring_label (S b))) (set_iter rt mbrs) rmap)
                 (Py.set rgs (ring_label (S b)) mbrs) Hk' Hn') as [IH1 IH2].
    split.
    + rewrite IH1. rewrite set_fresh by (rewrite Hk; apply ring_label_fresh).
      rewrite <- app_assoc. reflexivity.
    + intros m rid. rewrite IH2. rewrite fold_set_const.
      cbn [flat_map snd]. rewrite in_app_iff. split.
      * intros [(idx & it & Hin & Hm & Hr)|[Hnot Hg]].
        -- left. exists idx, it. split; [now right|now split].
        -- destruct (Py.mem m (set_iter rt mbrs)) eqn:Em.
           ++ left. exists (S b), (k, mbrs). split; [now left|].
              split; [now apply mem_In|]. now injection Hg as <-.
           ++ right. split; [|exact Hg]. intros [H|H]; [|contradiction].
              apply mem_In in H. congruence.
      * intros [(idx & it & [Hin|Hin] & Hm & Hr)|[Hnot Hg]].
        -- injection Hin as <- <-. cbn [snd] in Hm. right. split.
           ++ exact (NoDup_app_not_In _ _ m Hn Hm).
           ++ apply mem_In in Hm. rewrite Hm. now subst rid.
        -- left. exists idx, it. now split.
        -- right. split; [tauto|].
           destruct (Py.mem m (set_iter rt mbrs)) eqn:Em; [|exact Hg].
           apply mem_In in Em. tauto.
Qed.

Lemma flat_map_pointwise_perm {A B : Type} (f g : A -> list B) (l : list A) :
  (forall x, Permutation (f x) (g x)) -> Permutation (flat_map f l) (flat_map g l).
Proof.
  intros H. induction l as [|x l IH]; cbn [flat_map]; [constructor|].
  apply Permutation_app; [apply H|exact IH].
Qed.

Lemma in_combine_seq {A : Type} (l : list A) (x : A) :
  forall a, In x l -> exists idx, In (idx, x) (combine (seq a (List.length l)) l).
Proof.
  induction l as [|y l IH]; intros a; [intros []|].
  cbn [List.length seq combine]. intros [->|H].
  - exists a. now left.
  - destruct (IH (S a) H) as [idx Hidx]. exists idx. now right.
Qed.

Lemma flat_map_snd_relabel {K : Type} (f : nat * (string * list string) -> K)
      (l : list (string * list string)) :
  forall a,
    flat_map snd (map (fun ig => (f ig, snd (snd ig))) (combine (seq a (List.length l)) l))
    = flat_map snd l.
Proof.
  induction l as [|y l IH]; intros a; [reflexivity|].
  cbn [List.length seq combine map flat_map snd]. now rewrite IH.
Qed.

(** What [detect_cycles] returns in [ring_map] and [rings], in terms of
    the groups. *)
Lemma label_groups_spec (rt : Library) (groups : list (string * list string)) :
  set_iter_ok rt ->
  NoDup (flat_map snd groups) ->
  let rmap := fst (label_groups rt groups) in
  let rgs := snd (label_groups rt groups) in
  (forall m rid, Py.get rmap m = Some rid
                 <-> exists mbrs, In (rid, mbrs) rgs /\ In m mbrs)
  /\ (forall m, In m (flat_map snd groups) <-> exists rid, Py.get rmap m = Some rid)
  /\ Permutation (flat_map snd rgs) (flat_map snd groups)
  /\ (forall mbrs, In mbrs (map snd rgs) -> In mbrs (map snd groups)).
Proof.
  intros Hrt Hn rmap rgs.
  set (sorted := Py.sort (fun a b => String.leb (smallest (snd a)) (smallest (snd b)))
                         groups).
  assert (Ps : Permutation sorted groups) by apply sort_Permutation.
  assert (Pf : Permutation (flat_map snd sorted) (flat_map snd groups))
    by (apply Permutation_flat_map; exact Ps).
  assert (Hn' : NoDup (flat_map (fun it : string * list string => set_iter rt (snd it))
                                sorted)).
  { apply (Permutation_NoDup (l := flat_map snd sorted)).
    - apply flat_map_pointwise_perm. intros x. symmetry. apply Hrt.
    - exact (Permutation_NoDup (Permutation_sym Pf) Hn). }
  destruct (label_fold_spec rt sorted 0 [] [] eq_refl Hn') as [S1 S2].
  change (fold_left (label_step rt) (combine (seq 1 (List.length sorted)) sorted) ([], []))
    with (label_groups rt groups) in S1, S2.
  fold rmap in S2. fold rgs in S1. cbn [app] in S1.
  set (enum := combine (seq 1 (List.length sorted)) sorted) in *.
  assert (R : forall rid mbrs,
             In (rid, mbrs) rgs
             <-> exists idx it, In (idx, it) enum /\ rid = ring_label idx /\ mbrs = snd it).
  { intros rid mbrs. rewrite S1, in_map_iff. split.
    - intros ([idx it] & E & Hin). injection E as <- <-. now exists idx, it.
    - intros (idx & it & Hin & -> & ->). now exists (idx, it). }
  split; [|split; [|split]].
  - intros m rid. rewrite S2. split.
    + intros [(idx & it & Hin & Hm & ->)|[_ H]]; [|discriminate H].
      exists (snd it). split; [apply R; now exists idx, it|].
      exact (proj1 (set_iter_In rt _ _ Hrt) Hm).
    + intros (mbrs & Hr & Hm). apply R in Hr. destruct Hr as (idx & it & Hin & -> & ->).
      left. exists idx, it. split; [exact Hin|]. split; [|reflexivity].
      exact (proj2 (set_iter_In rt _ _ Hrt) Hm).
  - intros m. split.
    + intros H. apply (Permutation_in _ (Permutation_sym Pf)) in H.
      apply in_flat_map in H. destruct H as (it & Hit & Hm).
      destruct (in_combine_seq sorted it 1 Hit) as [idx Hidx].
      exists (ring_label idx). apply S2. left. exists idx, it.
      split; [exact Hidx|]. split; [|reflexivity].
      exact (proj2 (set_iter_In rt _ _ Hrt) Hm).
    + intros [rid H]. apply S2 in H. destruct H as [(idx & it & Hin & Hm & _)|[_ H]];
        [|discriminate H].
      apply (Permutation_in _ Pf). apply in_flat_map. exists it.
      split; [exact (in_combine_r _ _ _ _ Hin)|].
      exact (proj1 (set_iter_In rt _ _ Hrt) Hm).
  - rewrite S1. unfold enum. rewrite flat_map_snd_relabel. exact Pf.
  - intros mbrs H. apply in_map_iff in H. destruct H as ([rid mb] & <- & H).
    apply R in H. destruct H as (idx & it & Hin & _ & ->). cbn [snd].
    apply in_map. apply (Permutation_in _ Ps). exact (in_combine_r _ _ _ _ Hin).
Qed.

Lemma seq_NoDup_from (a n : nat) : NoDup (seq a n).
Proof. apply sorted_NoDup, seq_sorted. Qed.

Lemma detect_cycles_groups (rt : Library) (wl : list string) (G : DiGraph) (cd : CycleData) :
  detect_cycles rt wl G = Some cd ->
  exists parent,
    ring_map cd = fst (label_groups rt (group_nodes rt parent (cycle_members cd)))
    /\ rings cd = snd (label_groups rt (group_nodes rt parent (cycle_members cd)))
    /\ parent = fold_left union_cycle (raw_cycles cd) []
    /\ cycle_members cd = Py.set_of (List.concat (raw_cycles cd)).
Proof.
  unfold detect_cycles. destruct (gate_cycles _ _) as [raw|]; [|discriminate].
  destruct (label_groups _ _) as [rmap rgs] eqn:E.
  intros H. apply some_inj in H. subst cd.
  cbn [ring_map rings cycle_members raw_cycles].
  exists (fold_left union_cycle raw []). rewrite E. repeat split.
Qed.

Lemma detect_cycles_partition (rt : Library) (wl : list string) (G : DiGraph)
        (cd : CycleData) :
  set_iter_ok rt ->
  detect_cycles rt wl G = Some cd ->
  (forall m rid, Py.get (ring_map cd) m = Some rid
                 <-> exists mbrs, In (rid, mbrs) (rings cd) /\ In m mbrs)
  /\ (forall m, In m (cycle_members cd) <-> exists rid, Py.get (ring_map cd) m = Some rid)
  /\ NoDup (map fst (rings cd))
  /\ NoDup (flat_map snd (rings cd))
  /\ Forall (fun kv : string * list string => snd kv <> []) (rings cd).
Proof.
  intros Hrt Hcd.
  pose proof (detect_cycles_labels rt wl G cd Hcd) as Hlab.
  destruct (detect_cycles_groups rt wl G cd Hcd) as (parent & Hm & Hr & _ & Hcm).
  set (groups := group_nodes rt parent (cycle_members cd)) in *.
  assert (Hiter : NoDup (set_iter rt (cycle_members cd))).
  { apply (Permutation_NoDup (Permutation_sym (Hrt _))). rewrite Hcm. apply set_of_NoDup. }
  destruct (group_nodes_members rt parent (cycle_members cd) Hiter) as (G1 & G2 & _).
  fold groups in G1, G2.
  assert (Hn : NoDup (flat_map snd groups))
    by exact (Permutation_NoDup (Permutation_sym G1) Hiter).
  destruct (label_groups_spec rt groups Hrt Hn) as (L1 & L2 & L3 & L4).
  rewrite <- Hm in L1, L2. rewrite <- Hr in L1, L3, L4.
  split; [exact L1|]. split; [|split; [|split]].
  - intros m. rewrite <- L2. split; intros H.
    + apply (Permutation_in _ (Permutation_sym G1)).
      exact (proj2 (set_iter_In rt _ _ Hrt) H).
    + apply (Permutation_in _ G1) in H. exact (proj1 (set_iter_In rt _ _ Hrt) H).
  - rewrite Hlab. apply ring_label_NoDup, seq_NoDup_from.
  - exact (Permutation_NoDup (Permutation_sym L3) Hn).
  - apply Forall_forall. intros [rid mbrs] Hin. cbn [snd].
    assert (H : In mbrs (map snd groups))
      by (apply L4; change mbrs with (snd (rid, mbrs)); now apply in_map).
    apply in_map_iff in H. destruct H as (kv & <- & Hkv).
    exact (proj1 (Forall_forall _ _) G2 kv Hkv).
Qed.

Lemma flat_map_NoDup_unique (d : list (string * list string)) (m : string)
      (kv kv' : string * list string) :
  NoDup (flat_map snd d) -> In kv d -> In kv' d -> In m (snd kv) -> In m (snd kv') ->
  kv = kv'.
Proof.
  induction d as [|x d IH]; cbn [flat_map]; intros Hn H1 H2 Hm Hm'; [destruct H1|].
  destruct H1 as [<-|H1], H2 as [<-|H2].
  - reflexivity.
  - elim (NoDup_app_not_In _ _ m Hn Hm). apply in_flat_map. now exists kv'.
  - elim (NoDup_app_not_In _ _ m Hn Hm'). apply in_flat_map. now exists kv.
  - exact (IH (NoDup_app_remove_l _ _ Hn) H1 H2 Hm Hm').
Qed.

(** X23: The rings of detect_cycles partition cycle_members: every cycle
    member lies in exactly one ring, which is the ring that ring_map records
    for it; every ring is non-empty and made of cycle members; and ring_map
    has no entry for any other account (provided a set is traversed as a
    permutation of its elements). *)
Theorem cycle_rings_partition (rt : Library) (wl : list string) (G : DiGraph)
        (cd : CycleData) :
  set_iter_ok rt ->
  detect_cycles rt wl G = Some cd ->
  (forall m, In m (cycle_members cd) ->
             exists rid mbrs,
               In (rid, mbrs) (rings cd) /\ In m mbrs
               /\ Py.get (ring_map cd) m = Some rid
               /\ forall rid' mbrs', In (rid', mbrs') (rings cd) -> In m mbrs' ->
                                     rid' = rid /\ mbrs' = mbrs)
  /\ (forall rid mbrs, In (rid, mbrs) (rings cd) ->
                       mbrs <> [] /\ forall m, In m mbrs -> In m (cycle_members cd))
  /\ (forall m, Py.get (ring_map cd) m = None <-> ~ In m (cycle_members cd)).
Proof.
  intros Hrt Hcd.
  destruct (detect_cycles_partition rt wl G cd Hrt Hcd) as (P1 & P2 & _ & P4 & P5).
  split; [|split].
  - intros m Hm. apply P2 in Hm. destruct Hm as [rid Hg].
    destruct (proj1 (P1 m rid) Hg) as (mbrs & Hin & Hmm).
    exists rid, mbrs. split; [exact Hin|]. split; [exact Hmm|]. split; [exact Hg|].
    intros rid' mbrs' Hin' Hmm'.
    pose proof (flat_map_NoDup_unique _ m _ _ P4 Hin' Hin Hmm' Hmm) as E.
    injection E as -> ->. now split.
  - intros rid mbrs Hin. split.
    + exact (proj1 (Forall_forall _ _) P5 _ Hin).
    + intros m Hm. apply P2. exists rid. apply P1. now exists mbrs.
  - intros m. rewrite P2. split.
    + intros H [rid Hr]. congruence.
    + intros H. destruct (Py.get (ring_map cd) m) as [rid|]; [|reflexivity].
      elim H. now exists rid.
Qed.

Lemma cycle_rings_partition_witness :
  set_iter_ok Examples.rtA
  /\ detect_cycles Examples.rtA Scenarios.mixed_wl Scenarios.mixed_G
     = Some Scenarios.mixed_cycle_data
  /\ forall m, Py.get (ring_map Scenarios.mixed_cycle_data) m = None
               <-> ~ In m (cycle_members Scenarios.mixed_cycle_data).
Proof.
  assert (Hrt : set_iter_ok Examples.rtA) by (intros s; apply Permutation_refl).
  assert (H : detect_cycles Examples.rtA Scenarios.mixed_wl Scenarios.mixed_G
              = Some Scenarios.mixed_cycle_data) by (vm_compute; reflexivity).
  split; [exact Hrt|]. split; [exact H|].
  exact (proj2 (proj2 (cycle_rings_partition Examples.rtA Scenarios.mixed_wl
                         Scenarios.mixed_G Scenarios.mixed_cycle_data Hrt H))).
Defined.

(** ** Climbing to the root *)

Lemma climbs_fun (p : list (string * string)) (x r r' : string) (n n' : nat) :
  climbs p x r n -> climbs p x r' n' -> r = r' /\ n = n'.
Proof.
  intros H. revert r' n'. induction H as [x Hx|x r n Hx H IH]; intros r' n' H'.
  - inversion H' as [? Hx'|? ? ? Hx' H'']; subst; [now split|contradiction].
  - inversion H' as [? Hx'|? ? ? Hx' H'']; subst; [contradiction|].
    destruct (IH _ _ H'') as [-> ->]. now split.
Qed.

Lemma climbs_is_root (p : list (string * string)) (x r : string) (n : nat) :
  climbs p x r n -> Py.get_or p r r = r.
Proof. induction 1; assumption. Qed.

Lemma root_fun (p : list (string * string)) (x r r' : string) :
  root p x r -> root p x r' -> r = r'.
Proof. intros [n H] [n' H']. exact (proj1 (climbs_fun _ _ _ _ _ _ H H')). Qed.

Lemma forest_nil : forest [].
Proof. intros x. exists x, 0%nat. now constructor. Qed.

Lemma climbs_inv (p : list (string * string)) (x r : string) (n : nat) :
  climbs p x r n ->
  (Py.get_or p x x = x /\ r = x /\ n = 0%nat)
  \/ (Py.get_or p x x <> x
      /\ exists n1, n = S n1 /\ climbs p (Py.get_or p x x) r n1).
Proof.
  intros H. destruct H as [x Hx|x r n Hx H]; [left; now repeat split|].
  right. split; [exact Hx|]. now exists n.
Qed.

(** Path halving: [x] is re-attached to its grandparent. *)
Lemma halve_climbs (p : list (string * string)) (x : string) :
  Py.get_or p x x <> x ->
  forall n z r,
    climbs p z r n ->
    exists n', (n' <= n)%nat
               /\ climbs (Py.set p x (Py.get_or p (Py.get_or p x x) (Py.get_or p x x))) z r n'.
Proof.
  intros Hx.
  remember (Py.get_or p x x) as px eqn:Epx.
  remember (Py.get_or p px px) as gp eqn:Egp.
  induction n as [n IH] using lt_wf_ind. intros z r H.
  destruct (String.eqb z x) eqn:Ez.
  - apply String.eqb_eq in Ez. subst z.
    destruct (climbs_inv _ _ _ _ H) as [(Hr & _ & _)|(_ & n1 & -> & H1)];
      [rewrite <- Epx in Hr; contradiction|].
    rewrite <- Epx in H1.
    destruct (climbs_inv _ _ _ _ H1) as [(Hr & -> & ->)|(Hpx & n2 & -> & H2)].
    + (* the parent is the root *)
      rewrite <- Egp in Hr.
      exists 1%nat. split; [lia|].
      apply climbs_step; rewrite get_or_set, String.eqb_refl, Hr; [exact Hx|].
      apply climbs_root. rewrite get_or_set.
      destruct (String.eqb px x) eqn:Er; [|rewrite <- Egp; exact Hr].
      apply String.eqb_eq in Er. now elim Hx.
    + rewrite <- Egp in H2, Hpx.
      assert (Hgx : gp <> x).
      { intros E. rewrite E in H2.
        destruct (climbs_fun _ _ _ _ _ _ H H2) as [_ Hn]. lia. }
      destruct (IH n2 ltac:(lia) gp r H2) as (n' & Hle & H').
      exists (S n'). split; [lia|].
      apply climbs_step; rewrite get_or_set, String.eqb_refl; assumption.
  - assert (Eg : Py.get_or (Py.set p x gp) z z = Py.get_or p z z)
      by (rewrite get_or_set, Ez; reflexivity).
    destruct (climbs_inv _ _ _ _ H) as [(Hr & -> & ->)|(Hz & n1 & -> & H1)].
    + exists 0%nat. split; [lia|]. apply climbs_root. now rewrite Eg.
    + destruct (IH n1 ltac:(lia) _ r H1) as (n' & Hle & H').
      exists (S n'). split; [lia|].
      apply climbs_step; rewrite Eg; assumption.
Qed.

Lemma halve_forest (p : list (string * string)) (x : string) :
  Py.get_or p x x <> x -> forest p ->
  let p' := Py.set p x (Py.get_or p (Py.get_or p x x) (Py.get_or p x x)) in
  forest p' /\ forall z r, root p z r <-> root p' z r.
Proof.
  intros Hx Hf p'.
  assert (H1 : forall z r, root p z r -> root p' z r).
  { intros z r [n H]. destruct (halve_climbs p x Hx n z r H) as (n' & _ & H').
    now exists n'. }
  split.
  - intros z. destruct (Hf z) as (r & n & H). destruct (H1 z r (ex_intro _ n H)) as [n' H'].
    now exists r, n'.
  - intros z r. split; [apply H1|]. intros H'.
    destruct (Hf z) as (r0 & n & H). pose proof (H1 z r0 (ex_intro _ n H)) as H0.
    rewrite (root_fun _ _ _ _ H' H0). now exists n.
Qed.

(** ** find and union *)

Lemma find_loop_spec (fuel : nat) :
  forall (p : list (string * string)) (x r : string) (n : nat),
    forest p -> climbs p x r n -> (n < fuel)%nat ->
    snd (find_loop fuel p x) = r
    /\ forest (fst (find_loop fuel p x))
    /\ forall z rz, root p z rz <-> root (fst (find_loop fuel p x)) z rz.
Proof.
  induction fuel as [|fuel IH]; intros p x r n Hf H Hn; [lia|].
  cbn [find_loop].
  destruct (climbs_inv _ _ _ _ H) as [(Hr & -> & ->)|(Hx & n1 & -> & H1)].
  - rewrite Hr, String.eqb_refl. cbn [fst snd]. split; [reflexivity|]. split; [exact Hf|].
    tauto.
  - apply String.eqb_neq in Hx. rewrite Hx. apply String.eqb_neq in Hx.
    set (px := Py.get_or p x x) in *. set (gp := Py.get_or p px px).
    assert (Hgp : exists k, (k <= n1)%nat /\ climbs p gp r k).
    { destruct (climbs_inv _ _ _ _ H1) as [(Hr & -> & ->)|(Hpx & n2 & -> & H2)].
      - exists 0%nat. split; [lia|]. unfold gp. rewrite Hr. apply climbs_root. exact Hr.
      - exists n2. split; [lia|exact H2]. }
    destruct Hgp as (k & Hk & Hc).
    destruct (halve_climbs p x Hx k gp r Hc) as (k' & Hk' & Hc').
    destruct (halve_forest p x Hx Hf) as [Hf' Hroots].
    fold px in Hc', Hf', Hroots. fold gp in Hc', Hf', Hroots.
    destruct (IH (Py.set p x gp) gp r k' Hf' Hc' ltac:(lia)) as (I1 & I2 & I3).
    split; [exact I1|]. split; [exact I2|].
    intros z rz. rewrite Hroots. apply I3.
Qed.

(** The climb visits pairwise different keys of [parent]. *)
Lemma climbs_keys (p : list (string * string)) (x r : string) (n : nat) :
  climbs p x r n ->
  exists l, List.length l = n /\ NoDup l
            /\ forall z, In z l -> In z (Py.keys p)
                                   /\ exists k, (k <= n)%nat /\ (1 <= k)%nat /\ climbs p z r k.
Proof.
  induction 1 as [x Hx|x r n Hx H (l & Hl & Hn & Hz)].
  - exists []. split; [reflexivity|]. split; [constructor|]. intros z [].
  - exists (x :: l). split; [cbn; now rewrite Hl|]. split.
    + constructor; [|exact Hn]. intros Hin.
      destruct (Hz x Hin) as (_ & k & Hk & _ & Hc).
      destruct (climbs_fun _ _ _ _ _ _ Hc (climbs_step p x r n Hx H)) as [_ E]. lia.
    + intros z [<-|Hin].
      * split.
        -- unfold Py.get_or in Hx. destruct (Py.get p x) as [y|] eqn:E; [|now elim Hx].
           exact (get_key _ _ _ E).
        -- exists (S n). split; [lia|]. split; [lia|]. now apply climbs_step.
      * destruct (Hz z Hin) as (Hk & k & Hle & Hge & Hc). split; [exact Hk|].
        exists k. split; [lia|]. now split.
Qed.

Lemma climbs_bound (p : list (string * string)) (x r : string) (n : nat) :
  climbs p x r n -> (n <= List.length p)%nat.
Proof.
  intros H. destruct (climbs_keys p x r n H) as (l & <- & Hn & Hz).
  unfold Py.keys in Hz. rewrite <- (length_map fst p).
  apply NoDup_incl_length; [exact Hn|]. intros z Hin. exact (proj1 (Hz z Hin)).
Qed.

Lemma find_spec (p : list (string * string)) (x : string) :
  forest p ->
  root p x (snd (find p x))
  /\ forest (fst (find p x))
  /\ forall z rz, root p z rz <-> root (fst (find p x)) z rz.
Proof.
  intros Hf. destruct (Hf x) as (r & n & H).
  pose proof (climbs_bound p x r n H) as Hb.
  destruct (find_loop_spec (S (List.length p)) p x r n Hf H ltac:(lia)) as (F1 & F2 & F3).
  unfold find. rewrite F1. split; [now exists n|]. now split.
Qed.

(** Linking the root [ra] below the root [rb]. *)
Lemma link_climbs (p : list (string * string)) (ra rb : string) :
  Py.get_or p ra ra = ra -> Py.get_or p rb rb = rb -> ra <> rb ->
  forall z r n,
    climbs p z r n ->
    climbs (Py.set p ra rb) z (if String.eqb r ra then rb else r)
           (if String.eqb r ra then S n else n).
Proof.
  intros Ha Hb Hne z r n H.
  induction H as [x Hx|x r n Hx H IH].
  - destruct (String.eqb x ra) eqn:E.
    + apply String.eqb_eq in E. subst x.
      apply climbs_step; rewrite get_or_set, String.eqb_refl;
        [intros E; now elim Hne|].
      apply climbs_root. rewrite get_or_set.
      destruct (String.eqb rb ra) eqn:E'; [|exact Hb].
      apply String.eqb_eq in E'. now elim Hne.
    + apply climbs_root. now rewrite get_or_set, E.
  - assert (Ex : String.eqb x ra = false).
    { apply String.eqb_neq. intros ->. contradiction. }
    assert (Eg : Py.get_or (Py.set p ra rb) x x = Py.get_or p x x)
      by (rewrite get_or_set, Ex; reflexivity).
    destruct (String.eqb r ra); apply climbs_step; rewrite Eg; assumption.
Qed.

Lemma connected_refl (p : list (string * string)) (x : string) :
  forest p -> connected p x x.
Proof. intros Hf. destruct (Hf x) as (r & n & H). exists r. split; now exists n. Qed.

Lemma connected_sym (p : list (string * string)) (x y : string) :
  connected p x y -> connected p y x.
Proof. intros (r & H1 & H2). now exists r. Qed.

Lemma connected_trans (p : list (string * string)) (x y z : string) :
  connected p x y -> connected p y z -> connected p x z.
Proof.
  intros (r & H1 & H2) (r' & H3 & H4). rewrite (root_fun _ _ _ _ H3 H2) in H4.
  now exists r.
Qed.

Lemma same_roots_connected (p p' : list (string * string)) (x y : string) :
  (forall z rz, root p z rz <-> root p' z rz) ->
  (connected p x y <-> connected p' x y).
Proof.
  intros H. split; intros (r & H1 & H2); exists r; split; apply H; assumption.
Qed.

Lemma union_spec (p : list (string * string)) (a b : string) :
  forest p ->
  forest (union p a b)
  /\ connected (union p a b) a b
  /\ forall x y, connected p x y -> connected (union p a b) x y.
Proof.
  intros Hf. unfold union.
  destruct (find_spec p a Hf) as (Ra & Fa & Sa).
  destruct (find p a) as [p1 ra]. cbn [fst snd] in *.
  destruct (find_spec p1 b Fa) as (Rb & Fb & Sb).
  destruct (find p1 b) as [p2 rb]. cbn [fst snd] in *.
  assert (Ra2 : root p2 a ra) by (apply Sb, Sa; exact Ra).
  assert (Rb2 : root p2 b rb) by (apply Sb; exact Rb).
  assert (C : forall x y, connected p x y -> connected p2 x y).
  { intros x y H. apply (same_roots_connected p1 p2 x y Sb).
    apply (same_roots_connected p p1 x y Sa). exact H. }
  destruct (String.eqb ra rb) eqn:E.
  - apply String.eqb_eq in E. subst rb. split; [exact Fb|]. split; [|exact C].
    now exists ra.
  - apply String.eqb_neq in E.
    assert (Ha : Py.get_or p2 ra ra = ra)
      by (destruct Ra2 as [n H]; exact (climbs_is_root _ _ _ _ H)).
    assert (Hb : Py.get_or p2 rb rb = rb)
      by (destruct Rb2 as [n H]; exact (climbs_is_root _ _ _ _ H)).
    assert (L : forall z r, root p2 z r ->
                            root (Py.set p2 ra rb) z (if String.eqb r ra then rb else r)).
    { intros z r [n H]. eexists. exact (link_climbs p2 ra rb Ha Hb E z r n H). }
    split; [|split].
    + intros z. destruct (Fb z) as (r & n & H).
      destruct (L z r (ex_intro _ n H)) as [n' H']. eexists. eexists. exact H'.
    + exists rb. split.
      * pose proof (L a ra Ra2) as H. now rewrite String.eqb_refl in H.
      * pose proof (L b rb Rb2) as H.
        assert (Eb : String.eqb rb ra = false)
          by (apply String.eqb_neq; intros ->; now elim E).
        now rewrite Eb in H.
    + intros x y H. apply C in H. destruct H as (r & H1 & H2).
      exists (if String.eqb r ra then rb else r). split; apply L; assumption.
Qed.

Lemma union_cycle_spec (p : list (string * string)) (c : list string) :
  forest p ->
  forest (union_cycle p c)
  /\ (forall x y, In x c -> In y c -> connected (union_cycle p c) x y)
  /\ forall x y, connected p x y -> connected (union_cycle p c) x y.
Proof.
  intros Hf. unfold union_cycle. destruct c as [|c0 rest].
  - split; [exact Hf|]. split; [intros x y []|tauto].
  - assert (I : forall l q,
               forest q ->
               let q' := fold_left (fun p n => union p c0 n) l q in
               forest q'
               /\ (forall y, In y l -> connected q' c0 y)
               /\ forall x y, connected q x y -> connected q' x y).
    { induction l as [|n l IH]; intros q Hq; cbn [fold_left].
      - split; [exact Hq|]. split; [intros y []|tauto].
      - destruct (union_spec q c0 n Hq) as (U1 & U2 & U3).
        destruct (IH (union q c0 n) U1) as (I1 & I2 & I3).
        split; [exact I1|]. split.
        + intros y [<-|Hy]; [apply I3; exact U2|apply I2; exact Hy].
        + intros x y H. apply I3, U3, H. }
    destruct (I rest p Hf) as (I1 & I2 & I3).
    split; [exact I1|]. split; [|exact I3].
    assert (H0 : forall y, In y (c0 :: rest) ->
                           connected (fold_left (fun p n => union p c0 n) rest p) c0 y).
    { intros y [<-|Hy]; [apply connected_refl; exact I1|apply I2; exact Hy]. }
    intros x y Hx Hy.
    eapply connected_trans; [apply connected_sym, H0; exact Hx|apply H0; exact Hy].
Qed.

Lemma union_cycles_spec (raw : list (list string)) :
  let p := fold_left union_cycle raw [] in
  forest p /\ forall c x y, In c raw -> In x c -> In y c -> connected p x y.
Proof.
  assert (I : forall l q,
             forest q ->
             let q' := fold_left union_cycle l q in
             forest q'
             /\ (forall c x y, In c l -> In x c -> In y c -> connected q' x y)
             /\ forall x y, connected q x y -> connected q' x y).
  { induction l as [|c l IH]; intros q Hq; cbn [fold_left].
    - split; [exact Hq|]. split; [intros c x y []|tauto].
    - destruct (union_cycle_spec q c Hq) as (U1 & U2 & U3).
      destruct (IH (union_cycle q c) U1) as (I1 & I2 & I3).
      split; [exact I1|]. split.
      + intros c' x y [<-|Hc] Hx Hy; [apply I3, U2; assumption|].
        exact (I2 c' x y Hc Hx Hy).
      + intros x y H. apply I3, U3, H. }
  intros p. destruct (I raw [] forest_nil) as (I1 & I2 & _). now split.
Qed.

(** ** From the forest to the rings *)

Lemma In_set_add (x n : string) (s : list string) :
  In x (Py.set_add n s) <-> x = n \/ In x s.
Proof.
  split; [apply set_add_In|]. unfold Py.set_add. intros [->|H].
  - destruct (Py.mem n s) eqn:E; [now apply mem_In|]. apply in_app_iff. right. now left.
  - destruct (Py.mem n s); [exact H|]. apply in_app_iff. now left.
Qed.

Lemma group_nodes_roots (rt : Library) (parent : list (string * string))
      (all_cm : list string) (m : string) :
  forest parent ->
  In m (set_iter rt all_cm) ->
  exists r mb, root parent m r
               /\ Py.get (group_nodes rt parent all_cm) r = Some mb /\ In m mb.
Proof.
  intros Hf. unfold group_nodes. generalize (set_iter rt all_cm). intros order.
  assert (I : forall l (st : list (string * string) * list (string * list string)),
             forest (fst st) ->
             (forall z rz, root parent z rz <-> root (fst st) z rz) ->
             let st' := fold_left
                          (fun (st : list (string * string) * list (string * list string)) n =>
                             let '(p, groups) := st in
                             let '(p', r) := find p n in
                             (p', Py.set groups r (Py.set_add n (Py.get_or groups r []))))
                          l st in
             forall x,
               In x l
               \/ (exists r mb, root parent x r /\ Py.get (snd st) r = Some mb /\ In x mb) ->
               exists r mb, root parent x r /\ Py.get (snd st') r = Some mb /\ In x mb).
  { induction l as [|n l IH]; intros [p groups] Hp Hs; cbn [fold_left fst snd] in *.
    - intros x [[]|H]. exact H.
    - destruct (find_spec p n Hp) as (Rn & Fn & Sn).
      destruct (find p n) as [p' r]. cbn [fst snd] in *.
      intros x Hx. apply (IH (p', Py.set groups r (Py.set_add n (Py.get_or groups r [])))).
      + exact Fn.
      + intros z rz. rewrite Hs. apply Sn.
      + cbn [snd]. destruct Hx as [[<-|Hx]|(rx & mb & Hr & Hg & Hin)].
        * right. exists r. eexists. split; [apply Hs; exact Rn|].
          split; [apply get_set_same|]. apply In_set_add. now left.
        * now left.
        * right. destruct (String.eqb rx r) eqn:E.
          -- apply String.eqb_eq in E. subst rx. exists r. eexists.
             split; [exact Hr|]. split; [apply get_set_same|].
             apply In_set_add. right. unfold Py.get_or. now rewrite Hg.
          -- apply String.eqb_neq in E. exists rx, mb. split; [exact Hr|].
             split; [|exact Hin]. rewrite get_set_other by exact E. exact Hg. }
  intros Hm. apply (I order (parent, [])); cbn [fst snd]; [exact Hf|tauto|now left].
Qed.

Lemma map_fst_combine_seq {A : Type} (l : list A) :
  forall a, map (fun ig : nat * A => fst ig) (combine (seq a (List.length l)) l)
            = seq a (List.length l).
Proof.
  induction l as [|y l IH]; intros a; [reflexivity|].
  cbn [List.length seq combine map fst]. now rewrite IH.
Qed.

Lemma label_groups_covers (rt : Library) (groups : list (string * list string))
      (kv : string * list string) :
  In kv groups -> exists rid, In (rid, snd kv) (snd (label_groups rt groups)).
Proof.
  intros H. unfold label_groups, enumerate.
  set (sorted := Py.sort _ groups).
  assert (Hs : In kv sorted) by (apply sort_In; exact H).
  destruct (in_combine_seq sorted kv 1 Hs) as [idx Hidx].
  exists (ring_label idx).
  assert (I : forall items (st : list (string * string) * list (string * list string)),
             (In (idx, kv) items \/ In (ring_label idx, snd kv) (snd st)) ->
             NoDup (map (fun ig : nat * (string * list string) => fst ig) items) ->
             (forall ig, In ig items -> ~ In (ring_label (fst ig)) (Py.keys (snd st))) ->
             In (ring_label idx, snd kv) (snd (fold_left (label_step rt) items st))).
  { induction items as [|[i [k mb]] items IH]; intros [rmap rgs] Hin Hn Hfresh;
      cbn [fold_left].
    - destruct Hin as [[]|Hin]. exact Hin.
    - cbn [map fst] in Hn. inversion Hn as [|? ? Hi Hn']; subst.
      change (label_step rt (rmap, rgs) (i, (k, mb)))
        with (fold_left (fun d m => Py.set d m (ring_label i)) (set_iter rt mb) rmap,
              Py.set rgs (ring_label i) mb).
      apply IH; [|exact Hn'|].
      + cbn [snd] in *. destruct Hin as [[E|Hin]|Hin].
        * injection E as -> <-. right. cbn [snd].
          rewrite set_fresh by (apply (Hfresh (idx, (k, mb))); now left).
          apply in_app_iff. right. now left.
        * now left.
        * right. rewrite set_fresh by (apply (Hfresh (i, (k, mb))); now left).
          apply in_app_iff. now left.
      + cbn [snd] in *. intros ig Hig Hk. apply keys_set in Hk. destruct Hk as [Hk|Hk].
        * apply ring_label_inj in Hk. apply Hi. rewrite <- Hk.
          now apply (in_map (fun ig : nat * (string * list string) => fst ig)).
        * apply (Hfresh ig); [now right|exact Hk]. }
  apply I.
  - left. exact Hidx.
  - rewrite map_fst_combine_seq. apply seq_NoDup_from.
  - intros ig _ [].
Qed.

Lemma kept_cycle_in_one_ring (rt : Library) (wl : list string) (G : DiGraph)
        (cd : CycleData) (c : list string) :
  set_iter_ok rt ->
  detect_cycles rt wl G = Some cd ->
  In c (raw_cycles cd) ->
  exists rid mbrs,
    In (rid, mbrs) (rings cd)
    /\ forall n, In n c -> In n mbrs /\ Py.get (ring_map cd) n = Some rid.
Proof.
  intros Hrt Hcd Hc.
  destruct (detect_cycles_groups rt wl G cd Hcd) as (parent & Hm & Hr & Hp & Hcm).
  destruct (detect_cycles_partition rt wl G cd Hrt Hcd) as (P1 & _).
  destruct (union_cycles_spec (raw_cycles cd)) as [Hf Hconn]. rewrite <- Hp in Hf, Hconn.
  assert (Hlen : c <> []).
  { destruct (detect_cycles_kept rt wl G cd Hcd) as [Hl _].
    pose proof (proj1 (Forall_forall _ _) Hl c Hc) as H. unfold Spec.length_ok in H.
    intros ->. cbn in H. unfold MIN_CYCLE_LENGTH in H. lia. }
  destruct c as [|c0 rest]; [now elim Hlen|].
  assert (Hin : forall n, In n (c0 :: rest) -> In n (set_iter rt (cycle_members cd))).
  { intros n Hn. apply (set_iter_In rt _ _ Hrt). rewrite Hcm. apply In_set_of.
    apply in_concat. now exists (c0 :: rest). }
  destruct (group_nodes_roots rt parent (cycle_members cd) c0 Hf
              (Hin c0 (or_introl eq_refl))) as (r0 & mb & Hr0 & Hg & Hc0).
  pose proof (get_In _ _ _ Hg) as Hgin.
  destruct (label_groups_covers rt _ _ Hgin) as [rid Hrid]. cbn [snd] in Hrid.
  rewrite <- Hr in Hrid.
  exists rid, mb. split; [exact Hrid|].
  intros n Hn.
  assert (Hnm : In n mb).
  { destruct (group_nodes_roots rt parent (cycle_members cd) n Hf (Hin n Hn))
      as (rn & mbn & Hrn & Hgn & Hnn).
    assert (E : rn = r0).
    { destruct (Hconn (c0 :: rest) n c0 Hc Hn (or_introl eq_refl)) as (r & H1 & H2).
      rewrite (root_fun _ _ _ _ Hrn H1), (root_fun _ _ _ _ Hr0 H2). reflexivity. }
    subst rn. rewrite Hg in Hgn. injection Hgn as <-. exact Hnn. }
  split; [exact Hnm|]. apply P1. now exists mb.
Qed.

(** ** Rings and linked cycles *)

Lemma linked_sym (raw : list (list string)) (x y : string) :
  linked raw x y -> linked raw y x.
Proof.
  induction 1 as [x|c x y Hc Hx Hy|x y z _ IH1 _ IH2].
  - apply linked_refl.
  - now apply (linked_cycle raw c).
  - exact (linked_trans raw _ _ _ IH2 IH1).
Qed.

Lemma linked_mono (raw : list (list string)) (c : list string) (x y : string) :
  linked raw x y -> linked (c :: raw) x y.
Proof.
  induction 1 as [x|c' x y Hc Hx Hy|x y z _ IH1 _ IH2].
  - apply linked_refl.
  - apply (linked_cycle _ c'); [now right|assumption|assumption].
  - exact (linked_trans _ _ _ _ IH1 IH2).
Qed.

Lemma union_connected_inv (p : list (string * string)) (a b x y : string) :
  forest p ->
  connected (union p a b) x y ->
  connected p x y
  \/ (connected p x a /\ connected p y b)
  \/ (connected p x b /\ connected p y a).
Proof.
  intros Hf. pose proof (union_spec p a b Hf) as (Uf & _ & _). revert Uf.
  unfold union.
  destruct (find_spec p a Hf) as (Ra & Fa & Sa).
  destruct (find p a) as [p1 ra]. cbn [fst snd] in *.
  destruct (find_spec p1 b Fa) as (Rb & Fb & Sb).
  destruct (find p1 b) as [p2 rb]. cbn [fst snd] in *.
  assert (S2 : forall z rz, root p z rz <-> root p2 z rz)
    by (intros z rz; rewrite Sa; apply Sb).
  assert (Ra2 : root p2 a ra) by (apply S2; exact Ra).
  assert (Rb2 : root p2 b rb) by (apply Sb; exact Rb).
  destruct (String.eqb ra rb) eqn:E.
  - intros _ H. left. exact (proj2 (same_roots_connected p p2 x y S2) H).
  - apply String.eqb_neq in E. intros Uf (r' & Hx & Hy).
    assert (Ha : Py.get_or p2 ra ra = ra)
      by (destruct Ra2 as [n H]; exact (climbs_is_root _ _ _ _ H)).
    assert (Hb : Py.get_or p2 rb rb = rb)
      by (destruct Rb2 as [n H]; exact (climbs_is_root _ _ _ _ H)).
    assert (L : forall z r, root p2 z r ->
                            root (Py.set p2 ra rb) z (if String.eqb r ra then rb else r)).
    { intros z r [n H]. eexists. exact (link_climbs p2 ra rb Ha Hb E z r n H). }
    destruct (Fb x) as (rx & nx & Cx). destruct (Fb y) as (ry & ny & Cy).
    assert (Rx : root p2 x rx) by now exists nx.
    assert (Ry : root p2 y ry) by now exists ny.
    pose proof (root_fun _ _ _ _ (L x rx Rx) Hx) as Ex.
    pose proof (root_fun _ _ _ _ (L y ry Ry) Hy) as Ey.
    assert (C : forall u v ru, root p2 u ru -> root p2 v ru -> connected p u v).
    { intros u v ru Hu Hv. exists ru. split; apply S2; assumption. }
    destruct (String.eqb rx ra) eqn:Exa; destruct (String.eqb ry ra) eqn:Eya.
    + apply String.eqb_eq in Exa. apply String.eqb_eq in Eya. subst rx ry.
      left. exact (C x y ra Rx Ry).
    + apply String.eqb_eq in Exa. subst rx. subst r'. subst ry.
      right; left. split; [exact (C x a ra Rx Ra2)|exact (C y b rb Ry Rb2)].
    + apply String.eqb_eq in Eya. subst ry. subst r'. subst rx.
      right; right. split; [exact (C x b rb Rx Rb2)|exact (C y a ra Ry Ra2)].
    + subst r'. subst ry. left. exact (C x y rx Rx Ry).
Qed.

Lemma union_cycles_linked (raw : list (list string)) :
  forall x y, connected (fold_left union_cycle raw []) x y -> linked raw x y.
Proof.
  assert (I : forall l q done,
             forest q ->
             (forall x y, connected q x y -> linked (done ++ l) x y) ->
             forall x y, connected (fold_left union_cycle l q) x y -> linked (done ++ l) x y).
  { induction l as [|c l IH]; intros q done Hq Hl; cbn [fold_left]; [exact Hl|].
    replace (done ++ c :: l) with ((done ++ [c]) ++ l) in *
      by (rewrite <- app_assoc; reflexivity).
    destruct (union_cycle_spec q c Hq) as (U1 & _ & _).
    apply IH; [exact U1|].
    assert (Hc : In c ((done ++ [c]) ++ l))
      by (apply in_app_iff; left; apply in_app_iff; right; now left).
    unfold union_cycle. destruct c as [|c0 rest]; [exact Hl|].
    assert (J : forall t q',
               forest q' -> (forall n, In n t -> In n (c0 :: rest)) ->
               (forall x y, connected q' x y -> linked ((done ++ [c0 :: rest]) ++ l) x y) ->
               forall x y, connected (fold_left (fun p n => union p c0 n) t q') x y ->
                           linked ((done ++ [c0 :: rest]) ++ l) x y).
    { induction t as [|n t IHt]; intros q' Hq' Ht Hl'; cbn [fold_left]; [exact Hl'|].
      destruct (union_spec q' c0 n Hq') as (V1 & _ & _).
      apply IHt; [exact V1|intros m Hm; apply Ht; now right|].
      intros x y H.
      assert (Hcn : linked ((done ++ [c0 :: rest]) ++ l) c0 n).
      { apply (linked_cycle _ (c0 :: rest)); [exact Hc|now left|apply Ht; now left]. }
      destruct (union_connected_inv q' c0 n x y Hq' H) as [H0|[[H1 H2]|[H1 H2]]].
      - exact (Hl' x y H0).
      - eapply linked_trans; [exact (Hl' _ _ H1)|].
        eapply linked_trans; [exact Hcn|]. apply linked_sym. exact (Hl' _ _ H2).
      - eapply linked_trans; [exact (Hl' _ _ H1)|].
        eapply linked_trans; [apply linked_sym; exact Hcn|].
        apply linked_sym. exact (Hl' _ _ H2). }
    apply J; [exact Hq|intros n Hn; now right|exact Hl]. }
  intros x y H. apply (I raw [] [] forest_nil); [|exact H].
  intros u v (r & [n1 H1] & [n2 H2]). cbn [app].
  destruct (climbs_inv _ _ _ _ H1) as [(_ & -> & _)|(Hne & _)]; [|now elim Hne].
  destruct (climbs_inv _ _ _ _ H2) as [(_ & -> & _)|(Hne & _)]; [|now elim Hne].
  apply linked_refl.
Qed.

Lemma group_nodes_keys_are_roots (rt : Library) (parent : list (string * string))
      (all_cm : list string) :
  forest parent ->
  Forall (fun kv : string * list string => forall m, In m (snd kv) -> root parent m (fst kv))
         (group_nodes rt parent all_cm).
Proof.
  intros Hf. unfold group_nodes. generalize (set_iter rt all_cm). intros order.
  assert (I : forall l (st : list (string * string) * list (string * list string)),
             forest (fst st) ->
             (forall z rz, root parent z rz <-> root (fst st) z rz) ->
             Forall (fun kv : string * list string =>
                       forall m, In m (snd kv) -> root parent m (fst kv)) (snd st) ->
             Forall (fun kv : string * list string =>
                       forall m, In m (snd kv) -> root parent m (fst kv))
                    (snd (fold_left
                          (fun (st : list (string * string) * list (string * list string)) n =>
                             let '(p, groups) := st in
                             let '(p', r) := find p n in
                             (p', Py.set groups r (Py.set_add n (Py.get_or groups r []))))
                          l st))).
  { induction l as [|n l IH]; intros [p groups] Hp Hs Hg; cbn [fold_left fst snd] in *;
      [exact Hg|].
    destruct (find_spec p n Hp) as (Rn & Fn & Sn).
    destruct (find p n) as [p' r]. cbn [fst snd] in *.
    apply IH; cbn [fst snd]; [exact Fn|intros z rz; rewrite Hs; apply Sn|].
    apply Forall_forall. intros [k mb] Hin. cbn [fst snd].
    apply set_In_key in Hin. destruct Hin as [Hin|E].
    - exact (proj1 (Forall_forall _ _) Hg _ Hin).
    - injection E as -> ->. intros m Hm. apply In_set_add in Hm.
      destruct Hm as [->|Hm]; [apply Hs; exact Rn|].
      unfold Py.get_or in Hm. destruct (Py.get groups r) as [old|] eqn:Eg; [|destruct Hm].
      apply get_In in Eg. exact (proj1 (Forall_forall _ _) Hg _ Eg m Hm). }
  apply (I order (parent, [])); cbn [fst snd]; [exact Hf|tauto|constructor].
Qed.

Lemma NoDup_keys_fun {V : Type} (d : list (string * V)) (k : string) (v v' : V) :
  NoDup (map fst d) -> In (k, v) d -> In (k, v') d -> v = v'.
Proof.
  induction d as [|[k0 v0] d IH]; cbn [map fst]; intros Hn H1 H2; [destruct H1|].
  inversion Hn as [|? ? Hk Hn']; subst.
  destruct H1 as [E1|H1], H2 as [E2|H2].
  - congruence.
  - injection E1 as -> ->. elim Hk. change k with (fst (k, v')). now apply in_map.
  - injection E2 as -> ->. elim Hk. change k with (fst (k, v)). now apply in_map.
  - exact (IH Hn' H1 H2).
Qed.

(** X24: The union-find of detect_cycles, path halving included, groups
    accounts by overlapping cycles: all accounts of a kept cycle get the
    same ring id, and two cycle members get the same ring id exactly when a
    chain of kept cycles that share accounts leads from one to the other
    (provided a set is traversed as a permutation of its elements). *)
Theorem rings_are_linked_cycles (rt : Library) (wl : list string) (G : DiGraph)
        (cd : CycleData) :
  set_iter_ok rt ->
  detect_cycles rt wl G = Some cd ->
  (forall c, In c (raw_cycles cd) ->
             exists rid mbrs,
               In (rid, mbrs) (rings cd)
               /\ forall n, In n c -> In n mbrs /\ Py.get (ring_map cd) n = Some rid)
  /\ (forall x y,
        In x (cycle_members cd) -> In y (cycle_members cd) ->
        ((exists rid, Py.get (ring_map cd) x = Some rid /\ Py.get (ring_map cd) y = Some rid)
         <-> linked (raw_cycles cd) x y)).
Proof.
  intros Hrt Hcd.
  split; [intros c Hc; exact (kept_cycle_in_one_ring rt wl G cd c Hrt Hcd Hc)|].
  destruct (detect_cycles_groups rt wl G cd Hcd) as (parent & Hm & Hr & Hp & Hcm).
  destruct (detect_cycles_partition rt wl G cd Hrt Hcd) as (P1 & _ & P3 & _).
  destruct (union_cycles_spec (raw_cycles cd)) as [Hf Hconn]. rewrite <- Hp in Hf, Hconn.
  set (groups := group_nodes rt parent (cycle_members cd)) in *.
  assert (Hiter : NoDup (set_iter rt (cycle_members cd))).
  { apply (Permutation_NoDup (Permutation_sym (Hrt _))). rewrite Hcm. apply set_of_NoDup. }
  destruct (group_nodes_members rt parent (cycle_members cd) Hiter) as (G1 & _ & _).
  fold groups in G1.
  assert (Hn : NoDup (flat_map snd groups))
    by exact (Permutation_NoDup (Permutation_sym G1) Hiter).
  destruct (label_groups_spec rt groups Hrt Hn) as (_ & _ & _ & L4).
  rewrite <- Hr in L4.
  pose proof (group_nodes_keys_are_roots rt parent (cycle_members cd) Hf) as GR.
  fold groups in GR.
  intros x y Hx Hy. split.
  - intros (rid & Gx & Gy). apply P1 in Gx. apply P1 in Gy.
    destruct Gx as (mb & Hin & Hxm). destruct Gy as (mb' & Hin' & Hym).
    rewrite <- (NoDup_keys_fun _ _ _ _ P3 Hin Hin') in Hym.
    assert (H : In mb (map snd groups))
      by (apply L4; change mb with (snd (rid, mb)); now apply in_map).
    apply in_map_iff in H. destruct H as ([k mbk] & E & Hk). cbn [snd] in E. subst mbk.
    pose proof (proj1 (Forall_forall _ _) GR _ Hk) as Hroot. cbn [fst snd] in Hroot.
    apply union_cycles_linked. rewrite <- Hp.
    exists k. split; apply Hroot; assumption.
  - intros Hl.
    assert (Hc : connected parent x y).
    { clear Hx Hy. induction Hl as [x|c x y Hc Hx Hy|x y z _ IH1 _ IH2].
      - apply connected_refl. exact Hf.
      - exact (Hconn c x y Hc Hx Hy).
      - exact (connected_trans _ _ _ _ IH1 IH2). }
    assert (Hin : forall n, In n (cycle_members cd) -> In n (set_iter rt (cycle_members cd)))
      by (intros n Hn'; apply (set_iter_In rt _ _ Hrt); exact Hn').
    destruct (group_nodes_roots rt parent (cycle_members cd) x Hf (Hin x Hx))
      as (rx & mbx & Hrx & Hgx & Hxm).
    destruct (group_nodes_roots rt parent (cycle_members cd) y Hf (Hin y Hy))
      as (ry & mby & Hry & Hgy & Hym).
    fold groups in Hgx, Hgy.
    assert (E : ry = rx).
    { destruct Hc as (r & H1 & H2).
      rewrite (root_fun _ _ _ _ Hrx H1), (root_fun _ _ _ _ Hry H2). reflexivity. }
    subst ry. rewrite Hgx in Hgy. injection Hgy as <-.
    destruct (label_groups_covers rt _ _ (get_In _ _ _ Hgx)) as [rid Hrid].
    cbn [snd] in Hrid. fold groups in Hrid. rewrite <- Hr in Hrid.
    exists rid. split; apply P1; now exists mbx.
Qed.

Lemma rings_are_linked_cycles_witness :
  set_iter_ok Examples.rtA
  /\ detect_cycles Examples.rtA Scenarios.mixed_wl Scenarios.mixed_G
     = Some Scenarios.mixed_cycle_data
  /\ In "NODE_A" (cycle_members Scenarios.mixed_cycle_data)
  /\ In "NODE_D" (cycle_members Scenarios.mixed_cycle_data)
  /\ linked (raw_cycles Scenarios.mixed_cycle_data) "NODE_A" "NODE_D".
Proof.
  assert (Hrt : set_iter_ok Examples.rtA) by (intros s; apply Permutation_refl).
  assert (H : detect_cycles Examples.rtA Scenarios.mixed_wl Scenarios.mixed_G
              = Some Scenarios.mixed_cycle_data) by (vm_compute; reflexivity).
  assert (A : In "NODE_A" (cycle_members Scenarios.mixed_cycle_data))
    by (vm_compute; left; reflexivity).
  assert (D : In "NODE_D" (cycle_members Scenarios.mixed_cycle_data))
    by (vm_compute; do 4 right; left; reflexivity).
  split; [exact Hrt|]. split; [exact H|]. split; [exact A|]. split; [exact D|].
  apply (proj2 (rings_are_linked_cycles Examples.rtA Scenarios.mixed_wl
                  Scenarios.mixed_G Scenarios.mixed_cycle_data Hrt H) "NODE_A" "NODE_D" A D).
  exists "RING_001". split; vm_compute; reflexivity.
Defined.

(** ** The whitelist and the cycle rings *)

Lemma detect_cycles_members_clean (rt : Library) (wl : list string) (G : DiGraph)
      (cd : CycleData) (n : string) :
  set_iter_ok rt ->
  simple_cycles_ok rt (subgraph G (search_nodes rt wl G)) ->
  detect_cycles rt wl G = Some cd ->
  In n (cycle_members cd) ->
  Py.mem n wl = false /\ has_node G n = true.
Proof.
  intros Hrt Hsc Hcd Hn.
  destruct (detect_cycles_groups rt wl G cd Hcd) as (_ & _ & _ & _ & Hcm).
  rewrite Hcm in Hn. apply In_set_of, in_concat in Hn. destruct Hn as (c & Hc & Hn).
  revert Hcd Hc. unfold detect_cycles.
  destruct (gate_cycles _ _) as [raw|] eqn:Eg; [|discriminate].
  destruct (label_groups _ _) as [rmap rgs].
  intros E Hc. apply some_inj in E. subst cd. cbn [raw_cycles] in Hc.
  pose proof (proj1 (Forall_forall _ _) (gate_cycles_kept _ _ _ Eg) c Hc) as [Hin _].
  pose proof (proj1 (Forall_forall _ _) Hsc c Hin) as Hnodes.
  pose proof (proj1 (Forall_forall _ _) Hnodes n Hn) as Hnode.
  unfold has_node, subgraph in Hnode. cbn [g_nodes] in Hnode.
  apply mem_In, filter_In in Hnode. destruct Hnode as [HG HS].
  split.
  - apply (search_nodes_not_whitelisted rt wl G n Hrt). now apply mem_In.
  - unfold has_node. now apply mem_In.
Qed.

(** The mastermind of a cycle ring is one of its members. *)
Lemma cycle_shape_mastermind (rt : Library) (wl : list string) (G : DiGraph)
      (cd : CycleData) (r : Ring) (m : string) :
  set_iter_ok rt ->
  detect_cycles rt wl G = Some cd ->
  cycle_shape cd (detect_mastermind rt G (rings cd)) r ->
  mastermind_account r = Some m ->
  In m (member_accounts r) /\ In m (cycle_members cd).
Proof.
  intros Hrt Hcd (mbrs & Hin & Hmem & Hmm & _) Hm.
  destruct (detect_cycles_partition rt wl G cd Hrt Hcd) as (P1 & P2 & P3 & _).
  rewrite Hmm in Hm.
  destruct (Py.get (detect_mastermind rt G (rings cd)) (ring_id r)) as [mm|] eqn:Eg;
    [|discriminate Hm].
  cbn [option_map] in Hm. apply some_inj in Hm. subst m.
  apply get_In, detect_mastermind_inv in Eg. destruct Eg as (mbrs' & Hin' & Erm).
  rewrite (NoDup_keys_fun _ _ _ _ P3 Hin' Hin) in Erm.
  apply ring_mastermind_inv in Erm. destruct Erm as (_ & Hacc & _).
  apply (proj1 (set_iter_In rt _ _ Hrt)) in Hacc.
  split.
  - rewrite Hmem. apply sort_In. exact Hacc.
  - apply P2. exists (ring_id r). apply P1. now exists mbrs.
Qed.

(** X25: In the result of run, a ring with a mastermind_account is a cycle
    ring and the mastermind is one of its member_accounts (provided a set is
    traversed as a permutation of its elements). *)
Theorem mastermind_is_a_ring_member (rt : Runtime) (df0 : list Row)
        (res : AnalysisResult) (r : Ring) (m : string) :
  set_iter_ok rt ->
  run rt df0 = Some res ->
  In r (fraud_rings res) ->
  mastermind_account r = Some m ->
  pattern_type r = cycle /\ In m (member_accounts r).
Proof.
  intros Hrt Hrun Hr Hm.
  destruct (run_ring_shapes rt df0 res Hrun) as (cd & Hcd & Hsh).
  pose proof (proj1 (Forall_forall _ _) Hsh r Hr) as H.
  destruct H as [Hc|[(hub & _ & _ & _ & _ & Hn)|(chain & _ & _ & _ & _ & _ & Hn)]];
    [|congruence|congruence].
  split; [destruct Hc as (_ & _ & _ & _ & Hp); exact Hp|].
  exact (proj1 (cycle_shape_mastermind rt _ _ cd r m Hrt Hcd Hc Hm)).
Qed.

Lemma mastermind_is_a_ring_member_witness :
  set_iter_ok Examples.rtA
  /\ run Examples.rtA Scenarios.mixed = Some Scenarios.mixed_result
  /\ In Scenarios.mixed_cycle_ring (fraud_rings Scenarios.mixed_result)
  /\ mastermind_account Scenarios.mixed_cycle_ring = Some "NODE_H"
  /\ In "NODE_H" (member_accounts Scenarios.mixed_cycle_ring).
Proof.
  assert (Hrt : set_iter_ok Examples.rtA) by (intros s; apply Permutation_refl).
  assert (R : run Examples.rtA Scenarios.mixed = Some Scenarios.mixed_result)
    by (vm_compute; reflexivity).
  assert (I : In Scenarios.mixed_cycle_ring (fraud_rings Scenarios.mixed_result))
    by (vm_compute; left; reflexivity).
  assert (M : mastermind_account Scenarios.mixed_cycle_ring = Some "NODE_H")
    by (vm_compute; reflexivity).
  split; [exact Hrt|]. split; [exact R|]. split; [exact I|]. split; [exact M|].
  exact (proj2 (mastermind_is_a_ring_member Examples.rtA Scenarios.mixed
                  Scenarios.mixed_result Scenarios.mixed_cycle_ring "NODE_H" Hrt R I M)).
Defined.

Lemma simple_cycles_ok_dec (rt : Library) (G : DiGraph) :
  forallb (forallb (has_node G)) (nx_simple_cycles rt G MAX_CYCLE_LENGTH) = true ->
  simple_cycles_ok rt G.
Proof.
  intros H. unfold simple_cycles_ok. apply Forall_forall. intros c Hc.
  apply Forall_forall. intros n Hn.
  pose proof (proj1 (forallb_forall _ _) H c Hc) as Hc'.
  exact (proj1 (forallb_forall _ _) Hc' n Hn).
Qed.

(** ** Rings before the post-filter *)

Lemma assembly_ring_shapes (rt : Library) (df : list Tx) (G : DiGraph) (wl : list string)
      (smurf_map : list (string * list string)) (cd : CycleData) :
  Forall (fun r => cycle_shape cd (detect_mastermind rt G (rings cd)) r
                   \/ smurfing_shape G r \/ shell_shape r)
         (a_fraud_rings (assembly_of rt df G wl smurf_map cd)).
Proof.
  unfold assembly_of. apply assemble_rings_rings.
  - eapply Forall_impl; [|apply cycle_ring_shape]. intros r H. left. exact H.
  - intros r H. right; left. exact H.
  - intros r H. right; right. exact H.
Qed.

Lemma assembly_masterminds_clean (rt : Library) (df : list Tx) (G : DiGraph)
      (wl : list string) (smurf_map : list (string * list string)) (cd : CycleData) :
  set_iter_ok rt ->
  simple_cycles_ok rt (subgraph G (search_nodes rt wl G)) ->
  detect_cycles rt wl G = Some cd ->
  Forall (fun r => mastermind_in r wl = false)
         (a_fraud_rings (assembly_of rt df G wl smurf_map cd)).
Proof.
  intros Hrt Hsc Hcd.
  eapply Forall_impl; [|apply assembly_ring_shapes].
  intros r H. unfold mastermind_in.
  destruct (mastermind_account r) as [m|] eqn:Em; [|reflexivity].
  destruct H as [Hc|[(hub & _ & _ & _ & _ & Hn)|(chain & _ & _ & _ & _ & _ & Hn)]];
    [|congruence|congruence].
  destruct (cycle_shape_mastermind rt wl G cd r m Hrt Hcd Hc Em) as [_ Hm].
  exact (proj1 (detect_cycles_members_clean rt wl G cd m Hrt Hsc Hcd Hm)).
Qed.

Lemma sweep_keeps_clean_rings (wl : list string) (st : Filtered) :
  Forall (fun r => mastermind_in r wl = false) (f_fraud_rings st) ->
  f_fraud_rings (whitelist_sweep wl st) = f_fraud_rings st.
Proof.
  intros H. rewrite whitelist_sweep_rings. apply filter_id.
  intros r Hr. rewrite (proj1 (Forall_forall _ _) H r Hr). reflexivity.
Qed.

Lemma post_filter_sweep (wl : list string) (suspects : list Suspect)
      (fraud_rings : list Ring) :
  post_filter wl suspects fraud_rings = whitelist_sweep wl (before_sweep suspects fraud_rings).
Proof. reflexivity. Qed.

Lemma before_sweep_rings (suspects : list Suspect) (fraud_rings : list Ring) :
  incl (f_fraud_rings (before_sweep suspects fraud_rings)) fraud_rings.
Proof.
  unfold before_sweep, drop_orphans, drop. cbn [f_fraud_rings f_suspects].
  intros r Hr. repeat (apply filter_In in Hr; destruct Hr as [Hr _]). exact Hr.
Qed.

(** X26: Within run the whitelist sweep removes no ring: no ring assembled
    by run has a whitelisted mastermind, because masterminds are members of
    cycle rings and whitelisted accounts are taken out of the cycle search;
    hence the fraud_rings that run returns are exactly the rings left by the
    four drop calls and the orphan removal, and none of them has a
    whitelisted mastermind (provided a set is traversed as a permutation of
    its elements and simple_cycles returns cycles of nodes of the graph it
    is given). *)
Theorem run_sweep_removes_no_ring (rt : Runtime) (df0 : list Row) (res : AnalysisResult) :
  let df := clean df0 in
  let G := build_graph df in
  let wl := fst (detect_smurfing G df) in
  let smurf_map := snd (detect_smurfing G df) in
  set_iter_ok rt ->
  simple_cycles_ok rt (subgraph G (search_nodes rt wl G)) ->
  run rt df0 = Some res ->
  exists cd,
    detect_cycles rt wl G = Some cd
    /\ Forall (fun r => mastermind_in r wl = false)
              (a_fraud_rings (assembly_of rt df G wl smurf_map cd))
    /\ fraud_rings res
       = f_fraud_rings (before_sweep (a_suspects (assembly_of rt df G wl smurf_map cd))
                                     (a_fraud_rings (assembly_of rt df G wl smurf_map cd)))
    /\ Forall (fun r => mastermind_in r wl = false) (fraud_rings res).
Proof.
  intros df G wl smurf_map Hrt Hsc. unfold run. fold df G wl smurf_map.
  destruct (detect_cycles rt wl G) as [cd|] eqn:Hcd; [|discriminate].
  intros Heq. apply some_inj in Heq. exists cd. split; [reflexivity|].
  pose proof (assembly_masterminds_clean rt df G wl smurf_map cd Hrt Hsc Hcd) as Hclean.
  split; [exact Hclean|].
  assert (H : Forall (fun r => mastermind_in r wl = false)
                     (f_fraud_rings
                        (before_sweep (a_suspects (assembly_of rt df G wl smurf_map cd))
                                      (a_fraud_rings (assembly_of rt df G wl smurf_map cd))))).
  { apply Forall_forall. intros r Hr.
    exact (proj1 (Forall_forall _ _) Hclean r (before_sweep_rings _ _ r Hr)). }
  assert (E : fraud_rings res
              = f_fraud_rings
                  (before_sweep (a_suspects (assembly_of rt df G wl smurf_map cd))
                                (a_fraud_rings (assembly_of rt df G wl smurf_map cd)))).
  { rewrite <- Heq. unfold run_from_cycles. cbn [fraud_rings].
    rewrite post_filter_sweep. apply sweep_keeps_clean_rings. exact H. }
  split; [exact E|]. rewrite E. exact H.
Qed.

Lemma run_sweep_removes_no_ring_witness :
  set_iter_ok Examples.rtA
  /\ simple_cycles_ok Examples.rtA
       (subgraph Scenarios.mixed_G
                 (search_nodes Examples.rtA Scenarios.mixed_wl Scenarios.mixed_G))
  /\ run Examples.rtA Scenarios.mixed = Some Scenarios.mixed_result
  /\ Forall (fun r => mastermind_in r Scenarios.mixed_wl = false)
            (fraud_rings Scenarios.mixed_result).
Proof.
  assert (Hrt : set_iter_ok Examples.rtA) by (intros s; apply Permutation_refl).
  assert (C : simple_cycles_ok Examples.rtA
                (subgraph Scenarios.mixed_G
                   (search_nodes Examples.rtA Scenarios.mixed_wl Scenarios.mixed_G)))
    by (apply simple_cycles_ok_dec; vm_compute; reflexivity).
  assert (R : run Examples.rtA Scenarios.mixed = Some Scenarios.mixed_result)
    by (vm_compute; reflexivity).
  split; [exact Hrt|]. split; [exact C|]. split; [exact R|].
  destruct (run_sweep_removes_no_ring Examples.rtA Scenarios.mixed Scenarios.mixed_result
              Hrt C R) as (cd & _ & _ & _ & H).
  exact H.
Defined.

(** ** The ring of a suspect *)

Lemma attach_members_suspects (rid : string) (order : list string)
      (rmap : list (string * string)) (sus : list Suspect) (s' : Suspect) :
  In s' (snd (attach_members rid order rmap sus)) ->
  exists s, In s sus /\ (s' = s \/ s' = set_ring_id s rid).
Proof.
  unfold attach_members. revert s'.
  apply (fold_left_invariant
           (fun st : list (string * string) * list Suspect =>
              forall s', In s' (snd st) ->
                         exists s, In s sus /\ (s' = s \/ s' = set_ring_id s rid))).
  - cbn [snd]. intros s' H. exists s'. split; [exact H|now left].
  - intros [rm su] m IH. cbn [snd] in IH. destruct (Py.get rm m); [exact IH|]. cbn [snd].
    intros s' H. apply in_map_iff in H. destruct H as (s0 & E & H0).
    destruct (IH s0 H0) as (s & Hs & Hcase). exists s. split; [exact Hs|].
    destruct (String.eqb (account_id s0) m); [|subst s'; exact Hcase].
    subst s'. right. destruct Hcase as [->| ->]; reflexivity.
Qed.

Lemma smurfing_step_ring_ids (rt : Library) (wl : list string) (G : DiGraph)
      (df : list Tx) (st : Assembly) (item : string * list string) :
  (forall s rid, In s (a_suspects st) -> s_ring_id s = Some rid ->
                 In rid (map ring_id (a_fraud_rings st))) ->
  forall s rid, In s (a_suspects (smurfing_step rt wl G df st item)) ->
                s_ring_id s = Some rid ->
                In rid (map ring_id (a_fraud_rings (smurfing_step rt wl G df st item))).
Proof.
  intros J. unfold smurfing_step. destruct item as [hub pats].
  destruct (has_key _ _); [exact J|].
  destruct (negb _); [exact J|].
  destruct (Py.mem hub wl); [exact J|].
  destruct (_ <? _)%nat; [exact J|].
  destruct (_all_legit _); [exact J|].
  destruct (_ && _); [exact J|].
  rewrite attach_members_fst_snd. cbn [a_suspects a_fraud_rings].
  intros s rid Hs Hr. rewrite map_app, in_app_iff. cbn [map ring_id In].
  apply attach_members_suspects in Hs. destruct Hs as (s0 & Hs0 & [->| ->]).
  - left. exact (J s0 rid Hs0 Hr).
  - right. left. cbn in Hr. now injection Hr.
Qed.

Lemma shell_step_ring_ids (rt : Library) (G : DiGraph) (df : list Tx)
      (shell_map : list (string * nat)) (st : Assembly * list string) (n : string) :
  (forall s rid, In s (a_suspects (fst st)) -> s_ring_id s = Some rid ->
                 In rid (map ring_id (a_fraud_rings (fst st)))) ->
  forall s rid, In s (a_suspects (fst (shell_step rt G df shell_map st n))) ->
                s_ring_id s = Some rid ->
                In rid (map ring_id (a_fraud_rings (fst (shell_step rt G df shell_map st n)))).
Proof.
  intros J. unfold shell_step. destruct st as [asm seen]. cbn [fst] in J.
  destruct (_ || _); [exact J|].
  destruct (collect_chain _ _ _ _ _ _) as [chain seen'].
  destruct (2 <=? _)%nat; [|exact J].
  rewrite attach_members_fst_snd. cbn [fst a_suspects a_fraud_rings].
  intros s rid Hs Hr. rewrite map_app, in_app_iff. cbn [map ring_id In].
  apply attach_members_suspects in Hs. destruct Hs as (s0 & Hs0 & [->| ->]).
  - left. exact (J s0 rid Hs0 Hr).
  - right. left. cbn in Hr. now injection Hr.
Qed.

Lemma make_suspect_ring (G : DiGraph) (df : list Tx) (cd : CycleData)
      (smurf_map : list (string * list string)) (shell_map : list (string * nat))
      (pre : Pre) (mm : list (string * Mastermind)) (acct : string) (s : Suspect) :
  make_suspect G df cd smurf_map shell_map pre mm acct = Some s ->
  s_ring_id s = Py.get (ring_map cd) acct.
Proof.
  unfold make_suspect. destruct (Py.qleb _ 0); [discriminate|].
  intros H. apply some_inj in H. now subst s.
Qed.

Lemma assembly_ring_ids (rt : Library) (df : list Tx) (G : DiGraph) (wl : list string)
      (smurf_map : list (string * list string)) (cd : CycleData) :
  set_iter_ok rt ->
  detect_cycles rt wl G = Some cd ->
  forall s rid, In s (a_suspects (assembly_of rt df G wl smurf_map cd)) ->
                s_ring_id s = Some rid ->
                In rid (map ring_id (a_fraud_rings (assembly_of rt df G wl smurf_map cd))).
Proof.
  intros Hrt Hcd. unfold assembly_of, assemble_rings.
  set (shell_map := detect_shell_chains _ _ _ _ _).
  set (mm := detect_mastermind _ _ _).
  set (sus := score_suspects _ _ _ _ _ _ _).
  apply (fold_left_invariant
           (fun st : Assembly * list string =>
              forall s rid, In s (a_suspects (fst st)) -> s_ring_id s = Some rid ->
                            In rid (map ring_id (a_fraud_rings (fst st))))).
  - cbn [fst].
    apply (fold_left_invariant
             (fun st : Assembly =>
                forall s rid, In s (a_suspects st) -> s_ring_id s = Some rid ->
                              In rid (map ring_id (a_fraud_rings st)))).
    + cbn [a_suspects a_fraud_rings]. intros s rid Hs Hr.
      rewrite cycle_ring_id. unfold sus, score_suspects in Hs.
      apply in_flat_map in Hs. destruct Hs as (acct & _ & Hs).
      destruct (make_suspect _ _ _ _ _ _ _ _) as [s0|] eqn:E; [|destruct Hs].
      destruct Hs as [<-|[]]. rewrite (make_suspect_ring _ _ _ _ _ _ _ _ _ E) in Hr.
      destruct (detect_cycles_partition rt wl G cd Hrt Hcd) as (P1 & _).
      apply P1 in Hr. destruct Hr as (mbrs & Hin & _).
      change rid with (fst (rid, mbrs)). now apply in_map.
    + intros st item J. apply smurfing_step_ring_ids. exact J.
  - intros st n J. apply shell_step_ring_ids. exact J.
Qed.

Lemma drop_ring_ids (rids : list string) (st : Filtered) :
  (forall s rid, In s (f_suspects st) -> s_ring_id s = Some rid ->
                 In rid (map ring_id (f_fraud_rings st))) ->
  forall s rid, In s (f_suspects (drop rids st)) -> s_ring_id s = Some rid ->
                In rid (map ring_id (f_fraud_rings (drop rids st))).
Proof.
  intros J s rid Hs Hr. unfold drop in *. cbn [f_suspects f_fraud_rings] in *.
  apply filter_In in Hs. destruct Hs as [Hs Hnot].
  unfold ring_id_in in Hnot. rewrite Hr in Hnot. apply negb_true_iff in Hnot.
  pose proof (J s rid Hs Hr) as Hin. apply in_map_iff in Hin.
  destruct Hin as (r & <- & Hin). apply in_map. apply filter_In. split; [exact Hin|].
  now rewrite Hnot.
Qed.

Lemma post_filter_ring_ids (wl : list string) (suspects : list Suspect)
      (fraud_rings : list Ring) :
  Forall (fun r => mastermind_in r wl = false) fraud_rings ->
  (forall s rid, In s suspects -> s_ring_id s = Some rid ->
                 In rid (map ring_id fraud_rings)) ->
  forall s rid, In s (f_suspects (post_filter wl suspects fraud_rings)) ->
                s_ring_id s = Some rid ->
                In rid (map ring_id (f_fraud_rings (post_filter wl suspects fraud_rings))).
Proof.
  intros Hclean J. unfold post_filter.
  set (st0 := mkFiltered 0 suspects fraud_rings).
  set (st1 := drop _ st0). set (st2 := drop _ st1). set (st3 := drop _ st2).
  set (st4 := drop _ st3).
  assert (J4 : forall s rid, In s (f_suspects st4) -> s_ring_id s = Some rid ->
                             In rid (map ring_id (f_fraud_rings st4)))
    by (repeat apply drop_ring_ids; exact J).
  assert (C4 : Forall (fun r => mastermind_in r wl = false) (f_fraud_rings st4))
    by (unfold st4, st3, st2, st1, drop; cbn [f_fraud_rings];
        repeat apply Forall_filter; exact Hclean).
  intros s rid Hs Hr.
  rewrite sweep_keeps_clean_rings by exact C4.
  destruct (whitelist_sweep_suspects wl (drop_orphans st4)) as [Es _].
  rewrite Es in Hs. apply filter_In in Hs. destruct Hs as [Hs _].
  unfold drop_orphans in Hs. cbn [f_suspects] in Hs. apply filter_In in Hs.
  exact (J4 s rid (proj1 Hs) Hr).
Qed.

(** X27: In the result of run, the ring_id of every reported suspect is the
    ring_id of a ring in fraud_rings: the post-filter leaves no suspect
    pointing to a removed ring (under the same two provisos on set traversal
    and simple_cycles). *)
Theorem suspect_ring_is_reported (rt : Runtime) (df0 : list Row) (res : AnalysisResult)
        (s : Suspect) (rid : string) :
  set_iter_ok rt ->
  simple_cycles_ok rt
    (subgraph (build_graph (clean df0))
              (search_nodes rt (fst (detect_smurfing (build_graph (clean df0)) (clean df0)))
                            (build_graph (clean df0)))) ->
  run rt df0 = Some res ->
  In s (suspicious_accounts res) ->
  s_ring_id s = Some rid ->
  exists r, In r (fraud_rings res) /\ ring_id r = rid.
Proof.
  intros Hrt Hsc. unfold run.
  destruct (detect_cycles _ _ _) as [cd|] eqn:Hcd; [|discriminate].
  intros Heq. apply some_inj in Heq. rewrite <- Heq.
  unfold run_from_cycles. cbn [suspicious_accounts fraud_rings].
  intros Hs Hr. apply sort_In in Hs.
  pose proof (post_filter_ring_ids _ _ _
                (assembly_masterminds_clean rt _ _ _ _ cd Hrt Hsc Hcd)
                (assembly_ring_ids rt _ _ _ _ cd Hrt Hcd) s rid Hs Hr) as H.
  apply in_map_iff in H. destruct H as (r & E & Hin). now exists r.
Qed.

Lemma suspect_ring_is_reported_witness :
  set_iter_ok Examples.rtA
  /\ run Examples.rtA Scenarios.mixed = Some Scenarios.mixed_result
  /\ In Scenarios.mixed_first (suspicious_accounts Scenarios.mixed_result)
  /\ s_ring_id Scenarios.mixed_first = Some "RING_001"
  /\ exists r, In r (fraud_rings Scenarios.mixed_result) /\ ring_id r = "RING_001".
Proof.
  assert (Hrt : set_iter_ok Examples.rtA) by (intros s; apply Permutation_refl).
  assert (C : simple_cycles_ok Examples.rtA
                (subgraph (build_graph (clean Scenarios.mixed))
                   (search_nodes Examples.rtA
                      (fst (detect_smurfing (build_graph (clean Scenarios.mixed))
                                            (clean Scenarios.mixed)))
                      (build_graph (clean Scenarios.mixed)))))
    by (apply simple_cycles_ok_dec; vm_compute; reflexivity).
  assert (R : run Examples.rtA Scenarios.mixed = Some Scenarios.mixed_result)
    by (vm_compute; reflexivity).
  assert (I : In Scenarios.mixed_first (suspicious_accounts Scenarios.mixed_result))
    by (vm_compute; left; reflexivity).
  assert (E : s_ring_id Scenarios.mixed_first = Some "RING_001")
    by (vm_compute; reflexivity).
  split; [exact Hrt|]. split; [exact R|]. split; [exact I|]. split; [exact E|].
  exact (suspect_ring_is_reported Examples.rtA Scenarios.mixed Scenarios.mixed_result
           Scenarios.mixed_first "RING_001" Hrt C R I E).
Defined.

(** ** The left end of a window *)

Lemma wt_pos : (0 < wt_seconds)%Z.
Proof. reflexivity. Qed.

Lemma advance_left_least (ts : list Z) (r : nat) (fuel : nat) :
  forall left,
    (left <= r)%nat -> (r - left < fuel)%nat ->
    (forall i, (i < left)%nat -> (nth r ts 0 - nth i ts 0 > wt_seconds)%Z) ->
    let l := advance_left ts r left fuel in
    (left <= l <= r)%nat
    /\ (nth r ts 0 - nth l ts 0 <= wt_seconds)%Z
    /\ forall i, (i < l)%nat -> (nth r ts 0 - nth i ts 0 > wt_seconds)%Z.
Proof.
  induction fuel as [|fuel IH]; intros left Hle Hf Hpre; [lia|].
  cbn [advance_left].
  destruct (nth r ts 0 - nth left ts 0 >? wt_seconds)%Z eqn:E.
  - rewrite Z.gtb_ltb in E. apply Z.ltb_lt in E.
    assert (Hlt : (left < r)%nat).
    { destruct (Nat.eq_dec left r) as [->|]; [|lia].
      pose proof wt_pos. lia. }
    destruct (IH (S left) ltac:(lia) ltac:(lia)) as (I1 & I2 & I3).
    + intros i Hi. destruct (Nat.eq_dec i left) as [->|]; [lia|]. apply Hpre. lia.
    + cbv zeta. split; [lia|]. now split.
  - cbv zeta. split; [lia|].
    rewrite Z.gtb_ltb in E. apply Z.ltb_ge in E.
    split; [exact E|exact Hpre].
Qed.

Lemma lo_spec (ts : list Z) (r : nat) :
  (lo ts r <= r)%nat
  /\ (nth r ts 0 - nth (lo ts r) ts 0 <= wt_seconds)%Z
  /\ forall i, (i < lo ts r)%nat -> (nth r ts 0 - nth i ts 0 > wt_seconds)%Z.
Proof.
  destruct (advance_left_least ts r (S r) 0 ltac:(lia) ltac:(lia)) as (H1 & H2 & H3).
  - intros i Hi. lia.
  - unfold lo. split; [lia|]. now split.
Qed.

Lemma advance_left_is_lo (ts : list Z) (r left : nat) :
  (left <= r)%nat ->
  (forall i, (i < left)%nat -> (nth r ts 0 - nth i ts 0 > wt_seconds)%Z) ->
  advance_left ts r left (S r) = lo ts r.
Proof.
  intros Hle Hpre.
  destruct (advance_left_least ts r (S r) left Hle ltac:(lia) Hpre) as (H1 & H2 & H3).
  destruct (lo_spec ts r) as (L1 & L2 & L3).
  set (l := advance_left ts r left (S r)) in *.
  destruct (Nat.lt_trichotomy l (lo ts r)) as [H|[H|H]]; [|exact H|].
  - specialize (L3 l H). lia.
  - specialize (H3 (lo ts r) H). lia.
Qed.

Lemma lo_next (ts : list Z) (r : nat) :
  ascending ts -> (S r < List.length ts)%nat ->
  (lo ts r <= S r)%nat
  /\ forall i, (i < lo ts r)%nat -> (nth (S r) ts 0 - nth i ts 0 > wt_seconds)%Z.
Proof.
  intros Ha Hr. destruct (lo_spec ts r) as (L1 & _ & L3). split; [lia|].
  intros i Hi. specialize (L3 i Hi).
  pose proof (Ha r (S r) ltac:(lia) Hr). lia.
Qed.

(** ** The three scans, window by window *)

Lemma velocity_scan_windows (ts : list Z) (sns : list string) :
  ascending ts ->
  forall m k left,
    (k + m <= List.length ts)%nat ->
    (left <= k)%nat ->
    (forall i, (i < left)%nat -> (nth k ts 0 - nth i ts 0 > wt_seconds)%Z) ->
    velocity_scan ts sns (seq k m) left
    = existsb (fun r => (VELOCITY_TX_THRESHOLD <=? List.length (slice sns (lo ts r) (S r)))%nat
                        && (VELOCITY_TX_THRESHOLD <=? Py.nunique (slice sns (lo ts r) (S r)))%nat)
              (seq k m).
Proof.
  intros Ha. induction m as [|m IH]; intros k left Hk Hle Hpre; [reflexivity|].
  cbn [seq velocity_scan existsb].
  rewrite (advance_left_is_lo ts k left Hle Hpre).
  destruct (_ && _); [reflexivity|]. cbn [orb].
  destruct m as [|m']; [reflexivity|].
  destruct (lo_next ts k Ha ltac:(lia)) as [N1 N2].
  apply IH; [lia|exact N1|exact N2].
Qed.

Lemma distinct_scan_windows (ts : list Z) (sns : list string) :
  ascending ts ->
  forall m k left mx,
    (k + m <= List.length ts)%nat ->
    (left <= k)%nat ->
    (forall i, (i < left)%nat -> (nth k ts 0 - nth i ts 0 > wt_seconds)%Z) ->
    distinct_scan ts sns (seq k m) left mx
    = fold_left (fun mx r => Nat.max mx (Py.nunique (slice sns (lo ts r) (S r))))
                (seq k m) mx.
Proof.
  intros Ha. induction m as [|m IH]; intros k left mx Hk Hle Hpre; [reflexivity|].
  cbn [seq distinct_scan fold_left].
  rewrite (advance_left_is_lo ts k left Hle Hpre).
  assert (E : (if (mx <? Py.nunique (slice sns (lo ts k) (S k)))%nat
               then Py.nunique (slice sns (lo ts k) (S k)) else mx)
              = Nat.max mx (Py.nunique (slice sns (lo ts k) (S k)))).
  { destruct (Nat.ltb_spec mx (Py.nunique (slice sns (lo ts k) (S k)))); lia. }
  rewrite E.
  destruct m as [|m']; [reflexivity|].
  destruct (lo_next ts k Ha ltac:(lia)) as [N1 N2].
  apply IH; [lia|exact N1|exact N2].
Qed.

Lemma fallback_scan_windows (ts : list Z) :
  ascending ts ->
  forall m k left vel,
    (k + m <= List.length ts)%nat ->
    (left <= k)%nat ->
    (forall i, (i < left)%nat -> (nth k ts 0 - nth i ts 0 > wt_seconds)%Z) ->
    fallback_scan ts (seq k m) left vel
    = fold_left (fun vel r => Nat.max vel (r - lo ts r + 1)) (seq k m) vel.
Proof.
  intros Ha. induction m as [|m IH]; intros k left vel Hk Hle Hpre; [reflexivity|].
  cbn [seq fallback_scan fold_left].
  rewrite (advance_left_is_lo ts k left Hle Hpre).
  destruct m as [|m']; [reflexivity|].
  destruct (lo_next ts k Ha ltac:(lia)) as [N1 N2].
  apply IH; [lia|exact N1|exact N2].
Qed.

(** ** Sorted groups *)

Lemma sorted_nth {A : Type} (R : A -> A -> Prop) (l : list A) (d : A) :
  StronglySorted R l ->
  forall i j, (i < j)%nat -> (j < List.length l)%nat -> R (nth i l d) (nth j l d).
Proof.
  induction 1 as [|x l Hl IH Hx]; intros i j Hij Hj; [cbn in Hj; lia|].
  destruct j as [|j]; [lia|]. cbn [List.length] in Hj.
  destruct i as [|i]; cbn [nth].
  - apply (proj1 (Forall_forall _ _) Hx). apply nth_In. lia.
  - apply IH; lia.
Qed.

Lemma sort_by_timestamp_ascending (grp : list Tx) :
  ascending (map timestamp (sort_by_timestamp grp)).
Proof.
  assert (S : StronglySorted (fun a b => (timestamp a <= timestamp b)%Z)
                             (sort_by_timestamp grp)).
  { unfold sort_by_timestamp.
    eapply StronglySorted_weaken; [|apply sort_sorted].
    - intros a b H. apply Z.leb_le in H. exact H.
    - intros a b. rewrite !Z.leb_le. lia.
    - intros a b c. rewrite !Z.leb_le. lia. }
  intros i j Hij Hj. rewrite length_map in Hj.
  set (d0 := mkTx "" "" "" 0 0%Z).
  change 0%Z with (timestamp d0). rewrite !map_nth.
  destruct (Nat.eq_dec i j) as [->|Hne]; [lia|].
  apply (sorted_nth _ _ d0 S); lia.
Qed.

Lemma in_slice (l : list string) (a b : nat) (x : string) :
  In x (slice l a b)
  <-> exists i, (a <= i < b)%nat /\ (i < List.length l)%nat /\ nth i l "" = x.
Proof.
  unfold slice. split.
  - intros H. apply (In_nth _ _ "") in H. destruct H as (k & Hk & E).
    rewrite length_firstn, length_skipn in Hk.
    rewrite nth_firstn in E.
    destruct (k <? b - a)%nat eqn:Ek; [|apply Nat.ltb_ge in Ek; lia].
    rewrite nth_skipn in E. exists (a + k)%nat. split; [lia|]. split; [lia|exact E].
  - intros (i & Hi & Hl & <-).
    assert (E : nth i l "" = nth (i - a) (firstn (b - a) (skipn a l)) "").
    { rewrite nth_firstn.
      destruct (i - a <? b - a)%nat eqn:E; [|apply Nat.ltb_ge in E; lia].
      rewrite nth_skipn. f_equal. lia. }
    rewrite E. apply nth_In. rewrite length_firstn, length_skipn. lia.
Qed.

(** ** Windows by index and windows by time *)

Lemma nunique_incl (l1 l2 : list string) :
  incl l1 l2 -> (Py.nunique l1 <= Py.nunique l2)%nat.
Proof.
  intros H. unfold Py.nunique. apply NoDup_incl_length; [apply set_of_NoDup|].
  intros x Hx. apply In_set_of. apply H. apply In_set_of. exact Hx.
Qed.

Lemma nunique_le_length (l : list string) : (Py.nunique l <= List.length l)%nat.
Proof. apply set_of_length. Qed.

Lemma nth_timestamp (g : list Tx) (i : nat) :
  nth i (map timestamp g) 0%Z = timestamp (nth i g (mkTx "" "" "" 0 0%Z)).
Proof. now rewrite <- (map_nth timestamp). Qed.

Lemma nth_sender (g : list Tx) (i : nat) :
  nth i (map sender_id g) "" = sender_id (nth i g (mkTx "" "" "" 0 0%Z)).
Proof. now rewrite <- (map_nth sender_id). Qed.

Lemma window_sound (g : list Tx) (r : nat) :
  ascending (map timestamp g) -> (r < List.length g)%nat ->
  incl (slice (map sender_id g) (lo (map timestamp g) r) (S r))
       (window_senders g (nth r (map timestamp g) 0%Z)).
Proof.
  intros Ha Hr x Hx. apply in_slice in Hx. destruct Hx as (i & Hi & Hl & <-).
  rewrite length_map in Hl.
  destruct (lo_spec (map timestamp g) r) as (L1 & L2 & _).
  pose proof (Ha (lo (map timestamp g) r) i ltac:(lia)
                 ltac:(rewrite length_map; lia)) as H1.
  pose proof (Ha i r ltac:(lia) ltac:(rewrite length_map; lia)) as H2.
  rewrite nth_sender. unfold window_senders. apply in_map. apply filter_In.
  split; [apply nth_In; exact Hl|].
  rewrite <- nth_timestamp. apply andb_true_iff. split; [apply Z.leb_le|apply Z.leb_le]; lia.
Qed.

Lemma window_complete (g : list Tx) (r : nat) :
  (r < List.length g)%nat ->
  (forall i, (i < List.length g)%nat ->
             (nth i (map timestamp g) 0 <= nth r (map timestamp g) 0)%Z -> (i <= r)%nat) ->
  incl (window_senders g (nth r (map timestamp g) 0%Z))
       (slice (map sender_id g) (lo (map timestamp g) r) (S r)).
Proof.
  intros Hr Hlast x Hx. unfold window_senders in Hx. apply in_map_iff in Hx.
  destruct Hx as (t & <- & Ht). apply filter_In in Ht. destruct Ht as [Ht Hb].
  apply andb_true_iff in Hb. destruct Hb as [B1 B2].
  apply Z.leb_le in B1. apply Z.leb_le in B2.
  apply (In_nth _ _ (mkTx "" "" "" 0 0%Z)) in Ht. destruct Ht as (i & Hi & E).
  assert (Et : nth i (map timestamp g) 0%Z = timestamp t) by (rewrite nth_timestamp, E; reflexivity).
  destruct (lo_spec (map timestamp g) r) as (_ & _ & L3).
  apply in_slice. exists i. split; [|split].
  - split.
    + destruct (Nat.lt_ge_cases i (lo (map timestamp g) r)) as [H|H]; [|exact H].
      specialize (L3 i H). lia.
    + assert (i <= r)%nat by (apply Hlast; [exact Hi|lia]). lia.
  - rewrite length_map. exact Hi.
  - rewrite nth_sender, E. reflexivity.
Qed.

Lemma last_index (P : nat -> bool) (n : nat) :
  (exists i, (i < n)%nat /\ P i = true) ->
  exists r, (r < n)%nat /\ P r = true
            /\ forall i, (i < n)%nat -> P i = true -> (i <= r)%nat.
Proof.
  induction n as [|n IH]; intros (i & Hi & Hp); [lia|].
  destruct (P n) eqn:E.
  - exists n. split; [lia|]. split; [exact E|]. intros j Hj _. lia.
  - destruct IH as (r & Hr & Hpr & Hmax).
    + exists i. split; [|exact Hp]. destruct (Nat.eq_dec i n) as [->|]; [congruence|lia].
    + exists r. split; [lia|]. split; [exact Hpr|].
      intros j Hj Hpj. destruct (Nat.eq_dec j n) as [->|]; [congruence|].
      apply Hmax; [lia|exact Hpj].
Qed.

Lemma window_senders_perm (g g' : list Tx) (tau : Z) :
  Permutation g g' -> Py.nunique (window_senders g tau) = Py.nunique (window_senders g' tau).
Proof.
  intros H.
  assert (P : Permutation (window_senders g tau) (window_senders g' tau)).
  { unfold window_senders. apply Permutation_map.
    induction H as [|x l l' H IH|x y l|l l' l'' H1 IH1 H2 IH2]; cbn [filter].
    - constructor.
    - destruct (_ && _); [constructor|]; exact IH.
    - destruct (_ && _); destruct (_ && _); try apply Permutation_refl. apply perm_swap.
    - etransitivity; eassumption. }
  apply Nat.le_antisymm; apply nunique_incl; intros x Hx.
  - exact (Permutation_in _ P Hx).
  - exact (Permutation_in _ (Permutation_sym P) Hx).
Qed.

(** The window that ends at the last transfer with the timestamp of [t]
    holds every transfer of the 72 hours before it. *)
Lemma window_at_time (g : list Tx) (t : Tx) :
  ascending (map timestamp g) -> In t g ->
  exists r, (r < List.length g)%nat
            /\ nth r (map timestamp g) 0%Z = timestamp t
            /\ incl (window_senders g (timestamp t))
                    (slice (map sender_id g) (lo (map timestamp g) r) (S r)).
Proof.
  intros Ha Ht.
  apply (In_nth _ _ (mkTx "" "" "" 0 0%Z)) in Ht. destruct Ht as (j & Hj & Ej).
  assert (Etj : nth j (map timestamp g) 0%Z = timestamp t)
    by (rewrite nth_timestamp, Ej; reflexivity).
  destruct (last_index (fun i => (nth i (map timestamp g) 0 <=? timestamp t)%Z)
                       (List.length g)) as (r & Hr & Hpr & Hmax).
  { exists j. split; [exact Hj|]. apply Z.leb_le. lia. }
  apply Z.leb_le in Hpr.
  assert (Hjr : (j <= r)%nat) by (apply Hmax; [exact Hj|apply Z.leb_le; lia]).
  pose proof (Ha j r Hjr ltac:(rewrite length_map; lia)) as Hle.
  assert (Er : nth r (map timestamp g) 0%Z = timestamp t) by lia.
  exists r. split; [exact Hr|]. split; [exact Er|].
  rewrite <- Er. apply window_complete; [exact Hr|].
  intros i Hi Hle'. apply Hmax; [exact Hi|]. apply Z.leb_le. lia.
Qed.

Lemma existsb_seq (f : nat -> bool) (n : nat) :
  existsb f (seq 0 n) = true <-> exists r, (r < n)%nat /\ f r = true.
Proof.
  rewrite existsb_exists. split.
  - intros (r & Hr & Hf). apply in_seq in Hr. exists r. split; [lia|exact Hf].
  - intros (r & Hr & Hf). exists r. split; [apply in_seq; lia|exact Hf].
Qed.

(** X14: The two-pointer scan of detect_smurfing flags a group of incoming
    rows as high_velocity exactly when some row of the group closes a
    72-hour window (rows with timestamp at most 72 hours before it and not
    after it) that holds at least VELOCITY_TX_THRESHOLD (10) distinct
    senders. *)
Theorem high_velocity_spec (grp : list Tx) :
  high_velocity grp = true
  <-> exists t, In t grp
                /\ (VELOCITY_TX_THRESHOLD
                    <= Py.nunique (window_senders grp (timestamp t)))%nat.
Proof.
  set (g := sort_by_timestamp grp).
  assert (Pg : Permutation g grp) by apply sort_Permutation.
  assert (Ha : ascending (map timestamp g)) by apply sort_by_timestamp_ascending.
  assert (Hlen : List.length g = List.length grp) by apply sort_length.
  assert (Hscan : velocity_scan (map timestamp g) (map sender_id g)
                                (seq 0 (List.length g)) 0
                  = existsb (fun r =>
                       (VELOCITY_TX_THRESHOLD
                        <=? List.length (slice (map sender_id g) (lo (map timestamp g) r) (S r)))%nat
                       && (VELOCITY_TX_THRESHOLD
                           <=? Py.nunique (slice (map sender_id g) (lo (map timestamp g) r)
                                                 (S r)))%nat)
                            (seq 0 (List.length g))).
  { apply velocity_scan_windows; [exact Ha|rewrite length_map; lia|lia|intros i Hi; lia]. }
  unfold high_velocity. fold g. rewrite Hscan. split.
  - destruct (_ <? _)%nat; [discriminate|].
    intros H. apply existsb_seq in H. destruct H as (r & Hr & Hf).
    apply andb_true_iff in Hf. destruct Hf as [_ Hu]. apply Nat.leb_le in Hu.
    exists (nth r g (mkTx "" "" "" 0 0%Z)). split.
    + apply (Permutation_in _ Pg). apply nth_In. exact Hr.
    + rewrite <- (window_senders_perm g grp _ Pg), <- nth_timestamp.
      etransitivity; [exact Hu|]. apply nunique_incl. apply window_sound; assumption.
  - intros (t & Ht & Hu).
    assert (Htg : In t g) by exact (Permutation_in _ (Permutation_sym Pg) Ht).
    rewrite <- (window_senders_perm g grp _ Pg) in Hu.
    assert (Hbig : (VELOCITY_TX_THRESHOLD <= List.length grp)%nat).
    { etransitivity; [exact Hu|]. etransitivity; [apply nunique_le_length|].
      unfold window_senders. rewrite length_map, <- Hlen. apply List.filter_length_le. }
    destruct (List.length grp <? VELOCITY_TX_THRESHOLD)%nat eqn:E;
      [apply Nat.ltb_lt in E; lia|].
    destruct (window_at_time g t Ha Htg) as (r & Hr & _ & Hincl).
    apply existsb_seq. exists r. split; [exact Hr|].
    pose proof (nunique_incl _ _ Hincl) as Hn.
    pose proof (nunique_le_length (slice (map sender_id g) (lo (map timestamp g) r) (S r))).
    apply andb_true_iff. split; apply Nat.leb_le; lia.
Qed.

Lemma fold_max_spec (f : nat -> nat) (l : list nat) (m0 : nat) :
  let M := fold_left (fun mx r => Nat.max mx (f r)) l m0 in
  (m0 <= M)%nat
  /\ (forall r, In r l -> (f r <= M)%nat)
  /\ (M = m0 \/ exists r, In r l /\ M = f r).
Proof.
  revert m0. induction l as [|a l IH]; intros m0; cbn [fold_left].
  - split; [lia|]. split; [intros r []|now left].
  - destruct (IH (Nat.max m0 (f a))) as (I1 & I2 & I3). cbv zeta in *.
    split; [lia|]. split.
    + intros r [<-|Hr]; [lia|apply I2; exact Hr].
    + destruct I3 as [E|(r & Hr & E)].
      * destruct (Nat.max_spec m0 (f a)) as [[_ Em]|[_ Em]].
        -- right. exists a. split; [now left|lia].
        -- left. lia.
      * right. exists r. split; [now right|exact E].
Qed.

(** X15: The velocity count that run precomputes for a receiver is the
    maximum, over the receiver's incoming rows, of the number of distinct
    senders in the 72-hour window that ends at the row's timestamp; it is 0
    for an empty group and is attained by some row otherwise. *)
Theorem velocity_count_spec (grp : list Tx) :
  exists m : nat,
    velocity_count grp = q_of_nat m
    /\ (forall t, In t grp -> (Py.nunique (window_senders grp (timestamp t)) <= m)%nat)
    /\ (grp = [] -> m = 0%nat)
    /\ (grp <> [] ->
        exists t, In t grp /\ m = Py.nunique (window_senders grp (timestamp t))).
Proof.
  set (g := sort_by_timestamp grp).
  assert (Pg : Permutation g grp) by apply sort_Permutation.
  assert (Ha : ascending (map timestamp g)) by apply sort_by_timestamp_ascending.
  set (f := fun r => Py.nunique (slice (map sender_id g) (lo (map timestamp g) r) (S r))).
  exists (fold_left (fun mx r => Nat.max mx (f r)) (seq 0 (List.length g)) 0%nat).
  destruct (fold_max_spec f (seq 0 (List.length g)) 0%nat) as (_ & F2 & F3).
  cbv zeta in F2, F3.
  split; [|split; [|split]].
  - unfold velocity_count. fold g. f_equal.
    apply distinct_scan_windows; [exact Ha|rewrite length_map; lia|lia|intros i Hi; lia].
  - intros t Ht.
    assert (Htg : In t g) by exact (Permutation_in _ (Permutation_sym Pg) Ht).
    rewrite <- (window_senders_perm g grp _ Pg).
    destruct (window_at_time g t Ha Htg) as (r & Hr & _ & Hincl).
    etransitivity; [apply (nunique_incl _ _ Hincl)|].
    apply (F2 r). apply in_seq. lia.
  - intros ->. reflexivity.
  - intros Hne.
    assert (Hlen : (0 < List.length g)%nat).
    { rewrite (Permutation_length Pg). destruct grp; [congruence|cbn; lia]. }
    assert (Hup : forall r, (r < List.length g)%nat ->
              (f r <= Py.nunique (window_senders grp
                        (timestamp (nth r g (mkTx "" "" "" 0 0%Z)))))%nat).
    { intros r Hr. rewrite <- (window_senders_perm g grp _ Pg), <- nth_timestamp.
      apply nunique_incl. apply window_sound; assumption. }
    destruct F3 as [E|(r & Hr & E)].
    + (* the maximum is 0: every window is empty, also the one of the first row *)
      exists (nth 0 g (mkTx "" "" "" 0 0%Z)).
      assert (In (nth 0 g (mkTx "" "" "" 0 0%Z)) g) by (apply nth_In; exact Hlen).
      split; [exact (Permutation_in _ Pg H)|].
      exfalso.
      assert (H0 : (f 0%nat <= 0)%nat) by (rewrite <- E; apply F2; apply in_seq; lia).
      unfold f in H0.
      assert (Hin : In (nth 0 (map sender_id g) "")
                       (slice (map sender_id g) (lo (map timestamp g) 0) 1)).
      { apply in_slice. exists 0%nat.
        destruct (lo_spec (map timestamp g) 0) as (L1 & _).
        split; [lia|]. split; [rewrite length_map; exact Hlen|reflexivity]. }
      apply In_set_of in Hin. unfold Py.nunique in H0.
      destruct (Py.set_of (slice (map sender_id g) (lo (map timestamp g) 0) 1));
        [destruct Hin|cbn in H0; lia].
    + apply in_seq in Hr.
      set (t := nth r g (mkTx "" "" "" 0 0%Z)).
      assert (Htg : In t g) by (apply nth_In; lia).
      exists t. split; [exact (Permutation_in _ Pg Htg)|].
      apply Nat.le_antisymm.
      * rewrite E. apply Hup. lia.
      * rewrite <- (window_senders_perm g grp _ Pg).
        destruct (window_at_time g t Ha Htg) as (r' & Hr' & _ & Hincl).
        etransitivity; [apply (nunique_incl _ _ Hincl)|].
        apply (F2 r'). apply in_seq. lia.
Qed.

Lemma in_slice_Z (l : list Z) (a b : nat) (x : Z) :
  In x (slice l a b)
  <-> exists i, (a <= i < b)%nat /\ (i < List.length l)%nat /\ nth i l 0%Z = x.
Proof.
  unfold slice. split.
  - intros H. apply (In_nth _ _ 0%Z) in H. destruct H as (k & Hk & E).
    rewrite length_firstn, length_skipn in Hk.
    rewrite nth_firstn in E.
    destruct (k <? b - a)%nat eqn:Ek; [|apply Nat.ltb_ge in Ek; lia].
    rewrite nth_skipn in E. exists (a + k)%nat. split; [lia|]. split; [lia|exact E].
  - intros (i & Hi & Hl & <-).
    assert (E : nth i l 0%Z = nth (i - a) (firstn (b - a) (skipn a l)) 0%Z).
    { rewrite nth_firstn.
      destruct (i - a <? b - a)%nat eqn:E; [|apply Nat.ltb_ge in E; lia].
      rewrite nth_skipn. f_equal. lia. }
    rewrite E. apply nth_In. rewrite length_firstn, length_skipn. lia.
Qed.

Lemma slice_split (l : list Z) (a b : nat) :
  (a <= b)%nat ->
  l = slice l 0 a ++ slice l a b ++ slice l b (List.length l).
Proof.
  intros H. unfold slice. cbn [skipn]. rewrite Nat.sub_0_r.
  rewrite (firstn_all2 (n := List.length l - b)) by (rewrite length_skipn; lia).
  replace (skipn b l) with (skipn (b - a) (skipn a l))
    by (rewrite skipn_skipn; f_equal; lia).
  rewrite (firstn_skipn (b - a) (skipn a l)). symmetry. apply firstn_skipn.
Qed.

Lemma filter_none {A : Type} (P : A -> bool) (l : list A) :
  (forall x, In x l -> P x = false) -> filter P l = [].
Proof.
  induction l as [|x l IH]; intros H; [reflexivity|]. cbn [filter].
  rewrite (H x (or_introl eq_refl)). apply IH. intros y Hy. apply H. now right.
Qed.

Lemma filter_all {A : Type} (P : A -> bool) (l : list A) :
  (forall x, In x l -> P x = true) -> filter P l = l.
Proof.
  induction l as [|x l IH]; intros H; [reflexivity|]. cbn [filter].
  rewrite (H x (or_introl eq_refl)). f_equal. apply IH. intros y Hy. apply H. now right.
Qed.

(** On an ascending list the window that ends at index [r] holds the
    indices [lo r .. r]; it holds nothing else when [r] is the last index
    with its timestamp. *)
Lemma window_count (ts : list Z) (r : nat) :
  ascending ts -> (r < List.length ts)%nat ->
  let P := fun x => (nth r ts 0 - x <=? wt_seconds)%Z && (x <=? nth r ts 0)%Z in
  (r - lo ts r + 1 <= List.length (filter P ts))%nat
  /\ ((forall i, (i < List.length ts)%nat -> (nth i ts 0 <= nth r ts 0)%Z -> (i <= r)%nat) ->
      List.length (filter P ts) = (r - lo ts r + 1)%nat).
Proof.
  intros Ha Hr P.
  destruct (lo_spec ts r) as (L1 & L2 & L3).
  assert (Hmid : filter P (slice ts (lo ts r) (S r)) = slice ts (lo ts r) (S r)).
  { apply filter_all. intros x Hx. apply in_slice_Z in Hx. destruct Hx as (i & Hi & Hl & <-).
    pose proof (Ha (lo ts r) i ltac:(lia) Hl). pose proof (Ha i r ltac:(lia) Hr).
    unfold P. apply andb_true_iff. split; apply Z.leb_le; lia. }
  assert (Hlow : filter P (slice ts 0 (lo ts r)) = []).
  { apply filter_none. intros x Hx. apply in_slice_Z in Hx. destruct Hx as (i & Hi & Hl & <-).
    specialize (L3 i ltac:(lia)). unfold P. apply andb_false_iff. left. apply Z.leb_gt. lia. }
  assert (Hlen : List.length (slice ts (lo ts r) (S r)) = (r - lo ts r + 1)%nat).
  { unfold slice. rewrite length_firstn, length_skipn. lia. }
  assert (Hsplit : List.length (filter P ts)
                   = (r - lo ts r + 1
                      + List.length (filter P (slice ts (S r) (List.length ts))))%nat).
  { rewrite (slice_split ts (lo ts r) (S r)) at 1 by lia.
    rewrite !filter_app, !length_app, Hlow, Hmid, Hlen. reflexivity. }
  split; [lia|].
  intros Hlast. rewrite Hsplit.
  rewrite (filter_none P (slice ts (S r) (List.length ts))); [cbn [List.length]; lia|].
  intros x Hx. apply in_slice_Z in Hx. destruct Hx as (i & Hi & Hl & <-).
  unfold P. apply andb_false_iff. right. apply Z.leb_gt.
  destruct (Z.lt_ge_cases (nth r ts 0%Z) (nth i ts 0%Z)) as [H|H]; [exact H|].
  specialize (Hlast i Hl ltac:(lia)). lia.
Qed.

Lemma filter_perm_length {A : Type} (P : A -> bool) (l l' : list A) :
  Permutation l l' -> List.length (filter P l) = List.length (filter P l').
Proof.
  intros H. induction H as [|x l l' H IH|x y l|l l' l'' H1 IH1 H2 IH2]; cbn [filter].
  - reflexivity.
  - destruct (P x); cbn [List.length]; lia.
  - destruct (P x), (P y); reflexivity.
  - lia.
Qed.

Lemma filter_map_length {A B : Type} (f : A -> B) (P : B -> bool) (l : list A) :
  List.length (filter (fun a => P (f a)) l) = List.length (filter P (map f l)).
Proof.
  induction l as [|x l IH]; [reflexivity|]. cbn [filter map].
  destruct (P (f x)); cbn [List.length]; lia.
Qed.

Lemma sort_Z_ascending (l : list Z) : ascending (Py.sort Z.leb l).
Proof.
  assert (S : StronglySorted Z.le (Py.sort Z.leb l)).
  { eapply StronglySorted_weaken; [|apply sort_sorted].
    - intros a b H. apply Z.leb_le in H. exact H.
    - intros a b. rewrite !Z.leb_le. lia.
    - intros a b c. rewrite !Z.leb_le. lia. }
  intros i j Hij Hj.
  destruct (Nat.eq_dec i j) as [->|Hne]; [lia|].
  apply (sorted_nth _ _ 0%Z S); lia.
Qed.

(** X16: Without precomputed statistics, the velocity that
    compute_suspicion_score derives is the maximum, over the rows in which
    the account is sender or receiver, of the number of such rows in the
    72-hour window that ends at the row's timestamp; it is 0 when the
    account has no row and is attained by some row otherwise. *)
Theorem fallback_velocity_spec (df : list Tx) (account_id : string) :
  let sub := filter (fun t => String.eqb (sender_id t) account_id
                              || String.eqb (receiver_id t) account_id) df in
  (forall t, In t sub ->
             (window_rows sub (timestamp t) <= fallback_velocity df account_id)%nat)
  /\ (sub = [] -> fallback_velocity df account_id = 0%nat)
  /\ (sub <> [] ->
      exists t, In t sub
                /\ fallback_velocity df account_id = window_rows sub (timestamp t)).
Proof.
  intros sub.
  set (ts2 := Py.sort Z.leb (map timestamp sub)).
  assert (Pt : Permutation ts2 (map timestamp sub)) by apply sort_Permutation.
  assert (Ha : ascending ts2) by apply sort_Z_ascending.
  assert (Hrows : forall tau,
            window_rows sub tau
            = List.length (filter (fun x => (tau - x <=? wt_seconds)%Z && (x <=? tau)%Z) ts2)).
  { intros tau. unfold window_rows.
    rewrite (filter_map_length timestamp
               (fun x => (tau - x <=? wt_seconds)%Z && (x <=? tau)%Z)).
    symmetry. apply filter_perm_length. exact Pt. }
  set (f := fun r => (r - lo ts2 r + 1)%nat).
  assert (Hfv : sub <> [] ->
            fallback_velocity df account_id
            = fold_left (fun vel r => Nat.max vel (f r)) (seq 0 (List.length ts2)) 0%nat).
  { intros Hne. unfold fallback_velocity. fold sub. fold ts2.
    destruct sub as [|t0 sub'] eqn:Es; [congruence|]. rewrite <- Es in *.
    apply fallback_scan_windows; [exact Ha|lia|lia|intros i Hi; lia]. }
  destruct (fold_max_spec f (seq 0 (List.length ts2)) 0%nat) as (_ & F2 & F3).
  cbv zeta in F2, F3.
  assert (Hupper : forall t, In t sub ->
            (window_rows sub (timestamp t)
             <= fold_left (fun vel r => Nat.max vel (f r)) (seq 0 (List.length ts2)) 0)%nat).
  { intros t Ht.
    assert (Hin : In (timestamp t) ts2).
    { apply (Permutation_in _ (Permutation_sym Pt)). apply in_map. exact Ht. }
    apply (In_nth _ _ 0%Z) in Hin. destruct Hin as (j & Hj & Ej).
    destruct (last_index (fun i => (nth i ts2 0 <=? timestamp t)%Z) (List.length ts2))
      as (r & Hr & Hpr & Hmax).
    { exists j. split; [exact Hj|]. apply Z.leb_le. lia. }
    apply Z.leb_le in Hpr.
    assert (Hjr : (j <= r)%nat) by (apply Hmax; [exact Hj|apply Z.leb_le; lia]).
    pose proof (Ha j r Hjr Hr) as Hle.
    assert (Er : nth r ts2 0%Z = timestamp t) by lia.
    destruct (window_count ts2 r Ha Hr) as [_ Heq]. cbv zeta in Heq.
    rewrite Hrows, <- Er, Heq.
    - apply (F2 r). apply in_seq. lia.
    - intros i Hi Hle'. apply Hmax; [exact Hi|]. apply Z.leb_le. lia. }
  split; [|split].
  - intros t Ht. rewrite Hfv; [apply Hupper; exact Ht|].
    intros E. rewrite E in Ht. destruct Ht.
  - intros E. unfold fallback_velocity. fold sub. rewrite E. reflexivity.
  - intros Hne. rewrite (Hfv Hne).
    assert (Hlen : (0 < List.length ts2)%nat).
    { rewrite (Permutation_length Pt), length_map. destruct sub; [congruence|cbn; lia]. }
    destruct F3 as [E|(r & Hr & E)].
    + exfalso.
      assert (H0 : (f 0%nat <= 0)%nat) by (rewrite <- E; apply F2; apply in_seq; lia).
      unfold f in H0. lia.
    + apply in_seq in Hr.
      assert (Hin : In (nth r ts2 0%Z) (map timestamp sub)).
      { apply (Permutation_in _ Pt). apply nth_In. lia. }
      apply in_map_iff in Hin. destruct Hin as (t & Et & Ht).
      exists t. split; [exact Ht|].
      apply Nat.le_antisymm; [|apply Hupper; exact Ht].
      rewrite E, Hrows, Et.
      destruct (window_count ts2 r Ha ltac:(lia)) as [Hge _]. cbv zeta in Hge.
      exact Hge.
Qed.

(** ** The score of a flagged account *)

Lemma member_has_cycle (rt : Library) (wl : list string) (G : DiGraph) (cd : CycleData)
      (n : string) :
  detect_cycles rt wl G = Some cd ->
  In n (cycle_members cd) -> Py.get_or (member_cycles cd) n [] <> [].
Proof.
  unfold detect_cycles. destruct (gate_cycles _ _) as [raw|]; [|discriminate].
  destruct (label_groups _ _) as [rmap rgs].
  intros E. apply some_inj in E. subst cd. cbn [member_cycles cycle_members].
  rewrite In_set_of, in_concat. intros (x & Hx & Hn) Hnil.
  assert (H : In x (Py.get_or (collect_member_cycles raw) n [])).
  { unfold collect_member_cycles. apply member_cycles_outer. right. now split. }
  rewrite Hnil in H. exact H.
Qed.

(** A group that passes the velocity scan has ten distinct senders. *)
Lemma high_velocity_senders (grp : list Tx) :
  high_velocity grp = true ->
  (VELOCITY_TX_THRESHOLD <= Py.nunique (map sender_id grp))%nat.
Proof.
  set (g := sort_by_timestamp grp).
  assert (Pg : Permutation g grp) by apply sort_Permutation.
  assert (Ha : ascending (map timestamp g)) by apply sort_by_timestamp_ascending.
  unfold high_velocity. fold g.
  destruct (_ <? _)%nat; [discriminate|].
  rewrite (velocity_scan_windows (map timestamp g) (map sender_id g) Ha
             (List.length g) 0 0)
    by (try rewrite length_map; try lia; intros i Hi; lia).
  intros H. apply existsb_seq in H. destruct H as (r & Hr & Hf).
  apply andb_true_iff in Hf. destruct Hf as [_ Hu]. apply Nat.leb_le in Hu.
  etransitivity; [exact Hu|]. apply nunique_incl.
  intros x Hx. apply in_slice in Hx. destruct Hx as (i & _ & Hl & <-).
  apply (Permutation_in _ (Permutation_map sender_id Pg)). apply nth_In. exact Hl.
Qed.

(** Every key of the smurfing map has [fan_in] or [fan_out]: an account with
    [high_velocity] has [fan_in] as well. *)
Lemma smurf_key_has_fan (G : DiGraph) (df : list Tx) (a : string) :
  In a (Py.keys (snd (detect_smurfing G df))) ->
  Py.mem "fan_in" (Py.get_or (snd (detect_smurfing G df)) a [])
  || Py.mem "fan_out" (Py.get_or (snd (detect_smurfing G df)) a []) = true.
Proof.
  intros Hk.
  assert (Hne : Py.get_or (snd (detect_smurfing G df)) a [] <> []).
  { apply has_key_get_or; [apply detect_smurfing_nonempty|].
    unfold has_key. destruct (get_of_key _ _ Hk) as [v ->]. reflexivity. }
  rewrite detect_smurfing_get in *.
  destruct (Py.mem a (merchant_whitelist df)); [now elim Hne|].
  destruct (MIN_FAN_COUNT <=? Py.nunique (senders_of df a))%nat eqn:Ei; [reflexivity|].
  destruct (FAN_OUT_THRESHOLD <=? Py.nunique (receivers_of df a))%nat eqn:Eo;
    [destruct (high_velocity _); reflexivity|].
  destruct (high_velocity _) eqn:Ev; [|now elim Hne].
  apply high_velocity_senders in Ev. apply Nat.leb_gt in Ei.
  unfold senders_of, MIN_FAN_COUNT in Ei. unfold VELOCITY_TX_THRESHOLD in Ev. lia.
Qed.

Lemma total_at_least (c v f s : Q) :
  0 <= c -> 0 <= v -> 0 <= f -> 0 <= s ->
  30 <= c \/ 15 <= f \/ 15 <= s ->
  15 <= Py.qmin 100 (Py.round (c + v + f + s) 2).
Proof.
  intros Hc Hv Hf Hs H.
  assert (H15 : inject_Z 15 <= c + v + f + s)
    by (change (inject_Z 15) with 15; destruct H as [H|[H|H]]; lra).
  pose proof (round2_ge _ 15%Z H15) as Hr. change (inject_Z 15) with 15 in Hr.
  destruct (qmin_cases 100 (Py.round (c + v + f + s) 2)) as [[-> _]|[-> _]]; lra.
Qed.

Lemma ratio_nonneg (a b c : Q) : 0 <= a -> 0 < b -> 0 <= c -> 0 <= a / b * c.
Proof.
  intros Ha Hb Hc. apply Qmult_le_0_compat; [|exact Hc].
  apply Qle_shift_div_l; [exact Hb|]. lra.
Qed.

Lemma q_of_nat_pos (n : nat) : (1 <= n)%nat -> 0 < q_of_nat n.
Proof. intros H. unfold q_of_nat. rewrite <- (Zlt_Qlt 0). lia. Qed.

Lemma flagged_score (acct : string) (G : DiGraph) (df : list Tx) (cd : CycleData)
      (smurf_map : list (string * list string)) (shell_map : list (string * nat))
      (pre : Pre) (k : nat) :
  Py.get_or (velocity_counts pre) acct 0 = q_of_nat k ->
  Py.get_or (member_cycles cd) acct [] <> []
  \/ Py.mem "fan_in" (Py.get_or smurf_map acct [])
     || Py.mem "fan_out" (Py.get_or smurf_map acct []) = true
  \/ (4 <= Py.get_or shell_map acct 0)%nat ->
  15 <= total (compute_suspicion_score acct G df cd smurf_map shell_map (Some pre)).
Proof.
  intros Hk Hsig. unfold compute_suspicion_score. rewrite Hk. cbv zeta. cbn [total].
  apply total_at_least.
  - repeat match goal with |- context [if ?b then _ else _] => destruct b end; lra.
  - destruct (qmin_cases 25 (q_of_nat k / q_of_nat VELOCITY_TX_THRESHOLD * 25))
      as [[-> _]|[-> _]]; [lra|].
    apply ratio_nonneg; [apply q_of_nat_nonneg|apply q_of_nat_pos; unfold VELOCITY_TX_THRESHOLD; lia|lra].
  - match goal with |- context [Py.qmin 20 ?x] =>
      assert (Hx : 0 <= x)
        by (apply ratio_nonneg; [apply q_of_nat_nonneg|apply q_of_nat_pos; lia|lra]);
      generalize dependent x; intros X HX end.
    assert (H0 : 0 <= Py.qmin 20 X)
      by (destruct (qmin_cases 20 X) as [[-> _]|[-> _]]; lra).
    destruct (Py.mem "fan_in" _ && Py.mem "fan_out" _); [lra|].
    destruct (Py.mem "fan_in" _ || Py.mem "fan_out" _); [|exact H0].
    destruct (qmax_cases (Py.qmin 20 X) 15) as [[-> _]|[-> _]]; lra.
  - repeat match goal with |- context [if ?b then _ else _] => destruct b end; lra.
  - destruct Hsig as [Hc|[Hf|Hs]].
    + left. destruct (Py.get_or (member_cycles cd) acct []) as [|c0 l]; [now elim Hc|].
      cbn [is_empty negb andb].
      repeat match goal with |- context [if ?b then _ else _] => destruct b end; lra.
    + right; left.
      match goal with |- context [Py.qmin 20 ?x] => generalize x; intros X end.
      destruct (Py.mem "fan_in" _ && Py.mem "fan_out" _); [lra|].
      rewrite Hf.
      destruct (qmax_cases (Py.qmin 20 X) 15) as [[-> ?]|[-> _]]; lra.
    + right; right. apply Nat.leb_le in Hs. rewrite Hs. lra.
Qed.

(** Every account of [all_ids] carries a signal of one detector. *)
Lemma pool_signal (rt : Library) (wl : list string) (G : DiGraph) (df : list Tx)
      (cd : CycleData) (acct : string) :
  set_iter_ok rt ->
  detect_cycles rt wl G = Some cd ->
  In acct (suspect_pool cd (snd (detect_smurfing G df))
                        (detect_shell_chains rt wl G df (cycle_members cd))) ->
  Py.get_or (member_cycles cd) acct [] <> []
  \/ Py.mem "fan_in" (Py.get_or (snd (detect_smurfing G df)) acct [])
     || Py.mem "fan_out" (Py.get_or (snd (detect_smurfing G df)) acct []) = true
  \/ (4 <= Py.get_or (detect_shell_chains rt wl G df (cycle_members cd)) acct 0)%nat.
Proof.
  intros Hrt Hcd H. unfold suspect_pool in H.
  apply set_union_In in H. destruct H as [H|H]; [apply set_union_In in H; destruct H as [H|H]|].
  - left. apply set_of_In in H. destruct (get_of_key _ _ H) as [rid Hr].
    destruct (detect_cycles_partition rt wl G cd Hrt Hcd) as (_ & P2 & _).
    apply (member_has_cycle rt wl G cd acct Hcd). apply P2. now exists rid.
  - right; left. apply set_of_In in H. apply smurf_key_has_fan. exact H.
  - right; right. apply set_of_In in H. destruct (get_of_key _ _ H) as [d Hd].
    unfold Py.get_or. rewrite Hd. apply get_In in Hd.
    exact (proj1 (Forall_forall _ _) (detect_shell_chains_depth rt wl G df (cycle_members cd))
                 _ Hd).
Qed.

Lemma make_suspect_flagged (rt : Library) (wl : list string) (G : DiGraph) (df : list Tx)
      (cd : CycleData) (all_ids : list string) (mm : list (string * Mastermind))
      (acct : string) :
  set_iter_ok rt ->
  detect_cycles rt wl G = Some cd ->
  In acct (suspect_pool cd (snd (detect_smurfing G df))
                        (detect_shell_chains rt wl G df (cycle_members cd))) ->
  exists s,
    make_suspect G df cd (snd (detect_smurfing G df))
                 (detect_shell_chains rt wl G df (cycle_members cd))
                 (make_pre G (compute_vel_counts df all_ids)) mm acct = Some s
    /\ 15 <= suspicion_score s.
Proof.
  intros Hrt Hcd Hin.
  destruct (compute_vel_counts_whole df all_ids acct) as [k Hk].
  pose proof (flagged_score acct G df cd (snd (detect_smurfing G df))
                (detect_shell_chains rt wl G df (cycle_members cd))
                (make_pre G (compute_vel_counts df all_ids)) k Hk
                (pool_signal rt wl G df cd acct Hrt Hcd Hin)) as H.
  unfold make_suspect.
  destruct (Py.qleb (total _) 0) eqn:E; [apply qleb_true in E; lra|].
  eexists. split; [reflexivity|]. cbn [suspicion_score]. exact H.
Qed.

Lemma score_suspects_all (rt : Library) (wl : list string) (G : DiGraph) (df : list Tx)
      (cd : CycleData) (mm : list (string * Mastermind)) :
  set_iter_ok rt ->
  detect_cycles rt wl G = Some cd ->
  let pool := suspect_pool cd (snd (detect_smurfing G df))
                           (detect_shell_chains rt wl G df (cycle_members cd)) in
  let sus := score_suspects rt G df cd (snd (detect_smurfing G df))
                            (detect_shell_chains rt wl G df (cycle_members cd)) mm in
  map account_id sus = set_iter rt pool
  /\ Forall (fun s => 15 <= suspicion_score s) sus.
Proof.
  intros Hrt Hcd pool sus. unfold sus, score_suspects. fold pool.
  assert (Hall : forall a, In a (set_iter rt pool) -> In a pool)
    by (intros a; apply (set_iter_In rt pool a Hrt)).
  induction (set_iter rt pool) as [|a l IH]; [split; [reflexivity|constructor]|].
  cbn [flat_map].
  destruct (make_suspect_flagged rt wl G df cd pool mm a Hrt Hcd (Hall a (or_introl eq_refl)))
    as (s & Es & Hs).
  rewrite Es. cbn [app map].
  destruct (IH (fun x Hx => Hall x (or_intror Hx))) as [I1 I2].
  split.
  - rewrite I1. f_equal.
    exact (make_suspect_account _ _ _ _ _ _ _ _ _ Es).
  - constructor; [exact Hs|exact I2].
Qed.

Lemma score_at_least_ring (s : Suspect) (rid : string) :
  15 <= suspicion_score s -> 15 <= suspicion_score (set_ring_id s rid).
Proof. intros H. exact H. Qed.

(** X29: Every account flagged by the cycle, smurfing or shell detector gets
    a total score of at least 15, so the guard that skips totals <= 0 in run
    never fires: false_positives_filtered + suspicious_accounts_flagged
    equals the number of flagged accounts (all_ids), and every reported
    suspect has suspicion_score >= 15 (provided a set is traversed as a
    permutation of its elements). *)
Theorem flagged_accounts_are_scored (rt : Runtime) (df0 : list Row)
        (res : AnalysisResult) :
  let df := clean df0 in
  let G := build_graph df in
  let wl := fst (detect_smurfing G df) in
  let smurf_map := snd (detect_smurfing G df) in
  set_iter_ok rt ->
  run rt df0 = Some res ->
  exists cd,
    detect_cycles rt wl G = Some cd
    /\ (false_positives_filtered (summary res)
        + suspicious_accounts_flagged (summary res))%nat
       = List.length (suspect_pool cd smurf_map
                                   (detect_shell_chains rt wl G df (cycle_members cd)))
    /\ forall s, In s (suspicious_accounts res) -> 15 <= suspicion_score s.
Proof.
  intros df G wl smurf_map Hrt. unfold run. fold df G wl smurf_map.
  destruct (detect_cycles rt wl G) as [cd|] eqn:Hcd; [|discriminate].
  intros Heq. apply some_inj in Heq. rewrite <- Heq. exists cd.
  split; [reflexivity|].
  unfold run_from_cycles.
  cbn [summary false_positives_filtered suspicious_accounts_flagged suspicious_accounts].
  set (shell_map := detect_shell_chains rt wl G df (cycle_members cd)).
  set (mm := detect_mastermind rt G (rings cd)).
  destruct (score_suspects_all rt wl G df cd mm Hrt Hcd) as [S1 S2]. cbv zeta in S1, S2.
  fold shell_map smurf_map in S1, S2.
  set (asm := assembly_of rt df G wl smurf_map cd).
  assert (Hids : map account_id (a_suspects asm)
                 = map account_id (score_suspects rt G df cd smurf_map shell_map mm))
    by apply assemble_rings_accounts.
  assert (Hn : NoDup (map account_id (a_suspects asm)))
    by (rewrite Hids; apply score_suspects_NoDup; exact Hrt).
  destruct (post_filter_conserves wl (a_suspects asm) (a_fraud_rings asm) Hn) as [Hc _].
  split.
  - unfold sort_suspects. rewrite sort_length, Hc.
    rewrite <- (length_map account_id), Hids, S1.
    apply Permutation_length. apply Hrt.
  - apply Forall_forall.
    apply (sort_suspects_Forall (fun s => 15 <= suspicion_score s)).
    apply (post_filter_Forall (fun s => 15 <= suspicion_score s)).
    apply (assemble_rings_Forall (fun s => 15 <= suspicion_score s) score_at_least_ring).
    exact S2.
Qed.

Lemma flagged_accounts_are_scored_witness :
  set_iter_ok Examples.rtA
  /\ run Examples.rtA Scenarios.mixed = Some Scenarios.mixed_result
  /\ In Scenarios.mixed_shell_suspect (suspicious_accounts Scenarios.mixed_result)
  /\ 15 <= suspicion_score Scenarios.mixed_shell_suspect.
Proof.
  assert (Hrt : set_iter_ok Examples.rtA) by (intros s; apply Permutation_refl).
  assert (R : run Examples.rtA Scenarios.mixed = Some Scenarios.mixed_result)
    by (vm_compute; reflexivity).
  assert (I : In Scenarios.mixed_shell_suspect (suspicious_accounts Scenarios.mixed_result))
    by (vm_compute; do 6 right; left; reflexivity).
  split; [exact Hrt|]. split; [exact R|]. split; [exact I|].
  destruct (flagged_accounts_are_scored Examples.rtA Scenarios.mixed Scenarios.mixed_result
              Hrt R) as (cd & _ & _ & H).
  exact (H Scenarios.mixed_shell_suspect I).
Defined.

(** ** The pattern tags of a suspect *)

Lemma append_new_iff (x p : string) (pats : list string) :
  In x (append_new pats p) <-> In x pats \/ x = p.
Proof.
  unfold append_new. destruct (Py.mem p pats) eqn:E.
  - apply mem_In in E. split; [now left|]. intros [H| ->]; assumption.
  - rewrite in_app_iff. cbn [In]. intuition.
Qed.

Lemma fold_append_new_iff (l pats : list string) (x : string) :
  In x (fold_left append_new l pats) <-> In x pats \/ In x l.
Proof.
  revert pats. induction l as [|p l IH]; intros pats; cbn [fold_left In]; [tauto|].
  rewrite IH, append_new_iff. intuition.
Qed.

Lemma fold_cycle_patterns_iff (ccs : list (list string)) (pats : list string) (x : string) :
  In x (fold_left (fun pats cn => append_new pats (cycle_pattern cn)) ccs pats)
  <-> In x pats \/ exists cn, In cn ccs /\ x = cycle_pattern cn.
Proof.
  revert pats. induction ccs as [|c ccs IH]; intros pats; cbn [fold_left In].
  - split; [now left|]. intros [H|(cn & [] & _)]. exact H.
  - rewrite IH, append_new_iff. split.
    + intros [[H|H]|(cn & Hcn & E)].
      * now left.
      * right. exists c. split; [now left|exact H].
      * right. exists cn. split; [now right|exact E].
    + intros [H|(cn & [<-|Hcn] & E)].
      * left. now left.
      * left. now right.
      * right. now exists cn.
Qed.

Lemma patterns_of_iff (acct : string) (cd : CycleData)
      (smurf_map : list (string * list string)) (shell_map : list (string * nat))
      (p : string) :
  In p (patterns_of acct cd smurf_map shell_map)
  <-> (exists cn, In cn (Py.get_or (member_cycles cd) acct []) /\ p = cycle_pattern cn)
      \/ In p (Py.get_or smurf_map acct [])
      \/ (Py.get shell_map acct <> None
          /\ In p ["shell_chain"; "low_transaction_intermediary"]).
Proof.
  unfold patterns_of, Py.dedup. rewrite In_set_of.
  destruct (Py.get shell_map acct) as [d|].
  - rewrite in_app_iff, fold_append_new_iff, fold_cycle_patterns_iff. cbn [In].
    split.
    + intros [[[[]|H]|H]|H]; [now left|right; now left|].
      right; right. split; [discriminate|exact H].
    + intros [H|[H|[_ H]]]; [left; left; now right|left; now right|now right].
  - rewrite fold_append_new_iff, fold_cycle_patterns_iff. cbn [In].
    split.
    + intros [[[]|H]|H]; [now left|right; now left].
    + intros [H|[H|[H _]]]; [left; now right|now right|now elim H].
Qed.

Lemma cycle_pattern_head (cn : list string) :
  exists rest, cycle_pattern cn = String "c" rest.
Proof. unfold cycle_pattern. eexists. reflexivity. Qed.

Lemma smurf_pattern_cases (G : DiGraph) (df : list Tx) (a p : string) :
  In p (Py.get_or (snd (detect_smurfing G df)) a []) ->
  p = "fan_in" \/ p = "fan_out" \/ p = "high_velocity".
Proof.
  rewrite detect_smurfing_get.
  destruct (Py.mem a (merchant_whitelist df)); [intros []|].
  rewrite !in_app_iff.
  intros [H|[H|H]];
    match type of H with In _ (if ?b then _ else _) => destruct b end;
    cbn [In] in H; intuition.
Qed.

Lemma shell_tag_iff (cd : CycleData) (smurf_map : list (string * list string))
      (shell_map : list (string * nat)) (acct p : string) :
  (forall q, In q (Py.get_or smurf_map acct []) ->
             q = "fan_in" \/ q = "fan_out" \/ q = "high_velocity") ->
  In p ["shell_chain"; "low_transaction_intermediary"] ->
  (In p (patterns_of acct cd smurf_map shell_map) <-> Py.get shell_map acct <> None).
Proof.
  intros Hsm Hp. rewrite patterns_of_iff. split.
  - intros [(cn & _ & E)|[H|[H _]]]; [| |exact H].
    + destruct (cycle_pattern_head cn) as [rest Er]. rewrite Er in E.
      destruct Hp as [<-|[<-|[]]]; discriminate E.
    + apply Hsm in H.
      destruct Hp as [<-|[<-|[]]]; destruct H as [H|[H|H]]; discriminate H.
  - intros H. right; right. split; [exact H|exact Hp].
Qed.

Lemma make_suspect_patterns (G : DiGraph) (df : list Tx) (cd : CycleData)
      (smurf_map : list (string * list string)) (shell_map : list (string * nat))
      (pre : Pre) (mm : list (string * Mastermind)) (acct : string) (s : Suspect) :
  make_suspect G df cd smurf_map shell_map pre mm acct = Some s ->
  detected_patterns s = patterns_of acct cd smurf_map shell_map.
Proof.
  unfold make_suspect. destruct (Py.qleb _ 0); [discriminate|].
  intros H. apply some_inj in H. now subst s.
Qed.

(** The tags of a record of the loop, from what the three detectors say
    about the account. *)
Lemma make_suspect_tags_from (G : DiGraph) (df : list Tx) (cd : CycleData)
      (smurf_map : list (string * list string)) (shell_map : list (string * nat))
      (pre : Pre) (mm : list (string * Mastermind)) (acct : string) (s : Suspect) :
  Forall (fun kv : string * nat => (4 <= snd kv)%nat) shell_map ->
  (forall q, In q (Py.get_or smurf_map acct []) ->
             q = "fan_in" \/ q = "fan_out" \/ q = "high_velocity") ->
  Py.get_or (member_cycles cd) acct [] <> []
  \/ Py.mem "fan_in" (Py.get_or smurf_map acct [])
     || Py.mem "fan_out" (Py.get_or smurf_map acct []) = true
  \/ (4 <= Py.get_or shell_map acct 0)%nat ->
  make_suspect G df cd smurf_map shell_map pre mm acct = Some s ->
  tags_ok s.
Proof.
  intros Hdepth Hsm Hsig Hs.
  pose proof (make_suspect_shell_score G df cd smurf_map shell_map pre mm acct s
                Hdepth Hs) as Hsh.
  pose proof (make_suspect_patterns G df cd smurf_map shell_map pre mm acct s Hs) as Hp.
  unfold tags_ok. rewrite Hp.
  assert (T1 : In "shell_chain" (patterns_of acct cd smurf_map shell_map)
               <-> Py.get shell_map acct <> None)
    by (apply shell_tag_iff; [exact Hsm|now left]).
  assert (T2 : In "low_transaction_intermediary" (patterns_of acct cd smurf_map shell_map)
               <-> Py.get shell_map acct <> None)
    by (apply shell_tag_iff; [exact Hsm|right; now left]).
  split; [|split; [|split]].
  - destruct Hsig as [Hc|[Hf|Hd]].
    + destruct (Py.get_or (member_cycles cd) acct []) as [|cn l] eqn:E; [now elim Hc|].
      intros Hnil.
      assert (H : In (cycle_pattern cn) (patterns_of acct cd smurf_map shell_map)).
      { apply patterns_of_iff. left. exists cn. rewrite E. split; [now left|reflexivity]. }
      rewrite Hnil in H. exact H.
    + intros Hnil. apply orb_true_iff in Hf.
      assert (H : exists p, In p (patterns_of acct cd smurf_map shell_map)).
      { destruct Hf as [Hf|Hf]; apply mem_In in Hf; eexists; apply patterns_of_iff;
          right; left; exact Hf. }
      destruct H as [p H]. rewrite Hnil in H. exact H.
    + intros Hnil.
      assert (H : In "shell_chain" (patterns_of acct cd smurf_map shell_map)).
      { apply T1. unfold Py.get_or in Hd.
        destruct (Py.get shell_map acct); [discriminate|lia]. }
      rewrite Hnil in H. exact H.
  - unfold patterns_of, Py.dedup. apply set_of_NoDup.
  - rewrite T1, T2. tauto.
  - rewrite T1. destruct Hsh as [[Hn H0]|[Hn H15]].
    + right. split; [|exact H0]. intros H. now elim H.
    + left. split; [exact Hn|exact H15].
Qed.

Lemma make_suspect_tags (rt : Library) (wl : list string) (G : DiGraph) (df : list Tx)
      (cd : CycleData) (pre : Pre) (mm : list (string * Mastermind))
      (acct : string) (s : Suspect) :
  set_iter_ok rt ->
  detect_cycles rt wl G = Some cd ->
  In acct (suspect_pool cd (snd (detect_smurfing G df))
                        (detect_shell_chains rt wl G df (cycle_members cd))) ->
  make_suspect G df cd (snd (detect_smurfing G df))
               (detect_shell_chains rt wl G df (cycle_members cd)) pre mm acct = Some s ->
  tags_ok s.
Proof.
  intros Hrt Hcd Hin Hs.
  exact (make_suspect_tags_from G df cd (snd (detect_smurfing G df))
           (detect_shell_chains rt wl G df (cycle_members cd)) pre mm acct s
           (detect_shell_chains_depth rt wl G df (cycle_members cd))
           (smurf_pattern_cases G df acct)
           (pool_signal rt wl G df cd acct Hrt Hcd Hin)
           Hs).
Qed.

Lemma tags_ok_ring (s : Suspect) (rid : string) : tags_ok s -> tags_ok (set_ring_id s rid).
Proof. intros H. exact H. Qed.

Lemma run_tags_ok (rt : Runtime) (df0 : list Row) (res : AnalysisResult) :
  set_iter_ok rt ->
  run rt df0 = Some res ->
  Forall tags_ok (suspicious_accounts res).
Proof.
  intros Hrt. unfold run. destruct (detect_cycles _ _ _) as [cd|] eqn:Hcd; [|discriminate].
  intros Heq. apply some_inj in Heq. rewrite <- Heq.
  unfold run_from_cycles, assembly_of. cbn [suspicious_accounts].
  apply sort_suspects_Forall, post_filter_Forall.
  apply (assemble_rings_Forall tags_ok tags_ok_ring).
  unfold score_suspects. apply Forall_forall. intros s Hs.
  apply in_flat_map in Hs. destruct Hs as (acct & Ha & Hs).
  destruct (make_suspect _ _ _ _ _ _ _ _) as [s0|] eqn:E; [|destruct Hs].
  destruct Hs as [<-|[]].
  apply (proj1 (set_iter_In rt _ _ Hrt)) in Ha.
  exact (make_suspect_tags rt _ _ _ cd _ _ acct s0 Hrt Hcd Ha E).
Qed.

(** X30: For every suspect that run reports, detected_patterns is non-empty
    and has no duplicate, and shell_chain appears in it exactly when
    low_transaction_intermediary does (provided a set is traversed as a
    permutation of its elements). *)
Theorem suspect_patterns_well_formed (rt : Runtime) (df0 : list Row)
        (res : AnalysisResult) (s : Suspect) :
  set_iter_ok rt ->
  run rt df0 = Some res ->
  In s (suspicious_accounts res) ->
  detected_patterns s <> []
  /\ NoDup (detected_patterns s)
  /\ (In "shell_chain" (detected_patterns s)
      <-> In "low_transaction_intermediary" (detected_patterns s)).
Proof.
  intros Hrt R Hs.
  destruct (proj1 (Forall_forall _ _) (run_tags_ok rt df0 res Hrt R) s Hs)
    as (A & B & D & _).
  split; [exact A|]. split; [exact B|exact D].
Qed.

Lemma suspect_patterns_well_formed_witness :
  set_iter_ok Examples.rtA
  /\ run Examples.rtA Scenarios.mixed = Some Scenarios.mixed_result
  /\ In Scenarios.mixed_shell_suspect (suspicious_accounts Scenarios.mixed_result)
  /\ detected_patterns Scenarios.mixed_shell_suspect <> []
  /\ NoDup (detected_patterns Scenarios.mixed_shell_suspect)
  /\ (In "shell_chain" (detected_patterns Scenarios.mixed_shell_suspect)
      <-> In "low_transaction_intermediary"
             (detected_patterns Scenarios.mixed_shell_suspect)).
Proof.
  assert (Hrt : set_iter_ok Examples.rtA) by (intros s; apply Permutation_refl).
  assert (R : run Examples.rtA Scenarios.mixed = Some Scenarios.mixed_result)
    by (vm_compute; reflexivity).
  assert (I : In Scenarios.mixed_shell_suspect (suspicious_accounts Scenarios.mixed_result))
    by (vm_compute; do 6 right; left; reflexivity).
  split; [exact Hrt|]. split; [exact R|]. split; [exact I|].
  exact (suspect_patterns_well_formed Examples.rtA Scenarios.mixed
           Scenarios.mixed_result Scenarios.mixed_shell_suspect Hrt R I).
Defined.

(** X28: For every suspect that run reports, shell_score is 15 if
    shell_chain is among its detected_patterns and 0 otherwise: the 10-point
    and 5-point tiers of compute_suspicion_score are never reached from run,
    because detect_shell_chains records only depths of at least 4 (provided
    a set is traversed as a permutation of its elements). *)
Theorem shell_score_follows_shell_tag (rt : Runtime) (df0 : list Row)
        (res : AnalysisResult) (s : Suspect) :
  set_iter_ok rt ->
  run rt df0 = Some res ->
  In s (suspicious_accounts res) ->
  (In "shell_chain" (detected_patterns s) /\ sb_shell_score (score_breakdown s) == 15)
  \/ (~ In "shell_chain" (detected_patterns s) /\ sb_shell_score (score_breakdown s) == 0).
Proof.
  intros Hrt R Hs.
  destruct (proj1 (Forall_forall _ _) (run_tags_ok rt df0 res Hrt R) s Hs)
    as (_ & _ & _ & E).
  exact E.
Qed.

Lemma shell_score_follows_shell_tag_witness :
  set_iter_ok Examples.rtA
  /\ run Examples.rtA Scenarios.mixed = Some Scenarios.mixed_result
  /\ In Scenarios.mixed_shell_suspect (suspicious_accounts Scenarios.mixed_result)
  /\ ((In "shell_chain" (detected_patterns Scenarios.mixed_shell_suspect)
       /\ sb_shell_score (score_breakdown Scenarios.mixed_shell_suspect) == 15)
      \/ (~ In "shell_chain" (detected_patterns Scenarios.mixed_shell_suspect)
          /\ sb_shell_score (score_breakdown Scenarios.mixed_shell_suspect) == 0)).
Proof.
  assert (Hrt : set_iter_ok Examples.rtA) by (intros s; apply Permutation_refl).
  assert (R : run Examples.rtA Scenarios.mixed = Some Scenarios.mixed_result)
    by (vm_compute; reflexivity).
  assert (I : In Scenarios.mixed_shell_suspect (suspicious_accounts Scenarios.mixed_result))
    by (vm_compute; do 6 right; left; reflexivity).
  split; [exact Hrt|]. split; [exact R|]. split; [exact I|].
  exact (shell_score_follows_shell_tag Examples.rtA Scenarios.mixed Scenarios.mixed_result
           Scenarios.mixed_shell_suspect Hrt R I).
Defined.

(** ** The ring counts of [detect_mastermind] *)








(** ** The entry of a ring in the result of [detect_mastermind] *)






(** ** The whitelist sweep inside [run] *)


